(* ===== verification/_CoqProject ===== *)
-Q . S2P
Prelude.v
Layout.v
Text.v
IpAddr.v
Event.v
BpfMap.v
Bitfield.v
Vmlinux.v
VmlinuxBits.v
Kernel.v
Fexit.v
Xdp.v
Json.v
Protocol.v
Serde.v
Daemon.v
Monitor.v
Client.v
Cli.v
CommandLine.v
System.v
Concrete.v
Concurrent.v
Interleaving.v
Parallel.v
Filter.v
Bindings.v
Display.v
Tracing.v
Pipeline.v
Service.v
Logging.v
Firewall.v
Network.v
Sessions.v
Progress.v
EndToEnd.v
UnitTests.v
Build.v
