(* ===== verification/Prelude.v ===== *)
(** * RustGuard: a verification library

    RustGuard is a host firewall and connection monitor.  An XDP program in the kernel
    drops the segments of banned IPv4 addresses; a daemon keeps the bans in a map it
    shares with that program and serves a command-line client over a Unix socket; two
    tracers in the kernel report TCP connections through a ring buffer to a monitor
    that prints them.  This development models these programs and proves what each
    does and what they do together.

    ** The parts

    The files, in dependency order, and the code they model:
    - [Prelude]: Rust's [Result], machine integers ([in_u], [wrap], [as_u64], ..),
      byte strings and byte orders, slices; the tactics and hint databases.
    - [Layout]: the sizes, offsets and bytes of [repr(C)] structs and unions.
    - [Text]: the formatting of [core::fmt], the records of the log macros and
      [String::from_utf8_lossy].
    - [IpAddr]: [std::net::Ipv4Addr] and [Ipv6Addr]: [from_str] (with
      [ipv4_from_str_spec]: it accepts exactly what [Display] prints), [Display], the
      conversions with [u32].
    - [Event]: rustguard-common ([lib.rs], [event.rs]): [BanValue], [StatsValue], the
      enums, [NetEvent] and its bytes.
    - [BpfMap]: the maps and the ring buffer of aya as the interfaces
      [BpfHashMap]/[BpfHashMapSpec] and [BpfRingBuf]/[BpfRingBufSpec], with the
      implementations [khash] and [kring].
    - [Bitfield], [Vmlinux], [VmlinuxBits]: rustguard-ebpf's [vmlinux.rs]: the runtime
      of bindgen's bit fields; the types a [tcp_sock] holds by value, down to [sock]
      and [sock_common]; the accessors of their bit fields.
    - [Kernel]: [kernel.rs] and [socket.rs]; the BPF helpers are the record
      [Kernel.Kernel].
    - [Fexit]: [fexit_tcp4_egress.rs] and [fexit_tcp4_accept.rs].
    - [Xdp]: rustguard-ebpf's [main.rs]; the crate network-types is the interface
      [NetworkTypes]/[NetworkTypesSpec], implemented by [rfc_headers].
    - [Protocol], [Daemon], [Client]: rustguard's [main.rs]: the messages with the
      interfaces [SerdeJson] of serde's derived code and serde_json, and [TokioStream]
      (implemented by [pipe]); the handler, a connection's turn and the accept loop;
      the client, [main] and the start of the daemon and of the monitor, as
      computations that record their effects.
    - [Json], [Serde]: no code of the program, but a reference implementation
      [json_serde] of [SerdeJson], by a compact JSON text and its reader.
    - [Cli]: the command that the attributes of [Cli] and [Commands] describe to clap
      and the conversion of its matches; clap's parser is the interface
      [Clap]/[ClapSpec], implemented by [plain_clap].
    - [Monitor]: [monitor.rs]: the text of an event, the cache of executables, the
      loop over the ring buffer.
    - [System]: the filter and the daemon as one transition system over the shared
      maps and the two clocks ([sys_step], [sys_run], [reachable]), and the abstract
      firewall ([fw_step]): a finite map of at most 1024 addresses to expiries, with
      the labels frame, ban, unban and nothing.
    - [Concrete]: the inputs on which the theorems are applied.
    - [Concurrent]: the same programs cut at their accesses to shared state: the
      program counter of a filter ([filter_step]) and of a turn ([daemon_step]),
      interleaved on any number of CPUs ([c_step], and [c_trans] as a relation), with
      the invariant [c_ok] and the firewall's label of each step.
    - [Pipeline]: tracers on any number of CPUs and the monitor's loop around the ring
      buffer ([p_step]).
    - [Network]: any number of clients ([client_step], [send_command] statement by
      statement) and the daemon ([server_io], [server_handle]) over live connections
      of two bounded byte channels (the interface [ByteChannel]/[ByteChannelSpec],
      implemented by [bounded]): [n_step] interleaves connects, the steps of clients
      and daemon, kills of clients and the clock.
    - [Logging]: the accept loop with the records it logs, and the task that flushes
      the records of the kernel side.
    - [UnitTests]: the tests of rustguard's [main.rs] and their fake daemon.
    - [Build]: the two build scripts ([build.rs]).

    ** The theorems

    - [Filter]: the verdict of the filter on every frame, without a faulting read
      (C5), what a run changes (C12), the key it looks a segment up under (C27) and
      the protocols it aborts.
    - [Firewall]: executions of the system: the refinement of the abstract firewall
      (C1), the enforcement of bans and unbans (C6, C11), how long a temporary ban
      lasts given the two clocks (C15), the invariant, a peer that stalls the daemon
      (C25), statistics that never count (C34), expired bans.
    - [Interleaving]: every interleaving of filters, daemon and clocks is an execution
      of the firewall (C2), stays well typed without a fault (C8) and lets filters and
      turns end (C9); steps without interference compose to [rustguard] and [serve]
      ([steps_compose]).
    - [Parallel]: a ban holds for the frames on every CPU (C7), and the counter,
      incremented without a lock, stays within bounds ([counter_bounds],
      [increment_lost]).
    - [Service]: the handler (C23, C24, C30), the framing and the progress of the
      service (C18, C33, [bad_message_harmless], C32), [main] and the start of the
      programs (C19, C35, [daemon_command_panics]).
    - [Logging]: the warnings explain what became of each connection (C31).
    - [CommandLine]: the command lines that are understood (C20) and refused (C22),
      and that what is parsed is a well-formed request (C21).
    - [Sessions], [Progress]: the invariant of a live connection (what is read, in
      flight and unsent is one framed request, then one framed response); the service
      is linearizable in the order of the connections (C4), its log is an execution of
      the firewall (C13), client and daemon never wait for each other, and every
      schedule ends with every client answered (C10).
    - [EndToEnd]: from the words of a command line through a session with the daemon
      to the segments the filter drops (C3).
    - [Tracing]: from a socket to a printed line: C16, C17, C28, C29,
      [socket_end_points].
    - [Display]: the text of an event (C38, [address_shown]), the cache of executables
      and the agreement of kernel and user side on an event's bytes (C26).
    - [Bindings]: places in a [tcp_sock] and bit fields ([tcp_socket_prefix], C39,
      [bitfield_write_read], C40).
    - [Pipeline]: the tracers, the ring buffer and the monitor interleaved: every
      event the ring buffer accepted is printed once and in order (C14).
    - [UnitTests] (C36) and [Build] (C37).

    Each theorem is proved against the interfaces, for every implementation that
    satisfies their laws, and applied to the reference implementations in the lemma
    [.._witness].

    ** Conventions and bounds

    A [w]-bit integer is a [Z]; wrap-around is written [wrap w].  [None] stands for
    what the code cannot survive or wait for, as each definition says: a read outside
    the packet, a panic, an [.await] that never completes.  Fuel occurs in
    [comm_to_str_loop] (17 turns for 16 bytes), [hex_digits] (4 for a [u16]), [lossy]
    (the length of the input), the reader of [Json] (two levels, for the messages) and
    [drain], which reports whether it found the ring buffer empty; C17 shows that one
    turn more than the items is enough. The byte order of the machine, debug
    assertions and overflow checks are parameters.

    ** What is not modelled

    In [Concurrent] an entry of the map of bans is read as it was at the lookup (the
    kernel may reuse the element of a ban that is replaced or removed meanwhile), the
    memory is sequentially consistent, and the handler of a request, which accesses
    the map of bans once and is its only writer, is one step.  Not modelled are: the
    code serde derives and the text of serde_json (an interface), which records
    env_logger prints and aya-log loses, and clap's messages; the limit on the
    listener's queue; the allocation of the message buffer, which can fail for a
    length near 2^32; the 10 ms sleep of the monitor between two passes; the types of
    [vmlinux.rs] the program does not reach, which are generated and unused; cargo,
    aya-build and the search of the linker behind the build scripts. *)

From stdpp Require Export base numbers list list_numbers option strings pretty gmap.
From Stdlib Require Export ZArith Lia Ascii.

#[global] Open Scope Z_scope.
#[global] Set Warnings "-register-all,-clear-no-such-hyp".

(** ** Rust's [Result] *)

Inductive result (A E : Type) : Type :=
| Ok (a : A)
| Err (e : E).
Arguments Ok {A E} _.
Arguments Err {A E} _.

Definition map_err {A E F} (f : E → F) (r : result A E) : result A F :=
  match r with Ok a => Ok a | Err e => Err (f e) end.

Definition is_ok {A E} (r : result A E) : bool :=
  match r with Ok _ => true | Err _ => false end.

Definition ok {A E} (r : result A E) : option A :=
  match r with Ok a => Some a | Err _ => None end.

Definition of_option {A} (o : option A) : result A () :=
  match o with Some a => Ok a | None => Err () end.

Declare Scope rust_scope.
Delimit Scope rust_scope with rust.
(** [let? x := r in k] is Rust's [let x = r?; k] for a [Result]. *)
Notation "'let?' x ':=' r 'in' k" :=
  (match r with Ok x => k | Err e => Err e end)
  (at level 10, x pattern, r at level 100, k at level 200) : rust_scope.

#[export] Instance result_eq_dec {A E} `{EqDecision A, EqDecision E} :
  EqDecision (result A E).
Proof. solve_decision. Defined.

(** ** Machine integers

    A [w]-bit unsigned integer is a [Z] in [0, 2^w); arithmetic is written on
    [Z] and wrapped where the code's type wraps it. *)

Definition in_u (w z : Z) : Prop := 0 ≤ z < 2 ^ w.
#[export] Instance in_u_dec w z : Decision (in_u w z).
Proof. unfold in_u. apply _. Defined.

Definition wrap (w z : Z) : Z := z `mod` 2 ^ w.
(** [x as i32] of an integer of any type. *)
Definition as_i32 (z : Z) : Z :=
  let r := wrap 32 z in if bool_decide (r < 2 ^ 31) then r else r - 2 ^ 32.
Definition as_u8 : Z → Z := wrap 8.
Definition as_u16 : Z → Z := wrap 16.
Definition as_u32 : Z → Z := wrap 32.
Definition as_u64 : Z → Z := wrap 64.

(** ** Byte strings and byte orders *)

Definition is_byte (b : Z) : Prop := in_u 8 b.
Abbreviation bytes := (list Z).
Definition wf_bytes (l : bytes) : Prop := Forall is_byte l.
#[export] Instance wf_bytes_dec l : Decision (wf_bytes l).
Proof. unfold wf_bytes, is_byte. apply _. Defined.

(** The byte order of the machine the program is compiled for. *)
Inductive endian := LittleEndian | BigEndian.
#[export] Instance endian_eq_dec : EqDecision endian.
Proof. solve_decision. Defined.

Definition to_le_bytes (n z : Z) : bytes := Z_to_little_endian n 8 z.
Definition to_be_bytes (n z : Z) : bytes := reverse (to_le_bytes n z).
Definition from_le_bytes (l : bytes) : Z := little_endian_to_Z 8 l.
Definition from_be_bytes (l : bytes) : Z := from_le_bytes (reverse l).

Definition to_ne_bytes (e : endian) (n z : Z) : bytes :=
  match e with LittleEndian => to_le_bytes n z | BigEndian => to_be_bytes n z end.
Definition from_ne_bytes (e : endian) (l : bytes) : Z :=
  match e with LittleEndian => from_le_bytes l | BigEndian => from_be_bytes l end.
(** [uN::from_be(x)]: the identity on a big-endian target, a byte swap on a
    little-endian one. *)
Definition from_be (e : endian) (n x : Z) : Z :=
  match e with LittleEndian => from_be_bytes (to_le_bytes n x) | BigEndian => x end.

#[global] Arguments to_le_bytes : simpl never.
#[global] Arguments to_be_bytes : simpl never.
#[global] Arguments from_le_bytes : simpl never.
#[global] Arguments from_be_bytes : simpl never.

(** [&l[off..off + n]]: [None] is the out-of-range panic. *)
Definition slice {A} (l : list A) (off n : Z) : option (list A) :=
  if bool_decide (0 ≤ off ∧ 0 ≤ n ∧ off + n ≤ Z.of_nat (length l))
  then Some (take (Z.to_nat n) (drop (Z.to_nat off) l)) else None.

#[global] Arguments String.append !_ _ / : simpl nomatch.

(** ** Strings: a Rust [String] is its UTF-8 bytes *)

Definition byte_of_ascii (a : ascii) : Z := Z.of_N (N_of_ascii a).
Definition ascii_of_byte (b : Z) : ascii := ascii_of_N (Z.to_N b).
Fixpoint bytes_of_string (s : string) : bytes :=
  match s with
  | EmptyString => []
  | String a s => byte_of_ascii a :: bytes_of_string s
  end.
Fixpoint string_of_bytes (l : bytes) : string :=
  match l with
  | [] => EmptyString
  | b :: l => String (ascii_of_byte b) (string_of_bytes l)
  end.

(** ** Tactics *)

(** Split every conjunction and existential of the context. *)
Ltac split_hyps :=
  repeat match goal with
    | H : _ ∧ _ |- _ => destruct H
    | H : ∃ _, _ |- _ => destruct H
    end.

(** Case on the scrutinees of the goal and of the hypotheses, clearing the
    impossible branches. *)
Ltac cases :=
  repeat (case_match; simplify_eq/=; try done).

(** A closed computation. *)
Ltac vm_done := vm_compute; (reflexivity || done || (split; done)).

(** [Forall P [x1; ..; xn]] from the [P xi] of the context. *)
Ltac list_forall := repeat first [apply List.Forall_nil | apply List.Forall_cons; [assumption || done|]].

(** Arithmetic on machine integers. *)
Ltac uint :=
  unfold as_u8, as_u16, as_u32, as_u64, is_byte, in_u, wrap in *;
  try lia.

(** ** Lemmas on integers *)

Create HintDb rust.
Create Rewrite HintDb rust_len.

Lemma wrap_range w z : 0 ≤ w → in_u w (wrap w z).
Proof. intros. apply Z.mod_pos_bound. lia. Qed.

Lemma wrap_small w z : in_u w z → wrap w z = z.
Proof. intros. by apply Z.mod_small. Qed.

Lemma as_i32_range z : - 2 ^ 31 ≤ as_i32 z < 2 ^ 31.
Proof.
  unfold as_i32. pose proof (wrap_range 32 z ltac:(lia)) as H.
  unfold in_u in H. case_bool_decide; lia.
Qed.

Lemma as_i32_small z : - 2 ^ 31 ≤ z < 2 ^ 31 → as_i32 z = z.
Proof.
  intros H. unfold as_i32, wrap.
  destruct (decide (0 ≤ z)).
  - rewrite Z.mod_small by lia. case_bool_decide; lia.
  - assert (z `mod` 2 ^ 32 = z + 2 ^ 32) as ->.
    { rewrite <- (Z.mod_add z 1) by lia. apply Z.mod_small. lia. }
    case_bool_decide; lia.
Qed.

(** ** Lemmas on byte strings *)

Lemma length_to_le_bytes n z : 0 ≤ n → length (to_le_bytes n z) = Z.to_nat n.
Proof. intros. pose proof (length_Z_to_little_endian n 8 z). unfold to_le_bytes. lia. Qed.

Lemma length_to_be_bytes n z : 0 ≤ n → length (to_be_bytes n z) = Z.to_nat n.
Proof. intros. unfold to_be_bytes. rewrite length_reverse. by apply length_to_le_bytes. Qed.

Lemma length_to_ne_bytes e n z : 0 ≤ n → length (to_ne_bytes e n z) = Z.to_nat n.
Proof. destruct e; [apply length_to_le_bytes | apply length_to_be_bytes]. Qed.

Lemma wf_to_le_bytes n z : 0 ≤ n → wf_bytes (to_le_bytes n z).
Proof. intros. by apply Z_to_little_endian_bound. Qed.

Lemma wf_to_be_bytes n z : 0 ≤ n → wf_bytes (to_be_bytes n z).
Proof. intros. unfold to_be_bytes, wf_bytes. rewrite Forall_reverse. by apply wf_to_le_bytes. Qed.

Lemma wf_to_ne_bytes e n z : 0 ≤ n → wf_bytes (to_ne_bytes e n z).
Proof. destruct e; [apply wf_to_le_bytes | apply wf_to_be_bytes]. Qed.

Lemma from_to_le_bytes n z : 0 ≤ n → in_u (8 * n) z → from_le_bytes (to_le_bytes n z) = z.
Proof.
  intros Hn Hz. unfold from_le_bytes, to_le_bytes, in_u in *.
  rewrite little_endian_to_Z_to_little_endian by lia.
  apply Z.mod_small. by rewrite (Z.mul_comm n).
Qed.

Lemma from_to_be_bytes n z : 0 ≤ n → in_u (8 * n) z → from_be_bytes (to_be_bytes n z) = z.
Proof.
  intros. unfold from_be_bytes, to_be_bytes. rewrite reverse_involutive.
  by apply from_to_le_bytes.
Qed.

Lemma from_to_ne_bytes e n z : 0 ≤ n → in_u (8 * n) z → from_ne_bytes e (to_ne_bytes e n z) = z.
Proof. destruct e; [apply from_to_le_bytes | apply from_to_be_bytes]. Qed.

Lemma to_from_le_bytes n l :
  n = Z.of_nat (length l) → wf_bytes l → to_le_bytes n (from_le_bytes l) = l.
Proof. intros. by apply Z_to_little_endian_to_Z. Qed.

Lemma to_from_be_bytes n l :
  n = Z.of_nat (length l) → wf_bytes l → to_be_bytes n (from_be_bytes l) = l.
Proof.
  intros -> Hl. unfold to_be_bytes, from_be_bytes.
  rewrite to_from_le_bytes.
  - apply reverse_involutive.
  - by rewrite length_reverse.
  - by apply Forall_reverse.
Qed.

Lemma to_from_ne_bytes e n l :
  n = Z.of_nat (length l) → wf_bytes l → to_ne_bytes e n (from_ne_bytes e l) = l.
Proof. destruct e; [apply to_from_le_bytes | apply to_from_be_bytes]. Qed.

(** Reading a big-endian field natively and then calling [from_be] reads its
    bytes in network order, on either target. *)
Lemma from_be_from_ne_bytes e n l :
  n = Z.of_nat (length l) → wf_bytes l →
  from_be e n (from_ne_bytes e l) = from_be_bytes l.
Proof. intros. destruct e; simpl; [|done]. by rewrite to_from_le_bytes. Qed.

Lemma from_le_bytes_range l : wf_bytes l → in_u (8 * Z.of_nat (length l)) (from_le_bytes l).
Proof.
  intros Hl. unfold in_u, from_le_bytes.
  rewrite (Z.mul_comm 8). by apply little_endian_to_Z_bound.
Qed.

Lemma from_be_bytes_range l : wf_bytes l → in_u (8 * Z.of_nat (length l)) (from_be_bytes l).
Proof.
  intros Hl. unfold from_be_bytes. rewrite <- (length_reverse l).
  by apply from_le_bytes_range, Forall_reverse.
Qed.

Lemma from_ne_bytes_range e l : wf_bytes l → in_u (8 * Z.of_nat (length l)) (from_ne_bytes e l).
Proof. destruct e; [apply from_le_bytes_range | apply from_be_bytes_range]. Qed.

Lemma slice_Some {A} (l : list A) off n r :
  slice l off n = Some r →
  0 ≤ off ∧ 0 ≤ n ∧ off + n ≤ Z.of_nat (length l) ∧ length r = Z.to_nat n ∧
  r = take (Z.to_nat n) (drop (Z.to_nat off) l).
Proof.
  unfold slice. case_bool_decide; [|done]. intros [= <-].
  split_and!; [lia.. | | done]. rewrite length_take, length_drop. lia.
Qed.

Lemma slice_is_Some {A} (l : list A) off n :
  0 ≤ off → 0 ≤ n → off + n ≤ Z.of_nat (length l) → is_Some (slice l off n).
Proof. intros. unfold slice. rewrite bool_decide_true by lia. eauto. Qed.

Lemma slice_wf l off n r : wf_bytes l → slice l off n = Some r → wf_bytes r.
Proof.
  intros Hl (_ & _ & _ & _ & ->)%slice_Some.
  by apply Forall_take, Forall_drop.
Qed.

Lemma slice_slice {A} (l h : list A) off n o m :
  slice l off n = Some h → 0 ≤ o → 0 ≤ m → o + m ≤ n → slice h o m = slice l (off + o) m.
Proof.
  intros (? & ? & ? & Hlen & ->)%slice_Some ? ? ?. unfold slice.
  rewrite !bool_decide_true by lia. f_equal.
  rewrite skipn_firstn_comm, drop_drop, take_take. f_equal; [lia|]. f_equal. lia.
Qed.

Lemma slice_lookup {A} (l h : list A) off n (i : nat) :
  slice l off n = Some h → Z.of_nat i < n → h !! i = l !! (Z.to_nat off + i)%nat.
Proof.
  intros (? & ? & ? & Hlen & ->)%slice_Some ?.
  rewrite lookup_take_lt by lia. by rewrite lookup_drop.
Qed.

Lemma slice_app_mid {A} (a b c : list A) off n :
  Z.of_nat (length a) = off → Z.of_nat (length b) = n → slice (a ++ b ++ c) off n = Some b.
Proof.
  intros <- <-. unfold slice. rewrite bool_decide_true by (rewrite !length_app; lia).
  by rewrite !Nat2Z.id, drop_app_length, take_app_length.
Qed.

Lemma slice_eq {A} (l : list A) off n :
  0 ≤ off → 0 ≤ n → off + n ≤ Z.of_nat (length l) →
  slice l off n = Some (take (Z.to_nat n) (drop (Z.to_nat off) l)).
Proof. intros. unfold slice. by rewrite bool_decide_true. Qed.

(** ** Lemmas on strings *)

Lemma ascii_of_byte_of_ascii a : ascii_of_byte (byte_of_ascii a) = a.
Proof. unfold ascii_of_byte, byte_of_ascii. by rewrite N2Z.id, ascii_N_embedding. Qed.

Lemma byte_of_ascii_of_byte b : is_byte b → byte_of_ascii (ascii_of_byte b) = b.
Proof.
  intros Hb. unfold ascii_of_byte, byte_of_ascii.
  unfold is_byte, in_u in Hb. rewrite N_ascii_embedding; lia.
Qed.

Lemma byte_of_ascii_range a : is_byte (byte_of_ascii a).
Proof. destruct a as [[] [] [] [] [] [] [] []]; vm_compute; split; done. Qed.

Lemma string_of_bytes_of_string s : string_of_bytes (bytes_of_string s) = s.
Proof. induction s; simpl; [done|]. by rewrite ascii_of_byte_of_ascii, IHs. Qed.

Lemma bytes_of_string_of_bytes l : wf_bytes l → bytes_of_string (string_of_bytes l) = l.
Proof.
  induction 1; simpl; [done|]. rewrite byte_of_ascii_of_byte by done. by f_equal.
Qed.

Lemma wf_bytes_of_string s : wf_bytes (bytes_of_string s).
Proof. induction s; simpl; constructor; auto using byte_of_ascii_range. Qed.

Lemma bytes_of_string_app s1 s2 :
  bytes_of_string (s1 +:+ s2) = bytes_of_string s1 ++ bytes_of_string s2.
Proof. induction s1; simpl; [done|]. by f_equal. Qed.

#[export] Instance bytes_of_string_inj : Inj (=) (=) bytes_of_string.
Proof.
  intros s1 s2 H. by rewrite <- (string_of_bytes_of_string s1), H, string_of_bytes_of_string.
Qed.

(** ** What the values of a finite map have to say *)

Definition collect `{Countable K} {A B} (f : A → option B) (m : gmap K A) : list B :=
  omap (λ x, f x.2) (map_to_list m).

Section collect.
Context `{Countable K} {A B : Type} (f : A → option B).
Implicit Types m : gmap K A.

Lemma collect_empty : collect f (∅ : gmap K A) = [].
Proof. by unfold collect; rewrite map_to_list_empty. Qed.

Lemma collect_insert m i x :
  m !! i = None → collect f (<[i:=x]> m) ≡ₚ option_list (f x) ++ collect f m.
Proof.
  intros Hi. unfold collect. rewrite map_to_list_insert by done. simpl.
  by destruct (f x).
Qed.

Lemma collect_delete m i x :
  m !! i = Some x → collect f m ≡ₚ option_list (f x) ++ collect f (delete i m).
Proof.
  intros Hi. rewrite <- (insert_delete_id m i x Hi) at 1. apply collect_insert, lookup_delete_eq.
Qed.

(** A value replaced by another. *)
Lemma collect_update m i x y :
  m !! i = Some x →
  option_list (f x) ++ collect f (<[i:=y]> m) ≡ₚ option_list (f y) ++ collect f m.
Proof.
  intros Hi. rewrite <- insert_delete_eq, collect_insert by apply lookup_delete_eq.
  rewrite (collect_delete m i x Hi), !app_assoc. by rewrite (Permutation_app_comm (option_list (f x))).
Qed.
End collect.

#[export] Hint Resolve wrap_range wf_to_le_bytes wf_to_be_bytes wf_to_ne_bytes
  wf_bytes_of_string byte_of_ascii_range : rust.
#[export] Hint Rewrite length_to_le_bytes length_to_be_bytes length_to_ne_bytes
  using lia : rust_len.
#[export] Hint Rewrite string_of_bytes_of_string bytes_of_string_app
  ascii_of_byte_of_ascii : rust_len.
