(* ===== verification/Layout.v ===== *)
(** * Memory layout of [repr(C)] types

    The sizes, alignments and field offsets Rust gives to [#[repr(C)]] structs
    and unions, and the bytes of a struct value.  [Event.v] instantiates it with
    [NetEvent], [Vmlinux.v] with the kernel's [sock]. *)

From S2P Require Export Prelude.

(** A scalar ([TInt n]: an integer, enum or pointer of [n] bytes, aligned on its
    size), an array, a struct and a union with their named fields. *)
Inductive cty : Type :=
| TInt (n : Z)
| TArr (t : cty) (n : Z)
| TStruct (fs : list (string * cty))
| TUnion (fs : list (string * cty)).
Abbreviation fields := (list (string * cty)).

(** [off] rounded up to a multiple of [a]. *)
Definition round_up (off a : Z) : Z := (off + a - 1) `div` a * a.

Fixpoint alignof (t : cty) : Z :=
  match t with
  | TInt n => n
  | TArr t _ => alignof t
  | TStruct fs | TUnion fs => fold_right Z.max 1 (map (λ f, alignof f.2) fs)
  end.

Fixpoint sizeof (t : cty) : Z :=
  match t with
  | TInt n => n
  | TArr t n => n * sizeof t
  | TStruct fs =>
      round_up (fold_left (λ off f, round_up off (alignof f.2) + sizeof f.2) fs 0)
        (fold_right Z.max 1 (map (λ f, alignof f.2) fs))
  | TUnion fs =>
      round_up (fold_right Z.max 0 (map (λ f, sizeof f.2) fs))
        (fold_right Z.max 1 (map (λ f, alignof f.2) fs))
  end.

(** The offset and the type of the field [x], for a struct whose next free byte
    is [off]. *)
Fixpoint struct_field (off : Z) (fs : fields) (x : string) : option (Z * cty) :=
  match fs with
  | [] => None
  | (y, t) :: fs =>
      let o := round_up off (alignof t) in
      if decide (x = y) then Some (o, t) else struct_field (o + sizeof t) fs x
  end.

Fixpoint union_field (fs : fields) (x : string) : option (Z * cty) :=
  match fs with
  | [] => None
  | (y, t) :: fs => if decide (x = y) then Some (0, t) else union_field fs x
  end.

Definition field (t : cty) (x : string) : option (Z * cty) :=
  match t with
  | TStruct fs => struct_field 0 fs x
  | TUnion fs => union_field fs x
  | _ => None
  end.

(** The place [v.x1.x2...]: its offset in [v] and its type. *)
Fixpoint offset_of (t : cty) (path : list string) : option (Z * cty) :=
  match path with
  | [] => Some (0, t)
  | x :: path =>
      '(o, ft) ← field t x; '(o', ft') ← offset_of ft path; Some (o + o', ft')
  end.

(** The bytes of the place [v.path] in the bytes [l] of [v]. *)
Definition read_field (t : cty) (path : list string) (l : bytes) : option bytes :=
  '(o, ft) ← offset_of t path; slice l o (sizeof ft).

(** The bytes of a struct value given the bytes of its fields.  The padding
    bytes have no value: [pad] gives the one the byte at an offset holds. *)
Definition padding (pad : Z → Z) (from to : Z) : bytes := map pad (seqZ from (to - from)).

Fixpoint struct_image (pad : Z → Z) (off align : Z) (fs : fields) (vals : list bytes) : bytes :=
  match fs, vals with
  | (_, t) :: fs, v :: vals =>
      let o := round_up off (alignof t) in
      padding pad off o ++ v ++ struct_image pad (o + sizeof t) align fs vals
  | _, _ => padding pad off (round_up off align)
  end.

Definition image (pad : Z → Z) (t : cty) (vals : list bytes) : bytes :=
  match t with TStruct fs => struct_image pad 0 (alignof t) fs vals | _ => [] end.

(** Types that Rust accepts: scalars have a positive size, arrays a length. *)
Fixpoint wf_cty (t : cty) : Prop :=
  match t with
  | TInt n => 0 < n
  | TArr t n => 0 ≤ n ∧ wf_cty t
  | TStruct fs | TUnion fs => fold_right and True (map (λ f, wf_cty f.2) fs)
  end.

Fixpoint wf_ctyb (t : cty) : bool :=
  match t with
  | TInt n => 0 <? n
  | TArr t n => (0 <=? n) && wf_ctyb t
  | TStruct fs | TUnion fs => forallb (λ f, wf_ctyb f.2) fs
  end.

Definition wf_fields (fs : fields) : Prop := fold_right and True (map (λ f, wf_cty f.2) fs).

(** ** Induction on types *)

Section cty_ind.
Variable P : cty → Prop.
Hypothesis HInt : ∀ n, P (TInt n).
Hypothesis HArr : ∀ t n, P t → P (TArr t n).
Hypothesis HStruct : ∀ fs, Forall (λ f, P f.2) fs → P (TStruct fs).
Hypothesis HUnion : ∀ fs, Forall (λ f, P f.2) fs → P (TUnion fs).

Fixpoint cty_nested_ind (t : cty) : P t :=
  let all := fix all (fs : fields) : Forall (λ f, P f.2) fs :=
    match fs with
    | [] => List.Forall_nil _
    | f :: fs => List.Forall_cons _ f fs (cty_nested_ind f.2) (all fs)
    end in
  match t with
  | TInt n => HInt n
  | TArr t n => HArr t n (cty_nested_ind t)
  | TStruct fs => HStruct fs (all fs)
  | TUnion fs => HUnion fs (all fs)
  end.
End cty_ind.

(** ** Lemmas *)

Lemma round_up_spec off a :
  0 < a → off ≤ round_up off a < off + a ∧ (a | round_up off a).
Proof.
  intros Ha. unfold round_up. split.
  - pose proof (Z.div_mod (off + a - 1) a). pose proof (Z.mod_pos_bound (off + a - 1) a). lia.
  - apply Z.divide_factor_r.
Qed.

Lemma round_up_le off a : 0 < a → off ≤ round_up off a.
Proof. intros. by apply round_up_spec. Qed.

Lemma wf_fields_Forall fs : wf_fields fs ↔ Forall (λ f, wf_cty f.2) fs.
Proof.
  unfold wf_fields. induction fs; simpl.
  - split; auto.
  - rewrite IHfs, Forall_cons. done.
Qed.

Lemma wf_ctyb_sound t : wf_ctyb t = true → wf_cty t.
Proof.
  assert (∀ fs : fields, Forall (λ f, wf_ctyb f.2 = true → wf_cty f.2) fs →
    forallb (λ f, wf_ctyb f.2) fs = true → wf_fields fs) as Hfs.
  { intros fs. rewrite wf_fields_Forall. induction 1 as [|f fs Hf _ IH]; simpl; [auto|].
    intros [? ?]%andb_true_iff. constructor; auto. }
  induction t using cty_nested_ind; simpl.
  - by intros ?%Z.ltb_lt.
  - intros [?%Z.leb_le ?]%andb_true_iff. auto.
  - by apply Hfs.
  - by apply Hfs.
Qed.

Lemma alignof_pos t : wf_cty t → 0 < alignof t.
Proof.
  induction t using cty_nested_ind; simpl; intros Hwf; [done | naive_solver | |];
    clear Hwf H; induction fs; simpl; lia.
Qed.

Lemma sizeof_nonneg t : wf_cty t → 0 ≤ sizeof t.
Proof.
  assert (∀ fs, 1 ≤ fold_right Z.max 1 (map (λ f : string * cty, alignof f.2) fs)) as Ha.
  { induction fs; simpl; lia. }
  induction t as [n|t n IH|fs IH|fs IH] using cty_nested_ind; simpl; intros Hwf.
  - lia.
  - destruct Hwf. specialize (IH ltac:(done)). nia.
  - etrans; [|apply round_up_le; specialize (Ha fs); lia].
    apply wf_fields_Forall in Hwf.
    assert (∀ off, 0 ≤ off → 0 ≤ fold_left
      (λ off f, round_up off (alignof f.2) + sizeof f.2) fs off) as Hfold; [|by apply Hfold].
    clear Ha. induction fs as [|f fs IHfs]; simpl; [done|]. intros off Hoff.
    inversion IH; inversion Hwf; subst. apply IHfs; [done..|].
    pose proof (round_up_le off (alignof f.2) ltac:(by apply alignof_pos)).
    pose proof (H1 ltac:(done)). lia.
  - etrans; [|apply round_up_le; specialize (Ha fs); lia].
    clear. induction fs; simpl; lia.
Qed.
#[export] Hint Resolve alignof_pos sizeof_nonneg : rust.

Lemma fields_size_mono fs off :
  wf_fields fs →
  off ≤ fold_left (λ off f, round_up off (alignof f.2) + sizeof f.2) fs off.
Proof.
  rewrite wf_fields_Forall. intros Hwf. revert off.
  induction Hwf as [|f fs Hf _ IH]; simpl; intros off; [done|].
  pose proof (round_up_le off (alignof f.2)). pose proof (alignof_pos f.2).
  pose proof (sizeof_nonneg f.2). specialize (IH (round_up off (alignof f.2) + sizeof f.2)).
  naive_solver lia.
Qed.

(** A field lies after the fields before it, inside the struct, on its own
    alignment. *)
Lemma struct_field_bounds fs off x o t :
  wf_fields fs → struct_field off fs x = Some (o, t) →
  off ≤ o ∧ (alignof t | o) ∧ wf_cty t ∧
  o + sizeof t ≤ fold_left (λ off f, round_up off (alignof f.2) + sizeof f.2) fs off.
Proof.
  revert off. induction fs as [|[y ty] fs IH]; simpl; intros off Hwf Hf; [done|].
  destruct Hwf as [Hty Hwf].
  pose proof (round_up_spec off (alignof ty) ltac:(auto with rust)) as [Hr Hd].
  pose proof (sizeof_nonneg ty Hty). case_decide; simplify_eq.
  - split_and!; [lia | done | done | by apply fields_size_mono].
  - apply IH in Hf as (? & ? & ? & ?); [|done]. split_and!; [lia | done | done | done].
Qed.

Lemma union_field_bounds fs x o t :
  wf_fields fs → union_field fs x = Some (o, t) →
  o = 0 ∧ wf_cty t ∧ sizeof t ≤ fold_right Z.max 0 (map (λ f, sizeof f.2) fs).
Proof.
  induction fs as [|[y ty] fs IH]; simpl; intros Hwf Hf; [done|]. destruct Hwf.
  case_decide; simplify_eq.
  - split_and!; [done | done | lia].
  - apply IH in Hf; [|done]. naive_solver lia.
Qed.

Lemma field_bounds t x o ft :
  wf_cty t → field t x = Some (o, ft) →
  0 ≤ o ∧ wf_cty ft ∧ o + sizeof ft ≤ sizeof t.
Proof.
  assert (∀ fs, 0 < fold_right Z.max 1 (map (λ f : string * cty, alignof f.2) fs)) as Ha.
  { induction fs; simpl; lia. }
  destruct t as [| |fs|fs]; simpl; intros Hwf Hf; try done.
  - apply struct_field_bounds in Hf; [|done]. pose proof (round_up_le
      (fold_left (λ off f, round_up off (alignof f.2) + sizeof f.2) fs 0) _ (Ha fs)).
    naive_solver lia.
  - apply union_field_bounds in Hf as (-> & ? & ?); [|done]. pose proof (round_up_le
      (fold_right Z.max 0 (map (λ f, sizeof f.2) fs)) _ (Ha fs)).
    split_and!; [done | done | lia].
Qed.

Lemma offset_of_bounds t path o ft :
  wf_cty t → offset_of t path = Some (o, ft) →
  0 ≤ o ∧ wf_cty ft ∧ o + sizeof ft ≤ sizeof t.
Proof.
  revert t o. induction path as [|x path IH]; simpl; intros t o Hwf Ho.
  - simplify_eq. split_and!; [done | done | lia].
  - destruct (field t x) as [[o1 t1]|] eqn:Hf; simplify_eq/=.
    destruct (offset_of t1 path) as [[o2 t2]|] eqn:Hp; simplify_eq/=.
    apply field_bounds in Hf as (? & ? & ?); [|done].
    apply IH in Hp as (? & ? & ?); [|done]. split_and!; [lia | done | lia].
Qed.

Lemma length_padding pad from to : length (padding pad from to) = Z.to_nat (to - from).
Proof. unfold padding. by rewrite length_map, length_seqZ. Qed.

(** The image of a struct holds each field's bytes at the field's offset. *)
Lemma struct_image_field pad fs vals off align x i o t v :
  wf_fields fs → Forall2 (λ f v, Z.of_nat (length v) = sizeof f.2) fs vals →
  struct_field off fs x = Some (o, t) →
  fs !! i = Some (x, t) → NoDup (fs.*1) → vals !! i = Some v →
  slice (struct_image pad off align fs vals) (o - off) (sizeof t) = Some v.
Proof.
  intros Hwf Hlen. revert off i. induction Hlen as [|[y ty] w fs vals Hw Hlen IH];
    intros off i Hf Hi Hnd Hv; simplify_eq/=.
  destruct Hwf as [Hty Hwf]. apply NoDup_cons in Hnd as [Hny Hnd].
  pose proof (round_up_le off (alignof ty) ltac:(auto with rust)).
  pose proof (sizeof_nonneg ty Hty). simpl in Hw. case_decide as Hxy; simplify_eq.
  - destruct i as [|i]; simplify_eq/=.
    2:{ exfalso. apply Hny. apply list_elem_of_fmap. exists (y, t). split; [done|].
        by eapply list_elem_of_lookup_2. }
    unfold slice. rewrite bool_decide_true.
    2:{ rewrite !length_app, length_padding. lia. }
    f_equal. rewrite drop_app_ge; rewrite length_padding; [|done]. rewrite Nat.sub_diag, drop_0.
    rewrite take_app_le by lia. apply take_ge. lia.
  - destruct i as [|i]; simplify_eq/=.
    pose proof (struct_field_bounds _ _ _ _ _ Hwf Hf) as (Ho & _).
    specialize (IH Hwf _ i Hf Hi Hnd Hv). apply slice_Some in IH as (? & ? & ? & Hlv & ->).
    unfold slice. rewrite bool_decide_true.
    2:{ rewrite !length_app, length_padding. lia. }
    f_equal. rewrite drop_app_ge; rewrite length_padding; [|lia].
    rewrite drop_app_ge by lia. do 2 f_equal. lia.
Qed.

Lemma length_struct_image pad fs vals off align :
  wf_fields fs → 0 < align → Forall2 (λ f v, Z.of_nat (length v) = sizeof f.2) fs vals →
  Z.of_nat (length (struct_image pad off align fs vals)) =
  round_up (fold_left (λ off f, round_up off (alignof f.2) + sizeof f.2) fs off) align - off.
Proof.
  intros Hwf Ha Hlen. revert off. induction Hlen as [|[y ty] w fs vals Hw Hlen IH];
    intros off; simpl.
  - rewrite length_padding. pose proof (round_up_le off align Ha). lia.
  - destruct Hwf as [Hty Hwf]. simpl in *. rewrite !length_app, length_padding.
    specialize (IH Hwf (round_up off (alignof ty) + sizeof ty)).
    pose proof (round_up_le off (alignof ty) ltac:(auto with rust)). lia.
Qed.
