(* ===== verification/Text.v ===== *)
(** * Text: formatting and UTF-8

    What the program uses of [core::fmt] ([{}], [{:x}], [{:<w}], [{:>w}],
    [{:0w}] on integers and strings), the records of the log macros, and
    [String::from_utf8_lossy]. *)

From S2P Require Export Prelude.

(** ** Integers *)

(** [{}] of an unsigned integer and of a signed one. *)
Definition fmt_uint (z : Z) : string := pretty (Z.to_N z).
Definition fmt_int (z : Z) : string := pretty z.

(** [{:x}] of a [u16]. *)
Definition hex_digit (d : Z) : ascii :=
  ascii_of_byte (if bool_decide (d < 10) then 48 + d else 87 + d).
Fixpoint hex_digits (fuel : nat) (z : Z) (acc : string) : string :=
  match fuel with
  | O => acc
  | S fuel =>
      let acc := String (hex_digit (z `mod` 16)) acc in
      if bool_decide (z < 16) then acc else hex_digits fuel (z `div` 16) acc
  end.
Definition fmt_hex (z : Z) : string := hex_digits 4 z EmptyString.

(** ** Padding *)

Fixpoint repeat_char (n : nat) (c : ascii) : string :=
  match n with O => EmptyString | S n => String c (repeat_char n c) end.

(** [s.chars().count()]: the bytes that do not continue a character. *)
Definition is_cont (b : Z) : bool := bool_decide (Z.land b 192 = 128).
Fixpoint char_count (s : string) : nat :=
  match s with
  | EmptyString => 0
  | String c s => (if is_cont (byte_of_ascii c) then 0 else 1) + char_count s
  end%nat.

Definition pad_right (w : nat) (s : string) : string :=
  s +:+ repeat_char (w - char_count s) " ".
Definition pad_left (w : nat) (s : string) : string :=
  repeat_char (w - char_count s) " " +:+ s.
(** [{:0w}] of an unsigned integer. *)
Definition zero_pad (w : nat) (z : Z) : string :=
  repeat_char (w - char_count (fmt_uint z)) "0" +:+ fmt_uint z.

(** ** The log macros *)

(** The levels the program logs at. *)
Inductive Level := Warn | Info | Debug.
#[export] Instance Level_eq_dec : EqDecision Level.
Proof. solve_decision. Defined.

(** What a macro hands to the logger: [warn!], [info!], [debug!]. *)
Record LogRecord := { log_level : Level; log_args : string }.
#[export] Instance LogRecord_eq_dec : EqDecision LogRecord.
Proof. solve_decision. Defined.

Definition warn (args : string) : LogRecord := {| log_level := Warn; log_args := args |}.
Definition info (args : string) : LogRecord := {| log_level := Info; log_args := args |}.
Definition debug (args : string) : LogRecord := {| log_level := Debug; log_args := args |}.

(** ** [String::from_utf8_lossy] *)

(** [safe_get]: 0 past the end. *)
Definition safe_get (l : bytes) (i : nat) : Z := default 0 (l !! i).

Definition between (lo hi b : Z) : bool := bool_decide (lo ≤ b ≤ hi).

(** The value of decimal digits that fit a [u64]. *)
Fixpoint u64_digits (acc : Z) (l : bytes) : option Z :=
  match l with
  | [] => Some acc
  | c :: l =>
      if between 48 57 c then
        let acc := acc * 10 + (c - 48) in
        if bool_decide (acc < 2 ^ 64) then u64_digits acc l else None
      else None
  end.

Definition utf8_char_width (b : Z) : Z :=
  if between 0 127 b then 1 else if between 194 223 b then 2
  else if between 224 239 b then 3 else if between 240 244 b then 4 else 0.

(** The second byte a three- or four-byte character may have. *)
Definition second_of_3 (b c : Z) : bool :=
  if b =? 224 then between 160 191 c
  else if b =? 237 then between 128 159 c
  else between 225 239 b && between 128 191 c.
Definition second_of_4 (b c : Z) : bool :=
  if b =? 240 then between 144 191 c
  else if b =? 244 then between 128 143 c
  else between 241 243 b && between 128 191 c.

(** The step of [Utf8Chunks]: whether a character starts the input and the
    bytes it, or else its ill-formed prefix, takes. *)
Definition utf8_next (b : Z) (r : bytes) : bool * nat :=
  if b <? 128 then (true, 1%nat)
  else match utf8_char_width b with
       | 2 => if is_cont (safe_get r 0) then (true, 2%nat) else (false, 1%nat)
       | 3 => if second_of_3 b (safe_get r 0) then
                if is_cont (safe_get r 1) then (true, 3%nat) else (false, 2%nat)
              else (false, 1%nat)
       | 4 => if second_of_4 b (safe_get r 0) then
                if is_cont (safe_get r 1) then
                  if is_cont (safe_get r 2) then (true, 4%nat) else (false, 3%nat)
                else (false, 2%nat)
              else (false, 1%nat)
       | _ => (false, 1%nat)
       end.

(** U+FFFD. *)
Definition replacement_character : bytes := [239; 191; 189].

Fixpoint lossy (fuel : nat) (l : bytes) : bytes :=
  match fuel, l with
  | S fuel, b :: r =>
      let '(valid, n) := utf8_next b r in
      (if valid then take n l else replacement_character) ++ lossy fuel (drop n l)
  | _, _ => []
  end.
Definition from_utf8_lossy (l : bytes) : bytes := lossy (length l) l.

(** Well-formed UTF-8. *)
Inductive utf8 : bytes → Prop :=
| utf8_nil : utf8 []
| utf8_char b r n :
    utf8_next b r = (true, n) → utf8 (drop n (b :: r)) → utf8 (b :: r).

Fixpoint utf8_check (fuel : nat) (l : bytes) : bool :=
  match fuel, l with
  | _, [] => true
  | O, _ => false
  | S fuel, b :: r =>
      let '(valid, n) := utf8_next b r in valid && utf8_check fuel (drop n l)
  end.
Definition is_utf8 (l : bytes) : bool := utf8_check (length l) l.

(** ** Lemmas on padding *)

Lemma char_count_app s1 s2 : char_count (s1 +:+ s2) = (char_count s1 + char_count s2)%nat.
Proof. induction s1 as [|c s1 IH]; simpl; [done|]. rewrite IH. lia. Qed.

Lemma app_empty_r s : s +:+ EmptyString = s.
Proof. induction s as [|c s IH]; [done|]. simpl. by rewrite IH. Qed.

Lemma repeat_char_count n c : is_cont (byte_of_ascii c) = false → char_count (repeat_char n c) = n.
Proof. intros Hc. induction n as [|n IH]; simpl; [done|]. by rewrite Hc, IH. Qed.

(** Padding fills a column that the text does not. *)
Lemma pad_right_count w s : char_count (pad_right w s) = (w `max` char_count s)%nat.
Proof. unfold pad_right. rewrite char_count_app, repeat_char_count by done. lia. Qed.
Lemma pad_left_count w s : char_count (pad_left w s) = (w `max` char_count s)%nat.
Proof. unfold pad_left. rewrite char_count_app, repeat_char_count by done. lia. Qed.

Lemma string_app_assoc s1 s2 s3 : (s1 +:+ s2) +:+ s3 = s1 +:+ s2 +:+ s3.
Proof. induction s1 as [|c s1 IH]; simpl; [done|]. by rewrite IH. Qed.

Lemma pad_right_exact w s : (w ≤ char_count s)%nat → pad_right w s = s.
Proof.
  intros Hw. unfold pad_right. replace (w - char_count s)%nat with 0%nat by lia.
  apply app_empty_r.
Qed.

(** ** Lemmas on UTF-8 *)

Ltac utf8_cases H :=
  unfold utf8_next in H;
  repeat (case_match; simplify_eq/=; try discriminate).

Lemma is_cont_range b : is_cont b = true → b ≠ 0.
Proof. unfold is_cont. rewrite bool_decide_eq_true. intros H ->. done. Qed.

Lemma utf8_next_bounds b r v n : utf8_next b r = (v, n) → (1 ≤ n ≤ 4)%nat.
Proof. intros H. utf8_cases H; lia. Qed.

Lemma second_of_3_nonzero b c : second_of_3 b c = true → c ≠ 0.
Proof. unfold second_of_3, between. intros H ->. cases. by rewrite andb_false_r in H. Qed.

Lemma second_of_4_nonzero b c : second_of_4 b c = true → c ≠ 0.
Proof. unfold second_of_4, between. intros H ->. cases. by rewrite andb_false_r in H. Qed.

Lemma safe_get_lt r i : safe_get r i ≠ 0 → (i < length r)%nat.
Proof.
  unfold safe_get. destruct (r !! i) eqn:Hr; simpl; [|done].
  intros _. by apply lookup_lt_Some in Hr.
Qed.

#[export] Hint Resolve is_cont_range second_of_3_nonzero second_of_4_nonzero safe_get_lt : rust.

(** A character, or an ill-formed prefix, lies inside the input. *)
Lemma utf8_next_length b r v n : utf8_next b r = (v, n) → (n ≤ length (b :: r))%nat.
Proof.
  intros H. simpl.
  assert (∀ i, is_cont (safe_get r i) = true → (i < length r)%nat) by eauto with rust.
  assert (second_of_3 b (safe_get r 0) = true → (0 < length r)%nat) by eauto with rust.
  assert (second_of_4 b (safe_get r 0) = true → (0 < length r)%nat) by eauto with rust.
  utf8_cases H; repeat match goal with
    | HI : ∀ i, is_cont (safe_get r i) = true → _, Hi : is_cont (safe_get r ?i) = true |- _ =>
        apply HI in Hi
    end; naive_solver lia.
Qed.

(** Only the bytes of a character decide that it is one. *)
Lemma utf8_next_prefix b r r' n :
  utf8_next b r = (true, n) → take (n - 1) r = take (n - 1) r' → utf8_next b r' = (true, n).
Proof.
  intros H Ht.
  assert (∀ i, (i < n - 1)%nat → safe_get r' i = safe_get r i) as Hg.
  { intros i Hi. unfold safe_get. rewrite <- (lookup_take_lt r' (n - 1)) by done.
    rewrite <- Ht. by rewrite lookup_take_lt. }
  clear Ht. unfold utf8_next in *.
  repeat (case_match; simplify_eq/=; try done);
    repeat match goal with
      | _ : context [safe_get r' ?i] |- _ => rewrite (Hg i) in * by lia
      end; congruence.
Qed.

Lemma utf8_app_char b r n l :
  utf8_next b r = (true, n) → utf8 l → utf8 (take n (b :: r) ++ l).
Proof.
  intros H Hl. pose proof (utf8_next_bounds _ _ _ _ H). pose proof (utf8_next_length _ _ _ _ H).
  destruct n as [|n]; [lia|]. simpl in *. apply utf8_char with (S n).
  - eapply utf8_next_prefix; [done|]. simpl. rewrite Nat.sub_0_r.
    rewrite take_app_le by (rewrite length_take; lia). by rewrite take_take, Nat.min_id.
  - simpl. rewrite drop_app_ge by (rewrite length_take; lia).
    rewrite length_take. by replace (n - _)%nat with 0%nat by lia.
Qed.

Lemma lossy_utf8 fuel l : (length l ≤ fuel)%nat → utf8 (lossy fuel l).
Proof.
  revert l. induction fuel as [|fuel IH]; intros [|b r] Hf; simpl in *;
    [constructor | lia | constructor |].
  destruct (utf8_next b r) as [[] n] eqn:Hn;
    pose proof (utf8_next_bounds _ _ _ _ Hn) as Hb;
    assert (utf8 (lossy fuel (drop n (b :: r)))) by
      (apply IH; rewrite length_drop; simpl; lia).
  - by apply utf8_app_char.
  - apply (utf8_app_char 239 [191; 189] 3); done.
Qed.

Lemma lossy_id fuel l : utf8 l → (length l ≤ fuel)%nat → lossy fuel l = l.
Proof.
  intros Hu. revert fuel. induction Hu as [|b r n Hn _ IH]; intros [|fuel] Hf;
    simpl in Hf; try done; [lia|].
  pose proof (utf8_next_bounds _ _ _ _ Hn). cbn [lossy]. rewrite Hn.
  rewrite IH by (rewrite length_drop; simpl; lia). apply take_drop.
Qed.

Lemma utf8_check_sound fuel l : utf8_check fuel l = true → utf8 l.
Proof.
  revert l. induction fuel as [|fuel IH]; intros [|b r]; cbn; try constructor; try done.
  destruct (utf8_next b r) as [v n] eqn:Hn. intros [-> H]%andb_true_iff.
  by apply utf8_char with n, IH.
Qed.

Lemma lossy_wf fuel l : wf_bytes l → wf_bytes (lossy fuel l).
Proof.
  revert l. induction fuel as [|fuel IH]; intros [|b r] Hl; cbn -[take drop];
    try by constructor.
  destruct (utf8_next b r) as [v n]. apply Forall_app. split.
  - destruct v; [by apply Forall_take | by repeat constructor].
  - by apply IH, Forall_drop.
Qed.

(** ** Digits *)

Lemma pretty_digit x : (x < 10)%N → byte_of_ascii (pretty_N_char x) = 48 + Z.of_N x.
Proof.
  intros Hx. rewrite <- (N2Nat.id x) in *. assert (N.to_nat x < 10)%nat as Hn by lia. clear Hx.
  generalize dependent (N.to_nat x). intros n Hn. do 10 (destruct n as [|n]; [done|]). lia.
Qed.

Lemma u64_digits_go x s :
  Z.of_N x < 2 ^ 64 →
  u64_digits 0 (bytes_of_string (pretty_N_go x s)) = u64_digits (Z.of_N x) (bytes_of_string s).
Proof.
  revert s. induction (N.lt_wf_0 x) as [x _ IH]. intros s Hx.
  destruct (decide (x = 0)%N) as [->|Hn]; [by rewrite pretty_N_go_0|].
  rewrite pretty_N_go_step by lia.
  rewrite IH; [|apply N.div_lt; lia | rewrite N2Z.inj_div; apply Z.div_lt_upper_bound; lia]. simpl.
  pose proof (N.mod_lt x 10 ltac:(done)). pose proof (N.div_mod x 10 ltac:(done)).
  rewrite pretty_digit by done.
  set (q := (x `div` 10)%N) in *. set (r := (x `mod` 10)%N) in *. clearbody q r.
  unfold between. rewrite bool_decide_true by lia.
  replace (Z.of_N q * 10 + (48 + Z.of_N r - 48)) with (Z.of_N x) by lia.
  by rewrite bool_decide_true.
Qed.

(** What [Display] writes for a [u64] is read back. *)
Lemma u64_digits_fmt n : in_u 64 n → u64_digits 0 (bytes_of_string (fmt_uint n)) = Some n.
Proof.
  intros Hn. unfold in_u in Hn. unfold fmt_uint, pretty, pretty_N. case_decide as Hz.
  - assert (n = 0) as -> by lia. done.
  - rewrite u64_digits_go by lia. simpl. f_equal. lia.
Qed.

Lemma u64_digits_all acc l n : u64_digits acc l = Some n → Forall (λ c, between 48 57 c = true) l.
Proof.
  revert acc. induction l as [|c l IH]; intros acc; simpl; [constructor|].
  destruct (between 48 57 c) eqn:Hc; [|done]. case_bool_decide; [|done].
  intros Hl. apply List.Forall_cons; eauto.
Qed.

Lemma fmt_uint_nonempty n : in_u 64 n → fmt_uint n ≠ EmptyString.
Proof.
  intros Hn He. pose proof (u64_digits_fmt n Hn) as Hd. rewrite He in Hd. simpl in Hd.
  injection Hd as <-. done.
Qed.
