(* ===== verification/IpAddr.v ===== *)
(** * [std::net]: IPv4 and IPv6 addresses

    [Ipv4Addr] and [Ipv6Addr] as the program uses them: [Ipv4Addr::from_str],
    [u32::from], [Ipv4Addr::from], [Ipv6Addr::from] and their [Display]. *)

From S2P Require Export Prelude Text.

(** The four octets, and the sixteen bytes, in network order. *)
Record Ipv4Addr := Ipv4 { octets : bytes }.
Record Ipv6Addr := Ipv6 { octets6 : bytes }.

#[export] Instance Ipv4Addr_eq_dec : EqDecision Ipv4Addr.
Proof. solve_decision. Defined.

Definition wf_ipv4 (ip : Ipv4Addr) : Prop := length (octets ip) = 4%nat ∧ wf_bytes (octets ip).

Definition Ipv4Addr_new (a b c d : Z) : Ipv4Addr := Ipv4 [a; b; c; d].
(** [u32::from(ip)] and [Ipv4Addr::from(n)]. *)
Definition u32_of_ipv4 (ip : Ipv4Addr) : Z := from_be_bytes (octets ip).
Definition ipv4_of_u32 (n : Z) : Ipv4Addr := Ipv4 (to_be_bytes 4 n).

(** [IpAddr]. *)
Inductive IpAddr := V4 (ip : Ipv4Addr) | V6 (ip : Ipv6Addr).

(** ** [Ipv4Addr::from_str] *)

Definition dot : Z := 46.

(** [char::to_digit(10)]. *)
Definition to_digit (c : Z) : option Z :=
  if bool_decide (48 ≤ c ≤ 57) then Some (c - 48) else None.

(** The digits of [read_number(10, Some(3), false)]: the value, their number
    and the input left; a fourth digit fails. *)
Fixpoint read_digits (l : bytes) (res count : Z) : option (Z * Z * bytes) :=
  match l with
  | c :: r =>
      match to_digit c with
      | Some d =>
          if bool_decide (count + 1 > 3) then None
          else read_digits r (res * 10 + d) (count + 1)
      | None => Some (res, count, l)
      end
  | [] => Some (res, count, [])
  end.

Definition read_number (l : bytes) : option (Z * bytes) :=
  let has_leading_zero := bool_decide (head l = Some 48) in
  '(res, count, r) ← read_digits l 0 0;
  if bool_decide (count = 0) then None
  else if has_leading_zero && bool_decide (count > 1) then None
  else if bool_decide (res ≤ 255) then Some (res, r) else None.

(** [read_separator('.', i, ..)]: a dot before every group but the first. *)
Definition read_separated (i : nat) (l : bytes) : option (Z * bytes) :=
  match i with
  | O => read_number l
  | S _ => match l with
           | c :: r => if c =? dot then read_number r else None
           | [] => None
           end
  end.

Fixpoint read_groups (i n : nat) (l : bytes) : option (bytes * bytes) :=
  match n with
  | O => Some ([], l)
  | S n =>
      '(v, l) ← read_separated i l; '(vs, l) ← read_groups (S i) n l; Some (v :: vs, l)
  end.

Inductive AddrParseError := AddrParseError_Ipv4.

Definition ipv4_from_str (s : string) : result Ipv4Addr AddrParseError :=
  let l := bytes_of_string s in
  if bool_decide (15 < length l)%nat then Err AddrParseError_Ipv4
  else match read_groups 0 4 l with
       | Some (vs, []) => Ok (Ipv4 vs)
       | _ => Err AddrParseError_Ipv4
       end.

(** ** [Display] *)

Fixpoint join (sep : string) (l : list string) : string :=
  match l with
  | [] => EmptyString
  | [x] => x
  | x :: l => x +:+ sep +:+ join sep l
  end.

Definition ipv4_to_string (ip : Ipv4Addr) : string := join "." (fmt_uint <$> octets ip).

(** The eight segments of an IPv6 address. *)
Fixpoint segments (l : bytes) : list Z :=
  match l with
  | a :: b :: l => from_be_bytes [a; b] :: segments l
  | _ => []
  end.

(** [to_ipv4_mapped]: ::ffff:a.b.c.d. *)
Definition to_ipv4_mapped (ip : Ipv6Addr) : option Ipv4Addr :=
  if bool_decide (take 12 (octets6 ip) = [0; 0; 0; 0; 0; 0; 0; 0; 0; 0; 255; 255])
  then Some (Ipv4 (drop 12 (octets6 ip))) else None.

(** The first longest run of zero segments, as its start and length. *)
Fixpoint longest_zero_run (i : nat) (segs : list Z) (cur longest : nat * nat) : nat * nat :=
  match segs with
  | [] => longest
  | s :: segs =>
      if s =? 0 then
        let cur := (if (cur.2 =? 0)%nat then i else cur.1, S cur.2) in
        longest_zero_run (S i) segs cur (if (longest.2 <? cur.2)%nat then cur else longest)
      else longest_zero_run (S i) segs (0, 0)%nat longest
  end.

Definition fmt_subslice (segs : list Z) : string := join ":" (fmt_hex <$> segs).

Definition ipv6_to_string (ip : Ipv6Addr) : string :=
  match to_ipv4_mapped ip with
  | Some ip4 => "::ffff:" +:+ ipv4_to_string ip4
  | None =>
      let segs := segments (octets6 ip) in
      let zeroes := longest_zero_run 0 segs (0, 0)%nat (0, 0)%nat in
      if (1 <? zeroes.2)%nat then
        fmt_subslice (take zeroes.1 segs) +:+ "::" +:+
        fmt_subslice (drop (zeroes.1 + zeroes.2) segs)
      else fmt_subslice segs
  end.

Definition ip_addr_to_string (ip : IpAddr) : string :=
  match ip with V4 ip => ipv4_to_string ip | V6 ip => ipv6_to_string ip end.

#[global] Arguments read_separated : simpl never.
#[global] Arguments read_number : simpl never.

(** ** Octets and their decimal form *)

Definition octet_text (b : Z) : bytes := bytes_of_string (fmt_uint b).

Definition is_digit (c : Z) : Prop := 48 ≤ c ≤ 57.
#[export] Instance is_digit_dec c : Decision (is_digit c).
Proof. unfold is_digit. apply _. Defined.

Definition digits_value (res : Z) (ds : bytes) : Z :=
  fold_left (λ res c, res * 10 + (c - 48)) ds res.

(** What [read_number] accepts: at most three digits, no leading zero but 0
    itself, and a value that fits an octet. *)
Definition octet_digits (b : Z) (ds : bytes) : Prop :=
  Forall is_digit ds ∧ (1 ≤ length ds ≤ 3)%nat ∧
  (head ds = Some 48 → length ds = 1%nat) ∧ digits_value 0 ds = b ∧ b ≤ 255.
#[export] Instance octet_digits_dec b ds : Decision (octet_digits b ds).
Proof. unfold octet_digits. apply _. Defined.

(** ** Lemmas *)

Lemma to_digit_digit c : is_digit c → to_digit c = Some (c - 48).
Proof. intros. unfold to_digit. by rewrite bool_decide_true. Qed.

Lemma to_digit_Some c d : to_digit c = Some d → is_digit c ∧ d = c - 48.
Proof. unfold to_digit. case_bool_decide; [by intros [= <-] | done]. Qed.

Lemma read_digits_app ds rest res count :
  Forall is_digit ds → count + Z.of_nat (length ds) ≤ 3 →
  (∀ c r, rest = c :: r → ¬ is_digit c) →
  read_digits (ds ++ rest) res count =
    Some (digits_value res ds, count + Z.of_nat (length ds), rest).
Proof.
  intros Hd. revert res count. induction Hd as [|c ds Hc _ IH]; intros res count Hlen Hrest; simpl in *.
  - destruct rest as [|c rest]; simpl; [do 3 f_equal; lia|].
    unfold to_digit. rewrite bool_decide_false by (by eapply Hrest). do 3 f_equal. lia.
  - rewrite to_digit_digit by done. rewrite bool_decide_false by lia.
    rewrite IH by (done || lia). do 3 f_equal. lia.
Qed.

Lemma read_digits_Some l res count v n rest :
  read_digits l res count = Some (v, n, rest) →
  ∃ ds, l = ds ++ rest ∧ Forall is_digit ds ∧ v = digits_value res ds ∧
        n = count + Z.of_nat (length ds) ∧ (n ≤ 3 ∨ ds = []) ∧
        (∀ c r, rest = c :: r → ¬ is_digit c).
Proof.
  revert res count. induction l as [|c l IH]; simpl; intros res count H; simplify_eq.
  - exists []. split_and!; try done; simpl; [lia | auto].
  - destruct (to_digit c) as [d|] eqn:Hd; simplify_eq.
    + case_bool_decide; [done|]. apply to_digit_Some in Hd as [Hd ->].
      apply IH in H as (ds & -> & ? & -> & -> & Hle & ?).
      exists (c :: ds). split_and!; try done; simpl; [by constructor | lia |].
      left. destruct Hle as [? | ->]; simpl; lia.
    + exists []. split_and!; try done; simpl; [lia | auto |].
      intros c' r [= <- <-]. unfold to_digit in Hd. by case_bool_decide.
Qed.

Lemma octet_text_digits b : is_byte b → octet_digits b (octet_text b).
Proof.
  intros Hb. assert (Forall (λ b, octet_digits b (octet_text b)) (seqZ 0 256)) as H.
  { apply (bool_decide_unpack _). by vm_compute. }
  rewrite Forall_seqZ in H. apply H. uint.
Qed.

(** Three digits are the decimal form of their value only. *)
Lemma octet_digits_text b ds : octet_digits b ds → ds = octet_text b.
Proof.
  intros (Hd & Hlen & Hz & <- & Hb).
  assert (∀ c, is_digit c → c ∈ seqZ 48 10) as Hin.
  { intros c Hc. apply elem_of_seqZ. unfold is_digit in Hc. lia. }
  assert (Forall (λ ds, ¬ octet_digits (digits_value 0 ds) ds ∨ ds = octet_text (digits_value 0 ds))
    ((λ a, [a]) <$> seqZ 48 10)) as H1 by (apply (bool_decide_unpack _); by vm_compute).
  assert (Forall (λ a, Forall (λ b, ¬ octet_digits (digits_value 0 [a; b]) [a; b]
    ∨ [a; b] = octet_text (digits_value 0 [a; b])) (seqZ 48 10)) (seqZ 48 10)) as H2
    by (apply (bool_decide_unpack _); by vm_compute).
  assert (Forall (λ a, Forall (λ b, Forall (λ c, ¬ octet_digits (digits_value 0 [a; b; c]) [a; b; c]
    ∨ [a; b; c] = octet_text (digits_value 0 [a; b; c])) (seqZ 48 10)) (seqZ 48 10)) (seqZ 48 10)) as H3
    by (apply (bool_decide_unpack _); by vm_compute).
  rewrite Forall_fmap in H1. rewrite Forall_forall in H1, H2, H3.
  assert (octet_digits (digits_value 0 ds) ds) as Ho by (unfold octet_digits; auto).
  destruct ds as [|a [|b [|c [|]]]]; simpl in Hlen; try lia;
    repeat (apply Forall_cons in Hd as [? Hd]).
  - destruct (H1 a ltac:(auto)); naive_solver.
  - specialize (H2 a ltac:(auto)). rewrite Forall_forall in H2.
    destruct (H2 b ltac:(auto)); naive_solver.
  - specialize (H3 a ltac:(auto)). rewrite Forall_forall in H3.
    specialize (H3 b ltac:(auto)). rewrite Forall_forall in H3.
    destruct (H3 c ltac:(auto)); naive_solver.
Qed.

Lemma read_number_octet b rest :
  is_byte b → (∀ c r, rest = c :: r → ¬ is_digit c) →
  read_number (octet_text b ++ rest) = Some (b, rest).
Proof.
  intros Hb Hrest. destruct (octet_text_digits b Hb) as (Hd & Hlen & Hz & Hv & Hle).
  unfold read_number. rewrite read_digits_app by (done || lia). simpl.
  rewrite bool_decide_false by lia. rewrite Hv, (bool_decide_true (b ≤ 255)) by done.
  case_bool_decide as Hh; simpl; [|done]. rewrite bool_decide_false; [done|].
  destruct (octet_text b) as [|c r]; simpl in *; [lia|]. specialize (Hz Hh). lia.
Qed.

Lemma digits_value_nonneg res ds : 0 ≤ res → Forall is_digit ds → 0 ≤ digits_value res ds.
Proof.
  intros Hr Hd. revert res Hr. induction Hd as [|c ds Hc _ IH]; intros res Hr; simpl; [done|].
  apply IH. unfold is_digit in Hc. lia.
Qed.

Lemma read_number_Some l b rest :
  read_number l = Some (b, rest) →
  is_byte b ∧ l = octet_text b ++ rest ∧ (∀ c r, rest = c :: r → ¬ is_digit c).
Proof.
  unfold read_number. destruct (read_digits l 0 0) as [[[v n] r]|] eqn:Hr; simpl; [|done].
  apply read_digits_Some in Hr as (ds & -> & Hd & Hv & Hn & Hle & Hrest).
  case_bool_decide; [done|]. destruct ds as [|c ds]; [simpl in *; lia|]. intros Hif.
  assert (octet_digits b (c :: ds) ∧ r = rest) as [Ho ->].
  { revert Hif. case_bool_decide as Hz; simpl.
    - case_bool_decide; [done|]. case_bool_decide; [|done]. intros [= <- <-].
      split; [|done]. split_and!; try done; simpl in *; lia.
    - case_bool_decide; [|done]. intros [= <- <-].
      split; [|done]. split_and!; try done; simpl in *; [lia | destruct Hle; [lia | done]]. }
  split_and!; [|by rewrite <- (octet_digits_text _ _ Ho) | done].
  destruct Ho as (_ & _ & _ & <- & Hb). split; [by apply digits_value_nonneg|].
  change (2 ^ 8) with 256. lia.
Qed.

(** ** Addresses: [from_str] accepts exactly the text [Display] prints *)

Lemma wf_ipv4_inv ip :
  wf_ipv4 ip → ∃ a b c d, ip = Ipv4 [a; b; c; d] ∧ is_byte a ∧ is_byte b ∧ is_byte c ∧ is_byte d.
Proof.
  destruct ip as [l]. intros [Hl Hb]. simpl in *.
  destruct l as [|a [|b [|c [|d [|]]]]]; simpl in Hl; try lia.
  repeat (apply Forall_cons in Hb as [? Hb]). naive_solver.
Qed.

Lemma ipv4_to_string_bytes a b c d :
  bytes_of_string (ipv4_to_string (Ipv4 [a; b; c; d])) =
  octet_text a ++ dot :: octet_text b ++ dot :: octet_text c ++ dot :: octet_text d.
Proof.
  unfold ipv4_to_string, octet_text. cbn [octets fmap list_fmap join].
  rewrite !bytes_of_string_app. reflexivity.
Qed.

Lemma dot_not_digit l c r : dot :: l = c :: r → ¬ is_digit c.
Proof. intros [= <- <-]. unfold is_digit, dot. lia. Qed.

Lemma nil_not_digit (c : Z) r : [] = c :: r → ¬ is_digit c.
Proof. done. Qed.
#[export] Hint Resolve dot_not_digit nil_not_digit : rust.

Lemma read_groups_step i n x l l' vs rest :
  read_separated i l = Some (x, l') → read_groups (S i) n l' = Some (vs, rest) →
  read_groups i (S n) l = Some (x :: vs, rest).
Proof. intros Hx Hvs. cbn [read_groups]. rewrite Hx. simpl. by rewrite Hvs. Qed.

Lemma read_separated_dot i x l :
  is_byte x → (∀ y r, l = y :: r → ¬ is_digit y) →
  read_separated (S i) (dot :: octet_text x ++ l) = Some (x, l).
Proof. intros. unfold read_separated. rewrite Z.eqb_refl. by apply read_number_octet. Qed.

Lemma read_groups_print a b c d :
  is_byte a → is_byte b → is_byte c → is_byte d →
  read_groups 0 4 (octet_text a ++ dot :: octet_text b ++ dot :: octet_text c ++ dot :: octet_text d)
    = Some ([a; b; c; d], []).
Proof.
  intros. eapply read_groups_step; [by apply read_number_octet; eauto with rust|].
  do 2 (eapply read_groups_step; [apply read_separated_dot; eauto with rust|]).
  rewrite <- (app_nil_r (octet_text d)).
  eapply read_groups_step; [apply read_separated_dot; eauto with rust | done].
Qed.

Lemma read_separated_Some i l b rest :
  read_separated (S i) l = Some (b, rest) → is_byte b ∧ l = dot :: octet_text b ++ rest.
Proof.
  unfold read_separated. destruct l as [|c l]; [done|]. destruct (Z.eqb_spec c dot) as [->|]; [|done].
  intros (? & -> & _)%read_number_Some. done.
Qed.

Lemma read_groups_Some l vs :
  read_groups 0 4 l = Some (vs, []) →
  ∃ a b c d, vs = [a; b; c; d] ∧ is_byte a ∧ is_byte b ∧ is_byte c ∧ is_byte d ∧
    l = octet_text a ++ dot :: octet_text b ++ dot :: octet_text c ++ dot :: octet_text d.
Proof.
  cbn [read_groups]. intros H.
  destruct (read_separated 0 l) as [[a l1]|] eqn:H1; simplify_eq/=.
  destruct (read_separated 1 l1) as [[b l2]|] eqn:H2; simplify_eq/=.
  destruct (read_separated 2 l2) as [[c l3]|] eqn:H3; simplify_eq/=.
  destruct (read_separated 3 l3) as [[d l4]|] eqn:H4; simplify_eq/=.
  apply read_number_Some in H1 as (? & -> & _).
  apply read_separated_Some in H2 as (? & ->), H3 as (? & ->), H4 as (? & ->).
  exists a, b, c, d. by rewrite app_nil_r.
Qed.

Lemma octet_text_length b : is_byte b → (length (octet_text b) ≤ 3)%nat.
Proof. intros (_ & ? & _)%octet_text_digits. lia. Qed.

Lemma ipv4_from_str_spec s ip :
  ipv4_from_str s = Ok ip ↔ wf_ipv4 ip ∧ s = ipv4_to_string ip.
Proof.
  unfold ipv4_from_str. split.
  - case_bool_decide; [done|].
    destruct (read_groups 0 4 _) as [[vs [|]]|] eqn:Hg; try done. intros [= <-].
    apply read_groups_Some in Hg as (a & b & c & d & -> & ? & ? & ? & ? & Hl).
    split; [split; [done | by unfold wf_bytes; list_forall]|].
    apply (inj bytes_of_string). by rewrite ipv4_to_string_bytes.
  - intros [(a & b & c & d & -> & ? & ? & ? & ?)%wf_ipv4_inv ->].
    rewrite ipv4_to_string_bytes, read_groups_print by done.
    rewrite bool_decide_false; [done|].
    pose proof (octet_text_length a). pose proof (octet_text_length b).
    pose proof (octet_text_length c). pose proof (octet_text_length d).
    rewrite !length_app; simpl; rewrite !length_app; simpl; rewrite !length_app; simpl.
    naive_solver lia.
Qed.

Lemma u32_of_ipv4_range ip : wf_ipv4 ip → in_u 32 (u32_of_ipv4 ip).
Proof.
  intros [Hl Hb]. unfold u32_of_ipv4. pose proof (from_be_bytes_range _ Hb) as H.
  by rewrite Hl in H.
Qed.

Lemma ipv4_of_u32_of_ipv4 ip : wf_ipv4 ip → ipv4_of_u32 (u32_of_ipv4 ip) = ip.
Proof.
  destruct ip as [l]. intros [Hl Hb]. unfold ipv4_of_u32, u32_of_ipv4. simpl in *.
  f_equal. apply to_from_be_bytes; [by rewrite Hl | done].
Qed.

Lemma u32_of_ipv4_of_u32 n : in_u 32 n → u32_of_ipv4 (ipv4_of_u32 n) = n.
Proof. intros. apply (from_to_be_bytes 4); [lia | done]. Qed.

Lemma wf_ipv4_of_u32 n : wf_ipv4 (ipv4_of_u32 n).
Proof. split; cbn [octets ipv4_of_u32]; [by rewrite length_to_be_bytes | by apply wf_to_be_bytes]. Qed.
#[export] Hint Resolve u32_of_ipv4_range wf_ipv4_of_u32 : rust.
