(* ===== verification/Event.v ===== *)
(** * [rustguard-common]: the data shared by the kernel and the user side

    [rustguard-common/src/lib.rs] ([BanValue], [StatsValue]) and
    [rustguard-common/src/event.rs] ([EventType], [TransportProtocol],
    [Direction], [NetEvent]), with the bytes a [NetEvent] is carried as. *)

From S2P Require Export Prelude Layout.

(** ** lib.rs *)

(** [end_time]: the timestamp at which the ban expires, 0 for a permanent ban. *)
Record BanValue := { end_time : Z }.
Record StatsValue := { packets_dropped : Z }.

#[export] Instance BanValue_eq_dec : EqDecision BanValue.
Proof. solve_decision. Defined.
#[export] Instance StatsValue_eq_dec : EqDecision StatsValue.
Proof. solve_decision. Defined.

(** ** event.rs *)

Definition AF_INET : Z := 2.
Definition AF_INET6 : Z := 10.
Definition IPPROTO_IP : Z := 0.
Definition IPPROTO_ICMP : Z := 1.
Definition IPPROTO_TCP : Z := 6.
Definition IPPROTO_UDP : Z := 17.
Definition IPPROTO_IPV6 : Z := 41.
Definition IPPROTO_ICMPV6 : Z := 58.
Definition IPPROTO_SCTP : Z := 132.
Definition TASK_COMM_LEN : Z := 16.
Definition IP_ADDR_LEN : Z := 16.

Inductive EventType : Type :=
| EvUnknown | EvConnect | EvAccept | EvSend | EvRecv | EvClose | EvStateChange | EvDns
| EvTlsHandshake.
#[export] Instance EventType_eq_dec : EqDecision EventType.
Proof. solve_decision. Defined.

(** The discriminants of the [repr(u8)] enum. *)
Definition EventType_as_u8 (e : EventType) : Z :=
  match e with
  | EvUnknown => 0 | EvConnect => 1 | EvAccept => 2 | EvSend => 3 | EvRecv => 4
  | EvClose => 5 | EvStateChange => 6 | EvDns => 7 | EvTlsHandshake => 8
  end.

Definition EventType_as_str (e : EventType) : string :=
  match e with
  | EvUnknown => "UNKNOWN"
  | EvConnect => "CONNECT"
  | EvAccept => "ACCEPT"
  | EvSend => "SEND"
  | EvRecv => "RECV"
  | EvClose => "CLOSE"
  | EvStateChange => "STATE"
  | EvDns => "DNS"
  | EvTlsHandshake => "TLS"
  end.

Inductive TransportProtocol : Type := ProtoUnknown | ProtoTcp | ProtoUdp.
#[export] Instance TransportProtocol_eq_dec : EqDecision TransportProtocol.
Proof. solve_decision. Defined.

Definition TransportProtocol_as_u8 (p : TransportProtocol) : Z :=
  match p with ProtoUnknown => 0 | ProtoTcp => 6 | ProtoUdp => 17 end.

Inductive Direction : Type := DirUnknown | DirIngress | DirEgress.
#[export] Instance Direction_eq_dec : EqDecision Direction.
Proof. solve_decision. Defined.

Definition Direction_as_u8 (d : Direction) : Z :=
  match d with DirUnknown => 0 | DirIngress => 1 | DirEgress => 2 end.

(** [EventType::direction]. *)
Definition direction (e : EventType) : Direction :=
  match e with
  | EvConnect | EvSend => DirEgress
  | EvAccept | EvRecv => DirIngress
  | EvClose | EvStateChange | EvDns | EvTlsHandshake | EvUnknown => DirUnknown
  end.

(** The three [Display] implementations.  Each writes its text with
    [write_str] or [write!] and so ignores the width of the format string. *)
Definition EventType_fmt (width : nat) (e : EventType) : string := EventType_as_str e.
Definition TransportProtocol_fmt (width : nat) (p : TransportProtocol) : string :=
  match p with ProtoUnknown => "UNKNOWN" | ProtoTcp => "TCP" | ProtoUdp => "UDP" end.
Definition Direction_fmt (width : nat) (d : Direction) : string :=
  match d with DirUnknown => "UNKNOWN" | DirIngress => "INGRESS" | DirEgress => "EGRESS" end.

Record NetEvent := {
  timestamp_ns : Z;
  socket_id : Z;
  ev_pid : Z;
  ev_tid : Z;
  ev_uid : Z;
  event : EventType;
  protocol : TransportProtocol;
  ev_direction : Direction;
  comm : bytes;
  src_ip : bytes;
  dst_ip : bytes;
  src_port : Z;
  dst_port : Z;
  ret : Z;
}.

(** [NetEvent::default()]. *)
Definition NetEvent_default : NetEvent := {|
  timestamp_ns := 0; socket_id := 0; ev_pid := 0; ev_tid := 0; ev_uid := 0;
  event := EvUnknown; protocol := ProtoUnknown; ev_direction := DirUnknown;
  comm := replicate 16 0; src_ip := replicate 16 0; dst_ip := replicate 16 0;
  src_port := 0; dst_port := 0; ret := 0;
|}.

(** The [repr(C)] type and [NetEvent::size()]. *)
Definition NetEvent_ty : cty := TStruct [
  ("timestamp_ns", TInt 8); ("socket_id", TInt 8);
  ("pid", TInt 4); ("tid", TInt 4); ("uid", TInt 4);
  ("event", TInt 1); ("protocol", TInt 1); ("direction", TInt 1);
  ("comm", TArr (TInt 1) TASK_COMM_LEN);
  ("src_ip", TArr (TInt 1) 16); ("dst_ip", TArr (TInt 1) 16);
  ("src_port", TInt 2); ("dst_port", TInt 2); ("ret", TInt 4)
]%string.
Definition NetEvent_size : Z := sizeof NetEvent_ty.

(** The values its fields can hold in Rust. *)
Definition wf_NetEvent (e : NetEvent) : Prop :=
  in_u 64 (timestamp_ns e) ∧ in_u 64 (socket_id e) ∧
  in_u 32 (ev_pid e) ∧ in_u 32 (ev_tid e) ∧ in_u 32 (ev_uid e) ∧
  (length (comm e) = 16%nat ∧ wf_bytes (comm e)) ∧
  (length (src_ip e) = 16%nat ∧ wf_bytes (src_ip e)) ∧
  (length (dst_ip e) = 16%nat ∧ wf_bytes (dst_ip e)) ∧
  in_u 16 (src_port e) ∧ in_u 16 (dst_port e) ∧ - 2 ^ 31 ≤ ret e < 2 ^ 31.
#[export] Instance wf_NetEvent_dec e : Decision (wf_NetEvent e).
Proof. unfold wf_NetEvent. apply _. Defined.

(** ** A [NetEvent] as the bytes the ring buffer carries *)

Section wire.
Context (en : endian).

(** The bytes of the fields, in the order of the struct. *)
Definition NetEvent_fields (e : NetEvent) : list bytes := [
  to_ne_bytes en 8 (timestamp_ns e); to_ne_bytes en 8 (socket_id e);
  to_ne_bytes en 4 (ev_pid e); to_ne_bytes en 4 (ev_tid e); to_ne_bytes en 4 (ev_uid e);
  [EventType_as_u8 (event e)]; [TransportProtocol_as_u8 (protocol e)];
  [Direction_as_u8 (ev_direction e)];
  comm e; src_ip e; dst_ip e;
  to_ne_bytes en 2 (src_port e); to_ne_bytes en 2 (dst_port e);
  to_ne_bytes en 4 (wrap 32 (ret e))
].

(** The memory of the value; [pad] is what its padding byte holds. *)
Definition NetEvent_bytes (pad : Z → Z) (e : NetEvent) : bytes :=
  image pad NetEvent_ty (NetEvent_fields e).

(** The inverse of the discriminants: [None] for a byte that is no variant, for
    which using the value is undefined behaviour. *)
Definition EventType_of_u8 (b : Z) : option EventType :=
  match b with
  | 0 => Some EvUnknown | 1 => Some EvConnect | 2 => Some EvAccept | 3 => Some EvSend
  | 4 => Some EvRecv | 5 => Some EvClose | 6 => Some EvStateChange | 7 => Some EvDns
  | 8 => Some EvTlsHandshake | _ => None
  end.
Definition TransportProtocol_of_u8 (b : Z) : option TransportProtocol :=
  match b with 0 => Some ProtoUnknown | 6 => Some ProtoTcp | 17 => Some ProtoUdp | _ => None end.
Definition Direction_of_u8 (b : Z) : option Direction :=
  match b with 0 => Some DirUnknown | 1 => Some DirIngress | 2 => Some DirEgress | _ => None end.

(** The value behind [&*(bytes.as_ptr() as *const NetEvent)]. *)
Definition NetEvent_of_bytes (l : bytes) : option NetEvent :=
  let int x := from_ne_bytes en <$> read_field NetEvent_ty [x] l in
  let arr x := read_field NetEvent_ty [x] l in
  ts ← int "timestamp_ns"%string; sid ← int "socket_id"%string;
  p ← int "pid"%string; t ← int "tid"%string; u ← int "uid"%string;
  ev ← int "event"%string ≫= EventType_of_u8;
  pr ← int "protocol"%string ≫= TransportProtocol_of_u8;
  di ← int "direction"%string ≫= Direction_of_u8;
  cm ← arr "comm"%string; si ← arr "src_ip"%string; di_ip ← arr "dst_ip"%string;
  sp ← int "src_port"%string; dp ← int "dst_port"%string; r ← int "ret"%string;
  Some {| timestamp_ns := ts; socket_id := sid; ev_pid := p; ev_tid := t; ev_uid := u;
          event := ev; protocol := pr; ev_direction := di; comm := cm; src_ip := si;
          dst_ip := di_ip; src_port := sp; dst_port := dp; ret := as_i32 r |}.
End wire.

(** ** Lemmas *)

Lemma wf_NetEvent_ty : wf_cty NetEvent_ty.
Proof. vm_done. Qed.

Lemma EventType_of_as_u8 e : EventType_of_u8 (EventType_as_u8 e) = Some e.
Proof. by destruct e. Qed.
Lemma TransportProtocol_of_as_u8 p : TransportProtocol_of_u8 (TransportProtocol_as_u8 p) = Some p.
Proof. by destruct p. Qed.
Lemma Direction_of_as_u8 d : Direction_of_u8 (Direction_as_u8 d) = Some d.
Proof. by destruct d. Qed.

Lemma NetEvent_fields_sizes en e :
  wf_NetEvent e →
  Forall2 (λ f v, Z.of_nat (length v) = sizeof f.2)
    (match NetEvent_ty with TStruct fs => fs | _ => [] end) (NetEvent_fields en e).
Proof.
  unfold wf_NetEvent. intros. split_hyps. unfold NetEvent_ty, NetEvent_fields.
  repeat constructor; cbn [sizeof snd]; rewrite ?length_to_ne_bytes by lia;
    try (simpl; lia); unfold TASK_COMM_LEN; simpl; lia.
Qed.

(** The field [x] of the bytes of an event is the [i]-th field's bytes. *)
Lemma NetEvent_read_field en pad e x o t v (i : nat) :
  wf_NetEvent e →
  field NetEvent_ty x = Some (o, t) →
  (match NetEvent_ty with TStruct fs => fs | _ => [] end) !! i = Some (x, t) →
  NetEvent_fields en e !! i = Some v →
  read_field NetEvent_ty [x] (NetEvent_bytes en pad e) = Some v.
Proof.
  intros Hwf Hf Hi Hv. unfold read_field. cbn [offset_of]. rewrite Hf. simpl.
  rewrite Z.add_0_r. rewrite <- (Z.sub_0_r o). unfold NetEvent_bytes, image, NetEvent_ty in *.
  eapply struct_image_field; [apply wf_NetEvent_ty | by apply NetEvent_fields_sizes | done | done | | done].
  apply (bool_decide_unpack _). by vm_compute.
Qed.

Lemma length_NetEvent_bytes en pad e :
  wf_NetEvent e → Z.of_nat (length (NetEvent_bytes en pad e)) = NetEvent_size.
Proof.
  intros Hwf. unfold NetEvent_bytes, image, NetEvent_ty.
  rewrite length_struct_image; [reflexivity | apply wf_NetEvent_ty | done |].
  by apply NetEvent_fields_sizes.
Qed.

Lemma NetEvent_of_bytes_bytes en pad e :
  wf_NetEvent e → NetEvent_of_bytes en (NetEvent_bytes en pad e) = Some e.
Proof.
  intros Hwf. unfold NetEvent_of_bytes.
  rewrite (NetEvent_read_field en pad e "timestamp_ns" 0 (TInt 8) _ 0 Hwf) by reflexivity.
  rewrite (NetEvent_read_field en pad e "socket_id" 8 (TInt 8) _ 1 Hwf) by reflexivity.
  rewrite (NetEvent_read_field en pad e "pid" 16 (TInt 4) _ 2 Hwf) by reflexivity.
  rewrite (NetEvent_read_field en pad e "tid" 20 (TInt 4) _ 3 Hwf) by reflexivity.
  rewrite (NetEvent_read_field en pad e "uid" 24 (TInt 4) _ 4 Hwf) by reflexivity.
  rewrite (NetEvent_read_field en pad e "event" 28 (TInt 1) _ 5 Hwf) by reflexivity.
  rewrite (NetEvent_read_field en pad e "protocol" 29 (TInt 1) _ 6 Hwf) by reflexivity.
  rewrite (NetEvent_read_field en pad e "direction" 30 (TInt 1) _ 7 Hwf) by reflexivity.
  rewrite (NetEvent_read_field en pad e "comm" 31 (TArr (TInt 1) 16) _ 8 Hwf) by reflexivity.
  rewrite (NetEvent_read_field en pad e "src_ip" 47 (TArr (TInt 1) 16) _ 9 Hwf) by reflexivity.
  rewrite (NetEvent_read_field en pad e "dst_ip" 63 (TArr (TInt 1) 16) _ 10 Hwf) by reflexivity.
  rewrite (NetEvent_read_field en pad e "src_port" 80 (TInt 2) _ 11 Hwf) by reflexivity.
  rewrite (NetEvent_read_field en pad e "dst_port" 82 (TInt 2) _ 12 Hwf) by reflexivity.
  rewrite (NetEvent_read_field en pad e "ret" 84 (TInt 4) _ 13 Hwf) by reflexivity.
  unfold wf_NetEvent in Hwf. split_hyps.
  assert (∀ b, from_ne_bytes en [b] = b) as Hb.
  { intros b. destruct en; unfold from_ne_bytes, from_be_bytes, from_le_bytes; simpl;
      unfold little_endian_to_Z; simpl; by rewrite Z.lor_0_r. }
  cbn [fmap option_fmap option_map mbind option_bind NetEvent_fields].
  rewrite !Hb, EventType_of_as_u8, TransportProtocol_of_as_u8, Direction_of_as_u8.
  cbn [mbind option_bind]. rewrite !from_to_ne_bytes by (done || lia || by apply wrap_range).
  assert (as_i32 (wrap 32 (ret e)) = ret e) as ->.
  { transitivity (as_i32 (ret e)); [|by apply as_i32_small].
    unfold as_i32. by rewrite (wrap_small 32 (wrap 32 _)) by (apply wrap_range; lia). }
  by destruct e.
Qed.
