(* ===== verification/BpfMap.v ===== *)
(** * The BPF maps: interfaces and reference implementations

    aya's [HashMap] (user side), aya-ebpf's [HashMap] and [RingBuf] and the
    kernel maps behind them are not part of the repository.  Their operations
    are the classes [BpfHashMap] and [BpfRingBuf]; what the program relies on is
    the classes [BpfHashMapSpec] and [BpfRingBufSpec], which relate them to a
    finite map with a bound on its size and to a queue.  Every theorem on the
    program is proved against the interfaces; [khash] and [kring] implement them. *)

From S2P Require Export Prelude Event.

(** ** Hash maps with [u32] keys *)

Class BpfHashMap (M V : Type) := {
  MapError : Type;
  (** [HashMap::with_max_entries(n, 0)]. *)
  bm_new : nat → M;
  (** [get(&k, 0)], [get_ptr(&k)], [get_ptr_mut(&k)]: the value found. *)
  bm_get : M → Z → option V;
  (** A store through the pointer [get_ptr_mut(&k)] returned. *)
  bm_store : M → Z → V → M;
  (** [insert(k, v, 0)], i.e. BPF_ANY. *)
  bm_insert : M → Z → V → result () MapError * M;
  bm_remove : M → Z → result () MapError * M;
  (** [keys()]: the results the iterator yields. *)
  bm_keys : M → list (result Z MapError);
}.
Arguments MapError _ _ {_}.

(** The documented behaviour of the map operations (man bpf(2): an update of a
    full map fails with E2BIG, a delete of a missing key with ENOENT, and
    neither changes the map), for a map no one else updates meanwhile. *)
Class BpfHashMapSpec (M V : Type) `{BpfHashMap M V} := {
  bm_view : M → gmap Z V;
  bm_cap : M → nat;
  bm_new_spec n : bm_view (bm_new n) = ∅ ∧ bm_cap (bm_new n) = n;
  bm_get_spec m k : bm_get m k = bm_view m !! k;
  bm_store_spec m k v :
    is_Some (bm_view m !! k) →
    bm_view (bm_store m k v) = <[k:=v]> (bm_view m) ∧ bm_cap (bm_store m k v) = bm_cap m;
  bm_insert_ok m k v :
    is_Some (bm_view m !! k) ∨ (size (bm_view m) < bm_cap m)%nat →
    (bm_insert m k v).1 = Ok () ∧ bm_view (bm_insert m k v).2 = <[k:=v]> (bm_view m) ∧
    bm_cap (bm_insert m k v).2 = bm_cap m;
  bm_insert_full m k v :
    bm_view m !! k = None → (bm_cap m ≤ size (bm_view m))%nat →
    is_ok (bm_insert m k v).1 = false ∧ (bm_insert m k v).2 = m;
  bm_remove_ok m k :
    is_Some (bm_view m !! k) →
    (bm_remove m k).1 = Ok () ∧ bm_view (bm_remove m k).2 = delete k (bm_view m) ∧
    bm_cap (bm_remove m k).2 = bm_cap m;
  bm_remove_missing m k :
    bm_view m !! k = None →
    is_ok (bm_remove m k).1 = false ∧ (bm_remove m k).2 = m;
  bm_keys_spec m :
    Permutation (bm_keys m) (Ok <$> (map_to_list (bm_view m)).*1);
}.

(** ** Ring buffers *)

Class BpfRingBuf (R : Type) := {
  (** [RingBuf::with_byte_size(n, 0)]. *)
  rb_new : Z → R;
  (** [output(&value, 0)] of a value with these bytes. *)
  rb_output : R → bytes → result () Z * R;
  (** [next()]: the oldest item, consumed. *)
  rb_next : R → option bytes * R;
}.

(** Records are delivered whole, in order and once; a failed [output] leaves no
    trace. *)
Class BpfRingBufSpec (R : Type) `{BpfRingBuf R} := {
  rb_view : R → list bytes;
  rb_new_spec n : rb_view (rb_new n) = [];
  rb_output_spec r b :
    match (rb_output r b).1 with
    | Ok _ => rb_view (rb_output r b).2 = rb_view r ++ [b]
    | Err _ => rb_view (rb_output r b).2 = rb_view r
    end;
  rb_next_spec r :
    (rb_next r).1 = head (rb_view r) ∧ rb_view (rb_next r).2 = tail (rb_view r);
}.

(** ** Reference implementations *)

Record khash (V : Type) := { kcap : nat; ktbl : gmap Z V }.
Arguments kcap {_} _.
Arguments ktbl {_} _.

Inductive errno := E2BIG | ENOENT.

Definition khash_insert {V} (m : khash V) (k : Z) (v : V) : result () errno * khash V :=
  if bool_decide (is_Some (ktbl m !! k) ∨ (size (ktbl m) < kcap m)%nat)
  then (Ok (), {| kcap := kcap m; ktbl := <[k:=v]> (ktbl m) |})
  else (Err E2BIG, m).

Definition khash_remove {V} (m : khash V) (k : Z) : result () errno * khash V :=
  match ktbl m !! k with
  | Some _ => (Ok (), {| kcap := kcap m; ktbl := delete k (ktbl m) |})
  | None => (Err ENOENT, m)
  end.

#[export] Instance khash_BpfHashMap V : BpfHashMap (khash V) V := {
  MapError := errno;
  bm_new n := {| kcap := n; ktbl := ∅ |};
  bm_get m k := ktbl m !! k;
  bm_store m k v := {| kcap := kcap m; ktbl := <[k:=v]> (ktbl m) |};
  bm_insert := khash_insert;
  bm_remove := khash_remove;
  bm_keys m := Ok <$> (map_to_list (ktbl m)).*1;
}.

#[export] Instance khash_BpfHashMapSpec V : BpfHashMapSpec (khash V) V.
Proof.
  refine {| bm_view := ktbl; bm_cap := kcap |}; simpl; try done.
  - intros m k v Hk. unfold khash_insert. by rewrite bool_decide_true.
  - intros m k v Hk Hfull. unfold khash_insert. rewrite bool_decide_false; [done|].
    rewrite Hk. intros [[? ?]|?]; [done | lia].
  - intros m k [v Hk]. unfold khash_remove. by rewrite Hk.
  - intros m k Hk. unfold khash_remove. by rewrite Hk.
Defined.

(** A ring buffer of a byte size: a record takes its length and eight bytes of
    header. *)
Record kring := { kring_size : Z; kring_items : list bytes }.

Definition kring_used (r : kring) : Z :=
  fold_right (λ b n, Z.of_nat (length b) + 8 + n) 0 (kring_items r).

#[export] Instance kring_BpfRingBuf : BpfRingBuf kring := {
  rb_new n := {| kring_size := n; kring_items := [] |};
  rb_output r b :=
    if bool_decide (kring_used r + Z.of_nat (length b) + 8 ≤ kring_size r)
    then (Ok (), {| kring_size := kring_size r; kring_items := kring_items r ++ [b] |})
    else (Err (-1), r);
  rb_next r :=
    (head (kring_items r), {| kring_size := kring_size r; kring_items := tail (kring_items r) |});
}.

#[export] Instance kring_BpfRingBufSpec : BpfRingBufSpec kring.
Proof.
  refine {| rb_view := kring_items |}; simpl; try done.
  intros r b. by case_bool_decide.
Defined.

(** ** Derived lemmas, for any implementation *)

Section derived.
Context `{BpfHashMapSpec M V}.

Lemma bm_insert_view (m : M) k v :
  bm_view (bm_insert m k v).2 =
    (if decide (is_Some (bm_view m !! k) ∨ (size (bm_view m) < bm_cap m)%nat)
     then <[k:=v]> (bm_view m) else bm_view m) ∧
  bm_cap (bm_insert m k v).2 = bm_cap m.
Proof.
  case_decide as Hk; [by apply bm_insert_ok|].
  destruct (bm_view m !! k) eqn:Hm; [exfalso; naive_solver|].
  destruct (bm_insert_full m k v Hm) as [_ ->]; [|done].
  destruct (Nat.le_gt_cases (bm_cap m) (size (bm_view m))); [done | exfalso; auto].
Qed.

Lemma bm_remove_view (m : M) k :
  bm_view (bm_remove m k).2 = delete k (bm_view m) ∧ bm_cap (bm_remove m k).2 = bm_cap m.
Proof.
  destruct (bm_view m !! k) eqn:Hm.
  - by apply bm_remove_ok; rewrite Hm.
  - destruct (bm_remove_missing m k Hm) as [_ ->]. by rewrite delete_id.
Qed.

Lemma bm_keys_elem (m : M) r : r ∈ bm_keys m ↔ ∃ k v, r = Ok k ∧ bm_view m !! k = Some v.
Proof.
  rewrite bm_keys_spec, list_elem_of_fmap. setoid_rewrite list_elem_of_fmap. split.
  - intros (k & -> & [k' v] & -> & Hkv). apply elem_of_map_to_list in Hkv. eauto.
  - intros (k & v & -> & Hkv). exists k. split; [done|]. exists (k, v).
    split; [done|]. by apply elem_of_map_to_list.
Qed.

End derived.
