(* ===== verification/Bitfield.v ===== *)
(** * bindgen's bitfields ([__BindgenBitfieldUnit] of [rustguard-ebpf/src/vmlinux.rs])

    The bit-by-bit reads and writes behind the accessors of the kernel's bit
    fields, on either byte order, and what they compute. *)

From S2P Require Export Prelude.

Section bitfield.
(** [cfg!(target_endian = "big")] and [cfg!(debug_assertions)]. *)
Context (en : endian) (dbg : bool).

(** [debug_assert!(p)]; [None] is a panic. *)
Definition debug_assert (p : bool) : option () := if dbg && negb p then None else Some ().

Definition bit_index (index : Z) : Z :=
  match en with BigEndian => 7 - index `mod` 8 | LittleEndian => index `mod` 8 end.

Definition extract_bit (byte index : Z) : bool :=
  let mask := Z.shiftl 1 (bit_index index) in Z.land byte mask =? mask.

Definition get_bit (storage : bytes) (index : Z) : option bool :=
  _ ← debug_assert (index `div` 8 <? Z.of_nat (length storage));
  let byte_index := index `div` 8 in
  byte ← storage !! Z.to_nat byte_index; Some (extract_bit byte index).

Definition change_bit (byte index : Z) (val : bool) : Z :=
  let mask := Z.shiftl 1 (bit_index index) in
  if val then Z.lor byte mask else Z.land byte (Z.lxor 255 mask).

Definition set_bit (storage : bytes) (index : Z) (val : bool) : option bytes :=
  _ ← debug_assert (index `div` 8 <? Z.of_nat (length storage));
  let byte_index := index `div` 8 in
  byte ← storage !! Z.to_nat byte_index;
  Some (<[Z.to_nat byte_index := change_bit byte index val]> storage).

(** The place in the value of the [i]-th bit of a field. *)
Definition value_index (bit_width i : Z) : Z :=
  match en with BigEndian => bit_width - 1 - i | LittleEndian => i end.

Definition bounds_asserts (storage : bytes) (bit_offset bit_width : Z) : option () :=
  _ ← debug_assert (bit_width <=? 64);
  _ ← debug_assert (bit_offset `div` 8 <? Z.of_nat (length storage));
  debug_assert ((bit_offset + bit_width) `div` 8 <=? Z.of_nat (length storage)).

(** [for i in 0..bit_width] of [get], with [todo] turns left. *)
Fixpoint get_loop (storage : bytes) (bit_offset bit_width : Z) (todo : nat) (i val : Z) :
    option Z :=
  match todo with
  | O => Some val
  | S todo =>
      b ← get_bit storage (i + bit_offset);
      let val := if (b : bool) then Z.lor val (Z.shiftl 1 (value_index bit_width i)) else val in
      get_loop storage bit_offset bit_width todo (i + 1) val
  end.

Definition bf_get (storage : bytes) (bit_offset bit_width : Z) : option Z :=
  _ ← bounds_asserts storage bit_offset bit_width;
  get_loop storage bit_offset bit_width (Z.to_nat bit_width) 0 0.

Fixpoint set_loop (storage : bytes) (bit_offset bit_width val : Z) (todo : nat) (i : Z) :
    option bytes :=
  match todo with
  | O => Some storage
  | S todo =>
      let mask := Z.shiftl 1 i in
      let val_bit_is_set := Z.land val mask =? mask in
      storage ← set_bit storage (value_index bit_width i + bit_offset) val_bit_is_set;
      set_loop storage bit_offset bit_width val todo (i + 1)
  end.

Definition bf_set (storage : bytes) (bit_offset bit_width val : Z) : option bytes :=
  _ ← bounds_asserts storage bit_offset bit_width;
  set_loop storage bit_offset bit_width val (Z.to_nat bit_width) 0.

(** The [raw_] variants read and write the storage through a pointer: [size] is
    [size_of::<Storage>()], and an access outside it is undefined behaviour. *)
Definition raw_get_bit (size : Z) (storage : bytes) (index : Z) : option bool :=
  _ ← debug_assert (index `div` 8 <? size);
  byte ← storage !! Z.to_nat (index `div` 8); Some (extract_bit byte index).

Definition raw_set_bit (size : Z) (storage : bytes) (index : Z) (val : bool) : option bytes :=
  _ ← debug_assert (index `div` 8 <? size);
  byte ← storage !! Z.to_nat (index `div` 8);
  Some (<[Z.to_nat (index `div` 8) := change_bit byte index val]> storage).

Definition raw_bounds_asserts (size bit_offset bit_width : Z) : option () :=
  _ ← debug_assert (bit_width <=? 64);
  _ ← debug_assert (bit_offset `div` 8 <? size);
  debug_assert ((bit_offset + bit_width) `div` 8 <=? size).

Fixpoint raw_get_loop (size : Z) (storage : bytes) (bit_offset bit_width : Z) (todo : nat)
    (i val : Z) : option Z :=
  match todo with
  | O => Some val
  | S todo =>
      b ← raw_get_bit size storage (i + bit_offset);
      let val := if (b : bool) then Z.lor val (Z.shiftl 1 (value_index bit_width i)) else val in
      raw_get_loop size storage bit_offset bit_width todo (i + 1) val
  end.

Definition raw_get (size : Z) (storage : bytes) (bit_offset bit_width : Z) : option Z :=
  _ ← raw_bounds_asserts size bit_offset bit_width;
  raw_get_loop size storage bit_offset bit_width (Z.to_nat bit_width) 0 0.

Fixpoint raw_set_loop (size : Z) (storage : bytes) (bit_offset bit_width val : Z) (todo : nat)
    (i : Z) : option bytes :=
  match todo with
  | O => Some storage
  | S todo =>
      let mask := Z.shiftl 1 i in
      let val_bit_is_set := Z.land val mask =? mask in
      storage ← raw_set_bit size storage (value_index bit_width i + bit_offset) val_bit_is_set;
      raw_set_loop size storage bit_offset bit_width val todo (i + 1)
  end.

Definition raw_set (size : Z) (storage : bytes) (bit_offset bit_width val : Z) : option bytes :=
  _ ← raw_bounds_asserts size bit_offset bit_width;
  raw_set_loop size storage bit_offset bit_width val (Z.to_nat bit_width) 0.

(** ** Lemmas *)

(** The bit of the storage at an index. *)
Definition bit_at (storage : bytes) (j : Z) : bool :=
  extract_bit (default 0 (storage !! Z.to_nat (j `div` 8))) j.

(** A field inside the storage. *)
Definition fits (storage : bytes) (off w : Z) : Prop :=
  0 ≤ off ∧ 0 < w ≤ 64 ∧ off + w ≤ 8 * Z.of_nat (length storage).

Lemma bit_index_range j : 0 ≤ bit_index j < 8.
Proof. unfold bit_index. pose proof (Z.mod_pos_bound j 8). destruct en; lia. Qed.

Lemma bit_index_inj j k : j `div` 8 = k `div` 8 → bit_index j = bit_index k → j = k.
Proof.
  unfold bit_index. pose proof (Z.div_mod j 8). pose proof (Z.div_mod k 8). destruct en; lia.
Qed.

Lemma land_mask_test z n : 0 ≤ n → (Z.land z (Z.shiftl 1 n) =? Z.shiftl 1 n) = Z.testbit z n.
Proof.
  intros Hn. rewrite Z.shiftl_1_l. destruct (Z.testbit z n) eqn:Hb.
  - apply Z.eqb_eq, Z.bits_inj'. intros m Hm. rewrite Z.land_spec.
    destruct (decide (m = n)) as [->|].
    + by rewrite Hb, Z.pow2_bits_true.
    + by rewrite Z.pow2_bits_false, andb_false_r.
  - apply Z.eqb_neq. intros Heq. apply (f_equal (λ x, Z.testbit x n)) in Heq.
    by rewrite Z.land_spec, Hb, Z.pow2_bits_true in Heq.
Qed.

Lemma extract_bit_testbit b j : extract_bit b j = Z.testbit b (bit_index j).
Proof. apply land_mask_test, bit_index_range. Qed.

Lemma change_bit_testbit b j v m :
  is_byte b → 0 ≤ m < 8 →
  Z.testbit (change_bit b j v) m = if decide (m = bit_index j) then v else Z.testbit b m.
Proof.
  intros Hb Hm. unfold change_bit. rewrite Z.shiftl_1_l. pose proof (bit_index_range j).
  destruct v.
  - rewrite Z.lor_spec. case_decide; subst.
    + by rewrite Z.pow2_bits_true, orb_true_r by lia.
    + by rewrite Z.pow2_bits_false, orb_false_r by lia.
  - rewrite Z.land_spec, Z.lxor_spec. change 255 with (Z.ones 8).
    rewrite Z.ones_spec_low by lia. case_decide; subst.
    + by rewrite Z.pow2_bits_true, andb_false_r by lia.
    + by rewrite Z.pow2_bits_false, andb_true_r by lia.
Qed.

Lemma change_bit_byte b j v : is_byte b → is_byte (change_bit b j v).
Proof.
  intros Hb. pose proof (bit_index_range j). unfold change_bit. rewrite Z.shiftl_1_l.
  assert (∀ x, 0 ≤ x → (∀ m, 8 ≤ m → Z.testbit x m = false) → is_byte x) as Hx.
  { intros x Hx Hbits. split; [done|].
    destruct (decide (x = 0)) as [->|]; [lia|]. apply Z.log2_lt_pow2; [lia|].
    destruct (Z_lt_le_dec (Z.log2 x) 8); [done|].
    pose proof (Z.bit_log2 x ltac:(lia)) as Hl. by rewrite Hbits in Hl. }
  assert (∀ m, 8 ≤ m → Z.testbit b m = false) as Hhigh.
  { intros m Hm. destruct Hb as [Hb0 Hb1]. destruct (decide (b = 0)) as [->|]; [apply Z.bits_0|].
    apply Z.bits_above_log2; [done|]. apply Z.log2_lt_pow2 in Hb1; lia. }
  destruct Hb as [Hb0 _]. apply Hx.
  - destruct v; [apply Z.lor_nonneg | apply Z.land_nonneg]; lia.
  - intros m Hm. destruct v; rewrite ?Z.lor_spec, ?Z.land_spec, Hhigh by done; [|done].
    rewrite Z.pow2_bits_false by lia. done.
Qed.

Lemma debug_assert_true p : p = true → debug_assert p = Some ().
Proof. intros ->. unfold debug_assert. by rewrite andb_false_r. Qed.

Lemma index_div j (l : bytes) :
  0 ≤ j < 8 * Z.of_nat (length l) →
  0 ≤ j `div` 8 < Z.of_nat (length l) ∧ (Z.to_nat (j `div` 8) < length l)%nat.
Proof.
  intros Hj. pose proof (Z.div_pos j 8). pose proof (Z.div_lt_upper_bound j 8 (Z.of_nat (length l))).
  lia.
Qed.

Lemma get_bit_spec l j :
  0 ≤ j < 8 * Z.of_nat (length l) → get_bit l j = Some (bit_at l j).
Proof.
  intros Hj. destruct (index_div j l Hj) as [Hd Hn]. unfold get_bit, bit_at.
  rewrite debug_assert_true by (apply Z.ltb_lt; lia). simpl.
  destruct (lookup_lt_is_Some_2 l _ Hn) as [b ->]. done.
Qed.

Lemma set_bit_spec l j v :
  wf_bytes l → 0 ≤ j < 8 * Z.of_nat (length l) →
  ∃ l', set_bit l j v = Some l' ∧ length l' = length l ∧ wf_bytes l' ∧
    ∀ k, 0 ≤ k → bit_at l' k = if decide (k = j) then v else bit_at l k.
Proof.
  intros Hl Hj. destruct (index_div j l Hj) as [Hd Hn]. unfold set_bit, bit_at.
  rewrite debug_assert_true by (apply Z.ltb_lt; lia). simpl.
  destruct (lookup_lt_is_Some_2 l _ Hn) as [b Hb]. rewrite Hb. simpl.
  assert (is_byte b) as Hbb by (by eapply Forall_lookup_1 in Hl).
  eexists. split; [done|]. split_and!.
  - apply length_insert.
  - by apply Forall_insert, change_bit_byte.
  - intros k Hk. rewrite !extract_bit_testbit.
    destruct (decide (k `div` 8 = j `div` 8)) as [Heq|Hne].
    + rewrite Heq, list_lookup_insert_eq, Hb by done. simpl.
      rewrite change_bit_testbit by (done || apply bit_index_range).
      repeat case_decide; try done; subst; [|done]. by destruct (bit_index_inj k j Heq).
    + rewrite list_lookup_insert_ne by (pose proof (Z.div_pos k 8); lia).
      rewrite decide_False by congruence. done.
Qed.

Lemma bounds_asserts_ok l off w : fits l off w → bounds_asserts l off w = Some ().
Proof.
  intros (? & ? & ?). unfold bounds_asserts. rewrite !debug_assert_true; [done|..].
  all: first [apply Z.ltb_lt, Z.div_lt_upper_bound; lia
             | apply Z.leb_le, Z.div_le_upper_bound; lia | apply Z.leb_le; lia].
Qed.

Lemma value_index_range w i : 0 ≤ i < w → 0 ≤ value_index w i < w.
Proof. unfold value_index. destruct en; lia. Qed.

Lemma value_index_involutive w i : value_index w (value_index w i) = i.
Proof. unfold value_index. destruct en; lia. Qed.

Lemma get_loop_spec l off w todo i val :
  fits l off w → 0 ≤ i → i + Z.of_nat todo = w → 0 ≤ val →
  ∃ v, get_loop l off w todo i val = Some v ∧ 0 ≤ v ∧
    ∀ m, 0 ≤ m → Z.testbit v m = Z.testbit val m ||
      (bool_decide (i ≤ value_index w m < w) && bit_at l (off + value_index w m)).
Proof.
  intros Hfit. revert i val. induction todo as [|todo IH]; intros i val Hi Htodo Hval; simpl.
  - exists val. split_and!; [done..|]. intros m Hm.
    rewrite bool_decide_false by lia. by rewrite orb_false_r.
  - destruct Hfit as (Hoff & Hw & Hlen) eqn:Hf. rewrite get_bit_spec by lia. simpl.
    pose proof (value_index_range w i ltac:(lia)) as Hvi.
    edestruct (IH (i + 1)) as (v & Hv & Hv0 & Hbits); [lia | lia | |].
    2:{ exists v. split_and!; [exact Hv | done |]. intros m Hm. rewrite Hbits by done.
        assert (Z.testbit (if bit_at l (i + off) then Z.lor val (Z.shiftl 1 (value_index w i)) else val) m
          = Z.testbit val m || (bool_decide (value_index w m = i) && bit_at l (off + i))) as ->.
        { rewrite (Z.add_comm off i). destruct (bit_at l (i + off)); [|by rewrite andb_false_r, orb_false_r].
          rewrite Z.lor_spec, andb_true_r, Z.shiftl_1_l. f_equal. case_bool_decide as Heq.
          - rewrite <- Heq, value_index_involutive. by apply Z.pow2_bits_true.
          - apply Z.pow2_bits_false. intros <-. apply Heq, value_index_involutive. }
        rewrite <- orb_assoc. f_equal.
        destruct (decide (value_index w m = i)) as [->|].
        - rewrite bool_decide_true, (bool_decide_false (i + 1 ≤ i < w)), (bool_decide_true (i ≤ i < w)) by lia.
          by rewrite orb_false_r.
        - rewrite bool_decide_false by done. simpl. f_equal.
          apply bool_decide_ext. lia. }
    destruct (bit_at l (i + off)); [|done]. apply Z.lor_nonneg.
    rewrite Z.shiftl_1_l. split; [done|]. apply Z.pow_nonneg. lia.
Qed.

(** A read of a field inside the storage yields the number with its bits. *)
Lemma bf_get_spec l off w :
  fits l off w →
  ∃ v, bf_get l off w = Some v ∧ in_u w v ∧
    ∀ m, 0 ≤ m < w → Z.testbit v m = bit_at l (off + value_index w m).
Proof.
  intros Hfit. pose proof Hfit as (Hoff & Hw & Hlen). unfold bf_get.
  rewrite bounds_asserts_ok by done. simpl. destruct (get_loop_spec l off w (Z.to_nat w) 0 0) as (v & -> & Hv0 & Hbits); [done | lia..|].
  exists v. split; [done|]. assert (∀ m, 0 ≤ m < w → 0 ≤ value_index w m < w) as Hvi
    by (intros; by apply value_index_range).
  split.
  - split; [done|]. destruct (decide (v = 0)) as [->|]; [lia|].
    apply Z.log2_lt_pow2; [lia|]. destruct (Z_lt_le_dec (Z.log2 v) w) as [|Hge]; [done|].
    pose proof (Z.bit_log2 v ltac:(lia)) as Hl. rewrite Hbits in Hl by lia.
    rewrite Z.bits_0 in Hl. simpl in Hl. rewrite bool_decide_false in Hl; [done|].
    unfold value_index. destruct en; lia.
  - intros m Hm. rewrite Hbits, Z.bits_0 by lia. simpl. by rewrite bool_decide_true by auto.
Qed.

Lemma set_loop_spec l off w val todo i :
  wf_bytes l → fits l off w → 0 ≤ i → i + Z.of_nat todo = w →
  ∃ l', set_loop l off w val todo i = Some l' ∧ length l' = length l ∧ wf_bytes l' ∧
    ∀ k, 0 ≤ k → bit_at l' k =
      if decide (off ≤ k < off + w ∧ i ≤ value_index w (k - off))
      then Z.testbit val (value_index w (k - off)) else bit_at l k.
Proof.
  intros Hwf Hfit. revert i l Hwf Hfit. induction todo as [|todo IH]; intros i l Hwf Hfit Hi Htodo; simpl.
  - exists l. split_and!; [done..|]. intros k Hk. rewrite decide_False; [done|].
    intros [? ?]. pose proof (value_index_range w (k - off)). lia.
  - pose proof Hfit as (Hoff & Hw & Hlen). pose proof (value_index_range w i ltac:(lia)) as Hvi.
    rewrite land_mask_test by done.
    destruct (set_bit_spec l (value_index w i + off) (Z.testbit val i) Hwf) as (l1 & -> & Hl1 & Hw1 & Hb1);
      [lia|]. simpl.
    destruct (IH (i + 1) l1 Hw1) as (l' & -> & Hl' & Hw' & Hb'); [by unfold fits; rewrite Hl1 | lia..|].
    exists l'. split_and!; [done | congruence | done |]. intros k Hk. rewrite Hb', Hb1 by done.
    destruct (decide (k = value_index w i + off)) as [->|Hne].
    + replace (value_index w i + off - off) with (value_index w i) by lia.
      rewrite value_index_involutive. rewrite decide_False by lia. by rewrite decide_True by lia.
    + assert (off ≤ k < off + w → value_index w (k - off) ≠ i).
      { intros Hr Heq. apply Hne. rewrite <- Heq, value_index_involutive. lia. }
      repeat case_decide; try done; lia.
Qed.

(** A write to a field inside the storage changes its bits and no other. *)
Lemma bf_set_spec l off w val :
  wf_bytes l → fits l off w →
  ∃ l', bf_set l off w val = Some l' ∧ length l' = length l ∧ wf_bytes l' ∧
    ∀ k, 0 ≤ k → bit_at l' k =
      if decide (off ≤ k < off + w) then Z.testbit val (value_index w (k - off)) else bit_at l k.
Proof.
  intros Hwf Hfit. pose proof Hfit as (Hoff & Hw & Hlen). unfold bf_set.
  rewrite bounds_asserts_ok by done. simpl. destruct (set_loop_spec l off w val (Z.to_nat w) 0 Hwf) as (l' & -> & Hl & Hw' & Hb); [done | lia..|].
  exists l'. split_and!; [done..|]. intros k Hk. rewrite Hb by done.
  repeat case_decide; try done; [lia|]. pose proof (value_index_range w (k - off)). lia.
Qed.

Lemma bf_get_set_same l off w val :
  wf_bytes l → fits l off w →
  ∃ l', bf_set l off w val = Some l' ∧ length l' = length l ∧ wf_bytes l' ∧
    bf_get l' off w = Some (wrap w val).
Proof.
  intros Hwf Hfit. pose proof Hfit as (Hoff & Hw & Hlen).
  destruct (bf_set_spec l off w val Hwf Hfit) as (l' & Hs & Hl & Hw' & Hb).
  exists l'. split_and!; [done..|].
  destruct (bf_get_spec l' off w) as (v & -> & Hv & Hbits); [by unfold fits; rewrite Hl|].
  f_equal. rewrite <- (wrap_small w v) by done. unfold wrap. apply Z.bits_inj'. intros m Hm.
  destruct (Z_lt_le_dec m w).
  - rewrite !Z.mod_pow2_bits_low by lia. rewrite Hbits by lia.
    pose proof (value_index_range w m ltac:(lia)). rewrite Hb, decide_True by lia.
    replace (off + value_index w m - off) with (value_index w m) by lia.
    by rewrite value_index_involutive.
  - by rewrite !Z.mod_pow2_bits_high by lia.
Qed.

Lemma bf_get_set_other l off w val off' w' :
  wf_bytes l → fits l off w → fits l off' w' → off + w ≤ off' ∨ off' + w' ≤ off →
  ∃ l', bf_set l off w val = Some l' ∧ bf_get l' off' w' = bf_get l off' w'.
Proof.
  intros Hwf Hfit Hfit' Hdis. pose proof Hfit as (Hoff & Hw & Hlen).
  pose proof Hfit' as (Hoff' & Hw' & Hlen').
  destruct (bf_set_spec l off w val Hwf Hfit) as (l' & Hs & Hl & _ & Hb).
  exists l'. split; [done|].
  destruct (bf_get_spec l' off' w') as (v & -> & Hv & Hbits); [by unfold fits; rewrite Hl|].
  destruct (bf_get_spec l off' w' Hfit') as (u & -> & Hu & Hbits').
  f_equal. rewrite <- (wrap_small w' v), <- (wrap_small w' u) by done. unfold wrap.
  apply Z.bits_inj'. intros m Hm. destruct (Z_lt_le_dec m w').
  - rewrite !Z.mod_pow2_bits_low by lia. rewrite Hbits, Hbits' by lia.
    pose proof (value_index_range w' m ltac:(lia)). by rewrite Hb, decide_False by lia.
  - by rewrite !Z.mod_pow2_bits_high by lia.
Qed.

(** The [raw_] variants agree with the methods on the storage of a unit. *)
Lemma raw_get_eq l off w : raw_get (Z.of_nat (length l)) l off w = bf_get l off w.
Proof.
  unfold raw_get, bf_get, raw_bounds_asserts, bounds_asserts.
  assert (∀ todo i val, raw_get_loop (Z.of_nat (length l)) l off w todo i val =
    get_loop l off w todo i val) as Hloop.
  { induction todo as [|todo IH]; intros i val; simpl; [done|].
    change (raw_get_bit (Z.of_nat (length l)) l (i + off)) with (get_bit l (i + off)).
    destruct (get_bit l (i + off)); simpl; [apply IH | done]. }
  by rewrite Hloop.
Qed.

Lemma raw_set_eq l off w val : raw_set (Z.of_nat (length l)) l off w val = bf_set l off w val.
Proof.
  unfold raw_set, bf_set, raw_bounds_asserts, bounds_asserts.
  assert (∀ n, n = Z.of_nat (length l) → ∀ todo i, raw_set_loop n l off w val todo i =
    set_loop l off w val todo i) as Hloop; [|by rewrite Hloop].
  intros n Hn todo. revert l Hn. induction todo as [|todo IH]; intros l Hn i; simpl; [done|].
  assert (∀ j v, raw_set_bit n l j v = set_bit l j v) as -> by (by subst).
  destruct (set_bit l _ _) as [l1|] eqn:Hs; simpl; [|done]. apply IH.
  unfold set_bit in Hs. destruct (debug_assert _); simplify_eq/=.
  destruct (l !! _); simplify_eq/=. by rewrite length_insert.
Qed.
End bitfield.
