(* ===== verification/Vmlinux.v ===== *)
(** * The kernel types behind a TCP socket ([rustguard-ebpf/src/vmlinux.rs])

    The bindings of [struct tcp_sock] and of every type it holds by value, down
    to [struct sock] and [struct sock_common], which [socket.rs] reads.  Each
    definition has the name of its Rust type and lists its fields in order; a
    type that appears only behind a pointer is not needed.  [c_long] is eight
    bytes, as on the 64-bit BPF target. *)

From S2P Require Export Prelude Layout.

Module vmlinux.

Definition ptr : cty := TInt 8.
(** [PhantomData<T>] takes no room, and neither do the elements. *)
Definition __IncompleteArrayField (t : cty) : cty :=
  TStruct [("0", TStruct []); ("1", TArr t 0)]%string.
Definition __BindgenBitfieldUnit (n : Z) : cty := TStruct [("storage", TArr (TInt 1) n)]%string.

Definition __u64 : cty := TInt 8.
Definition __addrpair : cty := __u64.
Definition __u32 : cty := TInt 4.
Definition __be32 : cty := __u32.
Definition sock_common__bindgen_ty_1__bindgen_ty_1 : cty := TStruct [
  ("skc_daddr", __be32); ("skc_rcv_saddr", __be32)
]%string.
Definition sock_common__bindgen_ty_1 : cty := TUnion [
  ("skc_addrpair", __addrpair); ("__bindgen_anon_1", sock_common__bindgen_ty_1__bindgen_ty_1)
]%string.
Definition __u16 : cty := TInt 2.
Definition sock_common__bindgen_ty_2 : cty := TUnion [
  ("skc_hash", TInt 4); ("skc_u16hashes", TArr __u16 2)
]%string.
Definition __portpair : cty := __u32.
Definition __be16 : cty := __u16.
Definition sock_common__bindgen_ty_3__bindgen_ty_1 : cty := TStruct [
  ("skc_dport", __be16); ("skc_num", __u16)
]%string.
Definition sock_common__bindgen_ty_3 : cty := TUnion [
  ("skc_portpair", __portpair); ("__bindgen_anon_1", sock_common__bindgen_ty_3__bindgen_ty_1)
]%string.
Definition hlist_node : cty := TStruct [
  ("next", ptr); ("pprev", ptr)
]%string.
Definition sock_common__bindgen_ty_4 : cty := TUnion [
  ("skc_bind_node", hlist_node); ("skc_portaddr_node", hlist_node)
]%string.
Definition possible_net_t : cty := TStruct [
  ("net", ptr)
]%string.
Definition __u8 : cty := TInt 1.
Definition in6_addr__bindgen_ty_1 : cty := TUnion [
  ("u6_addr8", TArr __u8 16); ("u6_addr16", TArr __be16 8); ("u6_addr32", TArr __be32 4)
]%string.
Definition in6_addr : cty := TStruct [
  ("in6_u", in6_addr__bindgen_ty_1)
]%string.
Definition __s64 : cty := TInt 8.
Definition s64 : cty := __s64.
Definition atomic64_t : cty := TStruct [
  ("counter", s64)
]%string.
Definition sock_common__bindgen_ty_5 : cty := TUnion [
  ("skc_flags", TInt 8); ("skc_listener", ptr); ("skc_tw_dr", ptr)
]%string.
Definition hlist_nulls_node : cty := TStruct [
  ("next", ptr); ("pprev", ptr)
]%string.
Definition sock_common__bindgen_ty_6 : cty := TUnion [
  ("skc_node", hlist_node); ("skc_nulls_node", hlist_nulls_node)
]%string.
Definition u32_ : cty := __u32.
Definition sock_common__bindgen_ty_7 : cty := TUnion [
  ("skc_incoming_cpu", TInt 4); ("skc_rcv_wnd", u32_); ("skc_tw_rcv_nxt", u32_)
]%string.
Definition atomic_t : cty := TStruct [
  ("counter", TInt 4)
]%string.
Definition refcount_struct : cty := TStruct [
  ("refs", atomic_t)
]%string.
Definition refcount_t : cty := refcount_struct.
Definition sock_common__bindgen_ty_8 : cty := TUnion [
  ("skc_rxhash", u32_); ("skc_window_clamp", u32_); ("skc_tw_snd_nxt", u32_)
]%string.
Definition sock_common : cty := TStruct [
  ("__bindgen_anon_1", sock_common__bindgen_ty_1);
  ("__bindgen_anon_2", sock_common__bindgen_ty_2);
  ("__bindgen_anon_3", sock_common__bindgen_ty_3); ("skc_family", TInt 2);
  ("skc_state", TInt 1); ("_bitfield_align_1", TArr (TInt 1) 0);
  ("_bitfield_1", __BindgenBitfieldUnit 1); ("skc_bound_dev_if", TInt 4);
  ("__bindgen_anon_4", sock_common__bindgen_ty_4); ("skc_prot", ptr);
  ("skc_net", possible_net_t); ("skc_v6_daddr", in6_addr); ("skc_v6_rcv_saddr", in6_addr);
  ("skc_cookie", atomic64_t); ("__bindgen_anon_5", sock_common__bindgen_ty_5);
  ("skc_dontcopy_begin", __IncompleteArrayField (TInt 4));
  ("__bindgen_anon_6", sock_common__bindgen_ty_6); ("skc_tx_queue_mapping", TInt 2);
  ("skc_rx_queue_mapping", TInt 2); ("__bindgen_anon_7", sock_common__bindgen_ty_7);
  ("skc_refcnt", refcount_t); ("skc_dontcopy_end", __IncompleteArrayField (TInt 4));
  ("__bindgen_anon_8", sock_common__bindgen_ty_8)
]%string.
Definition __s32 : cty := TInt 4.
Definition sk_buff_head__bindgen_ty_1__bindgen_ty_1 : cty := TStruct [
  ("next", ptr); ("prev", ptr)
]%string.
Definition sk_buff_list : cty := TStruct [
  ("next", ptr); ("prev", ptr)
]%string.
Definition sk_buff_head__bindgen_ty_1 : cty := TUnion [
  ("__bindgen_anon_1", sk_buff_head__bindgen_ty_1__bindgen_ty_1); ("list", sk_buff_list)
]%string.
Definition u8_ : cty := __u8.
Definition qspinlock__bindgen_ty_1__bindgen_ty_1 : cty := TStruct [
  ("locked", u8_); ("pending", u8_)
]%string.
Definition u16_ : cty := __u16.
Definition qspinlock__bindgen_ty_1__bindgen_ty_2 : cty := TStruct [
  ("locked_pending", u16_); ("tail", u16_)
]%string.
Definition qspinlock__bindgen_ty_1 : cty := TUnion [
  ("val", atomic_t); ("__bindgen_anon_1", qspinlock__bindgen_ty_1__bindgen_ty_1);
  ("__bindgen_anon_2", qspinlock__bindgen_ty_1__bindgen_ty_2)
]%string.
Definition qspinlock : cty := TStruct [
  ("__bindgen_anon_1", qspinlock__bindgen_ty_1)
]%string.
Definition arch_spinlock_t : cty := qspinlock.
Definition raw_spinlock : cty := TStruct [
  ("raw_lock", arch_spinlock_t)
]%string.
Definition spinlock__bindgen_ty_1 : cty := TUnion [
  ("rlock", raw_spinlock)
]%string.
Definition spinlock : cty := TStruct [
  ("__bindgen_anon_1", spinlock__bindgen_ty_1)
]%string.
Definition spinlock_t : cty := spinlock.
Definition sk_buff_head : cty := TStruct [
  ("__bindgen_anon_1", sk_buff_head__bindgen_ty_1); ("qlen", __u32); ("lock", spinlock_t)
]%string.
Definition sock__bindgen_ty_1 : cty := TStruct [
  ("rmem_alloc", atomic_t); ("len", TInt 4); ("head", ptr); ("tail", ptr)
]%string.
Definition sock__bindgen_ty_2 : cty := TUnion [
  ("sk_wq", ptr); ("sk_wq_raw", ptr)
]%string.
Definition list_head : cty := TStruct [
  ("next", ptr); ("prev", ptr)
]%string.
Definition wait_queue_head : cty := TStruct [
  ("lock", spinlock_t); ("head", list_head)
]%string.
Definition wait_queue_head_t : cty := wait_queue_head.
Definition socket_lock_t : cty := TStruct [
  ("slock", spinlock_t); ("owned", TInt 4); ("wq", wait_queue_head_t)
]%string.
Definition rb_root : cty := TStruct [
  ("rb_node", ptr)
]%string.
Definition sock__bindgen_ty_3 : cty := TUnion [
  ("sk_send_head", ptr); ("tcp_rtx_queue", rb_root)
]%string.
Definition page_frag : cty := TStruct [
  ("page", ptr); ("offset", __u32); ("size", __u32)
]%string.
Definition timer_list : cty := TStruct [
  ("entry", hlist_node); ("expires", TInt 8); ("function", ptr); ("flags", u32_)
]%string.
Definition sock__bindgen_ty_4 : cty := TUnion [
  ("sk_timer", timer_list); ("tcp_retransmit_timer", timer_list);
  ("mptcp_retransmit_timer", timer_list)
]%string.
Definition __kernel_uid32_t : cty := TInt 4.
Definition uid_t : cty := __kernel_uid32_t.
Definition kuid_t : cty := TStruct [
  ("val", uid_t)
]%string.
Definition u64_ : cty := __u64.
Definition netdev_features_t : cty := u64_.
Definition gfp_t : cty := TInt 4.
Definition bool_ : cty := TInt 1.
Definition qrwlock__bindgen_ty_1__bindgen_ty_1 : cty := TStruct [
  ("wlocked", u8_); ("__lstate", TArr u8_ 3)
]%string.
Definition qrwlock__bindgen_ty_1 : cty := TUnion [
  ("cnts", atomic_t); ("__bindgen_anon_1", qrwlock__bindgen_ty_1__bindgen_ty_1)
]%string.
Definition qrwlock : cty := TStruct [
  ("__bindgen_anon_1", qrwlock__bindgen_ty_1); ("wait_lock", arch_spinlock_t)
]%string.
Definition arch_rwlock_t : cty := qrwlock.
Definition rwlock : cty := TStruct [
  ("raw_lock", arch_rwlock_t)
]%string.
Definition rwlock_t : cty := rwlock.
Definition ktime_t : cty := s64.
Definition sock__bindgen_ty_5__bindgen_ty_1 : cty := TStruct [
  ("_bitfield_align_1", TArr (TInt 1) 0); ("_bitfield_1", __BindgenBitfieldUnit 1)
]%string.
Definition sock__bindgen_ty_5 : cty := TUnion [
  ("sk_txrehash", u8_); ("sk_scm_recv_flags", u8_);
  ("__bindgen_anon_1", sock__bindgen_ty_5__bindgen_ty_1)
]%string.
Definition sock_cgroup_data : cty := TStruct [
  ("cgroup", ptr); ("classid", u32_); ("prioidx", u16_)
]%string.
Definition callback_head : cty := TStruct [
  ("next", ptr); ("func", ptr)
]%string.
Definition freeptr_t : cty := TStruct [
  ("v", TInt 8)
]%string.
Definition sock__bindgen_ty_6 : cty := TUnion [
  ("sk_rcu", callback_head); ("sk_freeptr", freeptr_t)
]%string.
Definition netns_tracker : cty := TStruct [].
Definition xarray : cty := TStruct [
  ("xa_lock", spinlock_t); ("xa_flags", gfp_t); ("xa_head", ptr)
]%string.
Definition sock : cty := TStruct [
  ("__sk_common", sock_common);
  ("__cacheline_group_begin__sock_write_rx", __IncompleteArrayField __u8);
  ("sk_drops", atomic_t); ("sk_peek_off", __s32); ("sk_error_queue", sk_buff_head);
  ("sk_receive_queue", sk_buff_head); ("sk_backlog", sock__bindgen_ty_1);
  ("__cacheline_group_end__sock_write_rx", __IncompleteArrayField __u8);
  ("__cacheline_group_begin__sock_read_rx", __IncompleteArrayField __u8); ("sk_rx_dst", ptr);
  ("sk_rx_dst_ifindex", TInt 4); ("sk_rx_dst_cookie", u32_); ("sk_ll_usec", TInt 4);
  ("sk_napi_id", TInt 4); ("sk_busy_poll_budget", u16_); ("sk_prefer_busy_poll", u8_);
  ("sk_userlocks", u8_); ("sk_rcvbuf", TInt 4); ("sk_filter", ptr);
  ("__bindgen_anon_1", sock__bindgen_ty_2); ("sk_data_ready", ptr); ("sk_rcvtimeo", TInt 8);
  ("sk_rcvlowat", TInt 4);
  ("__cacheline_group_end__sock_read_rx", __IncompleteArrayField __u8);
  ("__cacheline_group_begin__sock_read_rxtx", __IncompleteArrayField __u8); ("sk_err", TInt 4);
  ("sk_socket", ptr); ("sk_memcg", ptr); ("sk_policy", TArr ptr 2); ("psp_assoc", ptr);
  ("__cacheline_group_end__sock_read_rxtx", __IncompleteArrayField __u8);
  ("__cacheline_group_begin__sock_write_rxtx", __IncompleteArrayField __u8);
  ("sk_lock", socket_lock_t); ("sk_reserved_mem", u32_); ("sk_forward_alloc", TInt 4);
  ("sk_tsflags", u32_);
  ("__cacheline_group_end__sock_write_rxtx", __IncompleteArrayField __u8);
  ("__cacheline_group_begin__sock_write_tx", __IncompleteArrayField __u8);
  ("sk_write_pending", TInt 4); ("sk_omem_alloc", atomic_t); ("sk_err_soft", TInt 4);
  ("sk_wmem_queued", TInt 4); ("sk_wmem_alloc", refcount_t); ("sk_tsq_flags", TInt 8);
  ("__bindgen_anon_2", sock__bindgen_ty_3); ("sk_write_queue", sk_buff_head);
  ("sk_frag", page_frag); ("__bindgen_anon_3", sock__bindgen_ty_4); ("sk_pacing_rate", TInt 8);
  ("sk_zckey", atomic_t); ("sk_tskey", atomic_t); ("sk_tx_queue_mapping_jiffies", TInt 8);
  ("__cacheline_group_end__sock_write_tx", __IncompleteArrayField __u8);
  ("__cacheline_group_begin__sock_read_tx", __IncompleteArrayField __u8);
  ("sk_dst_pending_confirm", u32_); ("sk_pacing_status", u32_); ("sk_max_pacing_rate", TInt 8);
  ("sk_sndtimeo", TInt 8); ("sk_priority", u32_); ("sk_mark", u32_); ("sk_uid", kuid_t);
  ("sk_protocol", u16_); ("sk_type", u16_); ("sk_dst_cache", ptr);
  ("sk_route_caps", netdev_features_t); ("sk_validate_xmit_skb", ptr); ("sk_gso_type", u16_);
  ("sk_gso_max_segs", u16_); ("sk_gso_max_size", TInt 4); ("sk_allocation", gfp_t);
  ("sk_txhash", u32_); ("sk_sndbuf", TInt 4); ("sk_pacing_shift", u8_);
  ("sk_use_task_frag", bool_);
  ("__cacheline_group_end__sock_read_tx", __IncompleteArrayField __u8);
  ("_bitfield_align_1", TArr (TInt 1) 0); ("_bitfield_1", __BindgenBitfieldUnit 1);
  ("sk_shutdown", u8_); ("sk_lingertime", TInt 8); ("sk_prot_creator", ptr);
  ("sk_callback_lock", rwlock_t); ("sk_ack_backlog", u32_); ("sk_max_ack_backlog", u32_);
  ("sk_ino", TInt 8); ("sk_peer_lock", spinlock_t); ("sk_bind_phc", TInt 4);
  ("sk_peer_pid", ptr); ("sk_peer_cred", ptr); ("sk_stamp", ktime_t);
  ("sk_disconnects", TInt 4); ("__bindgen_anon_4", sock__bindgen_ty_5); ("sk_clockid", u8_);
  ("_bitfield_align_2", TArr (TInt 1) 0); ("_bitfield_2", __BindgenBitfieldUnit 1);
  ("sk_bpf_cb_flags", u8_); ("sk_user_data", ptr); ("sk_security", ptr);
  ("sk_cgrp_data", sock_cgroup_data); ("sk_state_change", ptr); ("sk_write_space", ptr);
  ("sk_error_report", ptr); ("sk_backlog_rcv", ptr); ("sk_destruct", ptr);
  ("sk_reuseport_cb", ptr); ("sk_bpf_storage", ptr); ("sk_drop_counters", ptr);
  ("__bindgen_anon_5", sock__bindgen_ty_6); ("ns_tracker", netns_tracker);
  ("sk_user_frags", xarray)
]%string.
Definition __s16 : cty := TInt 2.
Definition inet_cork : cty := TStruct [
  ("flags", TInt 4); ("addr", __be32); ("opt", ptr); ("fragsize", TInt 4); ("length", TInt 4);
  ("dst", ptr); ("tx_flags", u8_); ("ttl", __u8); ("tos", __s16); ("priority", u32_);
  ("gso_size", __u16); ("ts_opt_id", u32_); ("transmit_time", u64_); ("mark", u32_)
]%string.
Definition dscp_t : cty := u8_.
Definition __be64 : cty := __u64.
Definition flowi_tunnel : cty := TStruct [
  ("tun_id", __be64)
]%string.
Definition flowi_common : cty := TStruct [
  ("flowic_oif", TInt 4); ("flowic_iif", TInt 4); ("flowic_l3mdev", TInt 4);
  ("flowic_mark", __u32); ("flowic_dscp", dscp_t); ("flowic_scope", __u8);
  ("flowic_proto", __u8); ("flowic_flags", __u8); ("flowic_secid", __u32);
  ("flowic_uid", kuid_t); ("flowic_multipath_hash", __u32); ("flowic_tun_key", flowi_tunnel)
]%string.
Definition flowi_uli__bindgen_ty_1 : cty := TStruct [
  ("dport", __be16); ("sport", __be16)
]%string.
Definition flowi_uli__bindgen_ty_2 : cty := TStruct [
  ("type_", __u8); ("code", __u8)
]%string.
Definition flowi_uli__bindgen_ty_3 : cty := TStruct [
  ("type_", __u8)
]%string.
Definition flowi_uli : cty := TUnion [
  ("ports", flowi_uli__bindgen_ty_1); ("icmpt", flowi_uli__bindgen_ty_2); ("gre_key", __be32);
  ("mht", flowi_uli__bindgen_ty_3)
]%string.
Definition flowi4 : cty := TStruct [
  ("__fl_common", flowi_common); ("saddr", __be32); ("daddr", __be32); ("uli", flowi_uli)
]%string.
Definition flowi6 : cty := TStruct [
  ("__fl_common", flowi_common); ("daddr", in6_addr); ("saddr", in6_addr);
  ("flowlabel", __be32); ("uli", flowi_uli); ("mp_hash", __u32)
]%string.
Definition flowi__bindgen_ty_1 : cty := TUnion [
  ("__fl_common", flowi_common); ("ip4", flowi4); ("ip6", flowi6)
]%string.
Definition flowi : cty := TStruct [
  ("u", flowi__bindgen_ty_1)
]%string.
Definition inet6_cork : cty := TStruct [
  ("opt", ptr); ("hop_limit", u8_); ("tclass", u8_); ("_bitfield_align_1", TArr (TInt 1) 0);
  ("_bitfield_1", __BindgenBitfieldUnit 1); ("__bindgen_padding_0", TArr (TInt 1) 5)
]%string.
Definition inet_cork_full : cty := TStruct [
  ("base", inet_cork); ("fl", flowi); ("base6", inet6_cork)
]%string.
Definition inet_sock : cty := TStruct [
  ("sk", sock); ("pinet6", ptr); ("ipv6_fl_list", ptr); ("inet_flags", TInt 8);
  ("inet_saddr", __be32); ("uc_ttl", __s16); ("inet_sport", __be16); ("inet_opt", ptr);
  ("inet_id", atomic_t); ("tos", __u8); ("min_ttl", __u8); ("mc_ttl", __u8);
  ("pmtudisc", __u8); ("rcv_tos", __u8); ("convert_csum", __u8); ("uc_index", TInt 4);
  ("mc_index", TInt 4); ("mc_addr", __be32); ("local_port_range", u32_); ("mc_list", ptr);
  ("cork", inet_cork_full)
]%string.
Definition fastopen_queue : cty := TStruct [
  ("rskq_rst_head", ptr); ("rskq_rst_tail", ptr); ("lock", spinlock_t); ("qlen", TInt 4);
  ("max_qlen", TInt 4); ("ctx", ptr)
]%string.
Definition request_sock_queue : cty := TStruct [
  ("rskq_lock", spinlock_t); ("rskq_defer_accept", u8_); ("synflood_warned", u8_);
  ("qlen", atomic_t); ("young", atomic_t); ("rskq_accept_head", ptr);
  ("rskq_accept_tail", ptr); ("fastopenq", fastopen_queue)
]%string.
Definition inet_connection_sock__bindgen_ty_1 : cty := TUnion [
  ("icsk_keepalive_timer", timer_list); ("mptcp_tout_timer", timer_list)
]%string.
Definition inet_connection_sock__bindgen_ty_2 : cty := TStruct [
  ("pending", __u8); ("quick", __u8); ("pingpong", __u8); ("retry", __u8);
  ("_bitfield_align_1", TArr (TInt 4) 0); ("_bitfield_1", __BindgenBitfieldUnit 4);
  ("lrcvtime", __u32); ("last_seg_size", __u16); ("rcv_mss", __u16)
]%string.
Definition inet_connection_sock__bindgen_ty_3 : cty := TStruct [
  ("search_high", TInt 4); ("search_low", TInt 4); ("_bitfield_align_1", TArr (TInt 4) 0);
  ("_bitfield_1", __BindgenBitfieldUnit 4); ("probe_timestamp", u32_)
]%string.
Definition inet_connection_sock : cty := TStruct [
  ("icsk_inet", inet_sock); ("icsk_accept_queue", request_sock_queue); ("icsk_bind_hash", ptr);
  ("icsk_bind2_hash", ptr); ("icsk_delack_timer", timer_list);
  ("__bindgen_anon_1", inet_connection_sock__bindgen_ty_1); ("icsk_rto", __u32);
  ("icsk_rto_min", __u32); ("icsk_rto_max", u32_); ("icsk_delack_max", __u32);
  ("icsk_pmtu_cookie", __u32); ("icsk_ca_ops", ptr); ("icsk_af_ops", ptr);
  ("icsk_ulp_ops", ptr); ("icsk_ulp_data", ptr); ("icsk_sync_mss", ptr);
  ("_bitfield_align_1", TArr (TInt 1) 0); ("_bitfield_1", __BindgenBitfieldUnit 1);
  ("icsk_retransmits", __u8); ("icsk_pending", __u8); ("icsk_backoff", __u8);
  ("icsk_syn_retries", __u8); ("icsk_probes_out", __u8); ("icsk_ext_hdr_len", __u16);
  ("icsk_ack", inet_connection_sock__bindgen_ty_2);
  ("icsk_mtup", inet_connection_sock__bindgen_ty_3); ("icsk_probes_tstamp", u32_);
  ("icsk_user_timeout", u32_); ("icsk_ca_priv", TArr u64_ 13)
]%string.
Definition minmax_sample : cty := TStruct [
  ("t", u32_); ("v", u32_)
]%string.
Definition minmax : cty := TStruct [
  ("s", TArr minmax_sample 3)
]%string.
Definition tcp_options_received : cty := TStruct [
  ("ts_recent_stamp", TInt 4); ("ts_recent", u32_); ("rcv_tsval", u32_); ("rcv_tsecr", u32_);
  ("_bitfield_align_1", TArr (TInt 1) 0); ("_bitfield_1", __BindgenBitfieldUnit 3);
  ("num_sacks", u8_); ("user_mss", u16_); ("mss_clamp", u16_)
]%string.
Definition tcp_sock__bindgen_ty_1 : cty := TStruct [
  ("rtt_us", u32_); ("seq", u32_); ("time", u64_)
]%string.
Definition tcp_sock__bindgen_ty_2 : cty := TStruct [
  ("space", TInt 4); ("seq", u32_); ("time", u64_)
]%string.
Definition tcp_rack : cty := TStruct [
  ("mstamp", u64_); ("rtt_us", u32_); ("end_seq", u32_); ("last_delivered", u32_);
  ("reo_wnd_steps", u8_); ("_bitfield_align_1", TArr (TInt 1) 0);
  ("_bitfield_1", __BindgenBitfieldUnit 1); ("__bindgen_padding_0", TInt 2)
]%string.
Definition rb_node : cty := TStruct [
  ("__rb_parent_color", TInt 8); ("rb_right", ptr); ("rb_left", ptr)
]%string.
Definition timerqueue_node : cty := TStruct [
  ("node", rb_node); ("expires", ktime_t)
]%string.
Definition hrtimer : cty := TStruct [
  ("node", timerqueue_node); ("_softexpires", ktime_t); ("function", ptr); ("base", ptr);
  ("state", u8_); ("is_rel", u8_); ("is_soft", u8_); ("is_hard", u8_)
]%string.
Definition tcp_sack_block : cty := TStruct [
  ("start_seq", u32_); ("end_seq", u32_)
]%string.
Definition tcp_sock__bindgen_ty_3 : cty := TStruct [
  ("probe_seq_start", u32_); ("probe_seq_end", u32_)
]%string.
Definition tcp_sock : cty := TStruct [
  ("inet_conn", inet_connection_sock);
  ("__cacheline_group_begin__tcp_sock_read_tx", __IncompleteArrayField __u8);
  ("max_window", u32_); ("rcv_ssthresh", u32_); ("reordering", u32_); ("notsent_lowat", u32_);
  ("gso_segs", u16_); ("retransmit_skb_hint", ptr); ("tcp_clean_acked", ptr);
  ("__cacheline_group_end__tcp_sock_read_tx", __IncompleteArrayField __u8);
  ("__cacheline_group_begin__tcp_sock_read_txrx", __IncompleteArrayField __u8);
  ("tsoffset", u32_); ("snd_wnd", u32_); ("mss_cache", u32_); ("snd_cwnd", u32_);
  ("prr_out", u32_); ("lost_out", u32_); ("sacked_out", u32_); ("tcp_header_len", u16_);
  ("scaling_ratio", u8_); ("_bitfield_align_1", TArr (TInt 1) 0);
  ("_bitfield_1", __BindgenBitfieldUnit 1);
  ("__cacheline_group_end__tcp_sock_read_txrx", __IncompleteArrayField __u8);
  ("__cacheline_group_begin__tcp_sock_read_rx", __IncompleteArrayField __u8);
  ("copied_seq", u32_); ("snd_wl1", u32_); ("tlp_high_seq", u32_); ("rttvar_us", u32_);
  ("retrans_out", u32_); ("advmss", u16_); ("urg_data", u16_); ("lost", u32_);
  ("snd_ssthresh", u32_); ("rtt_min", minmax); ("out_of_order_queue", rb_root);
  ("__cacheline_group_end__tcp_sock_read_rx", __IncompleteArrayField __u8);
  ("_bitfield_align_2", TArr (TInt 1) 0); ("_bitfield_2", __BindgenBitfieldUnit 24);
  ("__cacheline_group_begin__tcp_sock_write_tx", __IncompleteArrayField __u8);
  ("segs_out", u32_); ("data_segs_out", u32_); ("bytes_sent", u64_); ("snd_sml", u32_);
  ("chrono_type", u8_); ("chrono_start", u32_); ("chrono_stat", TArr u32_ 3);
  ("write_seq", u32_); ("pushed_seq", u32_); ("lsndtime", u32_); ("mdev_us", u32_);
  ("rtt_seq", u32_); ("tcp_wstamp_ns", u64_); ("accecn_opt_tstamp", u64_);
  ("tsorted_sent_queue", list_head); ("highest_sack", ptr); ("ecn_flags", u8_);
  ("__cacheline_group_end__tcp_sock_write_tx", __IncompleteArrayField __u8);
  ("__cacheline_group_begin__tcp_sock_write_txrx", __IncompleteArrayField __u8);
  ("_bitfield_align_3", TArr (TInt 1) 0); ("_bitfield_3", __BindgenBitfieldUnit 3);
  ("pred_flags", __be32); ("tcp_clock_cache", u64_); ("tcp_mstamp", u64_); ("rcv_nxt", u32_);
  ("snd_nxt", u32_); ("snd_una", u32_); ("window_clamp", u32_); ("srtt_us", u32_);
  ("packets_out", u32_); ("snd_up", u32_); ("delivered", u32_); ("delivered_ce", u32_);
  ("received_ce", u32_); ("received_ecn_bytes", TArr u32_ 3); ("app_limited", u32_);
  ("rcv_wnd", u32_); ("rcv_tstamp", u32_); ("rx_opt", tcp_options_received);
  ("__cacheline_group_end__tcp_sock_write_txrx", __IncompleteArrayField __u8);
  ("__cacheline_group_begin__tcp_sock_write_rx", __IncompleteArrayField __u8);
  ("bytes_received", u64_); ("segs_in", u32_); ("data_segs_in", u32_); ("rcv_wup", u32_);
  ("max_packets_out", u32_); ("cwnd_usage_seq", u32_); ("rate_delivered", u32_);
  ("rate_interval_us", u32_); ("rcv_rtt_last_tsecr", u32_);
  ("delivered_ecn_bytes", TArr u32_ 3); ("pkts_acked_ewma", u16_); ("first_tx_mstamp", u64_);
  ("delivered_mstamp", u64_); ("bytes_acked", u64_); ("rcv_rtt_est", tcp_sock__bindgen_ty_1);
  ("rcvq_space", tcp_sock__bindgen_ty_2);
  ("__cacheline_group_end__tcp_sock_write_rx", __IncompleteArrayField __u8);
  ("dsack_dups", u32_); ("compressed_ack_rcv_nxt", u32_); ("tsq_node", list_head);
  ("rack", tcp_rack); ("compressed_ack", u8_); ("_bitfield_align_4", TArr (TInt 1) 0);
  ("_bitfield_4", __BindgenBitfieldUnit 2); ("repair_queue", u8_);
  ("_bitfield_align_5", TArr (TInt 1) 0); ("_bitfield_5", __BindgenBitfieldUnit 1);
  ("keepalive_probes", u8_); ("_bitfield_align_6", TArr (TInt 1) 0);
  ("_bitfield_6", __BindgenBitfieldUnit 1); ("tcp_tx_delay", u32_); ("mdev_max_us", u32_);
  ("reord_seen", u32_); ("snd_cwnd_cnt", u32_); ("snd_cwnd_clamp", u32_);
  ("snd_cwnd_used", u32_); ("snd_cwnd_stamp", u32_); ("prior_cwnd", u32_);
  ("prr_delivered", u32_); ("last_oow_ack_time", u32_); ("pacing_timer", hrtimer);
  ("compressed_ack_timer", hrtimer); ("ooo_last_skb", ptr);
  ("duplicate_sack", TArr tcp_sack_block 1); ("selective_acks", TArr tcp_sack_block 4);
  ("recv_sack_cache", TArr tcp_sack_block 4); ("prior_ssthresh", u32_); ("high_seq", u32_);
  ("retrans_stamp", u32_); ("undo_marker", u32_); ("undo_retrans", TInt 4); ("mtu_info", u32_);
  ("bytes_retrans", u64_); ("total_retrans", u32_); ("rto_stamp", u32_); ("total_rto", u16_);
  ("total_rto_recoveries", u16_); ("total_rto_time", u32_); ("urg_seq", u32_);
  ("keepalive_time", TInt 4); ("keepalive_intvl", TInt 4); ("linger2", TInt 4);
  ("bpf_sock_ops_cb_flags", u8_); ("_bitfield_align_7", TArr (TInt 1) 0);
  ("_bitfield_7", __BindgenBitfieldUnit 1); ("timeout_rehash", u16_); ("rcv_ooopack", u32_);
  ("mtu_probe", tcp_sock__bindgen_ty_3); ("plb_rehash", u32_); ("is_mptcp", bool_);
  ("syn_smc", bool_); ("smc_hs_congested", ptr); ("af_specific", ptr); ("md5sig_info", ptr);
  ("ao_info", ptr); ("fastopen_req", ptr); ("fastopen_rsk", ptr); ("saved_syn", ptr);
  ("_bitfield_align_8", TArr (TInt 1) 0); ("_bitfield_8", __BindgenBitfieldUnit 56)
]%string.

End vmlinux.

(** ** Well-formedness *)

Lemma wf_sock_common : wf_cty vmlinux.sock_common.
Proof. by apply wf_ctyb_sound. Qed.

