(* ===== verification/VmlinuxBits.v ===== *)
(** * The bit fields of a TCP socket ([rustguard-ebpf/src/vmlinux.rs])

    The accessors bindgen generates for the bit fields of the types of
    [Vmlinux.v]: a field is its place in its unit and the width of its integer
    type, and the four accessors of a field are one definition each over
    [Bitfield.v].  [bitfield_units] lists every unit with its fields. *)

From S2P Require Export Prelude Layout Bitfield Vmlinux.

(** The place of a field in its unit, in bits, and the type of its value. *)
Record bf_field := { bf_off : Z; bf_width : Z; bf_int : Z }.

Section accessors.
Context (en : endian) (dbg : bool).

(** [transmute(self._bitfield.get(off, width) as uN)] and
    [self._bitfield.set(off, width, val as u64)]. *)
Definition field_get (f : bf_field) (unit : bytes) : option Z :=
  wrap (bf_int f) <$> bf_get en dbg unit (bf_off f) (bf_width f).
Definition field_set (f : bf_field) (unit : bytes) (val : Z) : option bytes :=
  bf_set en dbg unit (bf_off f) (bf_width f) val.
(** The [_raw] accessors. *)
Definition field_get_raw (f : bf_field) (unit : bytes) : option Z :=
  wrap (bf_int f) <$> raw_get en dbg (Z.of_nat (length unit)) unit (bf_off f) (bf_width f).
Definition field_set_raw (f : bf_field) (unit : bytes) (val : Z) : option bytes :=
  raw_set en dbg (Z.of_nat (length unit)) unit (bf_off f) (bf_width f) val.

(** [new_bitfield]: the fields set in turn in a zeroed unit of [n] bytes. *)
Fixpoint set_fields (fs : list bf_field) (vals : list Z) (unit : bytes) : option bytes :=
  match fs, vals with
  | f :: fs, v :: vals => unit ← field_set f unit v; set_fields fs vals unit
  | _, _ => Some unit
  end.
Definition new_bitfield (n : Z) (fs : list bf_field) (vals : list Z) : option bytes :=
  set_fields fs vals (replicate (Z.to_nat n) 0).
End accessors.

Module sock_common_bits.
Definition skc_reuse : bf_field := {| bf_off := 0; bf_width := 4; bf_int := 8 |}.
Definition skc_reuseport : bf_field := {| bf_off := 4; bf_width := 1; bf_int := 8 |}.
Definition skc_ipv6only : bf_field := {| bf_off := 5; bf_width := 1; bf_int := 8 |}.
Definition skc_net_refcnt : bf_field := {| bf_off := 6; bf_width := 1; bf_int := 8 |}.
Definition skc_bypass_prot_mem : bf_field := {| bf_off := 7; bf_width := 1; bf_int := 8 |}.
Definition new_bitfield_1 : list bf_field := [
  skc_reuse; skc_reuseport; skc_ipv6only; skc_net_refcnt; skc_bypass_prot_mem].
End sock_common_bits.

Module sock__bindgen_ty_5__bindgen_ty_1_bits.
Definition sk_scm_credentials : bf_field := {| bf_off := 0; bf_width := 1; bf_int := 8 |}.
Definition sk_scm_security : bf_field := {| bf_off := 1; bf_width := 1; bf_int := 8 |}.
Definition sk_scm_pidfd : bf_field := {| bf_off := 2; bf_width := 1; bf_int := 8 |}.
Definition sk_scm_rights : bf_field := {| bf_off := 3; bf_width := 1; bf_int := 8 |}.
Definition sk_scm_unused : bf_field := {| bf_off := 4; bf_width := 4; bf_int := 8 |}.
Definition new_bitfield_1 : list bf_field := [
  sk_scm_credentials; sk_scm_security; sk_scm_pidfd; sk_scm_rights; sk_scm_unused].
End sock__bindgen_ty_5__bindgen_ty_1_bits.

Module sock_bits.
Definition sk_gso_disabled : bf_field := {| bf_off := 0; bf_width := 1; bf_int := 8 |}.
Definition sk_kern_sock : bf_field := {| bf_off := 1; bf_width := 1; bf_int := 8 |}.
Definition sk_no_check_tx : bf_field := {| bf_off := 2; bf_width := 1; bf_int := 8 |}.
Definition sk_no_check_rx : bf_field := {| bf_off := 3; bf_width := 1; bf_int := 8 |}.
Definition sk_txtime_deadline_mode : bf_field := {| bf_off := 0; bf_width := 1; bf_int := 8 |}.
Definition sk_txtime_report_errors : bf_field := {| bf_off := 1; bf_width := 1; bf_int := 8 |}.
Definition sk_txtime_unused : bf_field := {| bf_off := 2; bf_width := 6; bf_int := 8 |}.
Definition new_bitfield_1 : list bf_field := [
  sk_gso_disabled; sk_kern_sock; sk_no_check_tx; sk_no_check_rx].
Definition new_bitfield_2 : list bf_field := [
  sk_txtime_deadline_mode; sk_txtime_report_errors; sk_txtime_unused].
End sock_bits.

Module inet6_cork_bits.
Definition dontfrag : bf_field := {| bf_off := 0; bf_width := 1; bf_int := 8 |}.
Definition new_bitfield_1 : list bf_field := [dontfrag].
End inet6_cork_bits.

Module inet_connection_sock__bindgen_ty_2_bits.
Definition ato : bf_field := {| bf_off := 0; bf_width := 8; bf_int := 32 |}.
Definition lrcv_flowlabel : bf_field := {| bf_off := 8; bf_width := 20; bf_int := 32 |}.
Definition dst_quick_ack : bf_field := {| bf_off := 28; bf_width := 1; bf_int := 32 |}.
Definition unused : bf_field := {| bf_off := 29; bf_width := 3; bf_int := 32 |}.
Definition new_bitfield_1 : list bf_field := [ato; lrcv_flowlabel; dst_quick_ack; unused].
End inet_connection_sock__bindgen_ty_2_bits.

Module inet_connection_sock__bindgen_ty_3_bits.
Definition probe_size : bf_field := {| bf_off := 0; bf_width := 31; bf_int := 32 |}.
Definition enabled : bf_field := {| bf_off := 31; bf_width := 1; bf_int := 32 |}.
Definition new_bitfield_1 : list bf_field := [probe_size; enabled].
End inet_connection_sock__bindgen_ty_3_bits.

Module inet_connection_sock_bits.
Definition icsk_ca_state : bf_field := {| bf_off := 0; bf_width := 5; bf_int := 8 |}.
Definition icsk_ca_initialized : bf_field := {| bf_off := 5; bf_width := 1; bf_int := 8 |}.
Definition icsk_ca_setsockopt : bf_field := {| bf_off := 6; bf_width := 1; bf_int := 8 |}.
Definition icsk_ca_dst_locked : bf_field := {| bf_off := 7; bf_width := 1; bf_int := 8 |}.
Definition new_bitfield_1 : list bf_field := [
  icsk_ca_state; icsk_ca_initialized; icsk_ca_setsockopt; icsk_ca_dst_locked].
End inet_connection_sock_bits.

Module tcp_options_received_bits.
Definition saw_tstamp : bf_field := {| bf_off := 0; bf_width := 1; bf_int := 16 |}.
Definition tstamp_ok : bf_field := {| bf_off := 1; bf_width := 1; bf_int := 16 |}.
Definition dsack : bf_field := {| bf_off := 2; bf_width := 1; bf_int := 16 |}.
Definition wscale_ok : bf_field := {| bf_off := 3; bf_width := 1; bf_int := 16 |}.
Definition sack_ok : bf_field := {| bf_off := 4; bf_width := 3; bf_int := 16 |}.
Definition smc_ok : bf_field := {| bf_off := 7; bf_width := 1; bf_int := 16 |}.
Definition snd_wscale : bf_field := {| bf_off := 8; bf_width := 4; bf_int := 16 |}.
Definition rcv_wscale : bf_field := {| bf_off := 12; bf_width := 4; bf_int := 16 |}.
Definition accecn : bf_field := {| bf_off := 16; bf_width := 6; bf_int := 8 |}.
Definition saw_unknown : bf_field := {| bf_off := 22; bf_width := 1; bf_int := 8 |}.
Definition unused : bf_field := {| bf_off := 23; bf_width := 1; bf_int := 8 |}.
Definition new_bitfield_1 : list bf_field := [
  saw_tstamp; tstamp_ok; dsack; wscale_ok; sack_ok; smc_ok; snd_wscale; rcv_wscale;
  accecn; saw_unknown; unused].
End tcp_options_received_bits.

Module tcp_rack_bits.
Definition reo_wnd_persist : bf_field := {| bf_off := 0; bf_width := 5; bf_int := 8 |}.
Definition dsack_seen : bf_field := {| bf_off := 5; bf_width := 1; bf_int := 8 |}.
Definition advanced : bf_field := {| bf_off := 6; bf_width := 1; bf_int := 8 |}.
Definition new_bitfield_1 : list bf_field := [reo_wnd_persist; dsack_seen; advanced].
End tcp_rack_bits.

Module tcp_sock_bits.
Definition repair : bf_field := {| bf_off := 0; bf_width := 1; bf_int := 8 |}.
Definition tcp_usec_ts : bf_field := {| bf_off := 1; bf_width := 1; bf_int := 8 |}.
Definition is_sack_reneg : bf_field := {| bf_off := 2; bf_width := 1; bf_int := 8 |}.
Definition is_cwnd_limited : bf_field := {| bf_off := 3; bf_width := 1; bf_int := 8 |}.
Definition recvmsg_inq : bf_field := {| bf_off := 4; bf_width := 1; bf_int := 8 |}.
Definition nonagle : bf_field := {| bf_off := 0; bf_width := 4; bf_int := 8 |}.
Definition rate_app_limited : bf_field := {| bf_off := 4; bf_width := 1; bf_int := 8 |}.
Definition received_ce_pending : bf_field := {| bf_off := 8; bf_width := 4; bf_int := 8 |}.
Definition accecn_opt_sent_w_dsack : bf_field := {| bf_off := 12; bf_width := 1; bf_int := 8 |}.
Definition unused2 : bf_field := {| bf_off := 13; bf_width := 3; bf_int := 8 |}.
Definition accecn_minlen : bf_field := {| bf_off := 16; bf_width := 2; bf_int := 8 |}.
Definition est_ecnfield : bf_field := {| bf_off := 18; bf_width := 2; bf_int := 8 |}.
Definition accecn_opt_demand : bf_field := {| bf_off := 20; bf_width := 2; bf_int := 8 |}.
Definition prev_ecnfield : bf_field := {| bf_off := 22; bf_width := 2; bf_int := 8 |}.
Definition dup_ack_counter : bf_field := {| bf_off := 0; bf_width := 2; bf_int := 8 |}.
Definition tlp_retrans : bf_field := {| bf_off := 2; bf_width := 1; bf_int := 8 |}.
Definition syn_ect_snt : bf_field := {| bf_off := 3; bf_width := 2; bf_int := 8 |}.
Definition syn_ect_rcv : bf_field := {| bf_off := 5; bf_width := 2; bf_int := 8 |}.
Definition thin_lto : bf_field := {| bf_off := 7; bf_width := 1; bf_int := 8 |}.
Definition fastopen_connect : bf_field := {| bf_off := 8; bf_width := 1; bf_int := 8 |}.
Definition fastopen_no_cookie : bf_field := {| bf_off := 9; bf_width := 1; bf_int := 8 |}.
Definition fastopen_client_fail : bf_field := {| bf_off := 10; bf_width := 2; bf_int := 8 |}.
Definition frto : bf_field := {| bf_off := 12; bf_width := 1; bf_int := 8 |}.
Definition save_syn : bf_field := {| bf_off := 0; bf_width := 2; bf_int := 8 |}.
Definition syn_data : bf_field := {| bf_off := 2; bf_width := 1; bf_int := 8 |}.
Definition syn_fastopen : bf_field := {| bf_off := 3; bf_width := 1; bf_int := 8 |}.
Definition syn_fastopen_exp : bf_field := {| bf_off := 4; bf_width := 1; bf_int := 8 |}.
Definition syn_fastopen_ch : bf_field := {| bf_off := 5; bf_width := 1; bf_int := 8 |}.
Definition syn_data_acked : bf_field := {| bf_off := 6; bf_width := 1; bf_int := 8 |}.
Definition syn_fastopen_child : bf_field := {| bf_off := 7; bf_width := 1; bf_int := 8 |}.
Definition accecn_fail_mode : bf_field := {| bf_off := 0; bf_width := 4; bf_int := 8 |}.
Definition saw_accecn_opt : bf_field := {| bf_off := 4; bf_width := 2; bf_int := 8 |}.
Definition bpf_chg_cc_inprogress : bf_field := {| bf_off := 0; bf_width := 1; bf_int := 8 |}.
Definition new_bitfield_1 : list bf_field := [
  repair; tcp_usec_ts; is_sack_reneg; is_cwnd_limited; recvmsg_inq].
Definition new_bitfield_2 : list bf_field := [].
Definition new_bitfield_3 : list bf_field := [
  nonagle; rate_app_limited; received_ce_pending; accecn_opt_sent_w_dsack; unused2;
  accecn_minlen; est_ecnfield; accecn_opt_demand; prev_ecnfield].
Definition new_bitfield_4 : list bf_field := [
  dup_ack_counter; tlp_retrans; syn_ect_snt; syn_ect_rcv; thin_lto; fastopen_connect;
  fastopen_no_cookie; fastopen_client_fail; frto].
Definition new_bitfield_5 : list bf_field := [
  save_syn; syn_data; syn_fastopen; syn_fastopen_exp; syn_fastopen_ch; syn_data_acked;
  syn_fastopen_child].
Definition new_bitfield_6 : list bf_field := [accecn_fail_mode; saw_accecn_opt].
Definition new_bitfield_7 : list bf_field := [bpf_chg_cc_inprogress].
End tcp_sock_bits.

(** Every unit of bit fields: its type, its field there and its bit fields. *)
Definition bitfield_units : list (cty * string * list bf_field) := [
  (vmlinux.sock_common, "_bitfield_1", sock_common_bits.new_bitfield_1);
  (vmlinux.sock__bindgen_ty_5__bindgen_ty_1, "_bitfield_1", sock__bindgen_ty_5__bindgen_ty_1_bits.new_bitfield_1);
  (vmlinux.sock, "_bitfield_1", sock_bits.new_bitfield_1);
  (vmlinux.sock, "_bitfield_2", sock_bits.new_bitfield_2);
  (vmlinux.inet6_cork, "_bitfield_1", inet6_cork_bits.new_bitfield_1);
  (vmlinux.inet_connection_sock__bindgen_ty_2, "_bitfield_1", inet_connection_sock__bindgen_ty_2_bits.new_bitfield_1);
  (vmlinux.inet_connection_sock__bindgen_ty_3, "_bitfield_1", inet_connection_sock__bindgen_ty_3_bits.new_bitfield_1);
  (vmlinux.inet_connection_sock, "_bitfield_1", inet_connection_sock_bits.new_bitfield_1);
  (vmlinux.tcp_options_received, "_bitfield_1", tcp_options_received_bits.new_bitfield_1);
  (vmlinux.tcp_rack, "_bitfield_1", tcp_rack_bits.new_bitfield_1);
  (vmlinux.tcp_sock, "_bitfield_1", tcp_sock_bits.new_bitfield_1);
  (vmlinux.tcp_sock, "_bitfield_2", tcp_sock_bits.new_bitfield_2);
  (vmlinux.tcp_sock, "_bitfield_3", tcp_sock_bits.new_bitfield_3);
  (vmlinux.tcp_sock, "_bitfield_4", tcp_sock_bits.new_bitfield_4);
  (vmlinux.tcp_sock, "_bitfield_5", tcp_sock_bits.new_bitfield_5);
  (vmlinux.tcp_sock, "_bitfield_6", tcp_sock_bits.new_bitfield_6);
  (vmlinux.tcp_sock, "_bitfield_7", tcp_sock_bits.new_bitfield_7)
]%string.

(** Two fields of a unit share no bit, and all lie inside it. *)
Definition disjoint (f g : bf_field) : Prop :=
  bf_off f + bf_width f ≤ bf_off g ∨ bf_off g + bf_width g ≤ bf_off f.
Definition field_ok (n : Z) (f : bf_field) : Prop :=
  0 ≤ bf_off f ∧ 0 < bf_width f ≤ 64 ∧ bf_width f ≤ bf_int f ∧ bf_off f + bf_width f ≤ 8 * n.
Fixpoint unit_ok (n : Z) (fs : list bf_field) : Prop :=
  match fs with
  | [] => True
  | f :: fs => field_ok n f ∧ Forall (disjoint f) fs ∧ unit_ok n fs
  end.

(** The bytes of the unit [x] of the type [t]. *)
Definition unit_size (t : cty) (x : string) : Z :=
  match field t x with Some (_, ut) => sizeof ut | None => 0 end.

#[export] Instance disjoint_dec f g : Decision (disjoint f g).
Proof. unfold disjoint. apply _. Defined.
#[export] Instance field_ok_dec n f : Decision (field_ok n f).
Proof. unfold field_ok. apply _. Defined.
#[export] Instance unit_ok_dec n fs : Decision (unit_ok n fs).
Proof. induction fs; simpl; apply _. Defined.

(** ** Lemmas *)

Lemma bitfield_units_ok : Forall (λ '(t, x, fs), unit_ok (unit_size t x) fs) bitfield_units.
Proof. apply (bool_decide_unpack _). by vm_compute. Qed.

Lemma unit_ok_lookup n fs i f :
  unit_ok n fs → fs !! i = Some f →
  field_ok n f ∧ ∀ j g, fs !! j = Some g → i ≠ j → disjoint f g.
Proof.
  revert i. induction fs as [|h fs IH]; intros i Hok Hi; [done|]. destruct Hok as (Hh & Hd & Hok).
  destruct i as [|i]; simplify_eq/=.
  - split; [done|]. intros [|j] g Hj Hne; [done|]. simpl in Hj. by eapply Forall_lookup_1 in Hd.
  - destruct (IH i Hok Hi) as [Hf Hfd]. split; [done|]. intros [|j] g Hj Hne; simplify_eq/=.
    + pose proof (Forall_lookup_1 _ _ _ _ Hd Hi) as Hhf. destruct Hhf; [by right | by left].
    + apply (Hfd j); [done | congruence].
Qed.

Lemma field_ok_fits n (unit : bytes) f :
  field_ok n f → Z.of_nat (length unit) = n → fits unit (bf_off f) (bf_width f).
Proof. intros (? & ? & ? & ?) <-. unfold fits. lia. Qed.

Section accessor_lemmas.
Context (en : endian) (dbg : bool).

Lemma field_get_set n unit f v :
  field_ok n f → wf_bytes unit → Z.of_nat (length unit) = n →
  ∃ unit', field_set en dbg f unit v = Some unit' ∧ length unit' = length unit ∧ wf_bytes unit' ∧
    field_get en dbg f unit' = Some (wrap (bf_width f) v) ∧
    ∀ g, field_ok n g → disjoint f g → field_get en dbg g unit' = field_get en dbg g unit.
Proof.
  intros Hf Hwf Hn. pose proof Hf as (? & ? & Hint & ?).
  destruct (bf_get_set_same en dbg unit (bf_off f) (bf_width f) v Hwf) as (u & Hs & Hl & Hw & Hg);
    [by eapply field_ok_fits|].
  exists u. split_and!; [done.. | |].
  - unfold field_get. rewrite Hg. simpl. f_equal. apply wrap_small.
    pose proof (wrap_range (bf_width f) v ltac:(lia)) as [? ?]. split; [done|].
    pose proof (Z.pow_le_mono_r 2 (bf_width f) (bf_int f)). lia.
  - intros g Hg' Hd. unfold field_get.
    destruct (bf_get_set_other en dbg unit (bf_off f) (bf_width f) v (bf_off g) (bf_width g) Hwf)
      as (u' & Hs' & Hg''); [by eapply field_ok_fits.. | done |].
    simplify_eq. by rewrite Hg''.
Qed.

(** [set_fields] leaves the fields it does not set, and sets the others. *)
Lemma set_fields_spec n fs vals unit :
  unit_ok n fs → wf_bytes unit → Z.of_nat (length unit) = n → length vals = length fs →
  ∃ unit', set_fields en dbg fs vals unit = Some unit' ∧ length unit' = length unit ∧
    wf_bytes unit' ∧
    (∀ i f v, fs !! i = Some f → vals !! i = Some v →
       field_get en dbg f unit' = Some (wrap (bf_width f) v)) ∧
    (∀ g, field_ok n g → Forall (λ f, disjoint f g) fs →
       field_get en dbg g unit' = field_get en dbg g unit).
Proof.
  revert vals unit. induction fs as [|f fs IH]; intros [|v vals] unit Hok Hwf Hn Hlen; try done.
  { exists unit. by split_and!. }
  destruct Hok as (Hf & Hd & Hok). simpl.
  destruct (field_get_set n unit f v Hf Hwf Hn) as (u1 & -> & Hl1 & Hw1 & Hg1 & Ho1). simpl.
  destruct (IH vals u1 Hok Hw1) as (u2 & -> & Hl2 & Hw2 & Hg2 & Ho2); [congruence | naive_solver|].
  exists u2. split_and!; [done | congruence | done | |].
  - intros [|i] g w Hg Hv; simplify_eq/=; [|by eapply Hg2].
    rewrite <- Hg1. apply Ho2; [done|]. eapply Forall_impl; [exact Hd|].
    intros g' [? | ?]; [by right | by left].
  - intros g Hg Hdg. apply Forall_cons in Hdg as [? ?]. rewrite Ho2 by done. by apply Ho1.
Qed.
End accessor_lemmas.
