(* ===== verification/Kernel.v ===== *)
(** * The kernel side's helpers ([rustguard-ebpf/src/kernel.rs]) and sockets
    ([rustguard-ebpf/src/socket.rs])

    The BPF helper functions are the record [Kernel], the environment of one run
    of a program. *)

From S2P Require Export Prelude Layout Event Vmlinux BpfMap.

(** What the helpers return during one run of a program. *)
Record Kernel := {
  bpf_ktime_get_ns : Z;
  bpf_get_current_pid_tgid : Z;
  bpf_get_current_uid_gid : Z;
  bpf_get_current_comm : result bytes Z;
  (** Of the context pointer. *)
  bpf_get_socket_cookie : Z → Z;
  (** Of an address and a size: the bytes there, or the error. *)
  bpf_probe_read_kernel : Z → Z → result bytes Z;
}.

(** The types of the helpers: 64-bit results, sixteen bytes of name, as many
    bytes as asked for. *)
Record wf_kernel (k : Kernel) : Prop := {
  wf_ktime : in_u 64 (bpf_ktime_get_ns k);
  wf_pid_tgid : in_u 64 (bpf_get_current_pid_tgid k);
  wf_uid_gid : in_u 64 (bpf_get_current_uid_gid k);
  wf_comm c : bpf_get_current_comm k = Ok c → length c = 16%nat ∧ wf_bytes c;
  wf_probe_read a n l :
    bpf_probe_read_kernel k a n = Ok l → Z.of_nat (length l) = n ∧ wf_bytes l;
}.

(** ** kernel.rs *)

Section kernel.
Context (k : Kernel).

Definition timestamp_ns' : Z := bpf_ktime_get_ns k.
Definition pid : Z := as_u32 (Z.shiftr (bpf_get_current_pid_tgid k) 32).
Definition tid : Z := as_u32 (bpf_get_current_pid_tgid k).
Definition uid : Z := as_u32 (bpf_get_current_uid_gid k).
Definition pid_tgid : Z := bpf_get_current_pid_tgid k.
Definition current_comm : result bytes Z := bpf_get_current_comm k.
Definition socket_cookie (ctx : Z) : Z := bpf_get_socket_cookie k ctx.
Definition ns_since (start : Z) : Z := as_u64 (timestamp_ns' - start).
Definition is_zero_cookie (cookie : Z) : bool := cookie =? 0.

(** The loop of [comm_to_str]: the index of the first zero byte from [i], 16
    when there is none. *)
Fixpoint comm_to_str_loop (fuel : nat) (comm : bytes) (i : Z) : Z :=
  match fuel with
  | O => TASK_COMM_LEN
  | S fuel =>
      if i <? TASK_COMM_LEN then
        if default 0 (comm !! Z.to_nat i) =? 0 then i else comm_to_str_loop fuel comm (i + 1)
      else TASK_COMM_LEN
  end.
Definition comm_to_str (comm : bytes) : bytes :=
  take (Z.to_nat (comm_to_str_loop (Z.to_nat TASK_COMM_LEN + 1) comm 0)) comm.

(** ** socket.rs *)

Context (en : endian).

(** [RingBuf::with_byte_size(1024 * 1024, 0)]. *)
Definition EVENTS_byte_size : Z := 1024 * 1024.

(** [bpf_probe_read_kernel] of a reference to [sk]'s field: the bytes of the field [x] of the socket
    at the address [sk]. *)
Definition probe_read_field (sk : Z) (x : string) : result bytes Z :=
  match field vmlinux.sock x with
  | Some (off, t) => bpf_probe_read_kernel k (as_u64 (sk + off)) (sizeof t)
  | None => Err 0
  end.

(** A field of the [sock_common] that was read. *)
Definition common_bytes (common : bytes) (path : list string) : bytes :=
  default [] (read_field vmlinux.sock_common path common).
Definition common_int (common : bytes) (path : list string) : Z :=
  from_ne_bytes en (common_bytes common path).

(** [common.__bindgen_anon_1.__bindgen_anon_1.x] and the like. *)
Definition skc_family : list string := ["skc_family"]%string.
Definition skc_rcv_saddr : list string :=
  ["__bindgen_anon_1"; "__bindgen_anon_1"; "skc_rcv_saddr"]%string.
Definition skc_daddr : list string :=
  ["__bindgen_anon_1"; "__bindgen_anon_1"; "skc_daddr"]%string.
Definition skc_num : list string := ["__bindgen_anon_3"; "__bindgen_anon_1"; "skc_num"]%string.
Definition skc_dport : list string := ["__bindgen_anon_3"; "__bindgen_anon_1"; "skc_dport"]%string.
Definition skc_v6_rcv_saddr : list string := ["skc_v6_rcv_saddr"; "in6_u"; "u6_addr8"]%string.
Definition skc_v6_daddr : list string := ["skc_v6_daddr"; "in6_u"; "u6_addr8"]%string.

(** [event.src_ip], [dst_ip], [src_port] and [dst_port] assigned. *)
Definition set_endpoints (e : NetEvent) (si di : bytes) (sp dp : Z) : NetEvent := {|
  timestamp_ns := timestamp_ns e; socket_id := socket_id e; ev_pid := ev_pid e;
  ev_tid := ev_tid e; ev_uid := ev_uid e; event := event e; protocol := protocol e;
  ev_direction := ev_direction e; comm := comm e;
  src_ip := si; dst_ip := di; src_port := sp; dst_port := dp; ret := ret e;
|}.

Definition fill_ipv4 (e : NetEvent) (common : bytes) : NetEvent :=
  let src := common_int common skc_rcv_saddr in
  let dst := common_int common skc_daddr in
  let zero := replicate 16 0 in
  set_endpoints e
    (to_ne_bytes en 4 src ++ drop 4 zero)
    (to_ne_bytes en 4 dst ++ drop 4 zero)
    (common_int common skc_num)
    (from_be en 2 (common_int common skc_dport)).

Definition fill_ipv6 (e : NetEvent) (common : bytes) : NetEvent :=
  set_endpoints e
    (common_bytes common skc_v6_rcv_saddr)
    (common_bytes common skc_v6_daddr)
    (common_int common skc_num)
    (from_be en 2 (common_int common skc_dport)).

Definition fill_socket (e : NetEvent) (sk : Z) : result NetEvent Z :=
  match probe_read_field sk "__sk_common" with
  | Err err => Err err
  | Ok common =>
      let family := as_u16 (common_int common skc_family) in
      Ok (if family =? AF_INET then fill_ipv4 e common
          else if family =? AF_INET6 then fill_ipv6 e common
          else e)
  end.

Definition socket_protocol (sk : Z) : result TransportProtocol Z :=
  match probe_read_field sk "sk_protocol" with
  | Err err => Err err
  | Ok l =>
      let proto := from_ne_bytes en l in
      Ok (if proto =? IPPROTO_TCP then ProtoTcp
          else if proto =? IPPROTO_UDP then ProtoUdp
          else ProtoUnknown)
  end.
End kernel.

(** ** Lemmas *)

(** The places the code reads, in the layout of the bindings. *)
Lemma sock_common_field : field vmlinux.sock "__sk_common" = Some (0, vmlinux.sock_common).
Proof. reflexivity. Qed.
Lemma sk_protocol_field : field vmlinux.sock "sk_protocol" = Some (548, vmlinux.u16_).
Proof. vm_compute. reflexivity. Qed.
Lemma sizeof_sock_common : sizeof vmlinux.sock_common = 136.
Proof. vm_compute. reflexivity. Qed.

Lemma read_sock_common path o t l :
  offset_of vmlinux.sock_common path = Some (o, t) → Z.of_nat (length l) = 136 → wf_bytes l →
  read_field vmlinux.sock_common path l = Some (common_bytes l path) ∧
  slice l o (sizeof t) = Some (common_bytes l path) ∧
  Z.of_nat (length (common_bytes l path)) = sizeof t ∧ wf_bytes (common_bytes l path).
Proof.
  intros Ho Hl Hwf. pose proof (offset_of_bounds _ _ _ _ wf_sock_common Ho) as (? & ? & Hb).
  rewrite sizeof_sock_common in Hb. pose proof (sizeof_nonneg t ltac:(done)).
  unfold common_bytes, read_field. rewrite Ho. simpl.
  destruct (slice_is_Some l o (sizeof t)) as [r Hr]; [lia.. |]. rewrite Hr. simpl.
  pose proof (slice_Some _ _ _ _ Hr) as (_ & _ & _ & ? & _).
  split_and!; [done | done | lia | by eapply slice_wf].
Qed.

Section spec.
Context (en : endian) (l : bytes) (Hlen : Z.of_nat (length l) = 136) (Hwf : wf_bytes l).

(** The bytes of [sock_common] at a constant offset. *)
Definition at_ (o n : Z) : bytes := default [] (slice l o n).

Lemma common_bytes_at path o t :
  offset_of vmlinux.sock_common path = Some (o, t) → common_bytes l path = at_ o (sizeof t).
Proof.
  intros Ho. destruct (read_sock_common path o t l Ho Hlen Hwf) as (_ & Hs & _).
  unfold at_. by rewrite Hs.
Qed.

Lemma at_spec o n :
  0 ≤ o → 0 ≤ n → o + n ≤ 136 → Z.of_nat (length (at_ o n)) = n ∧ wf_bytes (at_ o n).
Proof.
  intros. unfold at_. destruct (slice_is_Some l o n) as [r Hr]; [lia.. |]. rewrite Hr. simpl.
  pose proof (slice_Some _ _ _ _ Hr) as (_ & _ & _ & ? & _). split; [lia | by eapply slice_wf].
Qed.

(** On either byte order, the IPv4 endpoints are the address bytes of the
    socket, in network order, and the ports are the local one in host order and
    the remote one converted from network order. *)
Lemma fill_ipv4_spec e :
  fill_ipv4 en e l = set_endpoints e
    (at_ 4 4 ++ replicate 12 0) (at_ 0 4 ++ replicate 12 0)
    (from_ne_bytes en (at_ 14 2)) (from_be_bytes (at_ 12 2)).
Proof.
  unfold fill_ipv4, common_int.
  rewrite (common_bytes_at skc_rcv_saddr 4 (TInt 4)) by (vm_compute; reflexivity).
  rewrite (common_bytes_at skc_daddr 0 (TInt 4)) by (vm_compute; reflexivity).
  rewrite (common_bytes_at skc_num 14 (TInt 2)) by (vm_compute; reflexivity).
  rewrite (common_bytes_at skc_dport 12 (TInt 2)) by (vm_compute; reflexivity).
  cbn [sizeof].
  destruct (at_spec 4 4) as [H4 H4w]; [lia.. |]. destruct (at_spec 0 4) as [H0 H0w]; [lia.. |].
  destruct (at_spec 12 2) as [H12 H12w]; [lia.. |].
  rewrite !to_from_ne_bytes by done. by rewrite from_be_from_ne_bytes.
Qed.

Lemma fill_ipv6_spec e :
  fill_ipv6 en e l = set_endpoints e (at_ 72 16) (at_ 56 16)
    (from_ne_bytes en (at_ 14 2)) (from_be_bytes (at_ 12 2)).
Proof.
  unfold fill_ipv6, common_int.
  rewrite (common_bytes_at skc_v6_rcv_saddr 72 (TArr (TInt 1) 16)) by (vm_compute; reflexivity).
  rewrite (common_bytes_at skc_v6_daddr 56 (TArr (TInt 1) 16)) by (vm_compute; reflexivity).
  rewrite (common_bytes_at skc_num 14 (TInt 2)) by (vm_compute; reflexivity).
  rewrite (common_bytes_at skc_dport 12 (TInt 2)) by (vm_compute; reflexivity).
  cbn [sizeof]. destruct (at_spec 12 2) as [H12 H12w]; [lia.. |].
  by rewrite from_be_from_ne_bytes.
Qed.
End spec.

Lemma set_endpoints_wf e si di sp dp :
  wf_NetEvent e → (length si = 16%nat ∧ wf_bytes si) → (length di = 16%nat ∧ wf_bytes di) →
  in_u 16 sp → in_u 16 dp → wf_NetEvent (set_endpoints e si di sp dp).
Proof. unfold wf_NetEvent, set_endpoints. simpl. tauto. Qed.

Lemma fill_socket_wf k en e sk e' :
  wf_kernel k → wf_NetEvent e → fill_socket k en e sk = Ok e' → wf_NetEvent e'.
Proof.
  intros Hk He. unfold fill_socket, probe_read_field. rewrite sock_common_field.
  destruct (bpf_probe_read_kernel _ _ _) as [l|] eqn:Hl; [|done]. intros [= <-].
  apply (wf_probe_read _ Hk) in Hl as [Hlen Hwf]. rewrite sizeof_sock_common in Hlen.
  assert (∀ o n, 0 ≤ o → 0 ≤ n → o + n ≤ 136 →
    length (at_ l o n) = Z.to_nat n ∧ wf_bytes (at_ l o n)) as Hat.
  { intros o n ? ? ?. destruct (at_spec l Hlen Hwf o n); [lia.. |]. split; [lia | done]. }
  assert (wf_bytes (replicate 12 0)) as Hz by (apply (bool_decide_unpack _); by vm_compute).
  destruct (Hat 14 2) as [Hnl Hn]; [lia.. |]. destruct (Hat 12 2) as [Hdl Hd]; [lia.. |].
  assert (in_u 16 (from_ne_bytes en (at_ l 14 2))).
  { pose proof (from_ne_bytes_range en _ Hn) as H. by rewrite Hnl in H. }
  assert (in_u 16 (from_be_bytes (at_ l 12 2))).
  { pose proof (from_be_bytes_range _ Hd) as H1. by rewrite Hdl in H1. }
  assert (∀ o, 0 ≤ o → o + 4 ≤ 136 →
    length (at_ l o 4 ++ replicate 12 0) = 16%nat ∧ wf_bytes (at_ l o 4 ++ replicate 12 0)).
  { intros o ? ?. destruct (Hat o 4) as [Ho ?]; [lia.. |].
    rewrite length_app, length_replicate, Ho. split; [done | by apply Forall_app]. }
  repeat case_match; [rewrite fill_ipv4_spec by done | rewrite fill_ipv6_spec by done | done];
    apply set_endpoints_wf; auto with lia; apply Hat; lia.
Qed.
