(* ===== verification/Fexit.v ===== *)
(** * The two connection tracers ([fexit_tcp4_egress.rs], [fexit_tcp4_accept.rs])

    Programs attached to the exit of [tcp_v4_connect] and of [inet_csk_accept]:
    each builds a [NetEvent] for the socket and sends it to user space through
    the ring buffer [EVENTS]. *)

From S2P Require Export Kernel.

(** [FExitContext]: the arguments and the return value of the traced function. *)
Record FExitContext := { ctx_arg : nat → Z; ctx_ret : result Z Z }.

(** [ctx.arg::<c_long>(3) as i32] keeps 32 bits. *)
Section fexit.
Context (k : Kernel) (en : endian) (pad : Z → Z) `{BpfRingBuf R}.

(** The fields both programs set before they read the socket. *)
Definition tracer_event (ev : EventType) (sk ret : Z) : NetEvent := {|
  timestamp_ns := timestamp_ns' k; socket_id := as_u64 sk;
  ev_pid := pid k; ev_tid := tid k; ev_uid := uid k;
  event := ev; protocol := protocol NetEvent_default; ev_direction := direction ev;
  comm := comm NetEvent_default; src_ip := src_ip NetEvent_default;
  dst_ip := dst_ip NetEvent_default; src_port := src_port NetEvent_default;
  dst_port := dst_port NetEvent_default; ret := ret;
|}.

Definition set_protocol (e : NetEvent) (p : TransportProtocol) : NetEvent := {|
  timestamp_ns := timestamp_ns e; socket_id := socket_id e; ev_pid := ev_pid e;
  ev_tid := ev_tid e; ev_uid := ev_uid e; event := event e; protocol := p;
  ev_direction := ev_direction e; comm := comm e; src_ip := src_ip e; dst_ip := dst_ip e;
  src_port := src_port e; dst_port := dst_port e; ret := ret e;
|}.
Definition set_comm (e : NetEvent) (c : bytes) : NetEvent := {|
  timestamp_ns := timestamp_ns e; socket_id := socket_id e; ev_pid := ev_pid e;
  ev_tid := ev_tid e; ev_uid := ev_uid e; event := event e; protocol := protocol e;
  ev_direction := ev_direction e; comm := c; src_ip := src_ip e; dst_ip := dst_ip e;
  src_port := src_port e; dst_port := dst_port e; ret := ret e;
|}.

(** From the read of the protocol on, where the two programs agree: the event
    completed from the socket and the name of the task. *)
Definition complete_event (e : NetEvent) (sk : Z) : result NetEvent Z :=
  (let? p := map_err as_u32 (socket_protocol k en sk) in
   let? e := map_err as_u32 (fill_socket k en (set_protocol e p) sk) in
   let? c := map_err as_u32 (current_comm k) in
   Ok (set_comm e c))%rust.

Definition output_event (e : result NetEvent Z) (events : R) : result () Z * R :=
  match e with
  | Err err => (Err err, events)
  | Ok e =>
      let '(r, events) := rb_output events (NetEvent_bytes en pad e) in (map_err as_u32 r, events)
  end.

Definition try_tcp_v4_connect_exit (ctx : FExitContext) (events : R) : result () Z * R :=
  let sk := ctx_arg ctx 0 in
  let ret := as_i32 (ctx_arg ctx 3) in
  output_event (complete_event (tracer_event EvConnect sk ret) sk) events.

Definition tcp_v4_connect_exit (ctx : FExitContext) (events : R) : Z * R :=
  match try_tcp_v4_connect_exit ctx events with
  | (Ok _, events) => (0, events)
  | (Err _, events) => (0, events)
  end.

Definition try_incoming_connection (ctx : FExitContext) (events : R) : result () Z * R :=
  match map_err as_u32 (ctx_ret ctx) with
  | Err e => (Err e, events)
  | Ok newsk =>
      if newsk =? 0 then (Ok (), events)
      else output_event (complete_event (tracer_event EvAccept newsk 0) newsk) events
  end.

Definition incoming_connection (ctx : FExitContext) (events : R) : Z * R :=
  match try_incoming_connection ctx events with
  | (Ok _, events) => (0, events)
  | (Err _, events) => (0, events)
  end.
End fexit.

(** ** Lemmas *)

Section proofs.
Context (k : Kernel) (Hk : wf_kernel k) (en : endian) (pad : Z → Z) `{BpfRingBufSpec R}.

Lemma tracer_event_wf ev sk r : - 2 ^ 31 ≤ r < 2 ^ 31 → wf_NetEvent (tracer_event k ev sk r).
Proof.
  intros Hr. unfold wf_NetEvent, tracer_event. cbn.
  assert (length (replicate 16 0) = 16%nat ∧ wf_bytes (replicate 16 0)) as Hz
    by (split; [done | apply (bool_decide_unpack _); by vm_compute]).
  pose proof (wf_ktime k Hk).
  split_and!; try done; try (apply wrap_range; lia); try apply Hz; try uint.
Qed.

Lemma complete_event_wf e sk e' :
  wf_NetEvent e → complete_event k en e sk = Ok e' → wf_NetEvent e'.
Proof.
  unfold complete_event. intros He H'.
  destruct (socket_protocol k en sk) as [p|]; [|done]. simpl in H'.
  destruct (fill_socket k en (set_protocol e p) sk) as [e1|] eqn:Hf; [|done]. simpl in H'.
  apply fill_socket_wf in Hf; [|done|done].
  unfold current_comm in H'. destruct (bpf_get_current_comm k) as [c|] eqn:Hc; [|done].
  simplify_eq/=. apply (wf_comm k Hk) in Hc. revert Hf. unfold wf_NetEvent. simpl. tauto.
Qed.

Lemma output_event_view e events :
  rb_view (output_event en pad e events).2 =
    rb_view events ++
      match e, (output_event en pad e events).1 with
      | Ok e, Ok _ => [NetEvent_bytes en pad e]
      | _, _ => []
      end.
Proof.
  unfold output_event. destruct e as [e|]; [|by rewrite app_nil_r].
  pose proof (rb_output_spec events (NetEvent_bytes en pad e)) as Ho.
  destruct (rb_output _ _) as [[|] ev]; simpl in *; [done | by rewrite app_nil_r].
Qed.
End proofs.
