(* ===== verification/Xdp.v ===== *)
(** * The XDP filter ([rustguard-ebpf/src/main.rs])

    [rustguard] decides what happens to a received frame.  The header types of
    the crate network-types, the packet memory and the clock are its
    environment; the maps are used through their interface. *)

From S2P Require Export Prelude Event BpfMap.

(** ** The crate network-types *)

(** The headers as the program reads them, from the bytes they cover.  [_LEN] is
    both the associated constant and [size_of] of the type. *)
Class NetworkTypes := {
  EthHdr_LEN : Z;
  Ipv4Hdr_LEN : Z;
  TcpHdr_LEN : Z;
  UdpHdr_LEN : Z;
  EtherType : Type;
  EtherType_eq_dec :: EqDecision EtherType;
  EtherType_Ipv4 : EtherType;
  EthHdr_ether_type : bytes → result EtherType Z;
  IpProto : Type;
  IpProto_eq_dec :: EqDecision IpProto;
  IpProto_Tcp : IpProto;
  IpProto_Udp : IpProto;
  Ipv4Hdr_src_addr : bytes → bytes;
  Ipv4Hdr_proto : bytes → result IpProto Z;
  TcpHdr_source : bytes → bytes;
  UdpHdr_src_port : bytes → Z;
}.

(** The layouts of IEEE 802.3, RFC 791, RFC 793 and RFC 768. *)
Class NetworkTypesSpec `{NetworkTypes} := {
  EthHdr_LEN_eq : EthHdr_LEN = 14;
  Ipv4Hdr_LEN_eq : Ipv4Hdr_LEN = 20;
  TcpHdr_LEN_eq : TcpHdr_LEN = 20;
  UdpHdr_LEN_eq : UdpHdr_LEN = 8;
  EthHdr_ether_type_spec h :
    EthHdr_ether_type h = Ok EtherType_Ipv4 ↔ slice h 12 2 = Some [8; 0];
  Ipv4Hdr_src_addr_spec h a : slice h 12 4 = Some a → Ipv4Hdr_src_addr h = a;
  IpProto_neq : IpProto_Tcp ≠ IpProto_Udp;
  Ipv4Hdr_proto_tcp h : Ipv4Hdr_proto h = Ok IpProto_Tcp ↔ h !! 9%nat = Some 6;
  Ipv4Hdr_proto_udp h : Ipv4Hdr_proto h = Ok IpProto_Udp ↔ h !! 9%nat = Some 17;
  TcpHdr_source_spec h a : slice h 0 2 = Some a → TcpHdr_source h = a;
  UdpHdr_src_port_spec h a : slice h 0 2 = Some a → UdpHdr_src_port h = from_be_bytes a;
}.

(** ** The program *)

Inductive xdp_action := XDP_ABORTED | XDP_DROP | XDP_PASS.
#[export] Instance xdp_action_eq_dec : EqDecision xdp_action.
Proof. solve_decision. Defined.

(** An [XdpContext]: the address of the packet and its bytes. *)
Record XdpContext := { data : Z; packet : bytes }.
Definition data_end (ctx : XdpContext) : Z := data ctx + Z.of_nat (length (packet ctx)).

(** A read of [n] bytes at [ptr]; [None] is a read outside the packet. *)
Definition load (ctx : XdpContext) (ptr n : Z) : option bytes :=
  slice (packet ctx) (ptr - data ctx) n.

(** The maps, and the records handed to aya-log by [info!] (address and port); its
    buffer may lose one on the way to user space. *)
Record XdpState (MB MS : Type) := {
  BANNED_IPS : MB;
  STATS : MS;
  xdp_log : list (Z * Z);
}.
Arguments BANNED_IPS {_ _} _.
Arguments STATS {_ _} _.
Arguments xdp_log {_ _} _.

(** [HashMap::with_max_entries(1024, 0)]. *)
Definition BANNED_IPS_max_entries : nat := 1024.
Definition STATS_max_entries : nat := 1024.

Section xdp.
Context `{NetworkTypes} `{BpfHashMap MB BanValue} `{BpfHashMap MS StatsValue}.
Abbreviation state := (XdpState MB MS).

Definition xdp_init : state := {|
  BANNED_IPS := bm_new BANNED_IPS_max_entries; STATS := bm_new STATS_max_entries;
  xdp_log := [];
|}.

Definition ptr_at (ctx : XdpContext) (size offset : Z) : result Z () :=
  let start := data ctx in
  let end_ := data_end ctx in
  if as_u64 (as_u64 (start + offset) + size) >? end_ then Err ()
  else Ok (as_u64 (start + offset)).

(** The port of a TCP or UDP segment; [None] is a faulting read. *)
Definition source_port (ctx : XdpContext) (proto : IpProto) : option (result Z ()) :=
  if decide (proto = IpProto_Tcp) then
    match ptr_at ctx TcpHdr_LEN (EthHdr_LEN + Ipv4Hdr_LEN) with
    | Err e => Some (Err e)
    | Ok tcphdr =>
        h ← load ctx tcphdr TcpHdr_LEN; Some (Ok (from_be_bytes (TcpHdr_source h)))
    end
  else if decide (proto = IpProto_Udp) then
    match ptr_at ctx UdpHdr_LEN (EthHdr_LEN + Ipv4Hdr_LEN) with
    | Err e => Some (Err e)
    | Ok udphdr => h ← load ctx udphdr UdpHdr_LEN; Some (Ok (UdpHdr_src_port h))
    end
  else Some (Err ()).

(** The effect of a drop on the statistics: the counter under key 0 is
    incremented in place when the key is there. *)
Definition count_drop (stats : MS) : MS :=
  match bm_get stats 0 with
  | Some stat => bm_store stats 0 {| packets_dropped := as_u64 (packets_dropped stat + 1) |}
  | None => stats
  end.

(** The lookup in [BANNED_IPS] and the verdict; [now] is [bpf_ktime_get_ns()]. *)
Definition check_ban (src_addr source_port now : Z) (st : state) : xdp_action * state :=
  match bm_get (BANNED_IPS st) src_addr with
  | Some ban =>
      if (end_time ban =? 0) || (now <=? end_time ban) then
        (XDP_DROP, {| BANNED_IPS := BANNED_IPS st; STATS := count_drop (STATS st);
                      xdp_log := xdp_log st ++ [(src_addr, source_port)] |})
      else (XDP_PASS, st)
  | None => (XDP_PASS, st)
  end.

Definition try_rustguard (ctx : XdpContext) (now : Z) (st : state) :
    option (result xdp_action () * state) :=
  match ptr_at ctx EthHdr_LEN 0 with
  | Err e => Some (Err e, st)
  | Ok ethhdr =>
      eth ← load ctx ethhdr EthHdr_LEN;
      if decide (EthHdr_ether_type eth = Ok EtherType_Ipv4) then
        match ptr_at ctx Ipv4Hdr_LEN EthHdr_LEN with
        | Err e => Some (Err e, st)
        | Ok ipv4hdr =>
            ip ← load ctx ipv4hdr Ipv4Hdr_LEN;
            let src_addr := from_be_bytes (Ipv4Hdr_src_addr ip) in
            match map_err (λ _, ()) (Ipv4Hdr_proto ip) with
            | Err e => Some (Err e, st)
            | Ok proto =>
                port ← source_port ctx proto;
                match port with
                | Err e => Some (Err e, st)
                | Ok port =>
                    let '(action, st) := check_ban src_addr port now st in
                    Some (Ok action, st)
                end
            end
        end
      else Some (Ok XDP_PASS, st)
  end.

Definition rustguard (ctx : XdpContext) (now : Z) (st : state) : option (xdp_action * state) :=
  '(r, st) ← try_rustguard ctx now st;
  Some (match r with Ok ret => ret | Err _ => XDP_ABORTED end, st).

(** [try_rustguard] up to the clock: an early return, or address and port;
    [None] is a faulting read. *)
Definition headers (ctx : XdpContext) : option (result xdp_action () + Z * Z) :=
  match ptr_at ctx EthHdr_LEN 0 with
  | Err e => Some (inl (Err e))
  | Ok ethhdr =>
      eth ← load ctx ethhdr EthHdr_LEN;
      if decide (EthHdr_ether_type eth = Ok EtherType_Ipv4) then
        match ptr_at ctx Ipv4Hdr_LEN EthHdr_LEN with
        | Err e => Some (inl (Err e))
        | Ok ipv4hdr =>
            ip ← load ctx ipv4hdr Ipv4Hdr_LEN;
            let src_addr := from_be_bytes (Ipv4Hdr_src_addr ip) in
            match map_err (λ _, ()) (Ipv4Hdr_proto ip) with
            | Err e => Some (inl (Err e))
            | Ok proto =>
                port ← source_port ctx proto;
                match port with
                | Err e => Some (inl (Err e))
                | Ok port => Some (inr (src_addr, port))
                end
            end
        end
      else Some (inl (Ok XDP_PASS))
  end.

(** ** Reference definition, on the bytes of the frame *)

Inductive frame :=
| Malformed            (* too short for a header it needs, or not TCP nor UDP *)
| NotIpv4
| Segment (src_addr port : Z).

Definition be_at (l : bytes) (off n : Z) : Z := from_be_bytes (default [] (slice l off n)).

Definition parse_frame (l : bytes) : frame :=
  let len := Z.of_nat (length l) in
  if bool_decide (len < 14) then Malformed
  else if bool_decide (slice l 12 2 = Some [8; 0]) then
    if bool_decide (len < 34) then Malformed
    else match l !! 23%nat with
         | Some 6 => if bool_decide (len < 54) then Malformed
                     else Segment (be_at l 26 4) (be_at l 34 2)
         | Some 17 => if bool_decide (len < 42) then Malformed
                      else Segment (be_at l 26 4) (be_at l 34 2)
         | _ => Malformed
         end
  else NotIpv4.

(** A ban holds at [now] when it is permanent or has not expired. *)
Definition ban_active (now : Z) (ban : BanValue) : bool :=
  bool_decide (end_time ban = 0 ∨ now ≤ end_time ban).

Definition filter_frame (l : bytes) (now : Z) (st : state) : xdp_action * state :=
  match parse_frame l with
  | Malformed => (XDP_ABORTED, st)
  | NotIpv4 => (XDP_PASS, st)
  | Segment src port =>
      match bm_get (BANNED_IPS st) src with
      | Some ban =>
          if ban_active now ban then
            (XDP_DROP, {| BANNED_IPS := BANNED_IPS st; STATS := count_drop (STATS st);
                          xdp_log := xdp_log st ++ [(src, port)] |})
          else (XDP_PASS, st)
      | None => (XDP_PASS, st)
      end
  end.
End xdp.

(** The packet lies in the address space, below the last page. *)
Definition wf_ctx (ctx : XdpContext) : Prop := 0 ≤ data ctx ∧ data_end ctx ≤ 2 ^ 64 - 4096.

(** ** A reference implementation of the headers *)

Inductive ether_type_impl := EtIpv4 | EtOther (t : Z).
#[export] Instance ether_type_impl_eq_dec : EqDecision ether_type_impl.
Proof. solve_decision. Defined.
Inductive ip_proto_impl := PrTcp | PrUdp | PrOther (p : Z).
#[export] Instance ip_proto_impl_eq_dec : EqDecision ip_proto_impl.
Proof. solve_decision. Defined.

#[export] Instance rfc_headers : NetworkTypes := {|
  EthHdr_LEN := 14; Ipv4Hdr_LEN := 20; TcpHdr_LEN := 20; UdpHdr_LEN := 8;
  EtherType := ether_type_impl;
  EtherType_Ipv4 := EtIpv4;
  EthHdr_ether_type h :=
    match slice h 12 2 with
    | Some a => if decide (a = [8; 0]) then Ok EtIpv4 else Ok (EtOther (from_be_bytes a))
    | None => Err 0
    end;
  IpProto := ip_proto_impl;
  IpProto_Tcp := PrTcp;
  IpProto_Udp := PrUdp;
  Ipv4Hdr_src_addr h := default [] (slice h 12 4);
  Ipv4Hdr_proto h :=
    match h !! 9%nat with
    | Some 6 => Ok PrTcp
    | Some 17 => Ok PrUdp
    | Some p => Ok (PrOther p)
    | None => Err 0
    end;
  TcpHdr_source h := default [] (slice h 0 2);
  UdpHdr_src_port h := from_be_bytes (default [] (slice h 0 2));
|}.

#[export] Instance rfc_headers_spec : NetworkTypesSpec.
Proof.
  split; try done; simpl.
  - intros h. destruct (slice h 12 2) as [a|]; [|split; intros [=]].
    case_decide; subst; [done|]. split; intros [=]; congruence.
  - by intros h a ->.
  - intros h. split; [|by intros ->]. intros Hh. repeat (case_match; simplify_eq; try done).
  - intros h. split; [|by intros ->]. intros Hh. repeat (case_match; simplify_eq; try done).
  - by intros h a ->.
  - by intros h a ->.
Qed.

(** ** Lemmas *)

Lemma ptr_at_spec ctx size offset :
  wf_ctx ctx → 0 ≤ size ≤ 1024 → 0 ≤ offset ≤ 1024 →
  ptr_at ctx size offset =
    if bool_decide (offset + size ≤ Z.of_nat (length (packet ctx)))
    then Ok (data ctx + offset) else Err ().
Proof.
  unfold wf_ctx, data_end, ptr_at, as_u64. intros [? ?] ? ?. unfold data_end.
  assert (wrap 64 (data ctx + offset) = data ctx + offset) as ->
    by (apply wrap_small; uint).
  assert (wrap 64 (data ctx + offset + size) = data ctx + offset + size) as ->
    by (apply wrap_small; uint).
  rewrite Z.gtb_ltb. case_bool_decide; destruct (Z.ltb_spec
    (data ctx + Z.of_nat (length (packet ctx))) (data ctx + offset + size)); done || lia.
Qed.

Lemma load_at ctx offset n : load ctx (data ctx + offset) n = slice (packet ctx) offset n.
Proof. unfold load. f_equal. lia. Qed.

Section xdp_proofs.
Context `{NetworkTypesSpec} `{BpfHashMapSpec MB BanValue} `{BpfHashMapSpec MS StatsValue}.

(** The bytes of a header inside the packet, and a field of them. *)
Lemma load_header ctx offset n :
  wf_ctx ctx → 0 ≤ offset → 0 ≤ n → offset + n ≤ Z.of_nat (length (packet ctx)) →
  ∃ h, load ctx (data ctx + offset) n = Some h ∧ slice (packet ctx) offset n = Some h.
Proof.
  intros. rewrite load_at.
  destruct (slice_is_Some (packet ctx) offset n) as [h Hh]; [lia.. |]. eauto.
Qed.

Lemma header_field (l h : bytes) off n o m :
  slice l off n = Some h → 0 ≤ o → 0 ≤ m → o + m ≤ n →
  ∃ a, slice h o m = Some a ∧ slice l (off + o) m = Some a.
Proof.
  intros Hh ? ? ?. pose proof (slice_Some _ _ _ _ Hh) as (? & ? & ? & _).
  destruct (slice_is_Some l (off + o) m) as [a Ha]; [lia.. |].
  exists a. split; [|done]. by rewrite (slice_slice _ _ _ _ _ _ Hh).
Qed.

(** A header inside the packet is read, and one that is not is an error. *)
Lemma source_port_spec ctx proto :
  wf_ctx ctx →
  source_port ctx proto =
    let len := Z.of_nat (length (packet ctx)) in
    Some (if decide (proto = IpProto_Tcp) then
            if bool_decide (54 ≤ len) then Ok (be_at (packet ctx) 34 2) else Err ()
          else if decide (proto = IpProto_Udp) then
            if bool_decide (42 ≤ len) then Ok (be_at (packet ctx) 34 2) else Err ()
          else Err ()).
Proof.
  intros Hctx. unfold source_port, be_at.
  rewrite EthHdr_LEN_eq, Ipv4Hdr_LEN_eq, TcpHdr_LEN_eq, UdpHdr_LEN_eq.
  change (14 + 20) with 34. rewrite !ptr_at_spec by (done || lia).
  change (34 + 20) with 54. change (34 + 8) with 42. cbn zeta.
  repeat case_decide; try done; case_bool_decide; try done.
  - destruct (load_header ctx 34 20) as (h & -> & Hh); [done || lia..|].
    destruct (header_field _ _ _ _ 0 2 Hh) as (a & Ha & Ha'); [lia..|].
    change (34 + 0) with 34 in Ha'. cbn [mbind option_bind]. by rewrite (TcpHdr_source_spec _ _ Ha), Ha'.
  - destruct (load_header ctx 34 8) as (h & -> & Hh); [done || lia..|].
    destruct (header_field _ _ _ _ 0 2 Hh) as (a & Ha & Ha'); [lia..|].
    change (34 + 0) with 34 in Ha'. cbn [mbind option_bind]. by rewrite (UdpHdr_src_port_spec _ _ Ha), Ha'.
Qed.

Lemma check_ban_spec src port now (st : XdpState MB MS) :
  check_ban src port now st =
    match bm_get (BANNED_IPS st) src with
    | Some ban =>
        if ban_active now ban then
          (XDP_DROP, {| BANNED_IPS := BANNED_IPS st; STATS := count_drop (STATS st);
                        xdp_log := xdp_log st ++ [(src, port)] |})
        else (XDP_PASS, st)
    | None => (XDP_PASS, st)
    end.
Proof.
  unfold check_ban, ban_active. destruct (bm_get _ _) as [ban|]; [|done].
  destruct (Z.eqb_spec (end_time ban) 0), (Z.leb_spec now (end_time ban)); simpl;
    case_bool_decide; done || lia.
Qed.

Lemma protocol_cases {A} (o : option Z) (a b c : A) :
  match o with Some 6 => a | Some 17 => b | _ => c end =
  if decide (o = Some 6) then a else if decide (o = Some 17) then b else c.
Proof. repeat case_decide; subst; try done. repeat (case_match; try done). Qed.

(** A field of [n] bytes has [8 * n] bits. *)
Lemma be_at_range l off n : wf_bytes l → 0 ≤ n → in_u (8 * n) (be_at l off n).
Proof.
  intros Hl Hn. unfold be_at. destruct (slice l off n) as [r|] eqn:Hr; simpl.
  - pose proof (from_be_bytes_range r (slice_wf _ _ _ _ Hl Hr)) as H'.
    apply slice_Some in Hr as (_ & _ & _ & Hlen & _). by rewrite Hlen, Z2Nat.id in H'.
  - change (from_be_bytes []) with 0. unfold in_u. pose proof (Z.pow_pos_nonneg 2 (8 * n)). lia.
Qed.

Lemma parse_frame_range l src port :
  wf_bytes l → parse_frame l = Segment src port → in_u 32 src ∧ in_u 16 port.
Proof.
  intros Hl. unfold parse_frame. rewrite protocol_cases.
  repeat (case_bool_decide || case_decide); try done; intros [= <- <-];
    (split; [apply (be_at_range l 26 4) | apply (be_at_range l 34 2)]); done.
Qed.

(** From the protocol on, for an IPv4 header that holds the bytes 14 to 34. *)
Lemma segment_headers ctx ip :
  wf_ctx ctx → slice (packet ctx) 14 20 = Some ip →
  match map_err (λ _, ()) (Ipv4Hdr_proto ip) with
  | Err e => Some (inl (Err e))
  | Ok proto =>
      port ← source_port ctx proto;
      match port with
      | Err e => Some (inl (Err e))
      | Ok port => Some (inr (from_be_bytes (Ipv4Hdr_src_addr ip), port))
      end
  end = Some (
    match packet ctx !! 23%nat with
    | Some 6 => if bool_decide (Z.of_nat (length (packet ctx)) < 54) then inl (Err ())
                else inr (be_at (packet ctx) 26 4, be_at (packet ctx) 34 2)
    | Some 17 => if bool_decide (Z.of_nat (length (packet ctx)) < 42) then inl (Err ())
                 else inr (be_at (packet ctx) 26 4, be_at (packet ctx) 34 2)
    | _ => inl (Err ())
    end : result xdp_action () + Z * Z).
Proof.
  intros Hctx Hip. rewrite protocol_cases.
  destruct (header_field _ _ _ _ 12 4 Hip) as (sa & Hsa & Hsa'); [lia..|].
  rewrite (Ipv4Hdr_src_addr_spec _ _ Hsa). unfold be_at.
  change (14 + 12) with 26 in Hsa'. rewrite Hsa'.
  pose proof (slice_lookup _ _ _ _ 9 Hip ltac:(lia)) as H9. simpl in H9. rewrite <- H9.
  pose proof (Ipv4Hdr_proto_tcp ip) as Htcp. pose proof (Ipv4Hdr_proto_udp ip) as Hudp.
  pose proof IpProto_neq.
  destruct (decide (ip !! 9%nat = Some 6)) as [E|Etcp];
    [|destruct (decide (ip !! 9%nat = Some 17)) as [E|Eudp]].
  - apply Htcp in E as ->. cbn [map_err]. rewrite source_port_spec by done. cbn zeta.
    rewrite decide_True by done. repeat case_bool_decide; done || lia.
  - apply Hudp in E as ->. cbn [map_err]. rewrite source_port_spec by done. cbn zeta.
    rewrite decide_False, decide_True by done. repeat case_bool_decide; done || lia.
  - destruct (Ipv4Hdr_proto ip) as [pr|]; cbn [map_err]; [|done].
    rewrite source_port_spec by done. cbn zeta.
    by rewrite !decide_False by (intros ->; tauto).
Qed.

(** The headers are read without a fault, and are what the bytes say. *)
Lemma headers_spec ctx :
  wf_ctx ctx →
  headers ctx = Some
    match parse_frame (packet ctx) with
    | Malformed => inl (Err ())
    | NotIpv4 => inl (Ok XDP_PASS)
    | Segment src port => inr (src, port)
    end.
Proof.
  intros Hctx. unfold headers, parse_frame.
  rewrite EthHdr_LEN_eq, Ipv4Hdr_LEN_eq, ptr_at_spec by (done || lia). change (0 + 14) with 14.
  case_bool_decide; case_bool_decide; try lia; [|done].
  destruct (load_header ctx 0 14) as (eth & -> & Heth); [done || lia..|].
  destruct (header_field _ _ _ _ 12 2 Heth) as (et & Het & Het'); [lia..|].
  change (0 + 12) with 12 in Het'. cbn [mbind option_bind].
  rewrite Het'. pose proof (EthHdr_ether_type_spec eth) as Hspec. rewrite Het in Hspec.
  case_decide; case_bool_decide; try tauto.
  rewrite ptr_at_spec by (done || lia). change (14 + 20) with 34.
  case_bool_decide; case_bool_decide; try lia; [|done].
  destruct (load_header ctx 14 20) as (ip & -> & Hip); [done || lia..|].
  cbn [mbind option_bind]. setoid_rewrite (segment_headers ctx ip Hctx Hip).
  rewrite !protocol_cases. by repeat case_decide; repeat case_bool_decide.
Qed.

Lemma try_rustguard_headers ctx now (st : XdpState MB MS) :
  try_rustguard ctx now st =
    h ← headers ctx;
    Some match h with
         | inl r => (r, st)
         | inr (src, port) => let '(a, st) := check_ban src port now st in (Ok a, st)
         end.
Proof.
  unfold try_rustguard, headers.
  destruct (ptr_at ctx EthHdr_LEN 0) as [p|]; [|done].
  destruct (load ctx p EthHdr_LEN) as [eth|]; cbn [mbind option_bind]; [|done].
  case_decide; [|done]. destruct (ptr_at ctx Ipv4Hdr_LEN EthHdr_LEN) as [q|]; [|done].
  destruct (load ctx q Ipv4Hdr_LEN) as [ip|]; cbn [mbind option_bind]; [|done].
  destruct (map_err _ _) as [proto|]; [|done].
  destruct (source_port ctx proto) as [[port|]|]; cbn [mbind option_bind]; [|done..].
  by destruct (check_ban _ _ _ _).
Qed.

Lemma rustguard_filter ctx now (st : XdpState MB MS) :
  wf_ctx ctx → rustguard ctx now st = Some (filter_frame (packet ctx) now st).
Proof.
  intros Hctx. unfold rustguard, filter_frame. rewrite try_rustguard_headers, headers_spec by done.
  cbn [mbind option_bind]. destruct (parse_frame (packet ctx)) as [| |src port]; [done..|].
  rewrite check_ban_spec. destruct (bm_get _ _) as [ban|]; [by destruct (ban_active now ban) | done].
Qed.
End xdp_proofs.
