(* ===== verification/Json.v ===== *)
(** * A compact JSON text

    Part of the reference implementation of serde_json's interface ([Serde]), with
    which the theorems are applied: JSON values, their text without white space, and
    a reader of exactly such texts, with the proof that it reads them back. *)

From S2P Require Export Prelude Text.

(** The members of an object are in the order of the text. *)
Inductive json : Type :=
| JNull
| JBool (b : bool)
| JNumber (n : Z)
| JString (s : string)
| JArray (l : list json)
| JObject (members : list (string * json)).

(** Numbers are of 64 bits, and the nesting is at most [n] deep. *)
Fixpoint wf_json (n : nat) (v : json) : bool :=
  match v, n with
  | JNumber z, _ => bool_decide (in_u 64 z)
  | JArray l, S n => forallb (wf_json n) l
  | JObject members, S n => forallb (λ m, wf_json n m.2) members
  | JArray _, O | JObject _, O => false
  | _, _ => true
  end.

(** ** The text *)

(** [quote] and [escape] as in RFC 8259, with the short escapes where there are. *)
Definition escape (b : Z) : bytes :=
  if b =? 34 then [92; 34] else if b =? 92 then [92; 92] else if b =? 8 then [92; 98]
  else if b =? 9 then [92; 116] else if b =? 10 then [92; 110] else if b =? 12 then [92; 102]
  else if b =? 13 then [92; 114]
  else if b <? 32 then [92; 117; 48; 48; 48 + b `div` 16; byte_of_ascii (hex_digit (b `mod` 16))]
  else [b].
Definition quote (s : string) : bytes := 34 :: concat (escape <$> bytes_of_string s) ++ [34].

(** Texts with a comma between them. *)
Fixpoint separated (l : list bytes) : bytes :=
  match l with [] => [] | [a] => a | a :: l => a ++ 44 :: separated l end.

Fixpoint compact_text (v : json) : bytes :=
  match v with
  | JNull => bytes_of_string "null"
  | JBool true => bytes_of_string "true"
  | JBool false => bytes_of_string "false"
  | JNumber n => bytes_of_string (fmt_uint n)
  | JString s => quote s
  | JArray l => 91 :: separated (map compact_text l) ++ [93]
  | JObject m => 123 :: separated (map (λ '(k, v), quote k ++ 58 :: compact_text v) m) ++ [125]
  end.

(** A reader takes a text off the front. *)
Definition reader (A : Type) : Type := bytes → option (A * bytes).

(** The character a backslash and [c] stand for. *)
Definition unescape (c : Z) : option Z :=
  if c =? 34 then Some 34 else if c =? 92 then Some 92 else if c =? 98 then Some 8
  else if c =? 116 then Some 9 else if c =? 110 then Some 10 else if c =? 102 then Some 12
  else if c =? 114 then Some 13 else None.
Definition hex_value (c : Z) : Z := if c <? 58 then c - 48 else c - 87.

(** The rest of a string after its quotation mark. *)
Fixpoint read_chars (l : bytes) : option (bytes * bytes) :=
  match l with
  | [] => None
  | c :: r =>
      if c =? 34 then Some ([], r)
      else if c =? 92 then
        match r with
        | [] => None
        | e :: r =>
            if e =? 117 then
              match r with
              | z1 :: z2 :: h1 :: h2 :: r =>
                  let b := 16 * hex_value h1 + hex_value h2 in
                  if bool_decide (escape b = [92; 117; z1; z2; h1; h2])
                  then '(s, r) ← read_chars r; Some (b :: s, r) else None
              | _ => None
              end
            else b ← unescape e; '(s, r) ← read_chars r; Some (b :: s, r)
        end
      else if c <? 32 then None
      else '(s, r) ← read_chars r; Some (c :: s, r)
  end.
Definition read_string : reader string := λ l,
  match l with
  | c :: r => if c =? 34 then '(s, r) ← read_chars r; Some (string_of_bytes s, r) else None
  | [] => None
  end.

(** The digits of a number, as they are written. *)
Fixpoint digits (l : bytes) : bytes * bytes :=
  match l with
  | c :: r => if between 48 57 c then let '(ds, r) := digits r in (c :: ds, r) else ([], l)
  | [] => ([], [])
  end.
Definition read_number : reader Z := λ l,
  let '(ds, r) := digits l in
  n ← u64_digits 0 ds; if decide (bytes_of_string (fmt_uint n) = ds) then Some (n, r) else None.

(** [s] itself. *)
Definition read_word (s : string) : reader () := λ l,
  let w := bytes_of_string s in
  if decide (take (length w) l = w) then Some ((), drop (length w) l) else None.

(** Elements up to the closing byte; each takes a byte of the fuel. *)
Fixpoint read_separated {A} (elem : reader A) (close : Z) (fuel : nat) : reader (list A) := λ l,
  match fuel with
  | O => None
  | S fuel =>
      '(a, r) ← elem l;
      match r with
      | c :: r =>
          if c =? 44 then '(more, r) ← read_separated elem close fuel r; Some (a :: more, r)
          else if c =? close then Some ([a], r) else None
      | [] => None
      end
  end.
Definition read_list {A} (elem : reader A) (close : Z) : reader (list A) := λ l,
  match l with
  | c :: r => if c =? close then Some ([], r) else read_separated elem close (length l) l
  | [] => None
  end.
Definition read_member {A} (value : reader A) : reader (string * A) := λ l,
  '(k, r) ← read_string l;
  match r with
  | c :: r => if c =? 58 then '(v, r) ← value r; Some (k, v, r) else None
  | [] => None
  end.

(** A value nested at most [n] deep. *)
Fixpoint read_value (n : nat) : reader json := λ l,
  match l with
  | [] => None
  | c :: r =>
      if c =? 110 then '(_, r) ← read_word "null" l; Some (JNull, r)
      else if c =? 116 then '(_, r) ← read_word "true" l; Some (JBool true, r)
      else if c =? 102 then '(_, r) ← read_word "false" l; Some (JBool false, r)
      else if c =? 34 then '(s, r) ← read_string l; Some (JString s, r)
      else if c =? 91 then
        match n with
        | O => None
        | S n => '(vs, r) ← read_list (read_value n) 93 r; Some (JArray vs, r)
        end
      else if c =? 123 then
        match n with
        | O => None
        | S n => '(ms, r) ← read_list (read_member (read_value n)) 125 r; Some (JObject ms, r)
        end
      else '(z, r) ← read_number l; Some (JNumber z, r)
  end.

Definition json_of_text (n : nat) (l : bytes) : option json :=
  match read_value n l with Some (v, []) => Some v | _ => None end.

(** ** Lemmas *)

(** A text that ends a number. *)
Definition no_digit (l : bytes) : Prop := ∀ c r, l = c :: r → between 48 57 c = false.

Lemma digits_app ds r : Forall (λ c, between 48 57 c = true) ds → no_digit r → digits (ds ++ r) = (ds, r).
Proof.
  intros Hds Hr. induction Hds as [|c ds Hc _ IH]; simpl.
  - destruct r as [|c r]; [done|]. simpl. by rewrite (Hr c r).
  - by rewrite Hc, IH.
Qed.

Lemma read_number_fmt n r :
  in_u 64 n → no_digit r → read_number (bytes_of_string (fmt_uint n) ++ r) = Some (n, r).
Proof.
  intros Hn Hr. pose proof (u64_digits_fmt n Hn) as Hd. unfold read_number.
  rewrite digits_app by (done || by eapply u64_digits_all).
  rewrite Hd. simpl. by rewrite decide_True.
Qed.

Lemma read_chars_escape b r :
  is_byte b → read_chars (escape b ++ r) = ('(s, r) ← read_chars r; Some (b :: s, r)).
Proof.
  intros Hb. destruct (decide (b ∈ seqZ 0 32)) as [Hc|Hc].
  - repeat (apply elem_of_cons in Hc as [->|Hc]; [reflexivity|]). by apply not_elem_of_nil in Hc.
  - rewrite elem_of_seqZ in Hc. unfold is_byte, in_u in Hb. unfold escape.
    destruct (Z.eqb_spec b 34) as [->|]; [reflexivity|].
    destruct (Z.eqb_spec b 92) as [->|]; [reflexivity|].
    repeat (rewrite (proj2 (Z.eqb_neq b _)) by lia).
    rewrite (proj2 (Z.ltb_ge b 32)) by lia. cbn [app read_chars].
    rewrite (proj2 (Z.eqb_neq b 34)), (proj2 (Z.eqb_neq b 92)), (proj2 (Z.ltb_ge b 32)) by lia. done.
Qed.

Lemma read_chars_quoted l r : wf_bytes l → read_chars (concat (escape <$> l) ++ 34 :: r) = Some (l, r).
Proof.
  induction 1 as [|b l Hb _ IH]; [done|]. rewrite fmap_cons. cbn [concat].
  rewrite <- app_assoc, read_chars_escape, IH by done. done.
Qed.

Lemma read_string_quote s r : read_string (quote s ++ r) = Some (s, r).
Proof.
  unfold quote. cbn [app read_string]. rewrite <- app_assoc. cbn [app].
  rewrite Z.eqb_refl, read_chars_quoted by apply wf_bytes_of_string.
  cbn [mbind option_bind]. by rewrite string_of_bytes_of_string.
Qed.

Lemma read_word_app s r : read_word s (bytes_of_string s ++ r) = Some ((), r).
Proof. unfold read_word. rewrite take_app_length, decide_True, drop_app_length; done. Qed.

(** What follows a value inside a text. *)
Definition follows (r : bytes) : Prop := ∀ c r', r = c :: r' → c = 44 ∨ c = 93 ∨ c = 125.

Lemma follows_no_digit r : follows r → no_digit r.
Proof. intros Hf c r' ->. by destruct (Hf c r' eq_refl) as [-> | [-> | ->]]. Qed.

Lemma follows_cons c r : c = 44 ∨ c = 93 ∨ c = 125 → follows (c :: r).
Proof. by intros ? c' r' [= <- <-]. Qed.

(** Elements whose text starts with neither bracket and is read back. *)
Definition reads {A} (elem : reader A) (text : A → bytes) (a : A) : Prop :=
  (∃ c l, text a = c :: l ∧ c ≠ 93 ∧ c ≠ 125) ∧
  ∀ r, follows r → elem (text a ++ r) = Some (a, r).

Lemma read_separated_text {A} (elem : reader A) text close fuel a l r :
  close = 93 ∨ close = 125 → Forall (reads elem text) (a :: l) → (length (a :: l) ≤ fuel)%nat →
  read_separated elem close fuel (separated (map text (a :: l)) ++ close :: r) = Some (a :: l, r).
Proof.
  intros Hclose. revert fuel a. induction l as [|a' l IH]; intros fuel a Hl Hf;
    (destruct fuel as [|fuel]; [simpl in Hf; lia|]); inversion Hl as [|? ? [_ Ha] Hl']; subst.
  - cbn [map separated read_separated]. rewrite Ha by (apply follows_cons; tauto). simpl.
    destruct Hclose as [-> | ->]; done.
  - change (separated (map text (a :: a' :: l))) with (text a ++ 44 :: separated (map text (a' :: l))).
    cbn [read_separated]. rewrite <- app_assoc. cbn [app].
    rewrite Ha by (apply follows_cons; tauto). cbn [mbind option_bind].
    rewrite Z.eqb_refl. rewrite IH; [done | done | simpl in *; lia].
Qed.

Lemma separated_length l : Forall (λ a : bytes, a ≠ []) l → (length l ≤ length (separated l))%nat.
Proof.
  induction 1 as [|a l Ha _ IH]; [done|]. destruct a as [|c a]; [done|].
  destruct l as [|b l]; simpl in *; [lia|]. rewrite length_app. simpl. lia.
Qed.

Lemma read_list_text {A} (elem : reader A) text close l r :
  close = 93 ∨ close = 125 → Forall (reads elem text) l →
  read_list elem close (separated (map text l) ++ close :: r) = Some (l, r).
Proof.
  intros Hclose Hl. destruct l as [|a l]; [simpl; by rewrite Z.eqb_refl|].
  assert (Forall (λ b : bytes, b ≠ []) (map text (a :: l))) as Hne.
  { apply List.Forall_map. eapply List.Forall_impl; [|exact Hl].
    by intros x [(c & t & -> & _) _]. }
  pose proof (separated_length _ Hne) as Hlen. rewrite length_map in Hlen.
  assert (∃ c t, separated (map text (a :: l)) ++ close :: r = c :: t ∧ c ≠ close) as (c & t & Heq & Hc).
  { inversion Hl as [|? ? [(c & t & Ht & Hc1 & Hc2) _] _]; subst. exists c.
    destruct l as [|b l]; simpl; rewrite Ht; eexists; (split; [reflexivity|]);
      by destruct Hclose as [-> | ->]. }
  pose proof (read_separated_text elem text close (length (c :: t)) a l r Hclose Hl) as Hr.
  rewrite Heq in Hr. rewrite Heq. unfold read_list.
  rewrite (proj2 (Z.eqb_neq c close)) by done. apply Hr.
  rewrite <- Heq, length_app. simpl in *. lia.
Qed.

(** A number begins with a digit. *)
Lemma fmt_uint_digit n :
  in_u 64 n → ∃ c l, bytes_of_string (fmt_uint n) = c :: l ∧ 48 ≤ c ≤ 57.
Proof.
  intros Hn. pose proof (u64_digits_all _ _ _ (u64_digits_fmt n Hn)) as Hall.
  pose proof (fmt_uint_nonempty n Hn) as Hne. destruct (fmt_uint n) as [|c s]; [done|].
  simpl in *. inversion Hall as [|? ? Hc]; subst. apply bool_decide_eq_true in Hc. eauto.
Qed.

Lemma read_member_text n k v :
  reads (read_value n) compact_text v →
  reads (read_member (read_value n)) (λ '(k, v), quote k ++ 58 :: compact_text v) (k, v).
Proof.
  intros [_ Hv]. split; [unfold quote; simpl; eauto|]. intros r Hr. unfold read_member.
  rewrite <- app_assoc, read_string_quote. cbn [mbind option_bind app].
  rewrite Z.eqb_refl, Hv by done. done.
Qed.

Lemma read_value_text n v : wf_json n v = true → reads (read_value n) compact_text v.
Proof.
  revert v. induction n as [n IH] using (well_founded_induction lt_wf). intros v Hwf.
  destruct v as [|b|z|s|l|m].
  - split; [simpl; eauto|]. intros r _. by destruct n.
  - destruct b; (split; [simpl; eauto|]); intros r _; by destruct n.
  - assert (in_u 64 z) as Hz by (destruct n; by apply bool_decide_eq_true in Hwf).
    destruct (fmt_uint_digit z Hz) as (c & l & Heq & Hc). cbn [compact_text].
    split; [exists c, l; split_and!; [done | lia..]|]. intros r Hr.
    pose proof (read_number_fmt z r Hz (follows_no_digit r Hr)) as Hread. cbn [compact_text].
    destruct n; cbn [read_value]; rewrite Heq in *; cbn [app] in *;
      repeat (rewrite (proj2 (Z.eqb_neq c _)) by lia); by rewrite Hread.
  - split; [unfold compact_text, quote; eauto|]. intros r _. cbn [compact_text].
    pose proof (read_string_quote s r) as Hread. unfold quote in *. cbn [app] in *.
    destruct n; cbn -[read_string]; by rewrite Hread.
  - destruct n as [|n]; [done|]. split; [simpl; eauto|]. intros r _. cbn [compact_text app read_value].
    rewrite <- app_assoc. cbn [app].
    rewrite (read_list_text (read_value n) compact_text 93 l r) by
      (eauto || (rewrite Forall_forall; intros v Hin; apply IH; [lia|];
         cbn [wf_json] in Hwf; rewrite forallb_forall in Hwf; apply Hwf; by apply list_elem_of_In)).
    done.
  - destruct n as [|n]; [done|]. split; [simpl; eauto|]. intros r _. cbn [compact_text app read_value].
    rewrite <- app_assoc. cbn [app].
    rewrite (read_list_text (read_member (read_value n))) by
      (eauto || (rewrite Forall_forall; intros [k v] Hin; apply read_member_text, IH; [lia|];
         cbn [wf_json] in Hwf; rewrite forallb_forall in Hwf;
         apply (Hwf (k, v)); by apply list_elem_of_In)).
    done.
Qed.

Lemma separated_wf l : Forall wf_bytes l → wf_bytes (separated l).
Proof.
  induction 1 as [|a l Ha Hl IH]; [by apply List.Forall_nil|]. destruct l as [|b l]; [done|].
  cbn [separated]. apply Forall_app. split; [done|].
  apply List.Forall_cons; [by apply (bool_decide_unpack _) | done].
Qed.

Lemma quote_wf s : wf_bytes (quote s).
Proof.
  unfold quote. apply List.Forall_cons; [by apply (bool_decide_unpack _)|].
  apply Forall_app. split; [|by apply (bool_decide_unpack _)].
  apply Forall_concat, Forall_fmap. eapply Forall_impl; [apply wf_bytes_of_string|].
  intros b Hb. unfold compose, escape.
  destruct (Z.ltb_spec b 32) as [Hlt|]; [|by repeat case_match; repeat constructor; uint].
  assert (is_byte (48 + b `div` 16)) as Hd by (unfold is_byte, in_u in *; Z.to_euclidean_division_equations; lia).
  assert (∀ a, is_byte (byte_of_ascii a)) as Ha.
  { intros a. pose proof (wf_bytes_of_string (String a "")) as Hw. by inversion Hw. }
  repeat case_match; repeat (apply List.Forall_cons; [first [done | by apply (bool_decide_unpack _)]|]);
    by apply List.Forall_nil.
Qed.

Lemma compact_text_wf n v : wf_json n v = true → wf_bytes (compact_text v).
Proof.
  revert v. induction n as [n IH] using (well_founded_induction lt_wf). intros v Hwf.
  destruct v as [|b|z|s|l|m].
  - by apply (bool_decide_unpack _).
  - by destruct b; apply (bool_decide_unpack _).
  - apply wf_bytes_of_string.
  - apply quote_wf.
  - destruct n as [|n]; [done|]. cbn [compact_text].
    apply List.Forall_cons; [by apply (bool_decide_unpack _)|].
    apply Forall_app. split; [|by apply (bool_decide_unpack _)].
    apply separated_wf, List.Forall_map, List.Forall_forall. intros v Hin. apply (IH n); [lia|].
    cbn [wf_json] in Hwf. rewrite forallb_forall in Hwf. by apply Hwf.
  - destruct n as [|n]; [done|]. cbn [compact_text].
    apply List.Forall_cons; [by apply (bool_decide_unpack _)|].
    apply Forall_app. split; [|by apply (bool_decide_unpack _)].
    apply separated_wf, List.Forall_map, List.Forall_forall. intros [k v] Hin.
    apply Forall_app. split; [apply quote_wf|].
    apply List.Forall_cons; [by apply (bool_decide_unpack _)|]. apply (IH n); [lia|].
    cbn [wf_json] in Hwf. rewrite forallb_forall in Hwf. by apply (Hwf (k, v)).
Qed.

(** The text of a value is read back, and is not empty. *)
Lemma json_of_compact_text n v :
  wf_json n v = true →
  json_of_text n (compact_text v) = Some v ∧ wf_bytes (compact_text v) ∧ compact_text v ≠ [].
Proof.
  intros Hwf. destruct (read_value_text n v Hwf) as [(c & l & Hc & _) Hr]. split_and!.
  - unfold json_of_text. rewrite <- (app_nil_r (compact_text v)), Hr; [done | by intros].
  - by eapply compact_text_wf.
  - by rewrite Hc.
Qed.
