(* ===== verification/Protocol.v ===== *)
(** * The daemon's protocol ([rustguard/src/main.rs])

    The messages [DaemonRequest] and [DaemonResponse], the crate serde_json that
    encodes them and the streams of tokio that carry them.  Both crates are
    interfaces: [SerdeJson] with [SerdeJsonSpec], [TokioStream] with
    [TokioStreamSpec], implemented by [json_serde] (in [Serde]) and [pipe]. *)

From S2P Require Export Prelude.

Inductive DaemonRequest : Type :=
| ReqBan (target : string) (ttl : option Z)
| ReqUnban (target : string)
| ReqList
| ReqStats.

Inductive DaemonResponse : Type :=
| RespOk
| RespError (e : string)
| RespList (l : list string)
| RespStats (s : string).

#[export] Instance DaemonRequest_eq_dec : EqDecision DaemonRequest.
Proof. solve_decision. Defined.
#[export] Instance DaemonResponse_eq_dec : EqDecision DaemonResponse.
Proof. solve_decision. Defined.

(** [ttl] is an [Option<u64>]. *)
Definition wf_request (r : DaemonRequest) : Prop :=
  match r with ReqBan _ (Some t) => in_u 64 t | _ => True end.

(** ** serde_json *)

Class SerdeJson := {
  JsonError : Type;
  to_vec_request : DaemonRequest → result bytes JsonError;
  from_slice_request : bytes → result DaemonRequest JsonError;
  to_vec_response : DaemonResponse → result bytes JsonError;
  from_slice_response : bytes → result DaemonResponse JsonError;
}.

(** A derived [Serialize] of strings, integers and vectors does not fail, and a
    derived [Deserialize] reads its text back; no JSON text is empty. *)
Class SerdeJsonSpec `{SerdeJson} := {
  request_roundtrip r :
    wf_request r →
    ∃ b, to_vec_request r = Ok b ∧ from_slice_request b = Ok r ∧ wf_bytes b ∧ b ≠ [];
  response_roundtrip r :
    ∃ b, to_vec_response r = Ok b ∧ from_slice_response b = Ok r ∧ wf_bytes b ∧ b ≠ [];
  from_slice_wf b r : from_slice_request b = Ok r → wf_request r;
}.

(** ** tokio's [UnixStream] *)

(** An operation on a stream: [None] when it never completes (the peer neither
    sends, nor reads, nor closes). *)
Class TokioStream (T : Type) := {
  IoError : Type;
  (** [read_u32], [read_exact] of [n] bytes, [write_u32], [write_all], [flush]. *)
  read_u32 : T → option (result (Z * T) IoError);
  read_exact : T → Z → option (result (bytes * T) IoError);
  write_u32 : T → Z → option (result T IoError);
  write_all : T → bytes → option (result T IoError);
  flush : T → option (result T IoError);
}.
Arguments IoError T {_}.

(** tokio::io: [read_u32] reads a big-endian integer; a read of more bytes than
    the peer sends before closing is the error UnexpectedEof; [write_u32] writes
    a big-endian integer and [write_all] all the bytes; on a stream whose peer
    reads, writes succeed. *)
Class TokioStreamSpec (T : Type) `{TokioStream T} := {
  (** The bytes the peer sent and not yet read, whether it sends no more, the
      bytes written, and whether the peer reads. *)
  st_in : T → bytes;
  st_closed : T → bool;
  st_out : T → bytes;
  st_writable : T → bool;
  read_exact_ok s n :
    0 ≤ n ≤ Z.of_nat (length (st_in s)) →
    ∃ s', read_exact s n = Some (Ok (take (Z.to_nat n) (st_in s), s')) ∧
      st_in s' = drop (Z.to_nat n) (st_in s) ∧ st_closed s' = st_closed s ∧
      st_out s' = st_out s ∧ st_writable s' = st_writable s;
  read_exact_short s n :
    Z.of_nat (length (st_in s)) < n →
    if st_closed s then ∃ e, read_exact s n = Some (Err e) else read_exact s n = None;
  read_u32_ok s :
    (4 ≤ length (st_in s))%nat →
    ∃ s', read_u32 s = Some (Ok (from_be_bytes (take 4 (st_in s)), s')) ∧
      st_in s' = drop 4 (st_in s) ∧ st_closed s' = st_closed s ∧
      st_out s' = st_out s ∧ st_writable s' = st_writable s;
  read_u32_short s :
    (length (st_in s) < 4)%nat →
    if st_closed s then ∃ e, read_u32 s = Some (Err e) else read_u32 s = None;
  write_all_spec s b s' :
    write_all s b = Some (Ok s') →
    st_in s' = st_in s ∧ st_closed s' = st_closed s ∧ st_out s' = st_out s ++ b ∧
    st_writable s' = st_writable s;
  write_u32_spec s v s' :
    write_u32 s v = Some (Ok s') →
    st_in s' = st_in s ∧ st_closed s' = st_closed s ∧ st_out s' = st_out s ++ to_be_bytes 4 v ∧
    st_writable s' = st_writable s;
  flush_spec s s' :
    flush s = Some (Ok s') →
    st_in s' = st_in s ∧ st_closed s' = st_closed s ∧ st_out s' = st_out s ∧
    st_writable s' = st_writable s;
  write_all_live s b : st_writable s = true → ∃ s', write_all s b = Some (Ok s');
  write_u32_live s v : st_writable s = true → ∃ s', write_u32 s v = Some (Ok s');
  flush_live s : st_writable s = true → ∃ s', flush s = Some (Ok s');
}.

(** A message on the wire: its length as a [u32], truncated by the cast, and its
    bytes. *)
Definition frame_bytes (b : bytes) : bytes := to_be_bytes 4 (as_u32 (Z.of_nat (length b))) ++ b.

(** The body of the first message in the bytes received, when it is there. *)
Definition message (l : bytes) : option bytes :=
  if bool_decide (length l < 4)%nat then None
  else
    let n := from_be_bytes (take 4 l) in
    if bool_decide (n ≤ Z.of_nat (length (drop 4 l))) then Some (take (Z.to_nat n) (drop 4 l))
    else None.

(** ** A reference implementation *)

(** A stream whose peer has sent all it will send. *)
Record pipe := { p_in : bytes; p_closed : bool; p_out : bytes; p_writable : bool }.
Definition pipe_read (s : pipe) (n : Z) : option (result (bytes * pipe) ()) :=
  if bool_decide (n ≤ Z.of_nat (length (p_in s))) then
    Some (Ok (take (Z.to_nat n) (p_in s),
              {| p_in := drop (Z.to_nat n) (p_in s); p_closed := p_closed s; p_out := p_out s;
                 p_writable := p_writable s |}))
  else if p_closed s then Some (Err ()) else None.
Definition pipe_write (s : pipe) (b : bytes) : option (result pipe ()) :=
  if p_writable s then
    Some (Ok {| p_in := p_in s; p_closed := p_closed s; p_out := p_out s ++ b;
                p_writable := p_writable s |})
  else Some (Err ()).

#[export] Instance pipe_TokioStream : TokioStream pipe := {|
  IoError := ();
  read_u32 s :=
    r ← pipe_read s 4;
    Some (match r with Ok (b, s) => Ok (from_be_bytes b, s) | Err e => Err e end);
  read_exact := pipe_read;
  write_u32 s v := pipe_write s (to_be_bytes 4 v);
  write_all := pipe_write;
  flush s := pipe_write s [];
|}.

(** ** Lemmas *)

Lemma message_frame b rest :
  wf_bytes b → Z.of_nat (length b) < 2 ^ 32 → message (frame_bytes b ++ rest) = Some b.
Proof.
  intros Hwf Hlen. unfold message, frame_bytes.
  assert (as_u32 (Z.of_nat (length b)) = Z.of_nat (length b)) as -> by (apply wrap_small; uint).
  assert (length (to_be_bytes 4 (Z.of_nat (length b))) = 4%nat) as Hl4
    by (by rewrite length_to_be_bytes).
  rewrite <- app_assoc, bool_decide_false by (rewrite length_app; lia). cbn zeta.
  rewrite take_app_length', drop_app_length' by done.
  rewrite from_to_be_bytes by (lia || uint). rewrite Nat2Z.id, take_app_length.
  rewrite bool_decide_true; [done | rewrite length_app; lia].
Qed.

#[export] Instance pipe_TokioStreamSpec : TokioStreamSpec pipe.
Proof.
  refine {| st_in := p_in; st_closed := p_closed; st_out := p_out; st_writable := p_writable |};
    simpl.
  - intros s n Hn. unfold pipe_read. rewrite bool_decide_true by lia. eauto 10.
  - intros s n Hn. unfold pipe_read. rewrite bool_decide_false by lia.
    destruct (p_closed s); eauto.
  - intros s Hs. unfold pipe_read. rewrite bool_decide_true by lia. simpl. eauto 10.
  - intros s Hs. unfold pipe_read. rewrite bool_decide_false by lia.
    destruct (p_closed s); simpl; eauto.
  - intros s b s'. unfold pipe_write. destruct (p_writable s) eqn:?; [|done]. by intros [= <-].
  - intros s b s'. unfold pipe_write. destruct (p_writable s) eqn:?; [|done]. by intros [= <-].
  - intros s s'. unfold pipe_write. destruct (p_writable s) eqn:?; [|done].
    intros [= <-]. simpl. by rewrite app_nil_r.
  - intros s b Hs. unfold pipe_write. rewrite Hs. eauto.
  - intros s b Hs. unfold pipe_write. rewrite Hs. eauto.
  - intros s Hs. unfold pipe_write. rewrite Hs. eauto.
Defined.
