(* ===== verification/Serde.v ===== *)
(** * A reference implementation of [SerdeJson]

    The encoding of the messages is serde_json's, the interface [SerdeJson] with
    [SerdeJsonSpec]; every theorem is proved for any implementation of it.
    [json_serde] is a concrete one, with which the theorems are applied: it writes
    the messages as the texts serde's documentation shows for such enums, and reads
    exactly those.  It is not a model of serde, which accepts more texts. *)

From S2P Require Export Protocol Json.

Definition request_to_json (r : DaemonRequest) : json :=
  match r with
  | ReqBan target ttl =>
      JObject [("Ban", JObject [("target", JString target);
        ("ttl", match ttl with Some n => JNumber n | None => JNull end)])]
  | ReqUnban target => JObject [("Unban", JObject [("target", JString target)])]
  | ReqList => JString "List"
  | ReqStats => JString "Stats"
  end%string.

Definition response_to_json (r : DaemonResponse) : json :=
  match r with
  | RespOk => JString "Ok"
  | RespError e => JObject [("Error", JString e)]
  | RespList l => JObject [("List", JArray (JString <$> l))]
  | RespStats s => JObject [("Stats", JString s)]
  end%string.

Definition request_of_json (v : json) : option DaemonRequest :=
  match v with
  | JString name =>
      if String.eqb name "List" then Some ReqList
      else if String.eqb name "Stats" then Some ReqStats else None
  | JObject [(name, JObject [(f, JString target)])] =>
      if String.eqb name "Unban" && String.eqb f "target" then Some (ReqUnban target) else None
  | JObject [(name, JObject [(f, JString target); (g, ttl)])] =>
      if String.eqb name "Ban" && String.eqb f "target" && String.eqb g "ttl" then
        match ttl with
        | JNull => Some (ReqBan target None)
        | JNumber n => if decide (in_u 64 n) then Some (ReqBan target (Some n)) else None
        | _ => None
        end
      else None
  | _ => None
  end.

Definition response_of_json (v : json) : option DaemonResponse :=
  match v with
  | JString name => if String.eqb name "Ok" then Some RespOk else None
  | JObject [(name, JString s)] =>
      if String.eqb name "Error" then Some (RespError s)
      else if String.eqb name "Stats" then Some (RespStats s) else None
  | JObject [(name, JArray l)] =>
      if String.eqb name "List" then
        RespList <$> mapM (λ v, match v with JString s => Some s | _ => None end) l
      else None
  | _ => None
  end.

Definition request_text (r : DaemonRequest) : bytes := compact_text (request_to_json r).
Definition response_text (r : DaemonResponse) : bytes := compact_text (response_to_json r).

(** The messages are nested two deep. *)
#[export] Instance json_serde : SerdeJson := {|
  JsonError := ();
  to_vec_request r := Ok (request_text r);
  from_slice_request l := of_option (json_of_text 2 l ≫= request_of_json);
  to_vec_response r := Ok (response_text r);
  from_slice_response l := of_option (json_of_text 2 l ≫= response_of_json);
|}.

Lemma request_of_to_json r : wf_request r → request_of_json (request_to_json r) = Some r.
Proof. destruct r as [t [n|]|t| |]; simpl; try done. intros Hn. by rewrite decide_True. Qed.

Lemma strings_of_json l :
  mapM (λ v, match v with JString s => Some s | _ => None end) (JString <$> l) = Some l.
Proof. apply mapM_Some. induction l; constructor; done. Qed.

Lemma response_of_to_json r : response_of_json (response_to_json r) = Some r.
Proof.
  destruct r as [|e|l|s]; [done..| |done].
  change (RespList <$> mapM (λ v, match v with JString s => Some s | _ => None end) (JString <$> l) =
    Some (RespList l)).
  by rewrite strings_of_json.
Qed.

Lemma wf_strings n l : forallb (wf_json n) (JString <$> l) = true.
Proof. induction l as [|s l IH]; [done|]. rewrite fmap_cons. cbn [forallb]. rewrite IH. by destruct n. Qed.

Lemma request_to_json_wf r : wf_request r → wf_json 2 (request_to_json r) = true.
Proof. destruct r as [t [n|]|t| |]; try done. intros Hn. cbn. by rewrite bool_decide_true. Qed.

Lemma response_to_json_wf r : wf_json 2 (response_to_json r) = true.
Proof.
  destruct r as [|e|l|s]; [done..| |done].
  change (forallb (wf_json 0) (JString <$> l) && true = true). by rewrite wf_strings.
Qed.

#[export] Instance json_serde_spec : SerdeJsonSpec.
Proof.
  split; cbn [to_vec_request from_slice_request to_vec_response from_slice_response json_serde];
    unfold request_text, response_text.
  - intros r Hr. destruct (json_of_compact_text 2 _ (request_to_json_wf r Hr)) as (Ht & Hw & Hn).
    eexists. split; [done|]. rewrite Ht. cbn [mbind option_bind]. by rewrite request_of_to_json.
  - intros r. destruct (json_of_compact_text 2 _ (response_to_json_wf r)) as (Ht & Hw & Hn).
    eexists. split; [done|]. rewrite Ht. cbn [mbind option_bind]. by rewrite response_of_to_json.
  - intros b r. destruct (json_of_text 2 b) as [v|]; [|done]. cbn [mbind option_bind].
    unfold request_of_json. repeat case_match; simplify_eq/=; try done; by intros [= <-].
Qed.
