(* ===== verification/Daemon.v ===== *)
(** * The daemon ([run_daemon] of [rustguard/src/main.rs])

    The request handler, the service of a connection and the accept loop, over
    the interfaces of the maps, of serde_json and of tokio. *)

From S2P Require Export Prelude IpAddr Event BpfMap Protocol.

Section daemon.
Context `{BpfHashMap MB BanValue} `{BpfHashMap MS StatsValue} `{SerdeJson} `{TokioStream T}.

(** [overflow-checks] of the build profile: a panic or a wrap-around. *)
Variable overflow_checks : bool.

(** An unsigned operation of [w] bits with the result [z] on integers; [None] is
    the panic. *)
Definition arith (w z : Z) : option Z :=
  if decide (in_u w z) then Some z
  else if overflow_checks then None else Some (wrap w z).

(** [get_boot_time_ns]; [utc] is [Utc::now().timestamp_nanos_opt()]. *)
Definition get_boot_time_ns (utc : option Z) : Z := as_u64 (default 0 utc).

(** [ttl.map(|t| now + t * 1_000_000_000).unwrap_or(0)]. *)
Definition ban_end_time (utc : option Z) (ttl : option Z) : option Z :=
  let now := get_boot_time_ns utc in
  match ttl with
  | Some t => d ← arith 64 (t * 1000000000); arith 64 (now + d)
  | None => Some 0
  end.

(** The response to a request and the bans after it; [None] is a panic. *)
Definition handle_request (utc : option Z) (req : DaemonRequest) (banned_ips : MB) (stats : MS) :
    option (DaemonResponse * MB) :=
  match req with
  | ReqBan target ttl =>
      match ipv4_from_str target with
      | Ok ip =>
          end_time ← ban_end_time utc ttl;
          let value := {| end_time := end_time |} in
          let '(_, banned_ips) := bm_insert banned_ips (u32_of_ipv4 ip) value in
          Some (RespOk, banned_ips)
      | Err _ => Some (RespError "invalid ip", banned_ips)
      end
  | ReqUnban target =>
      match ipv4_from_str target with
      | Ok ip =>
          let '(_, banned_ips) := bm_remove banned_ips (u32_of_ipv4 ip) in
          Some (RespOk, banned_ips)
      | Err _ => Some (RespError "invalid ip", banned_ips)
      end
  | ReqList =>
      let list := omap ok (bm_keys banned_ips) in
      Some (RespList ((λ ip, ipv4_to_string (ipv4_of_u32 ip)) <$> list), banned_ips)
  | ReqStats =>
      match bm_get stats 0 with
      | Some v => Some (RespStats ("Packets dropped: " +:+ fmt_uint (packets_dropped v)), banned_ips)
      | None => Some (RespStats "No stats", banned_ips)
      end
  end.

(** What became of a connection: an [.await] that never completes, a panic, or
    the next turn of the loop, with the stream when the response was flushed. *)
Inductive served :=
| Blocked
| Panicked
| Next (sent : option T).

(** The response to the body of a message. *)
Definition respond (utc : option Z) (buf : bytes) (banned_ips : MB) (stats : MS) :
    option (DaemonResponse * MB) :=
  match from_slice_request buf with
  | Ok req => handle_request utc req banned_ips stats
  | Err _ => Some (RespError "invalid request", banned_ips)
  end.

(** From the encoding of the response on. *)
Definition send_response (resp : DaemonResponse) (stream : T) : served :=
  match to_vec_response resp with
  | Err _ => Panicked
  | Ok resp_bytes =>
      match write_u32 stream (as_u32 (Z.of_nat (length resp_bytes))) with
      | None => Blocked
      | Some (Err _) => Next None
      | Some (Ok stream) =>
          match write_all stream resp_bytes with
          | None => Blocked
          | Some (Err _) => Next None
          | Some (Ok stream) =>
              match flush stream with
              | None => Blocked
              | Some (Err _) => Next None
              | Some (Ok stream) => Next (Some stream)
              end
          end
      end
  end.

(** One turn of the accept loop, after [accept] gave [stream]. *)
Definition serve (utc : option Z) (stream : T) (banned_ips : MB) (stats : MS) : served * MB :=
  match read_u32 stream with
  | None => (Blocked, banned_ips)
  | Some (Err _) => (Next None, banned_ips)
  | Some (Ok (len, stream)) =>
      match read_exact stream len with
      | None => (Blocked, banned_ips)
      | Some (Err _) => (Next None, banned_ips)
      | Some (Ok (buf, stream)) =>
          match respond utc buf banned_ips stats with
          | None => (Panicked, banned_ips)
          | Some (resp, banned_ips) => (send_response resp stream, banned_ips)
          end
      end
  end.

(** The accept loop on a sequence of results of [accept], each with the clock
    and the statistics at its turn: the outcomes, the bans, and what is never
    reached.  A blocked or panicked turn ends the progress of the task. *)
Fixpoint accept_loop (conns : list (option Z * MS * result T (IoError T))) (banned_ips : MB) :
    list served * MB * list (option Z * MS * result T (IoError T)) :=
  match conns with
  | [] => ([], banned_ips, [])
  | (_, _, Err _) :: conns => accept_loop conns banned_ips
  | (utc, stats, Ok stream) :: conns =>
      match serve utc stream banned_ips stats with
      | (Next sent, banned_ips) =>
          let '(out, banned_ips, rest) := accept_loop conns banned_ips in
          (Next sent :: out, banned_ips, rest)
      | (stop, banned_ips) => ([stop], banned_ips, conns)
      end
  end.
End daemon.

Arguments Blocked {T}.
Arguments Panicked {T}.
Arguments Next {T} sent.

(** ** Lemmas on the arithmetic *)

Lemma arith_small oc w z : in_u w z → arith oc w z = Some z.
Proof. intros. unfold arith. by rewrite decide_True. Qed.

Lemma arith_release w z : 0 ≤ w → ∃ z', arith false w z = Some z' ∧ in_u w z'.
Proof.
  intros. unfold arith. case_decide; [eauto|]. exists (wrap w z). auto with rust.
Qed.

Lemma arith_range oc w z z' : 0 ≤ w → arith oc w z = Some z' → in_u w z'.
Proof.
  unfold arith. intros. repeat case_match; simplify_eq; auto with rust.
Qed.

Lemma ban_end_time_range oc utc ttl e : ban_end_time oc utc ttl = Some e → in_u 64 e.
Proof.
  unfold ban_end_time. destruct ttl as [t|]; [|by intros [= <-]].
  destruct (arith oc 64 _) as [d|]; simpl; [|done]. apply arith_range. lia.
Qed.

Lemma ban_end_time_release utc ttl : is_Some (ban_end_time false utc ttl).
Proof.
  unfold ban_end_time. destruct ttl as [t|]; [|eauto].
  destruct (arith_release 64 (t * 1000000000)) as (d & -> & _); [lia|]. simpl.
  destruct (arith_release 64 (get_boot_time_ns utc + d)) as (d' & -> & _); [lia | eauto].
Qed.

Section daemon_proofs.
Context `{BpfHashMapSpec MB BanValue} `{BpfHashMapSpec MS StatsValue}.
Context `{SerdeJsonSpec} `{TokioStreamSpec T}.
Variable oc : bool.

(** Without overflow checks every message has a response. *)
Lemma respond_release utc buf (banned : MB) (stats : MS) :
  is_Some (respond false utc buf banned stats).
Proof.
  unfold respond. destruct (from_slice_request buf) as [[t ttl|t| |]|]; cbn [handle_request]; eauto.
  - destruct (ipv4_from_str t) as [ip|]; [|eauto].
    destruct (ban_end_time_release utc ttl) as [e ->]. cbn [mbind option_bind].
    destruct (bm_insert _ _ _). eauto.
  - destruct (ipv4_from_str t) as [ip|]; [|eauto]. destruct (bm_remove _ _). eauto.
  - destruct (bm_get stats 0); eauto.
Qed.

(** A turn on the message that has arrived, and on an incomplete one. *)
Lemma serve_message utc stream (banned : MB) (stats : MS) :
  wf_bytes (st_in stream) →
  match message (st_in stream) with
  | Some buf =>
      ∃ stream', st_closed stream' = st_closed stream ∧ st_out stream' = st_out stream ∧
        st_writable stream' = st_writable stream ∧
        serve oc utc stream banned stats =
          match respond oc utc buf banned stats with
          | None => (Panicked, banned)
          | Some (resp, banned) => (send_response resp stream', banned)
          end
  | None =>
      serve oc utc stream banned stats =
        (if st_closed stream then Next None else Blocked, banned)
  end.
Proof.
  intros Hwf. unfold message, serve. case_bool_decide as Hl.
  { pose proof (read_u32_short stream Hl) as Hr. destruct (st_closed stream).
    - by destruct Hr as [e ->].
    - by rewrite Hr. }
  destruct (read_u32_ok stream) as (s1 & Hr1 & Hi1 & Hc1 & Ho1 & Hw1); [lia|].
  rewrite Hr1, <- Hi1.
  assert (0 ≤ from_be_bytes (take 4 (st_in stream))).
  { apply from_be_bytes_range. by apply Forall_take. }
  case_bool_decide as Hn.
  - destruct (read_exact_ok s1 (from_be_bytes (take 4 (st_in stream))))
      as (s2 & Hr2 & _ & Hc2 & Ho2 & Hw2); [done|].
    exists s2. rewrite Hr2. split_and!; congruence.
  - pose proof (read_exact_short s1 (from_be_bytes (take 4 (st_in stream)))
      (proj1 (Z.nle_gt _ _) Hn)) as Hr2.
    rewrite Hc1 in Hr2. destruct (st_closed stream).
    + by destruct Hr2 as [e ->].
    + by rewrite Hr2.
Qed.

(** A response to a peer that reads is framed and flushed. *)
Lemma send_response_ok resp stream :
  st_writable stream = true →
  ∃ b stream', send_response resp stream = Next (Some stream') ∧
    to_vec_response resp = Ok b ∧ from_slice_response b = Ok resp ∧ wf_bytes b ∧ b ≠ [] ∧
    st_out stream' = st_out stream ++ frame_bytes b.
Proof.
  intros Hw. destruct (response_roundtrip resp) as (b & Hb & Hd & Hwf & Hne).
  unfold send_response. rewrite Hb.
  destruct (write_u32_live stream (as_u32 (Z.of_nat (length b))) Hw) as [s1 H1'].
  rewrite H1'. apply write_u32_spec in H1' as (_ & _ & Ho1 & Hw1).
  destruct (write_all_live s1 b) as [s2 H2']; [congruence|].
  rewrite H2'. apply write_all_spec in H2' as (_ & _ & Ho2 & Hw2).
  destruct (flush_live s2) as [s3 H3']; [congruence|].
  rewrite H3'. apply flush_spec in H3' as (_ & _ & Ho3 & _).
  exists b, s3. split_and!; try done. rewrite Ho3, Ho2, Ho1. unfold frame_bytes.
  by rewrite app_assoc.
Qed.
End daemon_proofs.
