(* ===== verification/Monitor.v ===== *)
(** * The connection monitor ([rustguard/src/monitor.rs])

    The loop that drains the ring buffer and prints a line per event, with the
    text helpers and the cache of executables.  The clocks and the links of
    /proc are its environment. *)

From S2P Require Export Prelude Text IpAddr Event BpfMap.

(** ** Text of the fields *)

(** [comm.iter().position(|&b| b == 0).unwrap_or(comm.len())]. *)
Fixpoint position_zero (l : bytes) : nat :=
  match l with [] => 0 | b :: l => if b =? 0 then 0 else S (position_zero l) end.

Definition comm_to_string (comm : bytes) : string :=
  string_of_bytes (from_utf8_lossy (take (position_zero comm) comm)).

Definition all_zero (l : bytes) : bool := forallb (λ b, b =? 0) l.
Definition ip_at (ip : bytes) (i : nat) : Z := default 0 (ip !! i).

Definition ip_to_string (ip : bytes) : string :=
  if all_zero (drop 4 ip) then
    ip_addr_to_string (V4 (Ipv4Addr_new (ip_at ip 0) (ip_at ip 1) (ip_at ip 2) (ip_at ip 3)))
  else if all_zero (take 10 ip) && (ip_at ip 10 =? 255) && (ip_at ip 11 =? 255) then
    ip_addr_to_string (V4 (Ipv4Addr_new (ip_at ip 12) (ip_at ip 13) (ip_at ip 14) (ip_at ip 15)))
  else ip_addr_to_string (V6 (Ipv6 ip)).

Definition result_string (ret : Z) : string :=
  if ret =? 0 then "OK" else "ERR(" +:+ fmt_int ret +:+ ")".

Definition arrow (event : EventType) : string :=
  match event with
  | EvConnect => "─────▶"
  | EvAccept => "◀─────"
  | _ => "──────"
  end.

(** [now_string] of the seconds and the nanoseconds since the epoch. *)
Definition now_string (now : Z * Z) : string :=
  let secs := now.1 `mod` 86400 in
  let ms := now.2 `div` 1000000 in
  zero_pad 2 (secs `div` 3600) +:+ ":" +:+ zero_pad 2 ((secs `div` 60) `mod` 60) +:+ ":" +:+
  zero_pad 2 (secs `mod` 60) +:+ "." +:+ zero_pad 3 ms.

(** ** The cache of executables *)

(** The field is the [HashMap<u32, (String, Instant)>], an instant in nanoseconds. *)
Record ProcessCache := { cache : gmap Z (string * Z) }.

(** [#[derive(Default)]]. *)
Definition ProcessCache_default : ProcessCache := {| cache := ∅ |}.

Definition TTL : Z := 30 * 1000000000.

Section monitor.
(** The target of /proc/pid/exe, when it can be read. *)
Variable read_link : Z → option string.

(** [exe] with the two readings of the monotonic clock it may take. *)
Definition exe (self : ProcessCache) (pid now1 now2 : Z) : string * ProcessCache :=
  let read :=
    let exe := default "<unknown>"%string (read_link pid) in
    (exe, {| cache := <[pid:=(exe, now2)]> (cache self) |}) in
  match cache self !! pid with
  | Some (exe, ts) => if Z.max 0 (now1 - ts) <? TTL then (exe, self) else read
  | None => read
  end.

(** The readings of the clocks during the treatment of an event: two of the
    monotonic clock and one of the system clock, [None] before the epoch. *)
Record clocks := { instant1 : Z; instant2 : Z; system_time : option (Z * Z) }.

Definition header : string :=
  pad_right 12 "TIME" +:+ " " +:+ pad_right 16 "COMM" +:+ " " +:+ pad_left 6 "PID" +:+ " " +:+
  pad_right 5 "PROTO" +:+ " " +:+ pad_right 9 "EVENT" +:+ " " +:+ pad_right 10 "RESULT" +:+
  " CONNECTION".

Definition endpoint (ip : bytes) (port : Z) : string :=
  ip_to_string ip +:+ ":" +:+ fmt_uint port.

(** The printed line; [now] is the time it starts with. *)
Definition event_line (now : Z * Z) (e : NetEvent) : string :=
  pad_right 12 (now_string now) +:+ " " +:+ pad_right 16 (comm_to_string (comm e)) +:+ " " +:+
  pad_left 6 (fmt_uint (ev_pid e)) +:+ " " +:+ TransportProtocol_fmt 5 (protocol e) +:+ " " +:+
  EventType_fmt 9 (event e) +:+ " " +:+ pad_right 10 (result_string (ret e)) +:+ " " +:+
  endpoint (src_ip e) (src_port e) +:+ " " +:+ arrow (event e) +:+ " " +:+
  endpoint (dst_ip e) (dst_port e).

(** [None] is the panic of [duration_since(UNIX_EPOCH).unwrap()]. *)
Definition print_event (cl : clocks) (e : NetEvent) (pc : ProcessCache) :
    option (string * ProcessCache) :=
  let '(_, pc) := exe pc (ev_pid e) (instant1 cl) (instant2 cl) in
  now ← system_time cl; Some (event_line now e, pc).

Context (en : endian) `{BpfRingBuf R}.

(** Why the loop may stop. *)
Inductive stop := Panic | InvalidEvent.

(** What one item prints: nothing when its size is not an event's. *)
Definition print_item (cl : clocks) (item : bytes) (pc : ProcessCache) :
    result (list string * ProcessCache) stop :=
  if negb (Z.of_nat (length item) =? NetEvent_size) then Ok ([], pc)
  else match NetEvent_of_bytes en item with
       | None => Err InvalidEvent
       | Some e =>
           match print_event cl e pc with
           | Some (line, pc) => Ok ([line], pc)
           | None => Err Panic
           end
       end.

(** [while let Some(item) = ring.next()], for at most [fuel] items: the lines,
    and whether the ring was found empty. *)
Fixpoint drain (fuel : nat) (cls : nat → clocks) (ring : R) (pc : ProcessCache) :
    result (list string * R * ProcessCache * bool) stop :=
  match fuel with
  | O => Ok ([], ring, pc, false)
  | S fuel =>
      match rb_next ring with
      | (None, ring) => Ok ([], ring, pc, true)
      | (Some item, ring) =>
          match print_item (cls O) item pc with
          | Err s => Err s
          | Ok (lines, pc) =>
              match drain fuel (λ i, cls (S i)) ring pc with
              | Err s => Err s
              | Ok (more, ring, pc, done) => Ok (lines ++ more, ring, pc, done)
              end
          end
      end
  end.
End monitor.

(** ** Lemmas *)

Lemma position_zero_take l : Forall (λ b, b ≠ 0) (take (position_zero l) l).
Proof.
  induction l as [|b l IH]; simpl; [constructor|].
  destruct (Z.eqb_spec b 0); simpl; [constructor | by constructor].
Qed.

Lemma exe_other read_link pc pid n1 n2 pid' :
  pid ≠ pid' → cache (exe read_link pc pid n1 n2).2 !! pid' = cache pc !! pid'.
Proof.
  intros Hne. unfold exe. destruct (cache pc !! pid) as [[x ts]|]; [case_match|];
    simpl; by rewrite ?lookup_insert_ne.
Qed.

(** The reader of an item that is an event's bytes prints its line. *)
Lemma print_item_event read_link en pad cl e now pc :
  wf_NetEvent e → system_time cl = Some now →
  print_item read_link en cl (NetEvent_bytes en pad e) pc =
    Ok ([event_line now e], (exe read_link pc (ev_pid e) (instant1 cl) (instant2 cl)).2).
Proof.
  intros He Hnow. unfold print_item. rewrite length_NetEvent_bytes, Z.eqb_refl by done.
  rewrite NetEvent_of_bytes_bytes by done. unfold print_event.
  destruct (exe _ _ _ _ _) as [x pc']. rewrite Hnow. done.
Qed.

Lemma all_zero_spec l : all_zero l = true ↔ l = replicate (length l) 0.
Proof.
  induction l as [|b l IH]; simpl; [done|].
  rewrite andb_true_iff, Z.eqb_eq, IH. split; [by intros [-> <-] | by intros [= ? ?]].
Qed.

(** An address stored as IPv4 is printed in dotted form. *)
Lemma ip_to_string_v4 l :
  length l = 4%nat → ip_to_string (l ++ replicate 12 0) = ipv4_to_string (Ipv4 l).
Proof.
  destruct l as [|a [|b [|c [|d [|]]]]]; simpl; intros; try lia. reflexivity.
Qed.
