(* ===== verification/Client.v ===== *)
(** * The command line ([main], [send_command] and the start of [run_daemon] and
    [monitor_run])

    [Commands] is what clap parsed.  [send_command] runs over the interfaces of
    serde_json and tokio; the programs that set the daemon and the monitor up
    are computations that record their effects and return, fail or panic. *)

From S2P Require Export Prelude Text Protocol.

Inductive Commands : Type :=
| CmdDaemon (iface : string)
| CmdBan (target : string) (ttl : option Z)
| CmdUnban (target : string)
| CmdList
| CmdStats
| CmdMonitor.

(** What [Cli::parse] returns; on other command lines it ends the process. *)
Record Cli := { command : Commands }.

Definition SOCKET_PATH : string := "/tmp/rustguard.sock".

(** ** [send_command] *)

Section client.
Context `{SerdeJson} `{TokioStream T}.

Inductive ClientError :=
| ConnectFailed (e : IoError T)
| NotImplemented
| Json (e : JsonError)
| Io (e : IoError T)
| ResponseLength (e : IoError T)
| EmptyResponse
| ResponseBody (e : IoError T).

(** The request of a command; [None] for those the client does not send. *)
Definition command_request (cmd : Commands) : option DaemonRequest :=
  match cmd with
  | CmdBan target ttl => Some (ReqBan target ttl)
  | CmdUnban target => Some (ReqUnban target)
  | CmdList => Some ReqList
  | CmdStats => Some ReqStats
  | CmdDaemon _ | CmdMonitor => None
  end.

(** The lines printed for a response. *)
Definition print_response (r : DaemonResponse) : list string :=
  match r with
  | RespOk => ["Success"]
  | RespError e => ["Error: " +:+ e]
  | RespList list => "Active bans:" :: ((λ item, "  " +:+ item) <$> list)
  | RespStats s => ["Stats: " +:+ s]
  end%string.

(** [Some] of the outcome of the [?]s, [None] when an [.await] never completes. *)
Definition and_then {A B E} (r : option (result A E)) (err : E → ClientError)
    (k : A → option (result B ClientError)) : option (result B ClientError) :=
  match r with
  | None => None
  | Some (Err e) => Some (Err (err e))
  | Some (Ok a) => k a
  end.

(** A computation with the bytes it wrote to the connection, write by write. *)
Definition written_by (A : Type) : Type := list bytes * option (result A ClientError).
Definition writes {A} (r : option (result T (IoError T))) (l : bytes) (k : T → written_by A) :
    written_by A :=
  match r with
  | None => ([], None)
  | Some (Err e) => ([], Some (Err (Io e)))
  | Some (Ok stream) => let '(ls, r) := k stream in (l :: ls, r)
  end.

(** The request written and flushed. *)
Definition send_request_writes (stream : T) (request : DaemonRequest) : written_by T :=
  match to_vec_request request with
  | Err e => ([], Some (Err (Json e)))
  | Ok req_bytes =>
      let len := as_u32 (Z.of_nat (length req_bytes)) in
      writes (write_u32 stream len) (to_be_bytes 4 len) (λ stream,
      writes (write_all stream req_bytes) req_bytes (λ stream,
      ([], and_then (flush stream) Io (λ stream, Some (Ok stream)))))
  end.
Definition send_request (stream : T) (request : DaemonRequest) : option (result T ClientError) :=
  (send_request_writes stream request).2.

(** The response read, decoded and printed. *)
Definition receive_response (stream : T) : option (result (list string) ClientError) :=
  and_then (read_u32 stream) ResponseLength (λ '(resp_len, stream),
  if resp_len =? 0 then Some (Err EmptyResponse)
  else
    and_then (read_exact stream resp_len) ResponseBody (λ '(resp_buf, _),
    match from_slice_response resp_buf with
    | Err e => Some (Err (Json e))
    | Ok response => Some (Ok (print_response response))
    end)).

(** [connection] is the result of [UnixStream::connect]; with what was written, and
    the lines printed. *)
Definition send_command_writes (connection : result T (IoError T)) (cmd : Commands) :
    written_by (list string) :=
  match connection with
  | Err e => ([], Some (Err (ConnectFailed e)))
  | Ok stream =>
      match command_request cmd with
      | None => ([], Some (Err NotImplemented))
      | Some request =>
          let '(ls, sent) := send_request_writes stream request in
          (ls, and_then sent (λ e, e) receive_response)
      end
  end.
Definition send_command (connection : result T (IoError T)) (cmd : Commands) :
    option (result (list string) ClientError) :=
  (send_command_writes connection cmd).2.
End client.

(** ** The setup programs *)

(** How a program ends, and what it did to the system on the way; [Hang] is an
    [.await] that never completes or an endless loop. *)
Inductive outcome (A : Type) :=
| Return (a : A)
| Fail (e : string)
| PanicAt (what : string)
| Hang.
Arguments Hang {A}.
Arguments Return {A} a.
Arguments Fail {A} e.
Arguments PanicAt {A} what.

Inductive effect :=
| InitLogger
| SetMemlockLimit
| SpawnLogFlush
| LoadProgram (name : string)
| AttachXdp (iface : string)
| AttachFexit (prog fn : string)
| TakeMap (name : string)
| RemoveFile (path : string)
| BindSocket (path : string)
| SetPermissions (path : string) (mode : Z)
| SpawnAcceptLoop
| ConnectTo (path : string)
| Send (l : bytes)
| Monitoring
| Log (r : LogRecord)
| Print (s : string).
#[export] Instance effect_eq_dec : EqDecision effect.
Proof. solve_decision. Defined.

Definition proc (A : Type) : Type := list effect * outcome A.
Definition pret {A} (a : A) : proc A := ([], Return a).
Definition pbind {A B} (p : proc A) (k : A → proc B) : proc B :=
  match p with
  | (l, Return a) => let '(l', r) := k a in (l ++ l', r)
  | (l, Fail e) => (l, Fail e)
  | (l, PanicAt w) => (l, PanicAt w)
  | (l, Hang) => (l, Hang)
  end.
Definition emit (e : effect) : proc () := ([e], Return ()).
(** [r?] and [o.unwrap()]. *)
Definition try_ {A} (r : result A string) : proc A :=
  match r with Ok a => pret a | Err e => ([], Fail e) end.
(** [f.await?]. *)
Definition await_try {A} (r : option (result A string)) : proc A :=
  match r with Some r => try_ r | None => ([], Hang) end.
Definition unwrap {A} (what : string) (o : option A) : proc A :=
  match o with Some a => pret a | None => ([], PanicAt what) end.

Notation "'do' x <- p ; k" := (pbind p (λ x, k))
  (at level 10, x binder, p at level 100, k at level 200) : rust_scope.
Notation "p ;> k" := (pbind p (λ _, k)) (at level 65, right associativity) : rust_scope.

(** What the libraries and the system answer during the setup. *)
Record System (Logger : Type) := {
  (** [env_logger::init], on the state of the global logger; [None] is its panic. *)
  env_logger_init : Logger → option Logger;
  (** What [setrlimit] returns. *)
  setrlimit : Z;
  ebpf_load : result () string;
  (** [EbpfLogger::init], and [AsyncFd::with_interest] when it succeeds. *)
  ebpf_logger : result (result () string) string;
  btf_from_sys_fs : result () string;
  (** [program_mut(name)] and its conversion, then [load] and [attach]. *)
  program_mut : string → option (result () string);
  program_load : string → result () string;
  program_attach : string → result () string;
  (** [take_map(name)] and its conversion. *)
  take_map : string → option (result () string);
  bind_socket : string → result () string;
  set_permissions : string → result () string;
  (** [signal::ctrl_c().await]: [None] when the signal never comes. *)
  ctrl_c : option (result () string);
}.
Arguments env_logger_init {_} _ _.
Arguments setrlimit {_} _.
Arguments ebpf_load {_} _.
Arguments ebpf_logger {_} _.
Arguments btf_from_sys_fs {_} _.
Arguments program_mut {_} _ _.
Arguments program_load {_} _ _.
Arguments program_attach {_} _ _.
Arguments take_map {_} _ _.
Arguments bind_socket {_} _ _.
Arguments set_permissions {_} _ _.
Arguments ctrl_c {_} _.

Section setup.
Context {Logger : Type} (sys : System Logger).
#[local] Open Scope rust_scope.

Definition init_env_logger (l : Logger) : proc Logger :=
  match env_logger_init sys l with
  | Some l => ([InitLogger], Return l)
  | None => ([], PanicAt "env_logger::init")
  end.

(** [libc::setrlimit] and the check of its result. *)
Definition raise_memlock_limit : proc () :=
  emit SetMemlockLimit ;>
  if setrlimit sys =? 0 then pret ()
  else emit (Log (debug ("remove limit on locked memory failed, ret is: " +:+ fmt_int (setrlimit sys)))).

Definition init_ebpf_logger : proc () :=
  match ebpf_logger sys with
  | Err e => emit (Log (warn ("failed to initialize eBPF logger: " +:+ e)))
  | Ok fd => do _ <- try_ fd; emit SpawnLogFlush
  end.

Definition get_program (name : string) : proc () :=
  do p <- unwrap name (program_mut sys name); try_ p.

(** [program.load(..)?] and [attach(..)?]. *)
Definition load_program (name : string) : proc () :=
  do _ <- try_ (program_load sys name); emit (LoadProgram name).
Definition attach_program (name : string) (e : effect) : proc () :=
  do _ <- try_ (program_attach sys name); emit e.
Definition get_map (name : string) : proc () :=
  do m <- unwrap name (take_map sys name); do _ <- try_ m; emit (TakeMap name).

Definition run_daemon (l : Logger) (iface : string) : proc () :=
  do _ <- init_env_logger l;
  raise_memlock_limit ;>
  try_ (ebpf_load sys) ;>
  init_ebpf_logger ;>
  get_program "rustguard" ;>
  load_program "rustguard" ;>
  attach_program "rustguard" (AttachXdp iface) ;>
  get_map "BANNED_IPS" ;>
  get_map "STATS" ;>
  emit (Log (info ("starting daemon on iface=" +:+ iface))) ;>
  emit (RemoveFile SOCKET_PATH) ;>
  try_ (bind_socket sys SOCKET_PATH) ;>
  emit (BindSocket SOCKET_PATH) ;>
  try_ (set_permissions sys SOCKET_PATH) ;>
  emit (SetPermissions SOCKET_PATH 432) ;>   (* 0o660 *)
  emit (Log (info ("Daemon started. Listening on " +:+ SOCKET_PATH))) ;>
  emit SpawnAcceptLoop ;>
  emit (Print ("Daemon running on interface " +:+ iface +:+ ". Press Ctrl-C to exit.")) ;>
  await_try (ctrl_c sys) ;>
  emit (Print "Exiting...") ;>
  emit (RemoveFile SOCKET_PATH).

(** [monitor_run]; [Monitoring] is its endless loop. *)
Definition monitor_run (header : string) : proc () :=
  try_ (ebpf_load sys) ;>
  init_ebpf_logger ;>
  try_ (btf_from_sys_fs sys) ;>
  get_program "tcp_v4_connect_exit" ;>
  load_program "tcp_v4_connect_exit" ;>
  attach_program "tcp_v4_connect_exit" (AttachFexit "tcp_v4_connect_exit" "tcp_v4_connect") ;>
  get_program "incoming_connection" ;>
  load_program "incoming_connection" ;>
  attach_program "incoming_connection" (AttachFexit "incoming_connection" "inet_csk_accept") ;>
  match take_map sys "EVENTS" with
  | None => ([], Fail "EVENTS map missing")
  | Some m => do _ <- try_ m; emit (TakeMap "EVENTS")
  end ;>
  emit (Print header) ;>
  ([Monitoring], Hang).

Context `{SerdeJson} `{TokioStream T}.

(** [send_command(path, cmd).await]: [connect] is [UnixStream::connect] and
    [show] the text of an error.  The bytes are written before a line is printed. *)
Definition command_proc (connect : string → result T (IoError T)) (show : ClientError (T := T) → string)
    (path : string) (cmd : Commands) : proc () :=
  let '(ls, r) := send_command_writes (connect path) cmd in
  let sent := ConnectTo path :: (Send <$> ls) in
  match r with
  | None => (sent, Hang)
  | Some (Err e) => (sent, Fail (show e))
  | Some (Ok lines) => (sent ++ (Print <$> lines), Return ())
  end.

Definition main (l : Logger) (header : string) (connect : string → result T (IoError T))
    (show : ClientError (T := T) → string) (cli : Cli) : proc () :=
  do l <- init_env_logger l;
  match command cli with
  | CmdDaemon iface => run_daemon l iface
  | CmdMonitor => monitor_run header
  | cmd => command_proc connect show SOCKET_PATH cmd
  end.
End setup.

(** ** Lemmas *)

Section client_proofs.
Context `{SerdeJsonSpec} `{TokioStreamSpec T}.

(** A request to a peer that reads is framed and flushed, and the input is left
    as it is. *)
Lemma send_request_writes_ok stream request :
  wf_request request → st_writable stream = true →
  ∃ b stream', send_request_writes stream request =
      ([to_be_bytes 4 (as_u32 (Z.of_nat (length b))); b], Some (Ok stream')) ∧
    from_slice_request b = Ok request ∧ wf_bytes b ∧ to_vec_request request = Ok b ∧
    st_out stream' = st_out stream ++ frame_bytes b ∧ st_in stream' = st_in stream.
Proof.
  intros Hwf Hw. destruct (request_roundtrip request Hwf) as (b & Hb & Hd & Hbw & _).
  unfold send_request_writes. rewrite Hb. cbn zeta.
  destruct (write_u32_live stream (as_u32 (Z.of_nat (length b))) Hw) as [s1 H1'].
  rewrite H1'. cbn [writes]. apply write_u32_spec in H1' as (Hi1 & _ & Ho1 & Hw1).
  destruct (write_all_live s1 b) as [s2 H2']; [congruence|].
  rewrite H2'. cbn [writes]. apply write_all_spec in H2' as (Hi2 & _ & Ho2 & Hw2).
  destruct (flush_live s2) as [s3 H3']; [congruence|].
  rewrite H3'. cbn [and_then]. apply flush_spec in H3' as (Hi3 & _ & Ho3 & _).
  exists b, s3. split_and!; try done; try congruence.
  rewrite Ho3, Ho2, Ho1. unfold frame_bytes. by rewrite app_assoc.
Qed.

Lemma send_request_ok stream request :
  wf_request request → st_writable stream = true →
  ∃ b stream', send_request stream request = Some (Ok stream') ∧
    from_slice_request b = Ok request ∧ wf_bytes b ∧ to_vec_request request = Ok b ∧
    st_out stream' = st_out stream ++ frame_bytes b ∧ st_in stream' = st_in stream.
Proof.
  intros Hwf Hw. destruct (send_request_writes_ok stream request Hwf Hw) as (b & s & Hs & Hrest).
  exists b, s. split; [|done]. unfold send_request. by rewrite Hs.
Qed.

(** A framed response that has arrived is printed. *)
Lemma receive_response_framed stream b resp rest :
  from_slice_response b = Ok resp → wf_bytes b → b ≠ [] → Z.of_nat (length b) < 2 ^ 32 →
  st_in stream = frame_bytes b ++ rest →
  receive_response stream = Some (Ok (print_response resp)).
Proof.
  intros Hd Hwf Hne Hlen Hin. unfold frame_bytes in Hin. rewrite <- app_assoc in Hin.
  assert (as_u32 (Z.of_nat (length b)) = Z.of_nat (length b)) as Hu
    by (apply wrap_small; uint).
  rewrite Hu in Hin.
  assert (length (to_be_bytes 4 (Z.of_nat (length b))) = 4%nat) as Hl4
    by (by rewrite length_to_be_bytes).
  destruct (read_u32_ok stream) as (s1 & Hr1 & Hi1 & _).
  { rewrite Hin, length_app, Hl4. lia. }
  rewrite Hin, take_app_length' in Hr1 by done. rewrite Hin, drop_app_length' in Hi1 by done.
  rewrite from_to_be_bytes in Hr1 by (lia || uint).
  destruct (read_exact_ok s1 (Z.of_nat (length b))) as (s2 & Hr2 & _).
  { rewrite Hi1, length_app. lia. }
  rewrite Hi1, take_app_length' in Hr2 by lia.
  unfold receive_response. rewrite Hr1. cbn [and_then].
  destruct (Z.eqb_spec (Z.of_nat (length b)) 0); [destruct b; simpl in *; done || lia|].
  rewrite Hr2. cbn [and_then]. by rewrite Hd.
Qed.

(** A command over a stream on which the answer arrives. *)
Lemma send_command_writes_answered stream cmd request b resp rest :
  command_request cmd = Some request → wf_request request → st_writable stream = true →
  from_slice_response b = Ok resp → wf_bytes b → b ≠ [] → Z.of_nat (length b) < 2 ^ 32 →
  st_in stream = frame_bytes b ++ rest →
  ∃ m, from_slice_request m = Ok request ∧ to_vec_request request = Ok m ∧
    send_command_writes (Ok stream) cmd =
      ([to_be_bytes 4 (as_u32 (Z.of_nat (length m))); m], Some (Ok (print_response resp))).
Proof.
  intros Hcmd Hwf Hw Hd Hb Hne Hlen Hin.
  destruct (send_request_writes_ok stream request Hwf Hw) as (m & s1 & Hs & Hm & _ & Hv & _ & Hi).
  exists m. do 2 (split; [done|]). unfold send_command_writes. rewrite Hcmd, Hs. cbn [and_then].
  f_equal. apply (receive_response_framed s1 b resp rest); try done. congruence.
Qed.

Lemma send_command_answered stream cmd request b resp rest :
  command_request cmd = Some request → wf_request request → st_writable stream = true →
  from_slice_response b = Ok resp → wf_bytes b → b ≠ [] → Z.of_nat (length b) < 2 ^ 32 →
  st_in stream = frame_bytes b ++ rest →
  send_command (Ok stream) cmd = Some (Ok (print_response resp)).
Proof.
  intros Hcmd Hwf Hw Hd Hb Hne Hlen Hin. unfold send_command.
  by destruct (send_command_writes_answered stream cmd request b resp rest) as (m & _ & _ & ->).
Qed.
End client_proofs.
