(* ===== verification/Cli.v ===== *)
(** * The command line: [Cli] and its subcommands

    The attributes of [Cli] and [Commands] (rustguard's [main.rs]) describe a command
    to clap and say how its matches become a [Cli].  The description is data, the
    parser of clap an interface with the laws its documentation gives for values,
    long and short options and positional arguments; [plain_clap] implements it. *)

From S2P Require Export Client Text.

(** ** [u64::from_str] *)

(** A plus sign may precede the digits, of which there is one at least. *)
Definition u64_from_str (s : string) : option Z :=
  match bytes_of_string s with
  | [] => None
  | c :: l =>
      if c =? 43 then match l with [] => None | _ => u64_digits 0 l end else u64_digits 0 (c :: l)
  end.

(** ** What the attributes describe *)

(** The type of a field chooses the parser of its value. *)
Inductive value_parser := StringParser | U64Parser.
Inductive value := VString (s : string) | VU64 (n : Z).

Definition parse_value (p : value_parser) (raw : string) : option value :=
  match p with
  | StringParser => Some (VString raw)
  | U64Parser => VU64 <$> u64_from_str raw
  end.

(** A positional argument has neither a short nor a long flag. *)
Record Arg := {
  a_id : string;
  a_short : option ascii;
  a_long : option string;
  a_default : option string;
  a_required : bool;
  a_parser : value_parser;
}.
Record Subcommand := { sub_name : string; sub_args : list Arg }.
Record Command := { subcommand_required : bool; subcommands : list Subcommand }.

(** A field of type [T] is required unless it has a default, one of type
    [Option<T>] is not. *)
Definition iface_arg : Arg := {|
  a_id := "iface"; a_short := Some "i"%char; a_long := Some "iface"%string;
  a_default := Some "eth0"%string; a_required := false; a_parser := StringParser;
|}.
Definition target_arg : Arg := {|
  a_id := "target"; a_short := None; a_long := None; a_default := None; a_required := true;
  a_parser := StringParser;
|}.
Definition ttl_arg : Arg := {|
  a_id := "ttl"; a_short := None; a_long := Some "ttl"%string; a_default := None;
  a_required := false; a_parser := U64Parser;
|}.
Definition daemon_command : Subcommand := {| sub_name := "daemon"; sub_args := [iface_arg] |}.
Definition ban_command : Subcommand := {| sub_name := "ban"; sub_args := [target_arg; ttl_arg] |}.
Definition unban_command : Subcommand := {| sub_name := "unban"; sub_args := [target_arg] |}.
Definition list_command : Subcommand := {| sub_name := "list"; sub_args := [] |}.
Definition stats_command : Subcommand := {| sub_name := "stats"; sub_args := [] |}.
Definition monitor_command : Subcommand := {| sub_name := "monitor"; sub_args := [] |}.

Definition Cli_command : Command := {|
  subcommand_required := true;
  subcommands := [
    daemon_command; ban_command; unban_command; list_command; stats_command; monitor_command];
|}.

(** ** clap *)

(** The subcommand that was used and the values of its arguments. *)
Record ArgMatches := { m_sub : string; m_values : gmap string value }.

Definition is_positional (a : Arg) : bool :=
  match a_short a, a_long a with None, None => true | _, _ => false end.

(** A value that is not mistaken for a flag. *)
Definition plain (v : string) : bool :=
  match v with String c _ => negb (Ascii.eqb c "-") | EmptyString => false end.

(** The arguments a subcommand's words give, as (argument, text) in their order;
    [pos] are the positional arguments not given yet. *)
Inductive gives (args : list Arg) : list Arg → list string → list (Arg * string) → Prop :=
| gives_nil pos : gives args pos [] []
| gives_long pos a l v words given :
    a ∈ args → a_long a = Some l → plain v = true → gives args pos words given →
    gives args pos (("--" +:+ l) :: v :: words) ((a, v) :: given)
| gives_long_eq pos a l v words given :
    a ∈ args → a_long a = Some l → plain v = true → gives args pos words given →
    gives args pos (("--" +:+ l +:+ "=" +:+ v) :: words) ((a, v) :: given)
| gives_short pos a c v words given :
    a ∈ args → a_short a = Some c → plain v = true → gives args pos words given →
    gives args pos (String "-" (String c EmptyString) :: v :: words) ((a, v) :: given)
| gives_positional pos a v words given :
    plain v = true → gives args pos words given → gives args (a :: pos) (v :: words) ((a, v) :: given).

(** The text of an argument: as given, or its default. *)
Definition text_of (given : list (Arg * string)) (a : Arg) : option string :=
  match list_find (λ g, a_id g.1 = a_id a) given with
  | Some (_, (_, v)) => Some v
  | None => a_default a
  end.

(** No argument is given twice, every required one is given, and every value
    parses. *)
Definition valid (args : list Arg) (given : list (Arg * string)) : bool :=
  bool_decide (NoDup (a_id ∘ fst <$> given)) &&
  forallb (λ a, match text_of given a with
                | None => negb (a_required a)
                | Some v => bool_decide (is_Some (parse_value (a_parser a) v))
                end) args.

(** What clap requires of a description: distinct names and flags, which are
    words. *)
Definition word (s : string) : Prop := s ≠ "" ∧ 61 ∉ bytes_of_string s.
Definition wf_args (args : list Arg) : Prop :=
  NoDup (a_id <$> args) ∧ NoDup (omap a_long args) ∧ NoDup (omap a_short args) ∧
  Forall word (omap a_long args) ∧ "-"%char ∉ omap a_short args.
Definition wf_command (cmd : Command) : Prop :=
  NoDup (sub_name <$> subcommands cmd) ∧ Forall (λ sub, plain (sub_name sub) = true) (subcommands cmd) ∧
  Forall (λ sub, wf_args (sub_args sub)) (subcommands cmd).

Class Clap := {
  ClapError : Type;
  (** [Command::try_get_matches_from], and [clap::Error::format] of the conversion. *)
  try_get_matches_from : Command → list string → result ArgMatches ClapError;
  conversion_error : ClapError;
}.

(** clap's reference: a required subcommand must be given, and be one of the
    command's; its words give its arguments, and the matches hold the parsed
    values, or are refused; matches only ever hold values of the arguments' parsers,
    and one for every required argument. *)
Class ClapSpec `{Clap} := {
  no_subcommand cmd bin :
    wf_command cmd → subcommand_required cmd = true → ∃ e, try_get_matches_from cmd [bin] = Err e;
  unknown_subcommand cmd bin name words :
    wf_command cmd → plain name = true → name ≠ "help" → name ∉ (sub_name <$> subcommands cmd) →
    ∃ e, try_get_matches_from cmd (bin :: name :: words) = Err e;
  known_subcommand cmd bin sub words given :
    wf_command cmd → sub ∈ subcommands cmd →
    gives (sub_args sub) (filter is_positional (sub_args sub)) words given →
    if valid (sub_args sub) given then
      ∃ m, try_get_matches_from cmd (bin :: sub_name sub :: words) = Ok m ∧
        m_sub m = sub_name sub ∧
        ∀ a, a ∈ sub_args sub → m_values m !! a_id a = text_of given a ≫= parse_value (a_parser a)
    else ∃ e, try_get_matches_from cmd (bin :: sub_name sub :: words) = Err e;
  matches_typed cmd argv m :
    wf_command cmd → subcommand_required cmd = true → try_get_matches_from cmd argv = Ok m →
    ∃ sub, sub ∈ subcommands cmd ∧ m_sub m = sub_name sub ∧
      ∀ a, a ∈ sub_args sub →
        match m_values m !! a_id a with
        | Some v => ∃ raw, parse_value (a_parser a) raw = Some v
        | None => a_required a = false ∧ a_default a = None
        end;
}.

(** ** [Cli::parse] *)

#[local] Open Scope rust_scope.

Section parse.
Context `{Clap}.

Definition get_string (m : ArgMatches) (id : string) : option string :=
  match m_values m !! id with Some (VString s) => Some s | _ => None end.
Definition get_u64 (m : ArgMatches) (id : string) : option Z :=
  match m_values m !! id with Some (VU64 n) => Some n | _ => None end.

(** The derived [from_arg_matches]: the variant of the subcommand, each field from
    the argument of its name. *)
Definition Commands_from_arg_matches (m : ArgMatches) : option Commands :=
  if String.eqb (m_sub m) "daemon" then CmdDaemon <$> get_string m "iface"
  else if String.eqb (m_sub m) "ban" then
    (λ target, CmdBan target (get_u64 m "ttl")) <$> get_string m "target"
  else if String.eqb (m_sub m) "unban" then CmdUnban <$> get_string m "target"
  else if String.eqb (m_sub m) "list" then Some CmdList
  else if String.eqb (m_sub m) "stats" then Some CmdStats
  else if String.eqb (m_sub m) "monitor" then Some CmdMonitor
  else None.

(** [Cli::try_parse_from]; [Cli::parse] prints the error and ends the process. *)
Definition Cli_parse (argv : list string) : result Cli ClapError :=
  let? m := try_get_matches_from Cli_command argv in
  match Commands_from_arg_matches m with
  | Some cmd => Ok {| command := cmd |}
  | None => Err conversion_error
  end.

(** [main] from the words of the command line on; on an error the process ends with
    clap's message. *)
Definition main_argv {Logger} `{SerdeJson} `{TokioStream T} (sys : System Logger) (l : Logger)
    (header : string) (connect : string → result T (IoError T))
    (show : ClientError (T := T) → string) (argv : list string) : result (proc ()) ClapError :=
  let? cli := Cli_parse argv in Ok (main sys l header connect show cli).
End parse.

(** ** A parser of these forms *)

Fixpoint split_eq (s : string) : string * option string :=
  match s with
  | EmptyString => ("", None)
  | String c s =>
      if Ascii.eqb c "=" then ("", Some s) else let '(l, v) := split_eq s in (String c l, v)
  end%string.

(** The argument with a flag. *)
Definition with_flag {A} `{EqDecision A} (f : Arg → option A) (args : list Arg) (k : A) : option Arg :=
  head (filter (λ a, f a = Some k) args).

Fixpoint parse_words (args pos : list Arg) (words : list string) : option (list (Arg * string)) :=
  match words with
  | [] => Some []
  | w :: words =>
      let with_value (a : option Arg) :=
        match a, words with
        | Some a, v :: words => if plain v then cons (a, v) <$> parse_words args pos words else None
        | _, _ => None
        end in
      match w with
      | String c1 (String c2 body) =>
          if Ascii.eqb c1 "-" then
            if Ascii.eqb c2 "-" then
              match split_eq body with
              | (l, None) => with_value (with_flag a_long args l)
              | (l, Some v) =>
                  a ← with_flag a_long args l;
                  if plain v then cons (a, v) <$> parse_words args pos words else None
              end
            else match body with EmptyString => with_value (with_flag a_short args c2) | _ => None end
          else
            match pos with a :: pos => cons (a, w) <$> parse_words args pos words | [] => None end
      | _ =>
          if plain w then
            match pos with a :: pos => cons (a, w) <$> parse_words args pos words | [] => None end
          else None
      end
  end.

Definition matches_of (sub : Subcommand) (given : list (Arg * string)) : ArgMatches := {|
  m_sub := sub_name sub;
  m_values := list_to_map (omap (λ a,
    pair (a_id a) <$> (text_of given a ≫= parse_value (a_parser a))) (sub_args sub));
|}.

Definition plain_matches (cmd : Command) (argv : list string) : option ArgMatches :=
  match argv with
  | _ :: name :: words =>
      sub ← head (filter (λ sub, sub_name sub = name) (subcommands cmd));
      given ← parse_words (sub_args sub) (filter is_positional (sub_args sub)) words;
      if valid (sub_args sub) given then Some (matches_of sub given) else None
  | _ => None
  end.

#[export] Instance plain_clap : Clap := {|
  ClapError := ();
  try_get_matches_from cmd argv := of_option (plain_matches cmd argv);
  conversion_error := ();
|}.

(** ** Lemmas *)

Lemma with_flag_Some {A} `{EqDecision A} (f : Arg → option A) args a k :
  NoDup (omap f args) → a ∈ args → f a = Some k → with_flag f args k = Some a.
Proof.
  intros Hnd Hin Hk. unfold with_flag. induction args as [|b args IH]; [by apply not_elem_of_nil in Hin|].
  simpl in Hnd. rewrite filter_cons. case_decide as Hb.
  - simpl. f_equal. apply elem_of_cons in Hin as [->|Hin]; [done|].
    rewrite Hb in Hnd. apply NoDup_cons in Hnd as [Hn _]. destruct Hn.
    apply list_elem_of_omap. eauto.
  - apply elem_of_cons in Hin as [->|Hin]; [done|]. apply IH; [|done].
    destruct (f b); [by apply NoDup_cons in Hnd as [_ ?] | done].
Qed.

Lemma split_eq_word l : 61 ∉ bytes_of_string l → split_eq l = (l, None).
Proof.
  induction l as [|c l IH]; simpl; [done|]. rewrite not_elem_of_cons. intros [Hc Hl].
  destruct (Ascii.eqb_spec c "=") as [->|]; [by destruct Hc|]. by rewrite IH.
Qed.

Lemma split_eq_value l v :
  61 ∉ bytes_of_string l → split_eq (l +:+ "=" +:+ v) = (l, Some v).
Proof.
  induction l as [|c l IH]; simpl in *; [done|]. rewrite not_elem_of_cons. intros [Hc Hl].
  destruct (Ascii.eqb_spec c "=") as [->|]; [by destruct Hc|]. by rewrite IH.
Qed.

Lemma gives_parse_words args pos words given :
  wf_args args → gives args pos words given → parse_words args pos words = Some given.
Proof.
  intros (_ & Hlong & Hshort & Hwords & Hdash).
  assert (∀ a l, a ∈ args → a_long a = Some l → 61 ∉ bytes_of_string l) as Hword.
  { intros a l Ha Hl. rewrite Forall_forall in Hwords. apply Hwords. apply list_elem_of_omap. eauto. }
  induction 1 as [pos|pos a l v words given Ha Hl Hv _ IH|pos a l v words given Ha Hl Hv _ IH
    |pos a c v words given Ha Hc Hv _ IH|pos a v words given Hv _ IH]; cbn [parse_words]; [done|..].
  - change ("--" +:+ l) with (String "-" (String "-" l)). cbn -[with_flag].
    rewrite split_eq_word, (with_flag_Some _ _ a), Hv, IH by eauto. done.
  - change ("--" +:+ l +:+ "=" +:+ v) with (String "-" (String "-" (l +:+ "=" +:+ v))).
    cbn -[with_flag String.append].
    rewrite split_eq_value, (with_flag_Some _ _ a) by eauto. simpl. by rewrite Hv, IH.
  - cbn -[with_flag]. destruct (Ascii.eqb_spec c "-") as [->|].
    + destruct Hdash. apply list_elem_of_omap. eauto.
    + rewrite (with_flag_Some _ _ a), Hv, IH by eauto. done.
  - rewrite IH. destruct v as [|c [|c' v]]; simpl in Hv; [done| |].
    + simpl. by rewrite Hv.
    + destruct (Ascii.eqb_spec c "-") as [->|]; done.
Qed.

(** The value of an argument in the matches. *)
Lemma matches_of_lookup sub given a :
  NoDup (a_id <$> sub_args sub) → a ∈ sub_args sub →
  m_values (matches_of sub given) !! a_id a = text_of given a ≫= parse_value (a_parser a).
Proof.
  simpl. induction (sub_args sub) as [|b args IH]; [by intros _ ?%not_elem_of_nil|].
  rewrite fmap_cons, NoDup_cons. intros [Hb Hnd] [->|Ha]%elem_of_cons; simpl.
  - destruct (text_of given b ≫= _) as [v|]; simpl; [apply lookup_insert_eq|].
    apply not_elem_of_list_to_map. intros ((i & v) & Hi & (a & Ha & He)%list_elem_of_omap)%list_elem_of_fmap.
    apply fmap_Some in He as (v' & _ & Heq). simplify_eq/=. apply Hb, list_elem_of_fmap. eauto.
  - assert (a_id b ≠ a_id a) by (intros He; apply Hb, list_elem_of_fmap; eauto).
    destruct (text_of given b ≫= _) as [v|]; simpl; [rewrite lookup_insert_ne by done|]; by apply IH.
Qed.

Lemma text_parses args given a v :
  valid args given = true → a ∈ args → text_of given a = Some v → is_Some (parse_value (a_parser a) v).
Proof.
  intros [_ Hall]%andb_prop Ha Hv. rewrite forallb_forall in Hall.
  specialize (Hall a). rewrite Hv in Hall. eapply bool_decide_eq_true, Hall. by apply list_elem_of_In.
Qed.

Lemma text_required args given a :
  valid args given = true → a ∈ args → text_of given a = None →
  a_required a = false ∧ a_default a = None.
Proof.
  intros [_ Hall]%andb_prop Ha Hv. rewrite forallb_forall in Hall.
  specialize (Hall a). rewrite Hv in Hall. split; [by apply negb_true_iff, Hall, list_elem_of_In|].
  unfold text_of in Hv. by destruct (list_find _ _) as [[? []]|].
Qed.

(** A subcommand is found by its name. *)
Lemma find_subcommand subs sub :
  NoDup (sub_name <$> subs) → sub ∈ subs →
  head (filter (λ s, sub_name s = sub_name sub) subs) = Some sub.
Proof.
  intros Hnd Hin. induction subs as [|s subs IH]; [by apply not_elem_of_nil in Hin|].
  rewrite fmap_cons, NoDup_cons in Hnd. destruct Hnd as [Hs Hnd]. rewrite filter_cons.
  apply elem_of_cons in Hin as [->|Hin]; [by rewrite decide_True|].
  rewrite decide_False; [by apply IH|]. intros He. apply Hs, list_elem_of_fmap. eauto.
Qed.

Lemma head_filter_Some {A} (P : A → Prop) `{!∀ x, Decision (P x)} l x :
  head (filter P l) = Some x → P x ∧ x ∈ l.
Proof.
  destruct (filter P l) as [|y l'] eqn:Hf; [done|]. intros [= ->].
  assert (x ∈ filter P l) as Hx by (rewrite Hf; left). by apply list_elem_of_filter in Hx.
Qed.

#[export] Instance plain_clap_spec : ClapSpec.
Proof.
  split; simpl.
  - intros cmd bin _ _. by exists ().
  - intros cmd bin name words _ _ _ Hn. exists ().
    destruct (head _) as [sub|] eqn:Hh; [|done]. apply head_filter_Some in Hh as [<- Hin].
    destruct Hn. apply list_elem_of_fmap. eauto.
  - intros cmd bin sub words given (Hnd & _ & Hargs) Hin Hg.
    rewrite Forall_forall in Hargs. specialize (Hargs sub Hin).
    rewrite (find_subcommand _ _ Hnd Hin). simpl. rewrite (gives_parse_words _ _ _ _ Hargs Hg). simpl.
    destruct (valid _ given); simpl; [|by exists ()].
    eexists. split_and!; [done | done|]. intros a Ha. apply matches_of_lookup; [|done]. apply Hargs.
  - intros cmd argv m (Hnd & _ & Hargs) _ Hm. unfold plain_matches in Hm.
    destruct argv as [|bin [|name words]]; try done.
    destruct (head _) as [sub|] eqn:Hh; [|done]. apply head_filter_Some in Hh as [<- Hin]. simpl in Hm.
    destruct (parse_words _ _ words) as [given|]; [|done]. simpl in Hm.
    destruct (valid _ given) eqn:Hvalid; [|done]. simplify_eq/=. exists sub. split_and!; [done..|].
    intros a Ha. rewrite Forall_forall in Hargs. destruct (Hargs sub Hin) as [Hids _].
    pose proof (matches_of_lookup sub given a Hids Ha) as Hl. simpl in Hl. rewrite Hl.
    destruct (text_of given a) as [v|] eqn:Hv; simpl; [|by eapply text_required].
    destruct (text_parses _ _ _ _ Hvalid Ha Hv) as [x Hx]. rewrite Hx. eauto.
Defined.

(** ** The numbers a [u64] is written as *)

Lemma u64_from_str_digits s n :
  s ≠ "" → u64_digits 0 (bytes_of_string s) = Some n → u64_from_str s = Some n.
Proof.
  unfold u64_from_str. intros Hs Hd. destruct s as [|c s]; [done|]. simpl in *.
  destruct (between 48 57 (byte_of_ascii c)) eqn:Hb; [|done].
  apply bool_decide_eq_true in Hb.
  by rewrite (proj2 (Z.eqb_neq _ 43)) by lia.
Qed.

Lemma u64_from_str_fmt n : in_u 64 n → u64_from_str (fmt_uint n) = Some n.
Proof.
  intros Hn. apply u64_from_str_digits; [by apply fmt_uint_nonempty | by apply u64_digits_fmt].
Qed.

(** ** The command of the program *)

#[export] Instance word_dec s : Decision (word s).
Proof. unfold word. apply _. Defined.
#[export] Instance wf_args_dec args : Decision (wf_args args).
Proof. unfold wf_args. apply _. Defined.
#[export] Instance wf_command_dec cmd : Decision (wf_command cmd).
Proof. unfold wf_command. apply _. Defined.

Lemma Cli_command_wf : wf_command Cli_command.
Proof. apply (bool_decide_unpack _). vm_compute. exact I. Qed.
