(* ===== verification/CommandLine.v ===== *)
(** * What the command lines mean

    The command lines of the help text and the README become the commands they say,
    the others are refused, and what is parsed is a well-formed request. *)

From S2P Require Export Serde Cli.

(** The words of a command; a number is written in any way [u64::from_str] reads. *)
Inductive written : Commands → list string → Prop :=
| written_daemon : written (CmdDaemon "eth0") ["daemon"]
| written_daemon_long i : plain i = true → written (CmdDaemon i) ["daemon"; "--iface"; i]
| written_daemon_eq i : plain i = true → written (CmdDaemon i) ["daemon"; "--iface=" +:+ i]
| written_daemon_short i : plain i = true → written (CmdDaemon i) ["daemon"; "-i"; i]
| written_ban t : plain t = true → written (CmdBan t None) ["ban"; t]
| written_ban_ttl t n s :
    plain t = true → plain s = true → u64_from_str s = Some n →
    written (CmdBan t (Some n)) ["ban"; t; "--ttl"; s]
| written_ban_ttl_eq t n s :
    plain t = true → plain s = true → u64_from_str s = Some n →
    written (CmdBan t (Some n)) ["ban"; t; "--ttl=" +:+ s]
| written_ban_ttl_first t n s :
    plain t = true → plain s = true → u64_from_str s = Some n →
    written (CmdBan t (Some n)) ["ban"; "--ttl"; s; t]
| written_unban t : plain t = true → written (CmdUnban t) ["unban"; t]
| written_list : written CmdList ["list"]
| written_stats : written CmdStats ["stats"]
| written_monitor : written CmdMonitor ["monitor"].

Section command_line.
Context `{ClapSpec}.

(** A subcommand's words are parsed, or refused. *)
Lemma Cli_parse_words bin sub words given :
  sub ∈ subcommands Cli_command →
  gives (sub_args sub) (filter is_positional (sub_args sub)) words given →
  if valid (sub_args sub) given then
    ∃ m, Cli_parse (bin :: sub_name sub :: words) =
           match Commands_from_arg_matches m with
           | Some cmd => Ok {| command := cmd |}
           | None => Err conversion_error
           end ∧ m_sub m = sub_name sub ∧
      ∀ a, a ∈ sub_args sub → m_values m !! a_id a = text_of given a ≫= parse_value (a_parser a)
  else ∃ e, Cli_parse (bin :: sub_name sub :: words) = Err e.
Proof.
  intros Hin Hg. pose proof (known_subcommand Cli_command bin sub words given Cli_command_wf Hin Hg) as Hk.
  unfold Cli_parse. destruct (valid _ given).
  - destruct Hk as (m & -> & Hm). by exists m.
  - destruct Hk as [e ->]. by exists e.
Qed.

Lemma Cli_parse_ok bin sub words given cmd :
  sub ∈ subcommands Cli_command →
  gives (sub_args sub) (filter is_positional (sub_args sub)) words given →
  valid (sub_args sub) given = true →
  (∀ m, m_sub m = sub_name sub →
     (∀ a, a ∈ sub_args sub → m_values m !! a_id a = text_of given a ≫= parse_value (a_parser a)) →
     Commands_from_arg_matches m = Some cmd) →
  Cli_parse (bin :: sub_name sub :: words) = Ok {| command := cmd |}.
Proof.
  intros Hin Hg Hv Hm. pose proof (Cli_parse_words bin sub words given Hin Hg) as Hp.
  rewrite Hv in Hp. destruct Hp as (m & -> & Hs & Hl). by rewrite (Hm m Hs Hl).
Qed.

(** [iface] is given, or is not. *)
Lemma parse_daemon bin words given i :
  gives (sub_args daemon_command) [] words given →
  valid (sub_args daemon_command) given = true →
  text_of given iface_arg = Some i →
  Cli_parse (bin :: "daemon"%string :: words) = Ok {| command := CmdDaemon i |}.
Proof.
  intros Hg Hv Hi. eapply (Cli_parse_ok bin daemon_command); [by left | exact Hg | done|].
  intros m Hm Hl. unfold Commands_from_arg_matches. rewrite Hm. simpl. unfold get_string.
  pose proof (Hl iface_arg ltac:(left)) as Hl'. simpl in Hl'. by rewrite Hl', Hi.
Qed.

Lemma valid_ban given t :
  NoDup (a_id ∘ fst <$> given) → text_of given target_arg = Some t →
  (∀ s, text_of given ttl_arg = Some s → is_Some (u64_from_str s)) →
  valid (sub_args ban_command) given = true.
Proof.
  intros Hnd Ht Hs. unfold valid. rewrite bool_decide_true by done. cbn [forallb andb sub_args ban_command].
  rewrite Ht. simpl. destruct (text_of given ttl_arg) as [s|]; [|done].
  by destruct (Hs s eq_refl) as [n ->].
Qed.

Lemma parse_ban bin words given t ttl :
  gives (sub_args ban_command) [target_arg] words given →
  NoDup (a_id ∘ fst <$> given) → text_of given target_arg = Some t →
  (∀ s, text_of given ttl_arg = Some s → is_Some (u64_from_str s)) →
  text_of given ttl_arg ≫= u64_from_str = ttl →
  Cli_parse (bin :: "ban"%string :: words) = Ok {| command := CmdBan t ttl |}.
Proof.
  intros Hg Hnd Ht Hs Hn. pose proof (valid_ban given t Hnd Ht Hs) as Hv.
  eapply (Cli_parse_ok bin ban_command); [right; by left | exact Hg | done|].
  intros m Hm Hl. unfold Commands_from_arg_matches. rewrite Hm. simpl. unfold get_string, get_u64.
  pose proof (Hl target_arg ltac:(left)) as Hlt. pose proof (Hl ttl_arg ltac:(right; left)) as Hln.
  simpl in *. rewrite Hlt, Hln, Ht, <- Hn. simpl. destruct (text_of given ttl_arg) as [s|]; [|done].
  simpl. by destruct (u64_from_str s).
Qed.

(** The arguments some words give, and that they are distinct. *)
Ltac distinct := apply (bool_decide_unpack _); vm_compute; exact I.
Ltac given :=
  repeat match goal with
  | |- gives _ _ [] _ => apply gives_nil
  | |- gives _ _ ("--iface"%string :: _) _ => eapply (gives_long _ _ iface_arg "iface"); [left | done | done |]
  | |- gives _ _ (("--iface=" +:+ _)%string :: _) _ =>
      eapply (gives_long_eq _ _ iface_arg "iface"); [left | done | done |]
  | |- gives _ _ ("-i"%string :: _) _ =>
      eapply (gives_short _ _ iface_arg "i"%char); [left | done | done |]
  | |- gives _ _ ("--ttl"%string :: _) _ =>
      eapply (gives_long _ _ ttl_arg "ttl"); [right; left | done | done |]
  | |- gives _ _ (("--ttl=" +:+ _)%string :: _) _ =>
      eapply (gives_long_eq _ _ ttl_arg "ttl"); [right; left | done | done |]
  | |- gives _ _ _ _ => apply gives_positional; [done|]
  end.

(** How each form is parsed. *)
Lemma written_parses bin cmd words :
  written cmd words → Cli_parse (bin :: words) = Ok {| command := cmd |}.
Proof.
  intros Hw. destruct Hw as [|i Hi|i Hi|i Hi|t Ht|t n s Ht Hs Hn|t n s Ht Hs Hn|t n s Ht Hs Hn|t Ht| | |].
  - eapply parse_daemon; [given | done | done].
  - eapply (parse_daemon _ _ [(iface_arg, i)]); [given | done | done].
  - eapply (parse_daemon _ _ [(iface_arg, i)]); [given | done | done].
  - eapply (parse_daemon _ _ [(iface_arg, i)]); [given | done | done].
  - eapply (parse_ban _ _ [(target_arg, t)]); [given | distinct | done..].
  - eapply (parse_ban _ _ [(target_arg, t); (ttl_arg, s)]);
      [given | distinct | done | intros s' [= <-]; eauto | done].
  - eapply (parse_ban _ _ [(target_arg, t); (ttl_arg, s)]);
      [given | distinct | done | intros s' [= <-]; eauto | done].
  - eapply (parse_ban _ _ [(ttl_arg, s); (target_arg, t)]);
      [given | distinct | done | intros s' [= <-]; eauto | done].
  - eapply (Cli_parse_ok bin unban_command _ [(target_arg, t)]); [do 2 right; by left | given | done|].
    intros m Hm Hl. unfold Commands_from_arg_matches. rewrite Hm. simpl. unfold get_string.
    pose proof (Hl target_arg ltac:(left)) as Hl'. simpl in Hl'. by rewrite Hl'.
  - eapply (Cli_parse_ok bin list_command); [do 3 right; by left | given | done|].
    intros m Hm _. unfold Commands_from_arg_matches. by rewrite Hm.
  - eapply (Cli_parse_ok bin stats_command); [do 4 right; by left | given | done|].
    intros m Hm _. unfold Commands_from_arg_matches. by rewrite Hm.
  - eapply (Cli_parse_ok bin monitor_command); [do 5 right; by left | given | done|].
    intros m Hm _. unfold Commands_from_arg_matches. by rewrite Hm.
Qed.

(** C20: the command lines are understood.  Every way of writing a command that the
    help text and the README use, with options long, short or joined by "=", before
    or after the target, or left to their default, is parsed to that command, and
    [main] runs it. *)
Theorem command_lines_parsed {Logger} `{SerdeJson} `{TokioStream T} (sys : System Logger) l header
    connect show bin cmd words :
  written cmd words →
  Cli_parse (bin :: words) = Ok {| command := cmd |} ∧
  main_argv (T := T) sys l header connect show (bin :: words) =
    Ok (main sys l header connect show {| command := cmd |}).
Proof.
  intros Hw. pose proof (written_parses bin cmd words Hw) as Hp. split; [done|].
  unfold main_argv. by rewrite Hp.
Qed.

Lemma Cli_parse_refused bin sub words given :
  sub ∈ subcommands Cli_command →
  gives (sub_args sub) (filter is_positional (sub_args sub)) words given →
  valid (sub_args sub) given = false → ∃ e, Cli_parse (bin :: sub_name sub :: words) = Err e.
Proof.
  intros Hin Hg Hv. pose proof (Cli_parse_words bin sub words given Hin Hg) as Hp. by rewrite Hv in Hp.
Qed.

(** C22: the other command lines are refused: without a subcommand, with an unknown
    one, [ban] and [unban] without a target, a time-to-live that is not a [u64], and
    an option given twice. *)
Theorem command_lines_refused bin name words t s s' :
  plain name = true → plain t = true → plain s = true → plain s' = true →
  name ∉ ["daemon"; "ban"; "unban"; "list"; "stats"; "monitor"; "help"]%string →
  u64_from_str s = None →
  Forall (λ argv, ∃ e, Cli_parse argv = Err e)
    [[bin]; bin :: name :: words; [bin; "ban"]; [bin; "unban"]; [bin; "ban"; t; "--ttl"; s];
     [bin; "ban"; "--ttl"; s'; t; "--ttl"; s']; [bin; "daemon"; "-i"; t; "--iface"; s]]%string.
Proof.
  intros Hname Ht Hs Hs' Hn Hu. repeat apply List.Forall_cons; [..|by apply List.Forall_nil].
  - destruct (no_subcommand Cli_command bin Cli_command_wf eq_refl) as [e He].
    exists e. unfold Cli_parse. by rewrite He.
  - destruct (unknown_subcommand Cli_command bin name words Cli_command_wf Hname) as [e He].
    + intros ->. apply Hn. by apply (bool_decide_unpack _).
    + intros Hin. apply Hn. simpl in Hin. set_solver.
    + exists e. unfold Cli_parse. by rewrite He.
  - eapply (Cli_parse_refused bin ban_command); [right; by left | given | done].
  - eapply (Cli_parse_refused bin unban_command); [do 2 right; by left | given | done].
  - eapply (Cli_parse_refused bin ban_command _ [(target_arg, t); (ttl_arg, s)]);
      [right; by left | given |].
    unfold valid. simpl. by rewrite Hu.
  - eapply (Cli_parse_refused bin ban_command _ [(ttl_arg, s'); (target_arg, t); (ttl_arg, s')]);
      [right; by left | given | done].
  - eapply (Cli_parse_refused bin daemon_command _ [(iface_arg, t); (iface_arg, s)]);
      [by left | given | done].
Qed.

Lemma u64_digits_range acc l n : 0 ≤ acc < 2 ^ 64 → u64_digits acc l = Some n → in_u 64 n.
Proof.
  revert acc. induction l as [|c l IH]; intros acc Hacc; simpl; [intros [= <-]; exact Hacc|].
  destruct (between 48 57 c) eqn:Hc; [|done]. apply bool_decide_eq_true in Hc.
  case_bool_decide; [|done]. apply IH. lia.
Qed.

Lemma u64_from_str_range s n : u64_from_str s = Some n → in_u 64 n.
Proof.
  unfold u64_from_str. destruct (bytes_of_string s) as [|c l]; [done|].
  destruct (c =? 43); [destruct l; [done|]|]; apply u64_digits_range; lia.
Qed.

(** The text of an argument of type [String] with a value. *)
Lemma get_string_typed m a :
  a_parser a = StringParser → a_required a = true ∨ a_default a ≠ None →
  (match m_values m !! a_id a with
   | Some v => ∃ raw, parse_value (a_parser a) raw = Some v
   | None => a_required a = false ∧ a_default a = None
   end) → ∃ s, get_string m (a_id a) = Some s.
Proof.
  intros -> Hreq Ha. unfold get_string. destruct (m_values m !! a_id a) as [v|].
  - destruct Ha as [raw [= <-]]. eauto.
  - destruct Ha. by destruct Hreq as [?|[]]; congruence.
Qed.

(** C21: what clap accepts is a command.  Whatever the words, matches become one of
    the six commands, never an error of the conversion, and the request of a
    client's command is well formed: the time-to-live of a ban is a [u64]. *)
Theorem parsed_commands_ok argv m :
  try_get_matches_from Cli_command argv = Ok m →
  ∃ cmd, Cli_parse argv = Ok {| command := cmd |} ∧
    ∀ req, command_request cmd = Some req → wf_request req.
Proof.
  intros Hm. unfold Cli_parse. rewrite Hm.
  apply (matches_typed Cli_command argv m Cli_command_wf eq_refl) in Hm as (sub & Hin & Hs & Ha).
  unfold Commands_from_arg_matches. rewrite Hs.
  repeat (apply elem_of_cons in Hin as [->|Hin]); [..|by apply not_elem_of_nil in Hin]; simpl.
  - destruct (get_string_typed m iface_arg) as [i Hi]; [done | by right | apply Ha; left|].
    simpl in Hi. rewrite Hi. by eexists.
  - destruct (get_string_typed m target_arg) as [t Ht]; [done | by left | apply Ha; left|].
    simpl in Ht. rewrite Ht. eexists. split; [done|]. intros req [= <-]. simpl. unfold get_u64.
    specialize (Ha ttl_arg ltac:(right; left)). simpl in Ha.
    destruct (m_values m !! "ttl"%string) as [[|n]|]; try done.
    destruct Ha as [raw Hraw]. destruct (u64_from_str raw) as [n'|] eqn:Hu; simplify_eq/=.
    by eapply u64_from_str_range.
  - destruct (get_string_typed m target_arg) as [t Ht]; [done | by left | apply Ha; left|].
    simpl in Ht. rewrite Ht. eexists. split; [done|]. by intros req [= <-].
  - eexists. split; [done|]. by intros req [= <-].
  - eexists. split; [done|]. by intros req [= <-].
  - by eexists.
Qed.
End command_line.

(** ** Command lines of the documentation *)

(** A system whose libraries succeed; the logger is a flag. *)
Definition sys_demo : System bool := {|
  env_logger_init (l : bool) := if l then None else Some true;
  setrlimit := 0; ebpf_load := Ok (); ebpf_logger := Ok (Ok ()); btf_from_sys_fs := Ok ();
  program_mut _ := Some (Ok ()); program_load _ := Ok (); program_attach _ := Ok ();
  take_map _ := Some (Ok ()); bind_socket _ := Ok (); set_permissions _ := Ok (); ctrl_c := Some (Ok ());
|}.

(** Nothing listens on the socket. *)
Definition no_daemon (path : string) : result pipe (IoError pipe) := Err tt.

(** The example of the help text. *)
Lemma command_lines_parsed_witness :
  main_argv (T := pipe) sys_demo false "" no_daemon (λ _, "refused"%string)
    ["rustguard"; "ban"; "1.2.3.4"; "--ttl"; "60"]%string =
    Ok ([InitLogger; ConnectTo SOCKET_PATH], Fail "refused").
Proof.
  apply (command_lines_parsed (T := pipe) sys_demo false "" no_daemon (λ _, "refused"%string) "rustguard" (CmdBan "1.2.3.4" (Some 60))
    ["ban"; "1.2.3.4"; "--ttl"; "60"]%string).
  by apply written_ban_ttl.
Defined.

Lemma command_lines_refused_witness :
  ∃ e, Cli_parse ["rustguard"; "ban"; "1.2.3.4"; "--ttl"; "18446744073709551616"]%string = Err e.
Proof.
  pose proof (command_lines_refused "rustguard" "block" [] "1.2.3.4" "18446744073709551616" "60") as Hr.
  assert ("block" ∉ ["daemon"; "ban"; "unban"; "list"; "stats"; "monitor"; "help"])%string as Hn
    by (apply (bool_decide_unpack _); vm_compute; exact I).
  specialize (Hr eq_refl eq_refl eq_refl eq_refl Hn ltac:(vm_compute; reflexivity)).
  do 4 apply Forall_cons in Hr as [_ Hr]. by apply Forall_cons in Hr as [Hr _].
Defined.

Lemma parsed_commands_ok_witness :
  ∃ cmd, Cli_parse ["rustguard"; "ban"; "--ttl=5"; "x"]%string = Ok {| command := cmd |} ∧
    ∀ req, command_request cmd = Some req → wf_request req.
Proof.
  destruct (try_get_matches_from Cli_command ["rustguard"; "ban"; "--ttl=5"; "x"]%string) as [m|e] eqn:Hm;
    [|exfalso; revert Hm; vm_compute; discriminate].
  exact (parsed_commands_ok _ m Hm).
Defined.
