(* ===== verification/System.v ===== *)
(** * The whole system: the XDP filter and the daemon over shared maps

    The kernel runs [rustguard] on each frame and the daemon serves one
    connection at a time; both work on the maps [BANNED_IPS] and [STATS].  The
    system is a transition function on events (a frame, a connection, time
    passing), its executions are lists of events, and an abstract firewall says
    what the executions implement. *)

From S2P Require Export Xdp Daemon Client.

(** The abstract firewall: the expiry of the ban of each address. *)
Abbreviation firewall := (gmap Z Z).

Section system.
Context `{NetworkTypes} `{BpfHashMap MB BanValue} `{BpfHashMap MS StatsValue}.
Context `{SerdeJson} `{TokioStream T}.
Variable oc : bool.

(** The maps, the nanoseconds since boot ([bpf_ktime_get_ns]) and since the
    epoch ([Utc::now]), and whether the accept loop still runs. *)
Record SysState := {
  maps : XdpState MB MS;
  ktime : Z;
  utc : Z;
  serving : bool;
}.

Inductive sys_event :=
| Frame (ctx : XdpContext)
| Connection (stream : T)
| Elapse (d : Z).

Inductive sys_output :=
| Verdict (a : xdp_action)
| Served (o : served (T := T))
| NotServed
| Elapsed.

(** [timestamp_nanos_opt]: [None] outside the range of an [i64]. *)
Definition utc_nanos (utc : Z) : option Z :=
  if decide (- 2 ^ 63 ≤ utc < 2 ^ 63) then Some utc else None.

Definition with_banned (m : XdpState MB MS) (b : MB) : XdpState MB MS :=
  {| BANNED_IPS := b; STATS := STATS m; xdp_log := xdp_log m |}.

Definition still_serving (o : served (T := T)) : bool :=
  match o with Next _ => true | Blocked | Panicked => false end.

(** [None] is a faulting read of the filter. *)
Definition sys_step (ev : sys_event) (s : SysState) : option (sys_output * SysState) :=
  match ev with
  | Frame ctx =>
      '(a, m) ← rustguard ctx (as_u64 (ktime s)) (maps s);
      Some (Verdict a, {| maps := m; ktime := ktime s; utc := utc s; serving := serving s |})
  | Connection stream =>
      if serving s then
        let '(o, b) :=
          serve oc (utc_nanos (utc s)) stream (BANNED_IPS (maps s)) (STATS (maps s)) in
        Some (Served o, {| maps := with_banned (maps s) b; ktime := ktime s; utc := utc s;
                           serving := still_serving o |})
      else Some (NotServed, s)
  | Elapse d =>
      Some (Elapsed, {| maps := maps s; ktime := ktime s + d; utc := utc s + d;
                        serving := serving s |})
  end.

Fixpoint sys_run (evs : list sys_event) (s : SysState) : option (list sys_output * SysState) :=
  match evs with
  | [] => Some ([], s)
  | ev :: evs =>
      '(o, s) ← sys_step ev s; '(os, s) ← sys_run evs s; Some (o :: os, s)
  end.

Definition sys_init (ktime utc : Z) : SysState :=
  {| maps := xdp_init; ktime := ktime; utc := utc; serving := true |}.

(** ** The abstract firewall: a bounded set of bans *)

Definition fw_capacity : nat := 1024.

Inductive fw_label :=
| FwFrame (packet : bytes) (now : Z) (a : xdp_action)
| FwBan (ip e : Z)
| FwUnban (ip : Z)
| FwQuiet.

(** The verdict on a frame. *)
Definition fw_verdict (m : firewall) (packet : bytes) (now : Z) : xdp_action :=
  match parse_frame packet with
  | Malformed => XDP_ABORTED
  | NotIpv4 => XDP_PASS
  | Segment src _ =>
      match m !! src with
      | Some e => if decide (e = 0 ∨ now ≤ e) then XDP_DROP else XDP_PASS
      | None => XDP_PASS
      end
  end.

Inductive fw_step : firewall → fw_label → firewall → Prop :=
| fw_frame m p now : fw_step m (FwFrame p now (fw_verdict m p now)) m
| fw_ban m ip e :
    in_u 32 ip → in_u 64 e → is_Some (m !! ip) ∨ (size m < fw_capacity)%nat →
    fw_step m (FwBan ip e) (<[ip:=e]> m)
| fw_ban_full m ip e :
    m !! ip = None → (fw_capacity ≤ size m)%nat → fw_step m (FwBan ip e) m
| fw_unban m ip : fw_step m (FwUnban ip) (delete ip m)
| fw_quiet m : fw_step m FwQuiet m.
End system.

Arguments SysState MB MS : clear implicits.
Arguments sys_event T : clear implicits.
Arguments Frame {T} ctx.
Arguments Connection {T} stream.
Arguments Elapse {T} d.
Arguments Served {T} o.
Arguments Verdict {T} a.
Arguments NotServed {T}.
Arguments Elapsed {T}.
Arguments maps {MB MS} _.
Arguments ktime {MB MS} _.
Arguments utc {MB MS} _.
Arguments serving {MB MS} _.

Section proofs.
Context `{NetworkTypesSpec} `{BpfHashMapSpec MB BanValue} `{BpfHashMapSpec MS StatsValue}.
Context `{SerdeJsonSpec} `{TokioStreamSpec T}.
Variable oc : bool.
Abbreviation state := (SysState MB MS).
Implicit Types s : SysState MB MS.

(** The frames of an execution lie in memory, and peers send bytes. *)
Definition wf_event (ev : sys_event T) : Prop :=
  match ev with
  | Frame ctx => wf_ctx ctx
  | Connection stream => wf_bytes (st_in stream)
  | Elapse _ => True
  end.

(** The states of the executions. *)
Inductive reachable : state → Prop :=
| reachable_init k u : reachable (sys_init k u)
| reachable_step s ev o s' :
    reachable s → wf_event ev → sys_step oc ev s = Some (o, s') → reachable s'.

(** The request a connection delivers: a complete message that decodes. *)
Definition request_of (stream : T) : option DaemonRequest :=
  message (st_in stream) ≫= λ buf, ok (from_slice_request buf).

(** What a request asks of the firewall. *)
Definition request_label (utc : option Z) (req : DaemonRequest) : fw_label :=
  match req with
  | ReqBan target ttl =>
      match ipv4_from_str target, ban_end_time oc utc ttl with
      | Ok ip, Some e => FwBan (u32_of_ipv4 ip) e
      | _, _ => FwQuiet
      end
  | ReqUnban target =>
      match ipv4_from_str target with Ok ip => FwUnban (u32_of_ipv4 ip) | Err _ => FwQuiet end
  | ReqList | ReqStats => FwQuiet
  end.

(** The bans of a state. *)
Definition banned s : gmap Z BanValue := bm_view (BANNED_IPS (maps s)).
Definition fw_of s : gmap Z Z := end_time <$> banned s.

(** The state of the system is well formed: at most [fw_capacity] bans, on
    addresses, with 64-bit expiries; and no counter in [STATS]. *)
Record sys_ok (s : state) : Prop := {
  ok_capacity : bm_cap (BANNED_IPS (maps s)) = fw_capacity;
  ok_size : (size (banned s) ≤ fw_capacity)%nat;
  ok_bans ip b : banned s !! ip = Some b → in_u 32 ip ∧ in_u 64 (end_time b);
  ok_stats : bm_view (STATS (maps s)) = ∅;
}.

(** What an event asks of the firewall. *)
Definition event_label (s : state) (ev : sys_event T) : fw_label :=
  match ev with
  | Frame ctx =>
      let now := as_u64 (ktime s) in
      FwFrame (packet ctx) now (fw_verdict (fw_of s) (packet ctx) now)
  | Connection stream =>
      if serving s then
        match request_of stream with
        | Some req => request_label (utc_nanos (utc s)) req
        | None => FwQuiet
        end
      else FwQuiet
  | Elapse _ => FwQuiet
  end.

Lemma sys_ok_init k u : sys_ok (sys_init k u).
Proof.
  pose proof (bm_new_spec (M := MB) BANNED_IPS_max_entries) as [Hv Hc].
  pose proof (bm_new_spec (M := MS) STATS_max_entries) as [Hvs _].
  split; unfold banned; simpl; [done | by rewrite Hv; apply Nat.le_0_l | | done].
  intros ip b. by rewrite Hv, lookup_empty.
Qed.

(** The verdict of the filter is the firewall's, and without a counter a frame
    changes neither map. *)
Lemma filter_frame_spec l now (m : XdpState MB MS) :
  bm_view (STATS m) = ∅ →
  (filter_frame l now m).1 = fw_verdict (end_time <$> bm_view (BANNED_IPS m)) l now ∧
  BANNED_IPS (filter_frame l now m).2 = BANNED_IPS m ∧
  STATS (filter_frame l now m).2 = STATS m.
Proof.
  intros Hs. unfold filter_frame, fw_verdict, count_drop, ban_active.
  rewrite (bm_get_spec (STATS m)), Hs, lookup_empty.
  destruct (parse_frame l) as [| |src port]; [done..|].
  rewrite bm_get_spec, lookup_fmap. destruct (bm_view (BANNED_IPS m) !! src) as [b|]; simpl; [|done].
  by case_bool_decide; case_decide.
Qed.

(** ** A connection *)

(** The bans after a label. *)
Definition fw_after (m : firewall) (l : fw_label) : firewall :=
  match l with
  | FwBan ip e =>
      if decide (is_Some (m !! ip) ∨ (size m < fw_capacity)%nat) then <[ip:=e]> m else m
  | FwUnban ip => delete ip m
  | FwFrame _ _ _ | FwQuiet => m
  end.

Lemma fw_step_after m l :
  (∀ p now a, l = FwFrame p now a → a = fw_verdict m p now) →
  (∀ ip e, l = FwBan ip e → in_u 32 ip ∧ in_u 64 e) →
  fw_step m l (fw_after m l).
Proof.
  intros Hf Hb. destruct l as [p now a|ip e|ip|]; simpl.
  - rewrite (Hf p now a) by done. constructor.
  - destruct (Hb ip e eq_refl). case_decide as Hd; [by constructor|].
    apply fw_ban_full; [|lia]. apply eq_None_not_Some. tauto.
  - constructor.
  - constructor.
Qed.

Lemma request_label_range u req ip e :
  request_label u req = FwBan ip e → in_u 32 ip ∧ in_u 64 e.
Proof.
  unfold request_label. destruct req as [t ttl|t| |]; try done; repeat case_match; try done.
  intros [= <- <-]. split; [|by eapply ban_end_time_range].
  apply u32_of_ipv4_range. by eapply ipv4_from_str_spec.
Qed.

Lemma request_label_frame u req p now a : request_label u req ≠ FwFrame p now a.
Proof. unfold request_label. repeat case_match; done. Qed.

(** The handler changes the bans as the label says, at the map's capacity. *)
Lemma handle_request_label u req (b : MB) (st : MS) resp b' :
  bm_cap b = fw_capacity → handle_request oc u req b st = Some (resp, b') →
  bm_cap b' = fw_capacity ∧
  end_time <$> bm_view b' = fw_after (end_time <$> bm_view b) (request_label u req).
Proof.
  intros Hcap. destruct req as [t ttl|t| |]; simpl.
  - destruct (ipv4_from_str t) as [ip|]; [|by intros [= <- <-]].
    destruct (ban_end_time oc u ttl) as [e|]; simpl; [|done].
    destruct (bm_insert_view b (u32_of_ipv4 ip) {| end_time := e |}) as [Hv Hc].
    destruct (bm_insert _ _ _) as [r m]. intros [= <- <-]. simpl in *.
    assert (is_Some ((end_time <$> bm_view b) !! u32_of_ipv4 ip) ∨
      (size (end_time <$> bm_view b) < fw_capacity)%nat ↔
      is_Some (bm_view b !! u32_of_ipv4 ip) ∨ (size (bm_view b) < bm_cap b)%nat) as Hiff
      by (by rewrite lookup_fmap, fmap_is_Some, map_size_fmap, Hcap).
    rewrite Hv, Hc. split; [done|]. repeat case_decide; try tauto. by rewrite fmap_insert.
  - destruct (ipv4_from_str t) as [ip|]; [|by intros [= <- <-]].
    pose proof (bm_remove_view b (u32_of_ipv4 ip)) as [Hv Hc].
    destruct (bm_remove _ _) as [r m]. intros [= <- <-]. simpl in *.
    by rewrite Hv, Hc, fmap_delete.
  - by intros [= <- <-].
  - by destruct (bm_get st 0); intros [= <- <-].
Qed.

(** A request is answered unless the expiry of its ban panics. *)
Lemma handle_request_total u req (b : MB) (st : MS) :
  handle_request oc u req b st = None →
  request_label u req = FwQuiet.
Proof.
  destruct req as [t ttl|t| |]; simpl.
  - destruct (ipv4_from_str t); [|done]. destruct (ban_end_time oc u ttl); simpl; [|done].
    by destruct (bm_insert _ _ _).
  - destruct (ipv4_from_str t); [|done]. by destruct (bm_remove _ _).
  - done.
  - by destruct (bm_get st 0).
Qed.

Lemma serve_label u stream (b : MB) (st : MS) :
  bm_cap b = fw_capacity → wf_bytes (st_in stream) →
  bm_cap (serve oc u stream b st).2 = fw_capacity ∧
  end_time <$> bm_view (serve oc u stream b st).2 =
    fw_after (end_time <$> bm_view b)
      match request_of stream with Some req => request_label u req | None => FwQuiet end.
Proof.
  intros Hcap Hwf. pose proof (serve_message oc u stream b st Hwf) as Hs. unfold request_of.
  destruct (message (st_in stream)) as [buf|]; [|by rewrite Hs]. cbn [mbind option_bind].
  destruct Hs as (s' & _ & _ & _ & ->). unfold respond.
  destruct (from_slice_request buf) as [req|]; cbn [ok]; [|done].
  destruct (handle_request oc u req b st) as [[resp b']|] eqn:Hh; simpl.
  - by eapply handle_request_label.
  - by rewrite (handle_request_total u req b st Hh).
Qed.

(** ** The transition of the system implements the one of the firewall *)

Lemma event_label_ok s ev :
  (∀ p now a, event_label s ev = FwFrame p now a → a = fw_verdict (fw_of s) p now) ∧
  (∀ ip e, event_label s ev = FwBan ip e → in_u 32 ip ∧ in_u 64 e).
Proof.
  destruct ev as [ctx|stream|d]; simpl; [by split; [intros ? ? ? [= <- <- <-]|]| | done].
  destruct (serving s); [|done]. destruct (request_of stream) as [req|]; [|done].
  split; [by intros ? ? ? ?%request_label_frame | apply request_label_range].
Qed.

Lemma fw_after_capacity m l : (size m ≤ fw_capacity)%nat → (size (fw_after m l) ≤ fw_capacity)%nat.
Proof.
  destruct l as [| |ip|]; simpl; try done.
  - intros Hm. case_decide as Hd; [|done]. destruct (m !! ip) eqn:Hip.
    + rewrite map_size_insert_Some; eauto.
    + rewrite map_size_insert_None by done. destruct Hd as [[? ?]|?]; [done | lia].
  - intros Hm. etrans; [|done]. apply map_subseteq_size, delete_subseteq.
Qed.

Lemma fw_after_bans m l ip e :
  (∀ ip e, l = FwBan ip e → in_u 32 ip ∧ in_u 64 e) →
  (∀ ip e, m !! ip = Some e → in_u 32 ip ∧ in_u 64 e) →
  fw_after m l !! ip = Some e → in_u 32 ip ∧ in_u 64 e.
Proof.
  intros Hl Hm. destruct l; simpl; eauto.
  - case_decide; eauto. intros [[<- <-]|[? ?]]%lookup_insert_Some; eauto.
  - intros [_ ?]%lookup_delete_Some. eauto.
Qed.

(** Bans in a map of the firewall's capacity: not too many, on addresses, with
    64-bit expiries. *)
Record bans_ok (b : MB) : Prop := {
  bans_capacity : bm_cap b = fw_capacity;
  bans_size : (size (bm_view b) ≤ fw_capacity)%nat;
  bans_typed ip v : bm_view b !! ip = Some v → in_u 32 ip ∧ in_u 64 (end_time v);
}.

Lemma bans_ok_after b b' l :
  bans_ok b → bm_cap b' = fw_capacity →
  (∀ ip e, l = FwBan ip e → in_u 32 ip ∧ in_u 64 e) →
  end_time <$> bm_view b' = fw_after (end_time <$> bm_view b) l → bans_ok b'.
Proof.
  intros [_ Hsize Hbans] Hc Hl Hfw. split; [done | |].
  - rewrite <- (map_size_fmap end_time), Hfw. apply fw_after_capacity. by rewrite map_size_fmap.
  - intros ip v Hv. apply (fw_after_bans (end_time <$> bm_view b) l); [done | |].
    + intros ip' e. rewrite lookup_fmap, fmap_Some. intros (v' & ? & ->). eauto.
    + by rewrite <- Hfw, lookup_fmap, Hv.
Qed.

(** The state and the output of a transition. *)
Lemma sys_step_spec s ev :
  sys_ok s → wf_event ev →
  ∃ o s', sys_step oc ev s = Some (o, s') ∧ sys_ok s' ∧
    fw_of s' = fw_after (fw_of s) (event_label s ev) ∧
    match ev with
    | Frame ctx =>
        o = Verdict (fw_verdict (fw_of s) (packet ctx) (as_u64 (ktime s))) ∧
        ktime s' = ktime s ∧ utc s' = utc s ∧ serving s' = serving s
    | Connection _ => ktime s' = ktime s ∧ utc s' = utc s ∧ (serving s = false → s' = s ∧ o = NotServed)
    | Elapse d => ktime s' = ktime s + d ∧ utc s' = utc s + d ∧ serving s' = serving s
    end.
Proof.
  intros Hok Hev. pose proof Hok as [Hcap Hsize Hbans Hst].
  assert (∀ s' l, bm_cap (BANNED_IPS (maps s')) = fw_capacity → bm_view (STATS (maps s')) = ∅ →
    l = event_label s ev → fw_of s' = fw_after (fw_of s) l → sys_ok s') as Hkeep.
  { intros s' l Hc Hs -> Hfw.
    destruct (bans_ok_after (BANNED_IPS (maps s)) (BANNED_IPS (maps s')) (event_label s ev));
      [by split | done | apply event_label_ok | done | by split]. }
  destruct ev as [ctx|stream|d]; cbn [sys_step].
  - rewrite rustguard_filter by done. cbn [mbind option_bind].
    destruct (filter_frame_spec (packet ctx) (as_u64 (ktime s)) (maps s) Hst) as (Hv & Hb & Hs).
    destruct (filter_frame _ _ _) as [a m]. cbn [fst snd] in *.
    eexists _, _. split; [done|]. unfold fw_of, banned. cbn [maps ktime utc serving].
    rewrite Hb. split; [|by rewrite Hv].
    eapply Hkeep; cbn [maps]; [by rewrite Hb | by rewrite Hs | done |].
    unfold fw_of, banned. cbn [maps]. by rewrite Hb.
  - cbn [event_label] in *. destruct (serving s); [|exists NotServed, s; by split_and!].
    pose proof (serve_label (utc_nanos (utc s)) stream _ (STATS (maps s)) Hcap Hev) as [Hc Hl].
    destruct (serve _ _ _ _ _) as [o b']. cbn [snd] in *.
    eexists _, _. split; [done|]. split_and!; try done.
    eapply Hkeep; done.
  - eexists _, _. split; [done|]. by split_and!.
Qed.

Lemma reachable_ok s : reachable s → sys_ok s.
Proof.
  induction 1 as [k u|s ev o s' _ IH Hev Hstep]; [apply sys_ok_init|].
  destruct (sys_step_spec s ev IH Hev) as (o' & s'' & Hs & ? & _). by simplify_eq.
Qed.

(** ** Executions *)

(** The address a request names. *)
Definition req_target (req : DaemonRequest) : option Z :=
  match req with
  | ReqBan t _ | ReqUnban t => u32_of_ipv4 <$> ok (ipv4_from_str t)
  | ReqList | ReqStats => None
  end.

(** The address a connection's request names. *)
Definition target_of (stream : T) : option Z := request_of stream ≫= req_target.

(** No event bans or unbans [ip]. *)
Definition leaves (ip : Z) (ev : sys_event T) : Prop :=
  match ev with Connection stream => target_of stream ≠ Some ip | _ => True end.

(** The time an execution takes. *)
Definition elapsed (evs : list (sys_event T)) : Z :=
  foldr (λ ev n, match ev with Elapse d => d + n | _ => n end) 0 evs.

(** A request leaves the bans of the addresses it does not name. *)
Lemma request_label_leaves m u req ip :
  req_target req ≠ Some ip → fw_after m (request_label u req) !! ip = m !! ip.
Proof.
  destruct req as [t ttl|t| |]; simpl; try done; destruct (ipv4_from_str t) as [a|]; simpl; try done;
    intros Hne.
  - destruct (ban_end_time _ _ _); simpl; [|done]. case_decide; [|done].
    apply lookup_insert_ne. congruence.
  - apply lookup_delete_ne. congruence.
Qed.

Lemma event_label_leaves s ev ip :
  leaves ip ev → fw_after (fw_of s) (event_label s ev) !! ip = fw_of s !! ip.
Proof.
  destruct ev as [ctx|stream|d]; simpl; [done| |done]. destruct (serving s); [|done].
  unfold target_of. destruct (request_of stream) as [req|]; simpl; [|done].
  apply request_label_leaves.
Qed.

Lemma sys_run_cons ev evs s o s1 :
  sys_step oc ev s = Some (o, s1) →
  sys_run oc (ev :: evs) s = '(os, s2) ← sys_run oc evs s1; Some (o :: os, s2).
Proof. intros Hs. simpl. by rewrite Hs. Qed.

Lemma sys_run_app evs1 evs2 s os1 s1 :
  sys_run oc evs1 s = Some (os1, s1) →
  sys_run oc (evs1 ++ evs2) s = '(os2, s2) ← sys_run oc evs2 s1; Some (os1 ++ os2, s2).
Proof.
  revert s os1. induction evs1 as [|ev evs1 IH]; simpl; intros s os1 Hr; simplify_eq/=.
  - by destruct (sys_run oc evs2 s1) as [[? ?]|].
  - destruct (sys_step oc ev s) as [[o s']|]; simplify_eq/=.
    destruct (sys_run oc evs1 s') as [[os ?]|] eqn:Hs'; simplify_eq/=.
    rewrite (IH _ _ Hs'). by destruct (sys_run oc evs2 s1) as [[? ?]|].
Qed.

(** An execution runs to its end, takes its time and keeps what it leaves. *)
Lemma sys_run_spec evs s :
  sys_ok s → Forall wf_event evs →
  ∃ os s', sys_run oc evs s = Some (os, s') ∧ sys_ok s' ∧ length os = length evs ∧
    ktime s' = ktime s + elapsed evs ∧ utc s' = utc s + elapsed evs ∧
    ∀ ip, Forall (leaves ip) evs → fw_of s' !! ip = fw_of s !! ip.
Proof.
  intros Hok Hwf. revert s Hok. induction Hwf as [|ev evs Hev _ IH]; intros s Hok.
  { exists [], s. simpl. by split_and!; lia || done. }
  destruct (sys_step_spec s ev Hok Hev) as (o & s1 & Hs & Hok1 & Hfw & Hout).
  destruct (IH s1 Hok1) as (os & s2 & Hr & Hok2 & Hlen & Hk & Hu & Hl).
  exists (o :: os), s2. rewrite (sys_run_cons _ _ _ _ _ Hs), Hr. split_and!; try done; simpl.
  - by rewrite Hlen.
  - destruct ev; simpl in *; lia.
  - destruct ev; simpl in *; lia.
  - intros ip [Hev' Hevs]%Forall_cons. rewrite Hl, Hfw by done. by apply event_label_leaves.
Qed.

(** The verdict on a segment of [ip] after an execution that leaves [ip]. *)
Lemma run_then_frame s evs ctx ip port :
  sys_ok s → Forall wf_event evs → Forall (leaves ip) evs → wf_ctx ctx →
  parse_frame (packet ctx) = Segment ip port →
  ∃ os s', sys_run oc (evs ++ [Frame ctx]) s = Some (os, s') ∧
    last os = Some (Verdict
      match fw_of s !! ip with
      | Some e => if decide (e = 0 ∨ as_u64 (ktime s + elapsed evs) ≤ e) then XDP_DROP else XDP_PASS
      | None => XDP_PASS
      end).
Proof.
  intros Hok Hwf Hl Hctx Hp.
  destruct (sys_run_spec evs s Hok Hwf) as (os & s1 & Hr & Hok1 & _ & Hk & _ & Hfw).
  destruct (sys_step_spec s1 (Frame ctx) Hok1 Hctx) as (o & s2 & Hs & _ & _ & -> & _).
  exists (os ++ [Verdict (fw_verdict (fw_of s1) (packet ctx) (as_u64 (ktime s1)))]), s2.
  rewrite (sys_run_app _ _ _ _ _ Hr), (sys_run_cons _ _ _ _ _ Hs). split; [done|].
  rewrite last_snoc. do 2 f_equal. unfold fw_verdict. by rewrite Hp, Hfw, Hk by done.
Qed.

(** After the turn that serves a request, the firewall has taken its step. *)
Lemma request_served s stream req :
  sys_ok s → serving s = true → wf_bytes (st_in stream) → request_of stream = Some req →
  ∃ o s1, sys_step oc (Connection stream) s = Some (o, s1) ∧ sys_ok s1 ∧
    ktime s1 = ktime s ∧ utc s1 = utc s ∧
    fw_of s1 = fw_after (fw_of s) (request_label (utc_nanos (utc s)) req).
Proof.
  intros Hok Hserving Hwf Hreq.
  destruct (sys_step_spec s (Connection stream) Hok Hwf) as (o & s1 & Hs & Hok1 & Hfw & Hk & Hu & _).
  exists o, s1. split_and!; try done. rewrite Hfw. cbn [event_label]. by rewrite Hserving, Hreq.
Qed.

(** The verdict on a segment, some time after a request was served. *)
Lemma request_then_frame s stream req evs ctx ip port :
  sys_ok s → serving s = true → wf_bytes (st_in stream) → request_of stream = Some req →
  Forall wf_event evs → Forall (leaves ip) evs → wf_ctx ctx →
  parse_frame (packet ctx) = Segment ip port →
  ∃ os s', sys_run oc (Connection stream :: evs ++ [Frame ctx]) s = Some (os, s') ∧
    last os = Some (Verdict
      match fw_after (fw_of s) (request_label (utc_nanos (utc s)) req) !! ip with
      | Some e => if decide (e = 0 ∨ as_u64 (ktime s + elapsed evs) ≤ e) then XDP_DROP else XDP_PASS
      | None => XDP_PASS
      end).
Proof.
  intros Hok Hserving Hwf Hreq Hevs Hl Hctx Hp.
  destruct (request_served s stream req Hok Hserving Hwf Hreq) as (o & s1 & Hs & Hok1 & Hk & _ & Hfw).
  destruct (run_then_frame s1 evs ctx ip port Hok1 Hevs Hl Hctx Hp) as (os & s' & Hr & Hlast).
  exists (o :: os), s'. rewrite (sys_run_cons _ _ _ _ _ Hs), Hr. split; [done|].
  rewrite last_cons, Hlast, Hfw, Hk. done.
Qed.
End proofs.
