(* ===== verification/Concrete.v ===== *)
(** * Concrete inputs

    Frames, connections and sockets on which the theorems are applied: their
    hypotheses hold there, with the reference implementations of the interfaces
    (maps [khash], ring buffers [kring], streams [pipe], messages [json_serde],
    headers [rfc_headers]). *)

From S2P Require Export Serde System.

Abbreviation state_demo := (SysState (khash BanValue) (khash StatsValue)).
Abbreviation event_demo := (sys_event pipe).

(** An Ethernet frame with an IPv4 header of protocol [proto] from [src] and the
    20 bytes after it. *)
Definition frame_demo (proto : Z) (src : bytes) : bytes :=
  replicate 12 0 ++ [8; 0] ++ [69; 0; 0; 40; 0; 0; 0; 0; 64; proto; 0; 0] ++ src ++
  [10; 0; 0; 1] ++ [4; 210] ++ replicate 18 0.

Definition ctx_demo (proto : Z) (src : bytes) : XdpContext :=
  {| data := 4096; packet := frame_demo proto src |}.

(** A connection whose peer has sent these bytes, reads, and keeps it open. *)
Definition open_pipe (l : bytes) : pipe :=
  {| p_in := l; p_closed := false; p_out := []; p_writable := true |}.
(** The same, after the peer has closed its sending side. *)
Definition closed_pipe (l : bytes) : pipe :=
  {| p_in := l; p_closed := true; p_out := []; p_writable := true |}.

Definition request_demo (r : DaemonRequest) : pipe := open_pipe (frame_bytes (request_text r)).

(** The start of the system, ten seconds after boot. *)
Definition boot_demo : state_demo := sys_init 10000000000 1700000000000000000.

(** Close a decidable side condition on concrete data. *)
Ltac concrete := apply (bool_decide_unpack _); vm_compute; exact I.

Lemma boot_demo_reachable oc : reachable (T := pipe) oc boot_demo.
Proof. exact (reachable_init (T := pipe) oc 10000000000 1700000000000000000). Qed.

Lemma ctx_demo_wf proto src : length src = 4%nat → wf_ctx (ctx_demo proto src).
Proof.
  intros Hl. unfold wf_ctx, data_end, ctx_demo, frame_demo. cbn [data packet].
  rewrite !length_app, Hl. simpl. lia.
Qed.

Lemma request_of_demo r : wf_request r → Z.of_nat (length (request_text r)) < 2 ^ 32 →
  request_of (request_demo r) = Some r ∧ wf_bytes (st_in (request_demo r)).
Proof.
  intros Hr Hlen. destruct (request_roundtrip r Hr) as (b & Hb & Hd & Hw & _).
  assert (b = request_text r) as -> by (cbn [to_vec_request json_serde] in Hb; congruence).
  unfold request_of. cbn [st_in pipe_TokioStreamSpec p_in request_demo open_pipe].
  rewrite <- (app_nil_r (frame_bytes _)) at 1. rewrite message_frame by done.
  cbn [mbind option_bind]. split; [by rewrite Hd|].
  apply Forall_app. split; [|done]. apply wf_to_be_bytes. lia.
Qed.

(** The side conditions of a theorem on the demonstration inputs. *)
Ltac demo :=
  first [done | apply boot_demo_reachable | by apply ctx_demo_wf | concrete | right; concrete
        | by repeat constructor].
