(* ===== verification/Concurrent.v ===== *)
(** * Interleavings: the filter on several CPUs and the daemon, step by step

    [System] takes a run of the filter and a turn of the daemon as one step each.
    Here both are cut at their accesses to shared state.  A CPU runs the filter on
    a frame from program counter to program counter ([filter_step]), the daemon
    goes through its turn from [.await] to [.await] ([daemon_step]), and
    [c_step] interleaves them in any order over the shared maps and clocks.  An
    entry found in [BANNED_IPS] is read as it was at the lookup; the counter in
    [STATS] is loaded and stored through its pointer, in two steps. *)

From S2P Require Export System.

(** ** A run of the filter *)

(** Where the filter is, with its local variables. *)
Inductive filter_pc :=
| PStart
| PClock (src_addr source_port : Z)              (* next: bpf_ktime_get_ns() *)
| PLookup (src_addr source_port now : Z)         (* next: BANNED_IPS.get_ptr *)
| PTest (src_addr source_port now : Z) (ban : BanValue)
| PStat (src_addr source_port : Z)               (* next: STATS.get_ptr_mut *)
| PLoad (src_addr source_port : Z)               (* next: the load of the counter *)
| PStore (src_addr source_port packets_dropped : Z)
| PLog (src_addr source_port : Z)
| PDone (a : xdp_action).
#[export] Instance filter_pc_eq_dec : EqDecision filter_pc.
Proof. assert (EqDecision BanValue) by solve_decision. solve_decision. Defined.

Section concurrent.
Context `{NetworkTypes} `{BpfHashMap MB BanValue} `{BpfHashMap MS StatsValue}.
Context `{SerdeJson} `{TokioStream T}.
Variable oc : bool.

(** One step on a CPU; [None] is a faulting read, or an access through a pointer
    to a counter that is gone. *)
Definition filter_step (ctx : XdpContext) (ktime : Z) (p : filter_pc) (st : XdpState MB MS) :
    option (filter_pc * XdpState MB MS) :=
  match p with
  | PStart =>
      h ← headers ctx;
      Some (match h with
            | inl (Ok ret) => PDone ret
            | inl (Err _) => PDone XDP_ABORTED
            | inr (src, port) => PClock src port
            end, st)
  | PClock src port => Some (PLookup src port (as_u64 ktime), st)
  | PLookup src port now =>
      Some (match bm_get (BANNED_IPS st) src with
            | Some ban => PTest src port now ban
            | None => PDone XDP_PASS
            end, st)
  | PTest src port now ban =>
      Some (if (end_time ban =? 0) || (now <=? end_time ban) then PStat src port else PDone XDP_PASS,
            st)
  | PStat src port =>
      Some (match bm_get (STATS st) 0 with Some _ => PLoad src port | None => PLog src port end, st)
  | PLoad src port =>
      stat ← bm_get (STATS st) 0; Some (PStore src port (packets_dropped stat), st)
  | PStore src port v =>
      _ ← bm_get (STATS st) 0;
      Some (PLog src port,
            {| BANNED_IPS := BANNED_IPS st;
               STATS := bm_store (STATS st) 0 {| packets_dropped := as_u64 (v + 1) |};
               xdp_log := xdp_log st |})
  | PLog src port =>
      Some (PDone XDP_DROP,
            {| BANNED_IPS := BANNED_IPS st; STATS := STATS st;
               xdp_log := xdp_log st ++ [(src, port)] |})
  | PDone a => Some (PDone a, st)
  end.

(** ** A turn of the daemon *)

(** The point of [run_daemon]'s loop that the task waits at. *)
Inductive daemon_pc :=
| DReadLen (stream : T)
| DReadBody (len : Z) (stream : T)
| DHandle (buf : bytes) (stream : T)
| DWriteLen (resp_bytes : bytes) (stream : T)
| DWriteBody (resp_bytes : bytes) (stream : T)
| DFlush (stream : T)
| DEnd (o : served (T := T)).

(** After an [.await]: it never completes, fails and goes to the next turn, or
    goes on. *)
Definition await {A} (r : option (result A (IoError T))) (k : A → daemon_pc) : daemon_pc :=
  match r with
  | None => DEnd Blocked
  | Some (Err _) => DEnd (Next None)
  | Some (Ok a) => k a
  end.

Definition daemon_step (utc : option Z) (p : daemon_pc) (banned_ips : MB) (stats : MS) :
    daemon_pc * MB :=
  match p with
  | DReadLen stream =>
      (await (read_u32 stream) (λ '(len, stream), DReadBody len stream), banned_ips)
  | DReadBody len stream =>
      (await (read_exact stream len) (λ '(buf, stream), DHandle buf stream), banned_ips)
  | DHandle buf stream =>
      match respond oc utc buf banned_ips stats with
      | None => (DEnd Panicked, banned_ips)
      | Some (resp, banned_ips) =>
          (match to_vec_response resp with
           | Err _ => DEnd Panicked
           | Ok resp_bytes => DWriteLen resp_bytes stream
           end, banned_ips)
      end
  | DWriteLen resp_bytes stream =>
      (await (write_u32 stream (as_u32 (Z.of_nat (length resp_bytes)))) (DWriteBody resp_bytes),
       banned_ips)
  | DWriteBody resp_bytes stream => (await (write_all stream resp_bytes) DFlush, banned_ips)
  | DFlush stream => (await (flush stream) (λ stream, DEnd (Next (Some stream))), banned_ips)
  | DEnd o => (DEnd o, banned_ips)
  end.

(** ** The system *)

(** The maps, the clocks, the frame and the program counter of each busy CPU, and
    the daemon. *)
Record CState := {
  c_maps : XdpState MB MS;
  c_ktime : Z;
  c_utc : Z;
  c_cpus : gmap nat (XdpContext * filter_pc);
  c_daemon : daemon_pc;
}.

Inductive c_event :=
| Receive (cpu : nat) (ctx : XdpContext)     (* a frame arrives on an idle CPU *)
| Cpu (cpu : nat)                            (* the filter takes a step, or returns *)
| Accept (stream : T)                        (* the accept loop takes a connection *)
| Turn                                       (* the daemon takes a step *)
| Tick (d : Z).                              (* time passes *)

(** The frame and its verdict when the event is the return of a filter. [None]: the
    event cannot happen, or faults. *)
Definition c_step (ev : c_event) (s : CState) : option (option (XdpContext * xdp_action) * CState) :=
  match ev with
  | Receive cpu ctx =>
      match c_cpus s !! cpu with
      | Some _ => None
      | None =>
          Some (None, {| c_maps := c_maps s; c_ktime := c_ktime s; c_utc := c_utc s;
                         c_cpus := <[cpu:=(ctx, PStart)]> (c_cpus s); c_daemon := c_daemon s |})
      end
  | Cpu cpu =>
      '(ctx, p) ← c_cpus s !! cpu;
      match p with
      | PDone a =>
          Some (Some (ctx, a),
                {| c_maps := c_maps s; c_ktime := c_ktime s; c_utc := c_utc s;
                   c_cpus := delete cpu (c_cpus s); c_daemon := c_daemon s |})
      | _ =>
          '(p, m) ← filter_step ctx (c_ktime s) p (c_maps s);
          Some (None, {| c_maps := m; c_ktime := c_ktime s; c_utc := c_utc s;
                         c_cpus := <[cpu:=(ctx, p)]> (c_cpus s); c_daemon := c_daemon s |})
      end
  | Accept stream =>
      match c_daemon s with
      | DEnd (Next _) =>
          Some (None, {| c_maps := c_maps s; c_ktime := c_ktime s; c_utc := c_utc s;
                         c_cpus := c_cpus s; c_daemon := DReadLen stream |})
      | _ => None
      end
  | Turn =>
      match c_daemon s with
      | DEnd _ => None
      | p =>
          let '(p, b) :=
            daemon_step (utc_nanos (c_utc s)) p (BANNED_IPS (c_maps s)) (STATS (c_maps s)) in
          Some (None, {| c_maps := with_banned (c_maps s) b; c_ktime := c_ktime s; c_utc := c_utc s;
                         c_cpus := c_cpus s; c_daemon := p |})
      end
  | Tick d =>
      Some (None, {| c_maps := c_maps s; c_ktime := c_ktime s + d; c_utc := c_utc s + d;
                     c_cpus := c_cpus s; c_daemon := c_daemon s |})
  end.

(** The step relation. *)
Definition with_cpus (s : CState) (cpus : gmap nat (XdpContext * filter_pc)) (m : XdpState MB MS) :
    CState :=
  {| c_maps := m; c_ktime := c_ktime s; c_utc := c_utc s; c_cpus := cpus; c_daemon := c_daemon s |}.
Definition with_daemon (s : CState) (p : daemon_pc) (m : XdpState MB MS) : CState :=
  {| c_maps := m; c_ktime := c_ktime s; c_utc := c_utc s; c_cpus := c_cpus s; c_daemon := p |}.
Definition with_time (s : CState) (d : Z) : CState :=
  {| c_maps := c_maps s; c_ktime := c_ktime s + d; c_utc := c_utc s + d; c_cpus := c_cpus s;
     c_daemon := c_daemon s |}.

Inductive c_trans (s : CState) : c_event → option (XdpContext * xdp_action) → CState → Prop :=
| t_receive cpu ctx :
    c_cpus s !! cpu = None →
    c_trans s (Receive cpu ctx) None (with_cpus s (<[cpu:=(ctx, PStart)]> (c_cpus s)) (c_maps s))
| t_filter cpu ctx p p' m' :
    c_cpus s !! cpu = Some (ctx, p) → (∀ a, p ≠ PDone a) →
    filter_step ctx (c_ktime s) p (c_maps s) = Some (p', m') →
    c_trans s (Cpu cpu) None (with_cpus s (<[cpu:=(ctx, p')]> (c_cpus s)) m')
| t_return cpu ctx a :
    c_cpus s !! cpu = Some (ctx, PDone a) →
    c_trans s (Cpu cpu) (Some (ctx, a)) (with_cpus s (delete cpu (c_cpus s)) (c_maps s))
| t_accept stream sent :
    c_daemon s = DEnd (Next sent) →
    c_trans s (Accept stream) None (with_daemon s (DReadLen stream) (c_maps s))
| t_turn p' b' :
    (∀ o, c_daemon s ≠ DEnd o) →
    daemon_step (utc_nanos (c_utc s)) (c_daemon s) (BANNED_IPS (c_maps s)) (STATS (c_maps s)) =
      (p', b') →
    c_trans s Turn None (with_daemon s p' (with_banned (c_maps s) b'))
| t_tick d : c_trans s (Tick d) None (with_time s d).

(** An execution, with the frames returned and their verdicts in order. *)
Fixpoint c_run (evs : list c_event) (s : CState) : option (list (XdpContext * xdp_action) * CState) :=
  match evs with
  | [] => Some ([], s)
  | ev :: evs =>
      '(o, s) ← c_step ev s; '(os, s) ← c_run evs s; Some (option_list o ++ os, s)
  end.

Definition c_init (ktime utc : Z) : CState :=
  {| c_maps := xdp_init; c_ktime := ktime; c_utc := utc; c_cpus := ∅;
     c_daemon := DEnd (Next None) |}.

(** A filter and a turn left alone, for at most [fuel] steps. *)
Fixpoint filter_alone (fuel : nat) (ctx : XdpContext) (ktime : Z) (p : filter_pc)
    (st : XdpState MB MS) : option (xdp_action * XdpState MB MS) :=
  match p, fuel with
  | PDone a, _ => Some (a, st)
  | _, O => None
  | _, S fuel => '(p, st) ← filter_step ctx ktime p st; filter_alone fuel ctx ktime p st
  end.

Fixpoint turn_alone (fuel : nat) (utc : option Z) (p : daemon_pc) (banned_ips : MB) (stats : MS) :
    option (served (T := T) * MB) :=
  match p, fuel with
  | DEnd o, _ => Some (o, banned_ips)
  | _, O => None
  | _, S fuel =>
      let '(p, banned_ips) := daemon_step utc p banned_ips stats in
      turn_alone fuel utc p banned_ips stats
  end.
End concurrent.

Arguments daemon_pc T : clear implicits.
Arguments CState MB MS T : clear implicits.
Arguments c_event T : clear implicits.
Arguments Receive {T} cpu ctx.
Arguments Cpu {T} cpu.
Arguments Accept {T} stream.
Arguments Turn {T}.
Arguments Tick {T} d.
Arguments DReadLen {T} stream.
Arguments DReadBody {T} len stream.
Arguments DHandle {T} buf stream.
Arguments DWriteLen {T} resp_bytes stream.
Arguments DWriteBody {T} resp_bytes stream.
Arguments DFlush {T} stream.
Arguments DEnd {T} o.
Arguments with_cpus {MB MS T} s cpus m.
Arguments with_daemon {MB MS T} s p m.
Arguments with_time {MB MS T} s d.
Arguments c_maps {MB MS T} _.
Arguments c_ktime {MB MS T} _.
Arguments c_utc {MB MS T} _.
Arguments c_cpus {MB MS T} _.
Arguments c_daemon {MB MS T} _.

(** ** The invariant *)

Section invariant.
Context `{NetworkTypesSpec} `{BpfHashMapSpec MB BanValue} `{BpfHashMapSpec MS StatsValue}.
Context `{SerdeJsonSpec} `{TokioStreamSpec T}.
Variable oc : bool.
Implicit Types (s : CState MB MS T) (m : XdpState MB MS).

(** A frame in memory. *)
Definition wf_frame (ctx : XdpContext) : Prop := wf_ctx ctx ∧ wf_bytes (packet ctx).

Definition c_wf_event (ev : c_event T) : Prop :=
  match ev with
  | Receive _ ctx => wf_frame ctx
  | Accept stream => wf_bytes (st_in stream)
  | Cpu _ | Turn => True
  | Tick d => 0 ≤ d
  end.

(** The local variables of a filter on the frame [l]: the address and the port are
    the frame's, the integers have their width, and the counter it points to is
    there; a verdict is one that the frame can have. *)
Definition pc_ok (stats : gmap Z StatsValue) (l : bytes) (p : filter_pc) : Prop :=
  match p with
  | PStart => True
  | PClock src port | PStat src port | PLog src port => parse_frame l = Segment src port
  | PLookup src port now => parse_frame l = Segment src port ∧ in_u 64 now
  | PTest src port now ban =>
      parse_frame l = Segment src port ∧ in_u 64 now ∧ in_u 64 (end_time ban)
  | PLoad src port => parse_frame l = Segment src port ∧ is_Some (stats !! 0)
  | PStore src port v => parse_frame l = Segment src port ∧ is_Some (stats !! 0) ∧ in_u 64 v
  | PDone a =>
      match parse_frame l with
      | Malformed => a = XDP_ABORTED
      | NotIpv4 => a = XDP_PASS
      | Segment _ _ => a ≠ XDP_ABORTED
      end
  end.

Definition daemon_ok (p : daemon_pc T) : Prop :=
  match p with
  | DReadLen stream => wf_bytes (st_in stream)
  | DReadBody len stream => in_u 32 len ∧ wf_bytes (st_in stream)
  | DHandle buf _ => wf_bytes buf
  | DWriteLen b _ | DWriteBody b _ => wf_bytes b
  | DFlush _ | DEnd _ => True
  end.

Record maps_ok m : Prop := {
  maps_bans : bans_ok (BANNED_IPS m);
  maps_stats k v : bm_view (STATS m) !! k = Some v → in_u 64 (packets_dropped v);
  maps_log : Forall (λ '(src, port), in_u 32 src ∧ in_u 16 port) (xdp_log m);
}.

Record c_ok s : Prop := {
  ok_maps : maps_ok (c_maps s);
  ok_cpus cpu ctx p :
    c_cpus s !! cpu = Some (ctx, p) →
    wf_frame ctx ∧ pc_ok (bm_view (STATS (c_maps s))) (packet ctx) p;
  ok_daemon : daemon_ok (c_daemon s);
}.

(** What the firewall sees of a step: a filter decides when it has read the headers
    of a frame that names no address, and when it looks its address up; the daemon
    changes the bans when it handles a request. *)
Definition filter_label (m : firewall) (l : bytes) (k : Z) (p : filter_pc) : fw_label :=
  match p with
  | PStart =>
      match parse_frame l with
      | Segment _ _ => FwQuiet
      | _ => FwFrame l (as_u64 k) (fw_verdict m l (as_u64 k))
      end
  | PLookup _ _ now => FwFrame l now (fw_verdict m l now)
  | _ => FwQuiet
  end.

Definition daemon_label (u : option Z) (p : daemon_pc T) : fw_label :=
  match p with
  | DHandle buf _ =>
      match from_slice_request buf with Ok req => request_label oc u req | Err _ => FwQuiet end
  | _ => FwQuiet
  end.

Definition c_fw s : firewall := end_time <$> bm_view (BANNED_IPS (c_maps s)).

Definition c_label (ev : c_event T) s : fw_label :=
  match ev with
  | Cpu cpu =>
      match c_cpus s !! cpu with
      | Some (ctx, p) => filter_label (c_fw s) (packet ctx) (c_ktime s) p
      | None => FwQuiet
      end
  | Turn => daemon_label (utc_nanos (c_utc s)) (c_daemon s)
  | Receive _ _ | Accept _ | Tick _ => FwQuiet
  end.

(** The labels of an execution. *)
Fixpoint c_labels (evs : list (c_event T)) s : list fw_label :=
  match evs with
  | [] => []
  | ev :: evs =>
      c_label ev s :: match c_step oc ev s with Some (_, s) => c_labels evs s | None => [] end
  end.

(** The verdict a filter has decided on, and which it will return. *)
Definition decided (p : filter_pc) : option xdp_action :=
  match p with
  | PStart | PClock _ _ | PLookup _ _ _ => None
  | PTest _ _ now ban => Some (if ban_active now ban then XDP_DROP else XDP_PASS)
  | PStat _ _ | PLoad _ _ | PStore _ _ _ | PLog _ _ => Some XDP_DROP
  | PDone a => Some a
  end.

Definition frame_of (l : fw_label) : option (bytes * xdp_action) :=
  match l with FwFrame l _ a => Some (l, a) | _ => None end.

Lemma pc_ok_mono st st' l p :
  (is_Some (st !! 0) → is_Some (st' !! 0)) → pc_ok st l p → pc_ok st' l p.
Proof. destruct p; simpl; tauto. Qed.

Lemma ban_active_test now ban :
  (end_time ban =? 0) || (now <=? end_time ban) = ban_active now ban.
Proof.
  unfold ban_active. destruct (Z.eqb_spec (end_time ban) 0), (Z.leb_spec now (end_time ban));
    simpl; case_bool_decide; done || lia.
Qed.

(** ** A step of a filter *)

Lemma filter_step_ok ctx k p m :
  maps_ok m → wf_frame ctx → pc_ok (bm_view (STATS m)) (packet ctx) p →
  ∃ p' m', filter_step ctx k p m = Some (p', m') ∧ maps_ok m' ∧
    BANNED_IPS m' = BANNED_IPS m ∧
    (∀ i, is_Some (bm_view (STATS m') !! i) ↔ is_Some (bm_view (STATS m) !! i)) ∧
    pc_ok (bm_view (STATS m')) (packet ctx) p' ∧
    decided p' =
      match frame_of (filter_label (end_time <$> bm_view (BANNED_IPS m)) (packet ctx) k p) with
      | Some (_, a) => Some a
      | None => decided p
      end.
Proof.
  intros Hm [Hctx Hwf] Hp. pose proof Hm as [Hb Hs Hl].
  destruct p as [|src port|src port now|src port now ban|src port|src port|src port v|src port|a];
    cbn [filter_step pc_ok] in *.
  - rewrite headers_spec by done. cbn [mbind option_bind]. eexists _, _. split; [done|].
    cbn [filter_label]. unfold fw_verdict.
    by destruct (parse_frame (packet ctx)) as [| |src port] eqn:Hp'; simpl; rewrite ?Hp'.
  - eexists _, _. split; [done|]. split_and!; try done.
    simpl. split; [done | apply wrap_range; lia].
  - destruct Hp as [Hp Hn]. eexists _, _. split; [done|]. cbn [filter_label]. unfold fw_verdict.
    rewrite Hp, lookup_fmap, bm_get_spec.
    destruct (bm_view (BANNED_IPS m) !! src) as [ban|] eqn:Hban; simpl; rewrite ?Hp; [|done].
    split_and!; try done; [by eapply bans_typed|]. unfold ban_active.
    by case_bool_decide; case_decide.
  - destruct Hp as (Hp & _). eexists _, _. split; [done|]. rewrite ban_active_test.
    cbn [filter_label frame_of decided]. by destruct (ban_active now ban); simpl; rewrite ?Hp.
  - eexists _, _. split; [done|]. rewrite bm_get_spec. by destruct (bm_view (STATS m) !! 0) eqn:Hc.
  - destruct Hp as [Hp [v Hv]]. rewrite bm_get_spec, Hv. eexists _, _. split; [done|].
    split_and!; try done. simpl. rewrite Hv. split_and!; [done | eauto | by eapply Hs].
  - destruct Hp as (Hp & Hc & Hv). pose proof Hc as [w Hw]. rewrite bm_get_spec, Hw.
    cbn [mbind option_bind]. eexists _, _. split; [done|].
    destruct (bm_store_spec (STATS m) 0 {| packets_dropped := as_u64 (v + 1) |} Hc) as [Hst _].
    split_and!; try done; simpl.
    + split; simpl; [done | | done]. intros i x. rewrite Hst.
      intros [[<- <-]|[_ Hi]]%lookup_insert_Some; [apply wrap_range; lia | by eapply Hs].
    + intros i. rewrite Hst. destruct (decide (i = 0)) as [->|Hi];
        [by rewrite lookup_insert_eq | by rewrite lookup_insert_ne].
  - eexists _, _. split; [done|]. split_and!; try done.
    + split; simpl; [done..|]. apply Forall_app. split; [done|]. constructor; [|constructor].
      by eapply parse_frame_range.
    + simpl. by rewrite Hp.
  - eexists _, _. by split.
Qed.

(** ** A step of the daemon *)

Lemma await_ok {A} (r : option (result A (IoError T))) k :
  (∀ a, r = Some (Ok a) → daemon_ok (k a)) → daemon_ok (await r k).
Proof. intros Hk. destruct r as [[a|]|]; [by apply Hk | done..]. Qed.

Lemma respond_label u buf (b : MB) (st : MS) stream :
  bm_cap b = fw_capacity →
  let b' := match respond oc u buf b st with Some (_, b) => b | None => b end in
  bm_cap b' = fw_capacity ∧
  end_time <$> bm_view b' = fw_after (end_time <$> bm_view b) (daemon_label u (DHandle buf stream)).
Proof.
  intros Hc. unfold respond. cbn [daemon_label].
  destruct (from_slice_request buf) as [req|]; [|done].
  destruct (handle_request oc u req b st) as [[resp b']|] eqn:Hh; [by eapply handle_request_label|].
  by rewrite (handle_request_total oc u req b st Hh).
Qed.

Lemma daemon_step_ok u p (b : MB) (st : MS) :
  bm_cap b = fw_capacity → daemon_ok p →
  daemon_ok (daemon_step oc u p b st).1 ∧ bm_cap (daemon_step oc u p b st).2 = fw_capacity ∧
  end_time <$> bm_view (daemon_step oc u p b st).2 =
    fw_after (end_time <$> bm_view b) (daemon_label u p).
Proof.
  intros Hc Hp. destruct p as [stream|len stream|buf stream|l stream|l stream|stream|o];
    cbn [daemon_step daemon_ok daemon_label fst snd] in *.
  - split; [|done]. apply await_ok. intros [len s'] Hr.
    destruct (decide (4 ≤ length (st_in stream))%nat) as [Hl|Hl].
    + destruct (read_u32_ok stream Hl) as (s'' & Hr' & Hi & _). rewrite Hr in Hr'. simplify_eq.
      simpl. rewrite Hi. split; [|by apply Forall_drop].
      pose proof (from_be_bytes_range (take 4 (st_in stream)) (Forall_take _ _ _ Hp)) as Hrange.
      by rewrite length_take_le in Hrange.
    + pose proof (read_u32_short stream ltac:(lia)) as Hr'. rewrite Hr in Hr'.
      destruct (st_closed stream); [by destruct Hr' as [e ?] | done].
  - destruct Hp as [Hlen Hwf]. split; [|done]. apply await_ok. intros [buf s'] Hr.
    destruct (decide (len ≤ Z.of_nat (length (st_in stream)))) as [Hl|Hl].
    + destruct (read_exact_ok stream len) as (s'' & Hr' & _); [unfold in_u in Hlen; lia|]. rewrite Hr in Hr'. simplify_eq.
      by apply Forall_take.
    + pose proof (read_exact_short stream len (proj1 (Z.nle_gt _ _) Hl)) as Hr'. rewrite Hr in Hr'.
      destruct (st_closed stream); [by destruct Hr' as [e ?] | done].
  - destruct (respond_label u buf b st stream Hc) as [Hc' Hfw]. cbn [daemon_label] in Hfw.
    destruct (respond oc u buf b st) as [[resp b']|]; [|done]. simpl. split; [|done].
    destruct (response_roundtrip resp) as (l & -> & _ & Hl & _). done.
  - split; [|done]. by apply await_ok.
  - split; [|done]. by apply await_ok.
  - split; [|done]. by apply await_ok.
  - done.
Qed.

Lemma daemon_label_range u p ip e : daemon_label u p = FwBan ip e → in_u 32 ip ∧ in_u 64 e.
Proof.
  destruct p; simpl; try done. destruct (from_slice_request buf); [apply request_label_range | done].
Qed.

Lemma daemon_label_frame u p : frame_of (daemon_label u p) = None.
Proof.
  destruct p; simpl; try done. destruct (from_slice_request buf) as [req|]; [|done].
  destruct (request_label oc u req) eqn:Hl; try done. by apply request_label_frame in Hl.
Qed.
(** ** A step of the system *)

(** The function and the relation agree. *)
Lemma c_step_trans s ev o s' : c_step oc ev s = Some (o, s') ↔ c_trans oc s ev o s'.
Proof.
  split.
  - destruct ev as [cpu ctx|cpu|stream| |d]; cbn [c_step].
    + destruct (c_cpus s !! cpu) eqn:Hc; [done|]. intros [= <- <-]. by constructor.
    + destruct (c_cpus s !! cpu) as [[ctx p]|] eqn:Hc; [|done]. cbn [mbind option_bind].
      destruct p; try (destruct (filter_step _ _ _ _) as [[p' m']|] eqn:Hf; [|done]);
        intros [= <- <-]; by econstructor.
    + destruct (c_daemon s) as [| | | | | |[| |sent]] eqn:Hd; try done. intros [= <- <-]. by econstructor.
    + destruct (c_daemon s) eqn:Hd; try done; destruct (daemon_step _ _ _ _ _) as [p' b'] eqn:Hp;
        intros [= <- <-]; constructor; by rewrite Hd.
    + intros [= <- <-]. constructor.
  - intros [cpu ctx Hc|cpu ctx p p' m' Hc Hp Hf|cpu ctx a Hc|stream sent Hd|p' b' Hne Hp|d];
      cbn [c_step]; rewrite ?Hc, ?Hd; cbn [mbind option_bind]; try done.
    + by destruct p; rewrite ?Hf; try destruct (Hp a).
    + destruct (c_daemon s) eqn:Hd; try rewrite Hp; try done. by destruct (Hne o0).
Qed.

Lemma c_label_ok s ev :
  (∀ l now a, c_label ev s = FwFrame l now a → a = fw_verdict (c_fw s) l now) ∧
  (∀ ip e, c_label ev s = FwBan ip e → in_u 32 ip ∧ in_u 64 e).
Proof.
  destruct ev as [cpu ctx|cpu|stream| |d]; simpl; try done.
  - destruct (c_cpus s !! cpu) as [[ctx p]|]; [|done].
    split; destruct p; simpl; try done; repeat case_match; try done; intros; by simplify_eq.
  - split; [|apply daemon_label_range]. intros l now a Hl.
    pose proof (daemon_label_frame (utc_nanos (c_utc s)) (c_daemon s)) as Hf. by rewrite Hl in Hf.
Qed.

(** A step of a filter keeps the invariant and the bans. *)
Lemma filter_step_c_ok s cpu ctx p p' m' :
  c_ok s → c_cpus s !! cpu = Some (ctx, p) →
  filter_step ctx (c_ktime s) p (c_maps s) = Some (p', m') →
  let s' := with_cpus s (<[cpu:=(ctx, p')]> (c_cpus s)) m' in c_ok s' ∧ c_fw s' = c_fw s.
Proof.
  intros Hok Hc Hs. destruct (ok_cpus _ Hok _ _ _ Hc) as [Hf Hp].
  destruct (filter_step_ok ctx (c_ktime s) p _ (ok_maps _ Hok) Hf Hp)
    as (p2 & m2 & Hs2 & Hm & Hb & Hst & Hp2 & _). simplify_eq.
  split; [|by unfold c_fw; simpl; rewrite Hb]. split; [done | | apply Hok].
  intros cpu' ctx' q. simpl. intros [[<- [= <- <-]]|[_ Hc']]%lookup_insert_Some; [done|].
  destruct (ok_cpus _ Hok _ _ _ Hc') as [Hf' Hq]. split; [done|].
  eapply pc_ok_mono; [|exact Hq]. by apply Hst.
Qed.

Lemma c_step_ok s ev o s' :
  c_ok s → c_wf_event ev → c_step oc ev s = Some (o, s') →
  c_ok s' ∧ c_fw s' = fw_after (c_fw s) (c_label ev s).
Proof.
  intros Hok Hev Hs%c_step_trans. pose proof Hok as [Hm Hcpus Hd].
  destruct Hs as [cpu ctx Hc|cpu ctx p p' m' Hc Hp Hf|cpu ctx a Hc|stream sent Hs|p' b' Hne Hp|d];
    cbn [c_label c_wf_event] in *; rewrite ?Hc.
  - split; [|done]. split; [done | | done].
    intros cpu' ctx' p. simpl. intros [[<- [= <- <-]]|[_ Hc']]%lookup_insert_Some; [done | eauto].
  - destruct (filter_step_c_ok s cpu ctx p p' m' Hok Hc Hf) as [Hok' ->]. split; [done|].
    destruct p; simpl; try done. by destruct (parse_frame _).
  - split; [|done]. split; [done | | done]. intros cpu' ctx' q. simpl. intros [_ Hq]%lookup_delete_Some. eauto.
  - split; [|done]. by split.
  - destruct (daemon_step_ok (utc_nanos (c_utc s)) (c_daemon s) _ (STATS (c_maps s))
      (bans_capacity _ (maps_bans _ Hm)) Hd) as (Hp' & Hcap & Hfw). rewrite Hp in Hp', Hcap, Hfw.
    split; [|done]. split; [|done..]. destruct Hm as [Hb Hst Hlog]. split; [|done..].
    eapply bans_ok_after; [exact Hb | done | apply daemon_label_range | done].
  - split; [|done]. by split.
Qed.

(** No step of a busy CPU or of a turn in progress faults. *)
Lemma c_step_progress s :
  c_ok s →
  (∀ cpu, is_Some (c_cpus s !! cpu) → is_Some (c_step oc (Cpu cpu) s)) ∧
  ((∀ o, c_daemon s ≠ DEnd o) → is_Some (c_step oc Turn s)).
Proof.
  intros Hok. split.
  - intros cpu [[ctx p] Hc]. destruct (ok_cpus _ Hok _ _ _ Hc) as [Hf Hp].
    destruct (filter_step_ok ctx (c_ktime s) p _ (ok_maps _ Hok) Hf Hp) as (p' & m' & Hs & _).
    cbn [c_step]. rewrite Hc. cbn [mbind option_bind]. by destruct p; rewrite ?Hs.
  - intros Hne. cbn [c_step]. destruct (c_daemon s) as [| | | | | |o] eqn:Hd;
      try destruct (daemon_step _ _ _ _ _); [done..|]. by destruct (Hne o).
Qed.

Lemma c_init_ok k u : c_ok (c_init k u).
Proof.
  pose proof (sys_ok_init k u) as [Hc Hs Hb Hst]. split; [|done..]. split; [by split | | constructor].
  intros i v. simpl in *. by rewrite Hst, lookup_empty.
Qed.

(** ** Executions *)

Lemma c_run_cons ev evs s os s' :
  c_run oc (ev :: evs) s = Some (os, s') ↔
  ∃ o s1 os', c_step oc ev s = Some (o, s1) ∧ c_run oc evs s1 = Some (os', s') ∧
    os = option_list o ++ os'.
Proof.
  simpl. split.
  - destruct (c_step oc ev s) as [[o s1]|]; [|done]. simpl.
    destruct (c_run oc evs s1) as [[os' s2]|] eqn:Hr; [|done]. simpl. intros [= <- <-]. eauto 10.
  - intros (o & s1 & os' & -> & Hr & ->). simpl. by rewrite Hr.
Qed.

Lemma c_run_ok evs s os s' :
  c_ok s → Forall c_wf_event evs → c_run oc evs s = Some (os, s') → c_ok s'.
Proof.
  intros Hok Hev. revert s os Hok.
  induction Hev as [|ev evs Hev _ IH]; intros s os Hok; [by intros [= <- <-]|].
  intros (o & s1 & os' & Hs & Hr & _)%c_run_cons. eapply IH; [|exact Hr].
  by eapply c_step_ok.
Qed.

End invariant.
