(* ===== verification/Interleaving.v ===== *)
(** * Every interleaving is an execution of the firewall

    The theorems on [Concurrent]: the steps of a filter and of a turn compose to
    [rustguard] and [serve]; the state stays well typed and no step faults; the
    abstract firewall explains every interleaving; filters and turns end whatever
    the others do. *)

From S2P Require Export Concrete Concurrent.

(** ** Steps in sequence *)

Section composition.
Context `{NetworkTypes} `{BpfHashMap MB BanValue} `{BpfHashMap MS StatsValue}.
Context `{SerdeJson} `{TokioStream T}.

(** A step of a filter, and of a turn, that is not over. *)
Lemma filter_alone_S n ctx k p (m : XdpState MB MS) :
  filter_alone (S n) ctx k p m =
    match p with
    | PDone a => Some (a, m)
    | _ => '(p, m) ← filter_step ctx k p m; filter_alone n ctx k p m
    end.
Proof. by destruct p. Qed.

Lemma filter_alone_done n ctx k a (m : XdpState MB MS) : filter_alone n ctx k (PDone a) m = Some (a, m).
Proof. by destruct n. Qed.

Lemma turn_alone_S oc n u (p : daemon_pc T) b st :
  turn_alone oc (S n) u p b st =
    match p with
    | DEnd o => Some (o, b)
    | _ => let '(p, b) := daemon_step (MB := MB) oc u p b st in turn_alone oc n u p b st
    end.
Proof. by destruct p. Qed.

Lemma turn_alone_end oc n u o b st : turn_alone (MB := MB) oc n u (DEnd (T := T) o) b st = Some (o, b).
Proof. by destruct n. Qed.

(** Run a filter as far as its program counter is known. *)
Local Ltac run_alone :=
  repeat (rewrite ?filter_alone_S; cbn [filter_step mbind option_bind]; try rewrite filter_alone_done).

Local Ltac run_turn :=
  repeat (rewrite ?turn_alone_S; cbn [daemon_step await]; try rewrite turn_alone_end).

(** The steps compose.  A filter that no one interrupts is [rustguard] in
    eight steps, and a turn that no one interrupts is [serve] in six, on every
    frame, connection and state: the same verdict, answer, maps and log. *)
Theorem steps_compose oc ctx k (m : XdpState MB MS) u (stream : T) b st :
  filter_alone 8 ctx k PStart m = rustguard ctx (as_u64 k) m ∧
  turn_alone oc 6 u (DReadLen stream) b st = Some (serve oc u stream b st : _ * MB).
Proof.
  split.
  - unfold rustguard. rewrite try_rustguard_headers, filter_alone_S. cbn [filter_step].
    destruct (headers ctx) as [[[a|]|[src port]]|]; run_alone; [done..| |done].
    unfold check_ban. destruct (bm_get (BANNED_IPS m) src) as [ban|]; run_alone; [|done].
    destruct (_ || _); run_alone; [|done].
    unfold count_drop. destruct (bm_get (STATS m) 0) as [v|] eqn:Hv; run_alone; [|done].
    rewrite Hv; run_alone. rewrite Hv; by run_alone.
  - unfold serve, send_response. run_turn.
    destruct (read_u32 stream) as [[[n s1]|]|]; run_turn; [|done..].
    destruct (read_exact s1 n) as [[[buf s2]|]|]; run_turn; [|done..].
    destruct (respond _ _ _ _ _) as [[resp b']|]; run_turn; [|done].
    destruct (to_vec_response resp) as [l|]; run_turn; [|done].
    destruct (write_u32 _ _) as [[s3|]|]; run_turn; [|done..].
    destruct (write_all _ _) as [[s4|]|]; run_turn; [|done..].
    destruct (flush s4) as [[s5|]|]; by run_turn.
Qed.
End composition.

(** ** Every interleaving *)

(** The executions of the firewall. *)
Inductive fw_run : firewall → list fw_label → firewall → Prop :=
| fw_run_nil m : fw_run m [] m
| fw_run_cons m l m' ls m'' : fw_step m l m' → fw_run m' ls m'' → fw_run m (l :: ls) m''.

(** The steps a filter has left, its return included, and a turn. *)
Definition work (p : filter_pc) : nat :=
  match p with
  | PStart => 9 | PClock _ _ => 8 | PLookup _ _ _ => 7 | PTest _ _ _ _ => 6 | PStat _ _ => 5
  | PLoad _ _ => 4 | PStore _ _ _ => 3 | PLog _ _ => 2 | PDone _ => 1
  end.

Definition turn_work {T} `{TokioStream T} (p : daemon_pc T) : nat :=
  match p with
  | DReadLen _ => 6 | DReadBody _ _ => 5 | DHandle _ _ => 4 | DWriteLen _ _ => 3
  | DWriteBody _ _ => 2 | DFlush _ => 1 | DEnd _ => 0
  end.

Definition is_cpu {T} (cpu : nat) (ev : c_event T) : bool :=
  match ev with Cpu c => bool_decide (c = cpu) | _ => false end.
Definition is_turn {T} (ev : c_event T) : bool := match ev with Turn => true | _ => false end.
Definition is_accept {T} (ev : c_event T) : bool := match ev with Accept _ => true | _ => false end.
Definition count {T} (p : c_event T → bool) (evs : list (c_event T)) : nat := length (filter p evs).

Section interleavings.
Context `{NetworkTypesSpec} `{BpfHashMapSpec MB BanValue} `{BpfHashMapSpec MS StatsValue}.
Context `{SerdeJsonSpec} `{TokioStreamSpec T}.
Variable oc : bool.
Implicit Types (s : CState MB MS T) (evs : list (c_event T)).

Lemma count_cons p (ev : c_event T) evs : count p (ev :: evs) = ((if p ev then 1 else 0) + count p evs)%nat.
Proof. unfold count. rewrite filter_cons. by destruct (p ev). Qed.

(** The verdicts the filters in progress have decided on. *)
Definition pending s : list (bytes * xdp_action) :=
  collect (λ '(ctx, p), (λ a, (packet ctx, a)) <$> decided p) (c_cpus s).

Definition answer (o : XdpContext * xdp_action) : bytes * xdp_action := (packet o.1, o.2).

Lemma step_pending ev s o s' :
  c_ok s → c_step oc ev s = Some (o, s') →
  omap frame_of [c_label oc ev s] ++ pending s ≡ₚ (answer <$> option_list o) ++ pending s'.
Proof.
  intros Hok Hs%c_step_trans. unfold pending.
  destruct Hs as [cpu ctx Hc|cpu ctx p p' m' Hc Hp Hf|cpu ctx a Hc|stream sent Hs|p' b' Hne Hp|d];
    cbn [c_label c_cpus with_cpus with_daemon with_time option_list]; rewrite ?Hc; simpl;
    try done.
  - by rewrite collect_insert.
  - destruct (ok_cpus _ Hok _ _ _ Hc) as [Hfr Hpc].
    destruct (filter_step_ok ctx (c_ktime s) p _ (ok_maps _ Hok) Hfr Hpc)
      as (p2 & m2 & Hs2 & _ & _ & _ & _ & Hd). simplify_eq.
    apply (Permutation_app_inv_l (option_list ((λ a, (packet ctx, a)) <$> decided p))).
    etrans; [|symmetry; exact (collect_update _ _ _ _ (ctx, p') Hc)]. cbn beta iota. rewrite Hd. fold (c_fw s). rewrite app_assoc.
    apply Permutation_app_tail.
    destruct p; simpl; try done. by destruct (parse_frame (packet ctx)).
  - rewrite (collect_delete _ _ _ _ Hc). done.
  - by rewrite daemon_label_frame.
Qed.
(** The labels of an execution, the frames answered and the frames in progress. *)
Lemma run_labels evs s os s' :
  c_ok s → Forall c_wf_event evs → c_run oc evs s = Some (os, s') →
  fw_run (c_fw s) (c_labels oc evs s) (c_fw s') ∧
  omap frame_of (c_labels oc evs s) ++ pending s ≡ₚ (answer <$> os) ++ pending s'.
Proof.
  intros Hok Hev. revert s os Hok.
  induction Hev as [|ev evs Hev _ IH]; intros s os Hok; [intros [= <- <-]; by split; [constructor|]|].
  intros (o & s1 & os' & Hs & Hr & ->)%c_run_cons.
  destruct (c_step_ok oc s ev o s1 Hok Hev Hs) as [Hok1 Hfw].
  destruct (IH s1 os' Hok1 Hr) as [Hrun Hperm]. cbn [c_labels]. rewrite Hs. split.
  - econstructor; [|exact Hrun]. rewrite Hfw. apply fw_step_after; apply c_label_ok.
  - pose proof (step_pending ev s o s1 Hok Hs) as Hp.
    change (c_label oc ev s :: ?ls) with ([c_label oc ev s] ++ ls). rewrite omap_app, fmap_app, <- !app_assoc.
    rewrite <- Hperm, (app_assoc (omap frame_of [_])), (Permutation_app_comm (omap frame_of [_])).
    rewrite <- app_assoc, Hp. rewrite !app_assoc. apply Permutation_app_tail, Permutation_app_comm.
Qed.

(** C2: every interleaving is an execution of the firewall.  Cut into their steps
    and interleaved in any order, the filters on any number of CPUs, the daemon
    and the clocks perform one step of the abstract firewall per step; the frames
    the firewall decides on are exactly those answered and those whose filter has
    passed its decision, each with the verdict it gets. *)
Theorem interleavings_refine_firewall k u evs os s' :
  Forall c_wf_event evs → c_run oc evs (c_init k u) = Some (os, s') →
  let ls := c_labels oc evs (c_init (MB := MB) (MS := MS) k u) in
  fw_run ∅ ls (c_fw s') ∧ omap frame_of ls ≡ₚ (answer <$> os) ++ pending s'.
Proof.
  intros Hev Hr. destruct (run_labels evs _ os s' (c_init_ok k u) Hev Hr) as [Hrun Hperm].
  unfold c_fw at 1 in Hrun. unfold pending at 1 in Hperm. cbn [c_maps c_cpus c_init xdp_init BANNED_IPS] in *.
  rewrite (proj1 (bm_new_spec _)), fmap_empty in Hrun. rewrite collect_empty, app_nil_r in Hperm.
  by split.
Qed.

(** C8: type safety of every interleaving.  In every state that the filters and
    the daemon reach, whatever bytes the frames and the peers bring, the integers
    in the maps, in the log and in the variables of each filter have their width,
    each filter's address and port are its frame's, the pointers to the counter
    are valid, there are at most 1024 bans ([c_ok]); and every busy CPU and every
    turn in progress has its next step: none faults. *)
Theorem interleavings_type_safe k u evs os s' :
  Forall c_wf_event evs → c_run oc evs (c_init k u) = Some (os, s') →
  c_ok s' ∧
  (∀ cpu, is_Some (c_cpus s' !! cpu) → is_Some (c_step oc (Cpu cpu) s')) ∧
  ((∀ o, c_daemon s' ≠ DEnd o) → is_Some (c_step oc Turn s')).
Proof.
  intros Hev Hr. assert (c_ok s') as Hok by (eapply c_run_ok; [apply c_init_ok | done..]).
  split; [done | by apply c_step_progress].
Qed.

(** ** Termination *)

Lemma filter_step_work ctx k p m p' m' :
  filter_step ctx k p m = Some (p', m') → (∀ a, p ≠ PDone a) → (work p' < work p)%nat.
Proof.
  intros Hs Hne. destruct p; cbn [filter_step] in Hs; try (by destruct (Hne a));
    repeat (case_match || simplify_option_eq); cbn [work]; try lia.
Qed.

Lemma daemon_step_work u (p : daemon_pc T) (b : MB) (st : MS) :
  (∀ o, p ≠ DEnd o) → (turn_work (daemon_step oc u p b st).1 < turn_work p)%nat.
Proof.
  intros Hne. destruct p; cbn [daemon_step]; try (by destruct (Hne o));
    unfold await; repeat case_match; cbn [turn_work fst]; lia.
Qed.

(** A frame's filter, after the steps it has left. *)
Lemma filter_returns evs s os s' cpu ctx p :
  c_cpus s !! cpu = Some (ctx, p) → c_run oc evs s = Some (os, s') →
  (work p ≤ count (is_cpu cpu) evs)%nat → ∃ a, (ctx, a) ∈ os.
Proof.
  revert s os p. induction evs as [|ev evs IH]; intros s os p Hc; [intros _; unfold count; destruct p; simpl; lia|].
  intros (o & s1 & os' & Hs%c_step_trans & Hr & ->)%c_run_cons. rewrite count_cons. intros Hw.
  enough ((∃ p1, c_cpus s1 !! cpu = Some (ctx, p1) ∧ (work p1 ≤ count (is_cpu cpu) evs)%nat) ∨
    ∃ a, o = Some (ctx, a)) as [(p1 & Hc1 & Hw1)|[a ->]].
  - destruct (IH s1 os' p1 Hc1 Hr Hw1) as [a Ha]. exists a. set_solver.
  - exists a. set_solver.
  - destruct Hs as [c x Hx|c x q q' m' Hx Hq Hf|c x a Hx|stream sent Hd|q' b' Hne Hd|d];
      cbn [is_cpu with_cpus with_daemon with_time c_cpus] in *; try (left; by exists p).
    + left. exists p. rewrite lookup_insert_ne by congruence. by split.
    + left. destruct (decide (c = cpu)) as [->|Hne].
      * simplify_eq. exists q'. rewrite lookup_insert_eq. split; [done|].
        pose proof (filter_step_work _ _ _ _ _ _ Hf Hq). rewrite bool_decide_true in Hw by done. lia.
      * exists p. rewrite lookup_insert_ne by done. rewrite bool_decide_false in Hw by done. by split.
    + destruct (decide (c = cpu)) as [->|Hne]; [right; simplify_eq; eauto|].
      left. exists p. rewrite lookup_delete_ne by done. rewrite bool_decide_false in Hw by done. by split.
Qed.

Lemma turns_bounded evs s os s' :
  c_run oc evs s = Some (os, s') →
  (count is_turn evs + turn_work (c_daemon s') ≤ turn_work (c_daemon s) + 6 * count is_accept evs)%nat.
Proof.
  revert s os. induction evs as [|ev evs IH]; intros s os; [intros [= <- <-]; unfold count; simpl; lia|].
  intros (o & s1 & os' & Hs%c_step_trans & Hr & ->)%c_run_cons.
  specialize (IH s1 os' Hr). rewrite !count_cons.
  destruct Hs as [c x Hx|c x q q' m' Hx Hq Hf|c x a Hx|stream sent Hd|q' b' Hne Hd|d];
    cbn [is_turn is_accept with_cpus with_daemon with_time c_daemon] in *; try lia.
  - rewrite Hd. cbn [turn_work] in *. lia.
  - pose proof (daemon_step_work (utc_nanos (c_utc s)) (c_daemon s) (BANNED_IPS (c_maps s))
      (STATS (c_maps s)) Hne) as Hw. rewrite Hd in Hw. cbn [fst] in Hw. lia.
Qed.

(** C9: filters and turns end.  From any well-typed state, a filter has answered
    its frame when its CPU has taken nine more steps, each of which is possible,
    whatever the other CPUs and the daemon do in between; and the daemon takes at
    most six steps per connection, and those of the turn in progress. *)
Theorem filters_and_turns_end evs s os s' :
  c_ok s → Forall c_wf_event evs → c_run oc evs s = Some (os, s') →
  (∀ cpu ctx p, c_cpus s !! cpu = Some (ctx, p) →
     ((9 ≤ count (is_cpu cpu) evs)%nat → ∃ a, (ctx, a) ∈ os) ∧
     (c_cpus s' !! cpu = None ∨ is_Some (c_step oc (Cpu cpu) s'))) ∧
  (count is_turn evs ≤ turn_work (c_daemon s) + 6 * count is_accept evs)%nat.
Proof.
  intros Hok Hev Hr. assert (c_ok s') as Hok' by (by eapply c_run_ok).
  pose proof (turns_bounded evs s os s' Hr). split; [|lia]. intros cpu ctx p Hc. split.
  - intros Hn. eapply filter_returns; [done..|]. enough (work p ≤ 9)%nat by lia. destruct p; simpl; lia.
  - destruct (c_cpus s' !! cpu) eqn:Hc'; [right | by left]. apply c_step_progress; [done|]. by rewrite Hc'.
Qed.
End interleavings.

(** ** The theorems at concrete inputs *)

Section witnesses.
Abbreviation MB := (khash BanValue).
Abbreviation MS := (khash StatsValue).
Abbreviation addr := ([1; 2; 3; 4]).

Definition cpu_steps (l : list nat) : list (c_event pipe) := Cpu <$> l.

Lemma cpu_steps_wf l : Forall c_wf_event (cpu_steps l).
Proof. induction l; simpl; [by apply List.Forall_nil | by apply List.Forall_cons]. Qed.

Definition c_boot : CState MB MS pipe := c_init 10000000000 1700000000000000000.

(** A frame is in its filter on CPU 0 while the daemon bans its address; another
    arrives on CPU 1 before the answer is written, and the two filters end in the
    other order. *)
Definition interleaved_demo : list (c_event pipe) :=
  [Receive 0 (ctx_demo 6 addr); Cpu 0; Cpu 0; Accept (request_demo (ReqBan "1.2.3.4" None));
   Turn; Cpu 0; Turn; Turn; Tick 5; Receive 1 (ctx_demo 17 addr)] ++
  cpu_steps (replicate 7 1%nat) ++ [Turn; Turn; Cpu 0; Turn].

Lemma ctx_demo_frame proto src :
  length src = 4%nat → wf_bytes src → is_byte proto → wf_frame (ctx_demo proto src).
Proof.
  intros Hl Hs Hp. split; [by apply ctx_demo_wf|]. unfold ctx_demo, frame_demo. cbn [packet].
  repeat (apply Forall_app; split); try done; try (apply (bool_decide_unpack _); vm_compute; exact I).
  repeat (apply List.Forall_cons; [done || (apply (bool_decide_unpack _); vm_compute; exact I)|]).
  by apply List.Forall_nil.
Qed.

Lemma interleaved_demo_wf : Forall c_wf_event interleaved_demo.
Proof.
  pose proof (request_of_demo (ReqBan "1.2.3.4" None) I eq_refl) as [_ Hwf].
  assert (∀ proto, is_byte proto → wf_frame (ctx_demo proto addr)) as Hf.
  { intros. apply ctx_demo_frame; [done | concrete | done]. }
  unfold interleaved_demo. apply Forall_app. split; [|apply Forall_app; split].
  - repeat (apply List.Forall_cons; [first [done | apply Hf; concrete | simpl; lia]|]). by apply List.Forall_nil.
  - apply cpu_steps_wf.
  - by repeat constructor.
Qed.

Lemma interleaved_demo_run :
  fst <$> c_run true interleaved_demo c_boot =
    Some [(ctx_demo 17 addr, XDP_DROP); (ctx_demo 6 addr, XDP_PASS)].
Proof. vm_compute. reflexivity. Qed.

Lemma interleaved_demo_final :
  ∃ s', c_run true interleaved_demo c_boot =
    Some ([(ctx_demo 17 addr, XDP_DROP); (ctx_demo 6 addr, XDP_PASS)], s').
Proof.
  pose proof interleaved_demo_run as Hr.
  destruct (c_run true interleaved_demo c_boot) as [[os s']|]; [|done]. injection Hr as ->. eauto.
Qed.

Lemma interleavings_refine_firewall_witness :
  ∃ s' : CState MB MS pipe, fw_run ∅ (c_labels true interleaved_demo c_boot) (c_fw s') ∧
    omap frame_of (c_labels true interleaved_demo c_boot) ≡ₚ
      [(frame_demo 17 addr, XDP_DROP); (frame_demo 6 addr, XDP_PASS)] ++ pending s'.
Proof.
  destruct interleaved_demo_final as [s' Hr]. exists s'.
  exact (interleavings_refine_firewall (MB := MB) (MS := MS) (T := pipe) true _ _ _ _ s'
    interleaved_demo_wf Hr).
Defined.

Lemma interleavings_type_safe_witness :
  ∃ s' : CState MB MS pipe, c_ok s' ∧ ∀ cpu, is_Some (c_cpus s' !! cpu) → is_Some (c_step true (Cpu cpu) s').
Proof.
  destruct interleaved_demo_final as [s' Hr]. exists s'.
  destruct (interleavings_type_safe (MB := MB) (MS := MS) (T := pipe) true _ _ _ _ s'
    interleaved_demo_wf Hr) as (Hok & Hc & _).
  split; [exact Hok | exact Hc].
Defined.

(** A system with a permanent ban and a counter at 41. *)
Definition counted_boot : CState MB MS pipe := {|
  c_maps := {| BANNED_IPS := {| kcap := 1024; ktbl := {[16909060 := {| end_time := 0 |}]} |};
               STATS := {| kcap := 1024; ktbl := {[0 := {| packets_dropped := 41 |}]} |};
               xdp_log := [] |};
  c_ktime := 10000000000; c_utc := 1700000000000000000; c_cpus := ∅; c_daemon := DEnd (Next None);
|}.

Lemma counted_boot_ok : c_ok counted_boot.
Proof.
  split; [|done..]. split; [split; [done | | ] | | by constructor]; cbn.
  - rewrite map_size_singleton. unfold fw_capacity. lia.
  - intros ip v [<- <-]%lookup_singleton_Some. split; concrete.
  - intros i v [<- <-]%lookup_singleton_Some. concrete.
Qed.

Definition one_frame_demo : list (c_event pipe) :=
  Receive 0 (ctx_demo 6 addr) :: cpu_steps (replicate 9 0%nat).

(** A filter that needs all its nine steps. *)
Lemma filters_and_turns_end_witness :
  ∃ (s s' : CState MB MS pipe) os a,
    c_cpus s !! 0%nat = Some (ctx_demo 6 addr, PStart) ∧
    c_run true (cpu_steps (replicate 9 0%nat)) s = Some (os, s') ∧ (ctx_demo 6 addr, a) ∈ os.
Proof.
  assert (fst <$> c_run true one_frame_demo counted_boot = Some [(ctx_demo 6 addr, XDP_DROP)]) as Hf
    by (vm_compute; reflexivity).
  destruct (c_run true one_frame_demo counted_boot) as [[os s']|] eqn:Hr; [|discriminate Hf].
  apply c_run_cons in Hr. destruct Hr as (o & s & os' & Hs & Hr & _).
  assert (wf_frame (ctx_demo 6 addr)) as Hwf by (apply ctx_demo_frame; [done | concrete..]).
  assert (c_ok s) as Hok by exact (proj1 (c_step_ok true _ _ _ _ counted_boot_ok (Hwf : c_wf_event (Receive 0 _)) Hs)).
  assert (c_cpus s !! 0%nat = Some (ctx_demo 6 addr, PStart)) as Hc
    by (cbn in Hs; injection Hs as <- <-; apply lookup_insert_eq).
  destruct (filters_and_turns_end (MB := MB) (MS := MS) (T := pipe) true
    (cpu_steps (replicate 9 0%nat)) s os' s' Hok) as [Hend _]; [apply cpu_steps_wf | exact Hr |].
  destruct (proj1 (Hend _ _ _ Hc)) as [a Ha]; [vm_compute; lia|].
  exists s, s', os', a. split_and!; [exact Hc | exact Hr | exact Ha].
Defined.
End witnesses.
