(* ===== verification/Parallel.v ===== *)
(** * Bans and the counter on several CPUs

    A ban holds for the frames on every CPU once the daemon has handled it; and
    the counter of dropped packets, which the filters increment without a lock,
    loses increments within bounds. *)

From S2P Require Export Concrete Concurrent Interleaving.

Section parallel.
Context `{NetworkTypesSpec} `{BpfHashMapSpec MB BanValue} `{BpfHashMapSpec MS StatsValue}.
Context `{SerdeJsonSpec} `{TokioStreamSpec T}.
Variable oc : bool.
Implicit Types (s : CState MB MS T) (evs : list (c_event T)).

(** ** Bans on every CPU *)

(** The address named by the request the daemon is serving, before it handles it. *)
Definition serving_target (p : daemon_pc T) : option Z :=
  match p with
  | DReadLen stream => target_of stream
  | DReadBody len stream =>
      if decide (len ≤ Z.of_nat (length (st_in stream)))
      then ok (from_slice_request (take (Z.to_nat len) (st_in stream))) ≫= req_target else None
  | DHandle buf _ => ok (from_slice_request buf) ≫= req_target
  | _ => None
  end.

Definition c_leaves (ip : Z) (ev : c_event T) : Prop :=
  match ev with Accept stream => target_of stream ≠ Some ip | _ => True end.

Lemma await_target {A} (r : option (result A (IoError T))) k ip :
  (∀ a, r = Some (Ok a) → serving_target (k a) ≠ Some ip) → serving_target (await r k) ≠ Some ip.
Proof. intros Hk. destruct r as [[a|]|]; [by apply Hk | done..]. Qed.

Lemma daemon_step_leaves u p (b : MB) (st : MS) ip :
  daemon_ok p → serving_target p ≠ Some ip → serving_target (daemon_step oc u p b st).1 ≠ Some ip.
Proof.
  intros Hok Hp. destruct p as [stream|len stream|buf stream|l stream|l stream|stream|o];
    cbn [daemon_step fst]; try by apply await_target.
  - apply await_target. intros [len s1] Hr. cbn [serving_target] in *.
    unfold target_of, request_of, message in Hp. case_bool_decide as Hl.
    { pose proof (read_u32_short stream Hl) as Hs. rewrite Hr in Hs.
      destruct (st_closed stream); [by destruct Hs as [e ?] | done]. }
    destruct (read_u32_ok stream) as (s2 & Hr2 & Hi & _); [lia|]. rewrite Hr in Hr2. simplify_eq.
    rewrite Hi. cbn zeta in Hp. case_bool_decide; case_decide; try done.
  - apply await_target. intros [buf s1] Hr. cbn [serving_target daemon_ok] in *.
    destruct Hok as [Hlen _]. case_decide as Hl.
    + destruct (read_exact_ok stream len) as (s2 & Hr2 & _); [unfold in_u in Hlen; lia|].
      rewrite Hr in Hr2. by simplify_eq.
    + pose proof (read_exact_short stream len (proj1 (Z.nle_gt _ _) Hl)) as Hs. rewrite Hr in Hs.
      destruct (st_closed stream); [by destruct Hs as [e ?] | done].
  - destruct (respond oc u buf b st) as [[resp b']|]; [|done]. simpl.
    by destruct (to_vec_response resp).
  - done.
Qed.

Lemma daemon_label_leaves m u p ip :
  serving_target p ≠ Some ip → fw_after m (daemon_label oc u p) !! ip = m !! ip.
Proof.
  destruct p; cbn [daemon_label]; try done. cbn [serving_target].
  destruct (from_slice_request buf) as [req|]; [|done]. apply request_label_leaves.
Qed.

(** A verdict a segment may get while the ban of its address is [ban], by a clock
    read between [k0] and [k1]. *)
Definition good_verdict (ban : option Z) (k0 k1 : Z) (a : xdp_action) : Prop :=
  match ban with
  | None => a = XDP_PASS
  | Some e => (e = 0 ∨ k1 ≤ e → a = XDP_DROP) ∧ (e ≠ 0 → e < k0 → a = XDP_PASS)
  end.

(** The filters that run on segments of [ip]. *)
Definition filters_good (ip : Z) (ban : option Z) (k0 k1 : Z) s : Prop :=
  ∀ cpu ctx p port, c_cpus s !! cpu = Some (ctx, p) → parse_frame (packet ctx) = Segment ip port →
    (∀ src port now, p = PLookup src port now → k0 ≤ now ≤ k1) ∧
    (∀ a, decided p = Some a → good_verdict ban k0 k1 a).

Lemma lookup_good m l ip port now k0 k1 :
  parse_frame l = Segment ip port → k0 ≤ now ≤ k1 →
  good_verdict (m !! ip) k0 k1 (fw_verdict m l now).
Proof.
  intros Hp Hn. unfold fw_verdict, good_verdict. rewrite Hp. destruct (m !! ip) as [e|]; [|done].
  case_decide; split; try done; intros; exfalso; lia.
Qed.

Lemma filters_good_step ip k0 k1 ev s o s' :
  c_ok s → 0 ≤ k0 → k0 ≤ c_ktime s ≤ k1 → k1 < 2 ^ 64 → filters_good ip (c_fw s !! ip) k0 k1 s →
  c_step oc ev s = Some (o, s') →
  filters_good ip (c_fw s !! ip) k0 k1 s' ∧
  ∀ ctx a port, o = Some (ctx, a) → parse_frame (packet ctx) = Segment ip port →
    good_verdict (c_fw s !! ip) k0 k1 a.
Proof.
  intros Hok Hk0 Hk Hk1 Hg Hs%c_step_trans.
  destruct Hs as [c x Hx|c x q q' m' Hx Hq Hf|c x a Hx|stream sent Hd|q' b' Hne Hd|d];
    (split; [intros cpu ctx p port; cbn [with_cpus with_daemon with_time c_cpus] | try done]);
    try by apply Hg.
  - intros [[<- [= <- <-]]|[_ Hc]]%lookup_insert_Some; [done | by eapply Hg].
  - intros [[<- [= <- <-]]|[_ Hc]]%lookup_insert_Some; [|by eapply Hg]. intros Hp.
    destruct (ok_cpus _ Hok _ _ _ Hx) as [Hfr Hpc]. destruct (Hg _ _ _ _ Hx Hp) as [Hn Hdec].
    destruct (filter_step_ok x (c_ktime s) q _ (ok_maps _ Hok) Hfr Hpc)
      as (q2 & m2 & Hs2 & _ & _ & _ & _ & Hd). rewrite Hf in Hs2. simplify_eq. split.
    + intros src pt now ->. destruct q; cbn [filter_step] in Hf; try (by destruct (Hq a));
        repeat (case_match || simplify_option_eq). unfold as_u64. rewrite wrap_small by uint. lia.
    + rewrite Hd. destruct q; cbn [filter_label]; rewrite ?Hp; try done. simpl.
      intros a [= <-]. eapply lookup_good; [done | by eapply Hn].
  - intros [_ Hc]%lookup_delete_Some. by eapply Hg.
  - intros ctx a' port [= <- <-] Hp. by eapply Hg.
Qed.

Lemma c_step_leaves s ev o s' ip :
  c_ok s → c_wf_event ev → c_leaves ip ev → serving_target (c_daemon s) ≠ Some ip →
  c_step oc ev s = Some (o, s') →
  c_fw s' !! ip = c_fw s !! ip ∧ serving_target (c_daemon s') ≠ Some ip ∧ c_ktime s ≤ c_ktime s'.
Proof.
  intros Hok Hev Hl Hd Hs. destruct (c_step_ok oc s ev o s' Hok Hev Hs) as [_ ->].
  apply c_step_trans in Hs.
  destruct Hs as [c x Hx|c x q q' m' Hx Hq Hf|c x a Hx|stream sent Hs|q' b' Hne Hs|d];
    cbn [c_label with_cpus with_daemon with_time c_daemon c_ktime c_wf_event] in *; rewrite ?Hx;
    try (split_and!; done || lia).
  - split_and!; [by destruct q; simpl; try done; destruct (parse_frame _) | done | lia].
  - split_and!; [by apply daemon_label_leaves | | lia].
    pose proof (daemon_step_leaves (utc_nanos (c_utc s)) (c_daemon s) (BANNED_IPS (c_maps s))
      (STATS (c_maps s)) ip (ok_daemon _ Hok) Hd) as Ht. by rewrite Hs in Ht.
Qed.

Lemma c_run_time evs s os s' :
  Forall c_wf_event evs → c_run oc evs s = Some (os, s') → c_ktime s ≤ c_ktime s'.
Proof.
  intros Hev. revert s os. induction Hev as [|ev evs Hev _ IH]; intros s os; [by intros [= <- <-]|].
  intros (o & s1 & os' & Hs%c_step_trans & Hr & ->)%c_run_cons. etrans; [|by eapply IH].
  destruct Hs; simpl in *; lia.
Qed.

Lemma run_good ip k0 evs s os s' :
  c_ok s → Forall c_wf_event evs → Forall (c_leaves ip) evs →
  serving_target (c_daemon s) ≠ Some ip → 0 ≤ k0 ≤ c_ktime s → c_ktime s' < 2 ^ 64 →
  filters_good ip (c_fw s !! ip) k0 (c_ktime s') s → c_run oc evs s = Some (os, s') →
  ∀ ctx a port, (ctx, a) ∈ os → parse_frame (packet ctx) = Segment ip port →
    good_verdict (c_fw s !! ip) k0 (c_ktime s') a.
Proof.
  intros Hok Hev. revert s os Hok.
  induction Hev as [|ev evs Hev Hevs IH]; intros s os Hok Hl Hd Hk Hk1 Hg;
    [by intros [= <- <-] ? ? ? ?%not_elem_of_nil|].
  intros (o & s1 & os' & Hs & Hr & ->)%c_run_cons ctx a port Ha Hp.
  apply Forall_cons in Hl as [Hle Hl].
  destruct (c_step_leaves s ev o s1 ip Hok Hev Hle Hd Hs) as (Hfw & Hd1 & Ht).
  pose proof (c_run_time evs s1 os' s' Hevs Hr) as Ht1.
  destruct (filters_good_step ip k0 (c_ktime s') ev s o s1) as [Hg1 Ho]; [done || lia..|].
  apply elem_of_app in Ha as [Ha|Ha].
  - eapply Ho; [|done]. destruct o; set_solver.
  - rewrite <- Hfw. eapply (IH s1 os'); try done.
    + by eapply c_step_ok.
    + lia.
    + by rewrite Hfw.
Qed.

(** C7: a ban is enforced on every CPU.  Once the daemon has handled the request
    to ban an address, for which the map has room, whatever steps the CPUs, the
    daemon and other peers take from then on, as long as no request names the
    address: every segment of the address whose filter starts its headers after
    that is dropped when the ban still holds at the end of the execution, and
    passed when it had expired at its beginning. *)
Theorem ban_enforced_on_every_cpu s buf stream target ttl ip e evs os s' :
  c_ok s → c_daemon s = DHandle buf stream →
  from_slice_request buf = Ok (ReqBan target ttl) → ipv4_from_str target = Ok ip →
  ban_end_time oc (utc_nanos (c_utc s)) ttl = Some e →
  is_Some (c_fw s !! u32_of_ipv4 ip) ∨ (size (c_fw s) < fw_capacity)%nat →
  Forall c_wf_event evs → Forall (c_leaves (u32_of_ipv4 ip)) evs →
  0 ≤ c_ktime s → c_ktime s' < 2 ^ 64 →
  (∀ cpu ctx p port, c_cpus s !! cpu = Some (ctx, p) →
     parse_frame (packet ctx) = Segment (u32_of_ipv4 ip) port → p = PStart) →
  c_run oc (Turn :: evs) s = Some (os, s') →
  ∀ ctx a port, (ctx, a) ∈ os → parse_frame (packet ctx) = Segment (u32_of_ipv4 ip) port →
    (e = 0 ∨ c_ktime s' ≤ e → a = XDP_DROP) ∧ (e ≠ 0 → e < c_ktime s → a = XDP_PASS).
Proof.
  intros Hok Hd Hreq Hip He Hroom Hev Hl Hk Hk1 Hfl.
  intros (o & s1 & os' & Hs & Hr & ->)%c_run_cons ctx a port.
  destruct (c_step_ok oc s Turn o s1 Hok I Hs) as [Hok1 Hfw].
  cbn [c_label] in Hfw. rewrite Hd in Hfw. cbn [daemon_label request_label] in Hfw.
  rewrite Hreq in Hfw. cbn [request_label] in Hfw. rewrite Hip, He in Hfw. cbn [fw_after] in Hfw.
  rewrite decide_True in Hfw by done.
  apply c_step_trans in Hs. inversion Hs as [| | | |p' b' _ Hstep|]; subst. simpl.
  change (?P → ?Q → ?A ∧ ?B) with (P → Q → good_verdict (Some e) (c_ktime s) (c_ktime s') a).
  pose proof (run_good (u32_of_ipv4 ip) (c_ktime s) evs _ os' s' Hok1 Hev Hl) as Hgood.
  rewrite Hfw, lookup_insert_eq in Hgood. apply Hgood; try done.
  - cbn [with_daemon c_daemon]. rewrite Hd in Hstep. cbn [daemon_step] in Hstep.
    destruct (respond _ _ _ _ _) as [[resp b2]|]; [|by simplify_eq].
    destruct (to_vec_response resp); by simplify_eq.
  - intros cpu ctx' p port'. cbn [with_daemon c_cpus]. intros Hc Hp.
    by rewrite (Hfl _ _ _ _ Hc Hp).
Qed.

(** ** The counter of dropped packets *)

Definition counter s : option Z := packets_dropped <$> bm_view (STATS (c_maps s)) !! 0.

Definition drops (os : list (XdpContext * xdp_action)) : nat :=
  length (filter (λ o, o.2 = XDP_DROP) os).

(** The filters between the store of the counter and the end. *)
Definition stored (p : filter_pc) : option () :=
  match p with PLog _ _ | PDone XDP_DROP => Some () | _ => None end.
Definition counted s : nat := length (collect (λ x, stored x.2) (c_cpus s)).

(** After [n] stores from the value [v0]. *)
Definition counting (v0 : Z) (n : nat) s : Prop :=
  ∃ v, counter s = Some v ∧ v0 ≤ v ≤ v0 + Z.of_nat n ∧ (n = 0%nat ∨ v0 < v) ∧
    ∀ cpu ctx src port x, c_cpus s !! cpu = Some (ctx, PStore src port x) → v0 ≤ x ≤ v0 + Z.of_nat n.

(** A step of a filter that is no store leaves the counter, and moves no filter
    past the store; a load reads the counter. *)
Lemma filter_step_counter ctx k p m p' m' :
  maps_ok m → wf_frame ctx → pc_ok (bm_view (STATS m)) (packet ctx) p →
  is_Some (bm_view (STATS m) !! 0) → (∀ src port x, p ≠ PStore src port x) →
  filter_step ctx k p m = Some (p', m') →
  STATS m' = STATS m ∧ stored p' = stored p ∧
  ∀ src port x, p' = PStore src port x → packets_dropped <$> bm_view (STATS m) !! 0 = Some x.
Proof.
  intros Hm [Hctx _] Hp [v Hv] Hne Hs. destruct p; cbn [filter_step] in Hs.
  - rewrite headers_spec in Hs by done. by destruct (parse_frame _); simplify_eq/=.
  - by simplify_eq/=.
  - destruct (bm_get (BANNED_IPS m) src_addr); by simplify_eq/=.
  - destruct (_ || _); by simplify_eq/=.
  - rewrite bm_get_spec, Hv in Hs. by simplify_eq/=.
  - rewrite bm_get_spec, Hv in Hs. simplify_eq/=. split_and!; try done.
    intros ? ? ? [= <- <- <-]. by rewrite Hv.
  - by destruct (Hne src_addr source_port packets_dropped).
  - by simplify_eq/=.
  - by simplify_eq/=.
Qed.

Lemma counted_update s cpu ctx p p' m' :
  c_cpus s !! cpu = Some (ctx, p) →
  (length (option_list (stored p)) + counted (with_cpus s (<[cpu:=(ctx, p')]> (c_cpus s)) m') =
   length (option_list (stored p')) + counted s)%nat.
Proof.
  intros Hc. unfold counted. cbn [with_cpus c_cpus].
  pose proof (Permutation_length (collect_update (λ x, stored x.2) _ _ _ (ctx, p') Hc)) as Hp.
  by rewrite !length_app in Hp.
Qed.

(** A step stores at most once. *)
Lemma counting_step v0 n ev s o s' :
  c_ok s → 0 ≤ v0 → v0 + Z.of_nat n + 1 < 2 ^ 64 → counting v0 n s →
  c_step oc ev s = Some (o, s') →
  ∃ d, (d ≤ 1)%nat ∧ counting v0 (n + d) s' ∧
    (drops (option_list o) + counted s' = counted s + d)%nat.
Proof.
  intros Hok H0v Hn (v & Hv & Hle & Hlt & Hx) Hs%c_step_trans.
  destruct Hs as [c x Hc|c x q q' m' Hc Hq Hf|c x a Hc|stream sent Hs|q' b' Hne Hs|d];
    try (exists 0%nat; rewrite !Nat.add_0_r; split; [lia|]; split; [|reflexivity];
      exists v; split; [exact Hv|]; split; [done|]; split; [done|]; exact Hx).
  - exists 0%nat. rewrite Nat.add_0_r. split; [lia|]. split.
    + exists v. split; [exact Hv|]. split; [done|]. split; [done|]. intros cpu ctx src port y. cbn [with_cpus c_cpus]. intros [[_ [=]]|[_ Hy]]%lookup_insert_Some. eauto.
    + unfold counted. cbn [with_cpus c_cpus]. by rewrite collect_insert.
  - destruct (ok_cpus _ Hok _ _ _ Hc) as [Hfr Hpc].
    pose proof (counted_update s c x q q' m' Hc) as Hcnt.
    destruct (bm_view (STATS (c_maps s)) !! 0) as [w|] eqn:Hw;
      [|unfold counter in Hv; by rewrite Hw in Hv].
    assert (v = packets_dropped w) as -> by (unfold counter in Hv; rewrite Hw in Hv; by simplify_eq/=).
    assert ((∀ src port y, q ≠ PStore src port y) ∨ ∃ src port y, q = PStore src port y)
      as [Hns|(src & port & y & ->)] by (destruct q; eauto; by left).
    + destruct (filter_step_counter x (c_ktime s) q _ q' m' (ok_maps _ Hok) Hfr Hpc
        (mk_is_Some _ _ Hw) Hns Hf) as (Hst & Hsto & Hload).
      exists 0%nat. rewrite Nat.add_0_r. split_and!; [lia | | rewrite Hsto in Hcnt; simpl; lia].
      exists (packets_dropped w). unfold counter. cbn [with_cpus c_maps c_cpus].
      rewrite Hst, Hw. split_and!; try done; try lia.
      intros cpu ctx src port y [[<- [= <- ->]]|[_ Hy]]%lookup_insert_Some; [|by eapply Hx].
      specialize (Hload _ _ _ eq_refl). rewrite Hw in Hload. simplify_eq/=. lia.
    + specialize (Hx _ _ _ _ _ Hc) as Hy. cbn [filter_step] in Hf. rewrite bm_get_spec, Hw in Hf.
      cbn [mbind option_bind] in Hf. simplify_eq. exists 1%nat.
      destruct (bm_store_spec (STATS (c_maps s)) 0 {| packets_dropped := as_u64 (y + 1) |}) as [Hst _];
        [by rewrite Hw|].
      split_and!; [lia | | revert Hcnt; simpl; lia].
      exists (y + 1). unfold counter. cbn [with_cpus c_maps c_cpus STATS]. rewrite Hst, lookup_insert_eq.
      simpl. unfold as_u64. rewrite wrap_small by uint. split_and!; [done | lia | lia | lia |].
      intros cpu ctx ? ? z [[_ [=]]|[_ Hz]]%lookup_insert_Some. specialize (Hx _ _ _ _ _ Hz). lia.
  - exists 0%nat. rewrite Nat.add_0_r. split; [lia|]. split.
    + exists v. split; [exact Hv|]. split; [done|]. split; [done|]. intros cpu ctx src port y. cbn [with_cpus c_cpus]. intros [_ Hy]%lookup_delete_Some. eauto.
    + unfold counted. cbn [with_cpus c_cpus].
      rewrite (collect_delete _ _ _ _ Hc), length_app. unfold drops. cbn [option_list snd stored].
      by destruct a.
Qed.

Lemma drops_app os os' : drops (os ++ os') = (drops os + drops os')%nat.
Proof. unfold drops. by rewrite filter_app, length_app. Qed.

Lemma counting_run v0 evs s os s' n :
  c_ok s → Forall c_wf_event evs → 0 ≤ v0 → v0 + Z.of_nat (n + length evs) < 2 ^ 64 →
  counting v0 n s → c_run oc evs s = Some (os, s') →
  ∃ n', counting v0 n' s' ∧ (drops os + counted s' + n = counted s + n')%nat.
Proof.
  intros Hok Hev Hv. revert s os n Hok.
  induction Hev as [|ev evs Hev _ IH]; intros s os n Hok Hn Hc.
  { intros [= <- <-]. exists n. by split; [|unfold drops; simpl; lia]. }
  intros (o & s1 & os' & Hs & Hr & ->)%c_run_cons. cbn [length] in Hn.
  destruct (counting_step v0 n ev s o s1 Hok Hv) as (d & Hd & Hc1 & Heq); [lia | done..|].
  destruct (IH s1 os' (n + d)%nat) as (n' & Hc' & Heq'); [by eapply c_step_ok | lia | done..|].
  exists n'. split; [done|]. rewrite drops_app. lia.
Qed.

(** The bounds of the counter.  The filters increment the counter of dropped
    packets in two accesses and without a lock.  Between two moments at which no
    filter runs, it grows by at most the number of drops, and by at least one when
    there were drops; [increment_lost] shows an execution in which two drops count
    as one. *)
Theorem counter_bounds s v0 evs os s' :
  c_ok s → counter s = Some v0 → c_cpus s = ∅ → Forall c_wf_event evs →
  v0 + Z.of_nat (length evs) < 2 ^ 64 →
  c_run oc evs s = Some (os, s') → c_cpus s' = ∅ →
  ∃ v, counter s' = Some v ∧ v0 ≤ v ≤ v0 + Z.of_nat (drops os) ∧ (drops os = 0%nat ∨ v0 < v).
Proof.
  intros Hok Hv Hidle Hev Hn Hr Hidle'.
  assert (0 ≤ v0) as Hv0.
  { unfold counter in Hv. apply fmap_Some in Hv as (w & Hw & ->).
    by apply (maps_stats _ (ok_maps _ Hok)) in Hw as [? _]. }
  destruct (counting_run v0 evs s os s' 0 Hok Hev Hv0) as (n' & (v & Hv' & Hle & Hlt & _) & Heq);
    [done | | done |].
  - exists v0. split_and!; [done | lia | lia | by left |]. intros cpu ctx src port x.
    by rewrite Hidle, lookup_empty.
  - assert (counted s = 0%nat ∧ counted s' = 0%nat) as [Hc Hc'].
    { unfold counted. by rewrite Hidle, Hidle', collect_empty. }
    rewrite Hc, Hc', Nat.add_0_r in Heq. simpl in Heq. exists v. split_and!; [done | lia | lia |].
    destruct Hlt as [->|?]; [left; lia | by right].
Qed.
End parallel.

(** ** The theorems at concrete inputs *)

Section witnesses.
Abbreviation MB := (khash BanValue).
Abbreviation MS := (khash StatsValue).
Abbreviation addr := ([1; 2; 3; 4]).

(** The daemon is about to handle a ban while a frame waits on CPU 0. *)
Definition handling_demo : CState MB MS pipe :=
  with_cpus (with_daemon c_boot (DHandle (request_text (ReqBan "1.2.3.4" None)) (open_pipe []))
      (c_maps c_boot))
    {[0%nat := (ctx_demo 6 addr, PStart)]} (c_maps c_boot).

Lemma handling_demo_ok : c_ok handling_demo.
Proof.
  pose proof (c_init_ok (MB := MB) (MS := MS) (T := pipe) 10000000000 1700000000000000000) as [Hm _ _].
  split; [exact Hm | | concrete]. unfold handling_demo. cbn [with_cpus c_cpus].
  intros cpu ctx p [<- [= <- <-]]%lookup_singleton_Some.
  split; [apply ctx_demo_frame; [done | concrete..] | done].
Qed.

Lemma ban_enforced_on_every_cpu_witness :
  ∃ os (s' : CState MB MS pipe) a,
    c_run true (Turn :: cpu_steps (replicate 7 0%nat)) handling_demo = Some (os, s') ∧
    (ctx_demo 6 addr, a) ∈ os ∧ a = XDP_DROP.
Proof.
  assert (fst <$> c_run true (Turn :: cpu_steps (replicate 7 0%nat)) handling_demo =
    Some [(ctx_demo 6 addr, XDP_DROP)]) as Hf by (vm_compute; reflexivity).
  assert (c_ktime <$> (snd <$> c_run true (Turn :: cpu_steps (replicate 7 0%nat)) handling_demo) =
    Some 10000000000) as Hk by (vm_compute; reflexivity).
  destruct (c_run true (Turn :: cpu_steps _) handling_demo) as [[os s']|] eqn:Hr; [|discriminate Hf].
  injection Hf as ->. injection Hk as Hk. eexists _, s', _. split; [reflexivity|].
  split; [apply list_elem_of_here|].
  assert (∀ a, (ctx_demo 6 addr, a) ∈ [(ctx_demo 6 addr, XDP_DROP)] → a = XDP_DROP) as Hall.
  { intros a Ha.
    refine (proj1 (ban_enforced_on_every_cpu (MB := MB) (MS := MS) (T := pipe) true handling_demo _ _
      "1.2.3.4" None (Ipv4 addr) 0 _ _ s' handling_demo_ok eq_refl eq_refl eq_refl eq_refl _ _ _ _ _ _
      Hr (ctx_demo 6 addr) a 1234 Ha _) _).
    - right. concrete.
    - apply cpu_steps_wf.
    - by repeat constructor.
    - done.
    - by rewrite Hk.
    - unfold handling_demo. cbn [with_cpus c_cpus].
      by intros cpu ctx p port [<- [= <- <-]]%lookup_singleton_Some.
    - vm_compute. reflexivity.
    - by left. }
  apply Hall, list_elem_of_here.
Defined.

(** Two filters load the counter before either stores it. *)
Definition race_demo : list (c_event pipe) :=
  [Receive 0 (ctx_demo 6 addr); Receive 1 (ctx_demo 17 addr)] ++
  cpu_steps (replicate 6 0%nat ++ replicate 6 1%nat ++ replicate 3 0%nat ++ replicate 3 1%nat).

(** The increment of one of two drops is lost. *)
Example increment_lost :
  (λ r, (r.1, counter r.2)) <$> c_run true race_demo counted_boot =
    Some ([(ctx_demo 6 addr, XDP_DROP); (ctx_demo 17 addr, XDP_DROP)], Some 42).
Proof. vm_compute. reflexivity. Qed.

Lemma counter_bounds_witness :
  ∃ os (s' : CState MB MS pipe) v, c_run true race_demo counted_boot = Some (os, s') ∧
    drops os = 2%nat ∧ counter s' = Some v ∧ 41 < v ≤ 43.
Proof.
  pose proof increment_lost as Hf.
  assert ((λ r, map_to_list (c_cpus r.2)) <$> c_run true race_demo counted_boot = Some []) as Hc
    by (vm_compute; reflexivity).
  destruct (c_run true race_demo counted_boot) as [[os s']|] eqn:Hr; [|discriminate Hf].
  injection Hf as Hos Hv. injection Hc as Hc. apply map_to_list_empty_iff in Hc.
  assert (Forall c_wf_event race_demo) as Hev.
  { unfold race_demo. apply Forall_app. split; [|apply cpu_steps_wf].
    do 2 (apply List.Forall_cons; [by apply ctx_demo_frame; [|concrete..]|]). by apply List.Forall_nil. }
  destruct (counter_bounds (MB := MB) (MS := MS) (T := pipe) true counted_boot 41 race_demo os s'
    counted_boot_ok eq_refl eq_refl Hev) as (v & Hv' & Hle & Hlt); [reflexivity | exact Hr | exact Hc |].
  exists os, s', v. rewrite Hos in Hle, Hlt |- *.
  change (drops _) with 2%nat in *. destruct Hlt as [Hlt|Hlt]; [discriminate Hlt|].
  split_and!; [reflexivity | reflexivity | exact Hv' | lia | lia].
Defined.
End witnesses.
