(* ===== verification/Filter.v ===== *)
(** * What the XDP filter promises

    The verdicts of [rustguard] on the bytes of a frame, what a run changes, and
    the frames it recognises. *)

From S2P Require Export Xdp Concrete.

(** A frame with an IPv4 header of twenty bytes, given by its parts: the
    hardware addresses, the header up to the protocol, the protocol, the
    checksum, the two addresses, the source port and the rest. *)
Definition ipv4_frame (macs head9 : bytes) (proto : Z) (csum src dst port rest : bytes) : bytes :=
  macs ++ [8; 0] ++ head9 ++ [proto] ++ csum ++ src ++ dst ++ port ++ rest.

Section filter.
Context `{NetworkTypesSpec} `{BpfHashMapSpec MB BanValue} `{BpfHashMapSpec MS StatsValue}.
Implicit Types st : XdpState MB MS.

(** C5: the verdicts.  A run of the filter never reads outside the packet.  It
    drops exactly the TCP and UDP segments over IPv4 whose source address has a
    ban that is permanent or has not expired; it aborts exactly the frames too
    short for a header it reads and the IPv4 packets of another protocol; it
    passes all others. *)
Theorem filter_verdicts ctx now st :
  wf_ctx ctx →
  ∃ a st', rustguard ctx now st = Some (a, st') ∧
    (a = XDP_DROP ↔ ∃ src port ban, parse_frame (packet ctx) = Segment src port ∧
       bm_view (BANNED_IPS st) !! src = Some ban ∧ (end_time ban = 0 ∨ now ≤ end_time ban)) ∧
    (a = XDP_ABORTED ↔ parse_frame (packet ctx) = Malformed).
Proof.
  intros Hctx. rewrite rustguard_filter by done.
  destruct (filter_frame (packet ctx) now st) as [a st'] eqn:Hf.
  exists a, st'. split; [done|]. revert Hf. unfold filter_frame, ban_active.
  destruct (parse_frame (packet ctx)) as [| |src port].
  - intros [= <- <-]. split; [|done]. split; [done | by intros (? & ? & ? & ? & _)].
  - intros [= <- <-]. split; [|done]. split; [done | by intros (? & ? & ? & ? & _)].
  - rewrite bm_get_spec. destruct (bm_view (BANNED_IPS st) !! src) as [ban|] eqn:Hb;
      [case_bool_decide|]; intros [= <- <-]; (split; [|done]); split; try done.
    + intros _. eauto 10.
    + intros (? & ? & ? & ? & ? & ?). by simplify_eq.
    + intros (? & ? & ? & ? & ? & ?). by simplify_eq.
Qed.

(** C12: what a run changes.  The bans are never changed; a run that does not drop
    changes nothing; a drop logs the address and the port, adds one (modulo
    2^64) to the counter under key 0 when there is one, and changes no other. *)
Theorem filter_effects ctx now st a st' :
  wf_ctx ctx → rustguard ctx now st = Some (a, st') →
  BANNED_IPS st' = BANNED_IPS st ∧
  (a ≠ XDP_DROP → st' = st) ∧
  (a = XDP_DROP → ∃ src port, parse_frame (packet ctx) = Segment src port ∧
     xdp_log st' = xdp_log st ++ [(src, port)] ∧
     bm_view (STATS st') =
       alter (λ c, {| packets_dropped := as_u64 (packets_dropped c + 1) |}) 0 (bm_view (STATS st))).
Proof.
  intros Hctx. rewrite rustguard_filter by done. intros [= Hf]. revert Hf. unfold filter_frame.
  destruct (parse_frame (packet ctx)) as [| |src port]; [by intros [= <- <-]..|].
  destruct (bm_get (BANNED_IPS st) src) as [ban|]; [|by intros [= <- <-]].
  destruct (ban_active now ban); intros [= <- <-]; [|done]. split_and!; [done..|].
  intros _. exists src, port. split_and!; [done..|]. simpl. unfold count_drop.
  rewrite bm_get_spec. destruct (bm_view (STATS st) !! 0) as [c|] eqn:Hc.
  - destruct (bm_store_spec (STATS st) 0 {| packets_dropped := as_u64 (packets_dropped c + 1) |})
      as [-> _]; [by rewrite Hc|].
    rewrite <- (insert_id _ _ _ Hc) at 2. by rewrite alter_insert_eq.
  - symmetry. apply alter_id. congruence.
Qed.
End filter.

(** The reference definition on a TCP or UDP segment in an IPv4 header of twenty
    bytes: its source address, as the integer the daemon uses as the key of the ban,
    and its source port. *)
Lemma parse_ipv4_frame macs head9 proto csum src dst port rest :
  length macs = 12%nat → length head9 = 9%nat → length csum = 2%nat → length src = 4%nat →
  length dst = 4%nat → length port = 2%nat →
  (proto = 6 ∧ (18 ≤ length rest)%nat) ∨ (proto = 17 ∧ (6 ≤ length rest)%nat) →
  parse_frame (ipv4_frame macs head9 proto csum src dst port rest) =
    Segment (u32_of_ipv4 (Ipv4 src)) (from_be_bytes port).
Proof.
  intros Hm Hh Hc Hs Hd Hp Hproto. unfold ipv4_frame, parse_frame, be_at. cbn zeta.
  rewrite (slice_app_mid macs [8; 0]) by (rewrite ?Hm; done).
  rewrite (bool_decide_true (Some [8; 0] = Some [8; 0])) by done.
  assert (slice (macs ++ [8; 0] ++ head9 ++ [proto] ++ csum ++ src ++ dst ++ port ++ rest) 26 4
    = Some src) as ->.
  { rewrite (assoc_L (++) macs), (assoc_L (++) _ head9), (assoc_L (++) _ [proto]), (assoc_L (++) _ csum).
    apply slice_app_mid; rewrite ?length_app; simpl; lia. }
  assert (slice (macs ++ [8; 0] ++ head9 ++ [proto] ++ csum ++ src ++ dst ++ port ++ rest) 34 2
    = Some port) as ->.
  { rewrite (assoc_L (++) macs), (assoc_L (++) _ head9), (assoc_L (++) _ [proto]), (assoc_L (++) _ csum),
      (assoc_L (++) _ src), (assoc_L (++) _ dst).
    apply slice_app_mid; rewrite ?length_app; simpl; lia. }
  assert ((macs ++ [8; 0] ++ head9 ++ [proto] ++ csum ++ src ++ dst ++ port ++ rest) !! 23%nat
    = Some proto) as ->.
  { rewrite (assoc_L (++) macs), (assoc_L (++) _ head9). apply list_lookup_middle.
    rewrite !length_app. simpl. lia. }
  rewrite !length_app. cbn [length]. cbn [default].
  destruct Hproto as [[-> ?]|[-> ?]]; rewrite !bool_decide_false by lia; reflexivity.
Qed.

(** C27: the segments recognised.  Whatever the other bytes of the frame and wherever
    it lies, the filter looks a TCP or UDP segment in an IPv4 header of twenty bytes
    up under exactly the key under which the daemon bans the source address: when the
    ban holds it drops the segment and logs that address and the source port of the
    segment; without a ban, or after its expiry, it passes it and changes nothing. *)
Theorem segments_recognised `{NetworkTypesSpec, BpfHashMapSpec MB BanValue, BpfHashMapSpec MS StatsValue}
    ctx now (st : XdpState MB MS) macs head9 proto csum src dst port rest :
  wf_ctx ctx → packet ctx = ipv4_frame macs head9 proto csum src dst port rest →
  length macs = 12%nat → length head9 = 9%nat → length csum = 2%nat → length src = 4%nat →
  length dst = 4%nat → length port = 2%nat →
  (proto = 6 ∧ (18 ≤ length rest)%nat) ∨ (proto = 17 ∧ (6 ≤ length rest)%nat) →
  let ban := bm_view (BANNED_IPS st) !! u32_of_ipv4 (Ipv4 src) in
  (∀ v, ban = Some v → end_time v = 0 ∨ now ≤ end_time v →
     ∃ st', rustguard ctx now st = Some (XDP_DROP, st') ∧
       xdp_log st' = xdp_log st ++ [(u32_of_ipv4 (Ipv4 src), from_be_bytes port)]) ∧
  ((∀ v, ban = Some v → end_time v ≠ 0 ∧ end_time v < now) →
     rustguard ctx now st = Some (XDP_PASS, st)).
Proof.
  intros Hctx Hpk Hm Hh Hc Hs Hd Hp Hproto ban.
  assert (parse_frame (packet ctx) = Segment (u32_of_ipv4 (Ipv4 src)) (from_be_bytes port)) as Hparse
    by (rewrite Hpk; by apply parse_ipv4_frame).
  rewrite rustguard_filter by done. unfold filter_frame. rewrite Hparse, bm_get_spec. fold ban.
  split.
  - intros v -> Hv. unfold ban_active. rewrite bool_decide_true by done. by eexists.
  - intros Hn. destruct ban as [v|]; [|done]. destruct (Hn v eq_refl) as [? ?].
    unfold ban_active. by rewrite bool_decide_false by lia.
Qed.

(** Other protocols are aborted.  An IPv4 packet that is neither TCP nor UDP,
    such as an ICMP echo, gets XDP_ABORTED, hence is discarded, from every
    address, banned or not, and leaves the state as it was. *)
Theorem other_protocols_aborted `{NetworkTypesSpec, BpfHashMapSpec MB BanValue, BpfHashMapSpec MS StatsValue}
    ctx now (st : XdpState MB MS) p :
  wf_ctx ctx → 34 ≤ Z.of_nat (length (packet ctx)) → slice (packet ctx) 12 2 = Some [8; 0] →
  packet ctx !! 23%nat = Some p → p ≠ IPPROTO_TCP → p ≠ IPPROTO_UDP →
  rustguard ctx now st = Some (XDP_ABORTED, st).
Proof.
  intros Hctx Hlen Het Hp Htcp Hudp. rewrite rustguard_filter by done.
  unfold filter_frame, parse_frame, IPPROTO_TCP, IPPROTO_UDP in *. cbn zeta.
  rewrite protocol_cases, (decide_False (P := _ = Some 6)), (decide_False (P := _ = Some 17)) by congruence.
  by rewrite bool_decide_false, bool_decide_true, bool_decide_false by (done || lia).
Qed.

(** ** The theorems at concrete inputs *)

Section witnesses.
Abbreviation MB := (khash BanValue).
Abbreviation MS := (khash StatsValue).

(** A state with a ban of 1.2.3.4 until 1000 and a counter. *)
Definition banned_demo : XdpState MB MS := {|
  BANNED_IPS := (bm_insert (bm_new 1024) 16909060 {| end_time := 1000 |}).2;
  STATS := (bm_insert (bm_new 1024) 0 {| packets_dropped := 2 ^ 64 - 1 |}).2;
  xdp_log := [];
|}.

Lemma filter_verdicts_witness :
  wf_ctx (ctx_demo 6 [1; 2; 3; 4]) ∧
  ∃ a st', rustguard (ctx_demo 6 [1; 2; 3; 4]) 7 banned_demo = Some (a, st') ∧ a = XDP_DROP.
Proof.
  split; [demo|].
  destruct (filter_verdicts (MB := MB) (MS := MS) (ctx_demo 6 [1; 2; 3; 4]) 7 banned_demo)
    as (a & st' & Hr & Hd & _); [demo|].
  exists a, st'. split; [exact Hr|]. apply Hd. exists 16909060, 1234, {| end_time := 1000 |}.
  split_and!; [vm_compute; reflexivity | vm_compute; reflexivity | right; simpl; lia].
Defined.

Lemma filter_effects_witness :
  ∃ st', rustguard (ctx_demo 17 [1; 2; 3; 4]) 7 banned_demo = Some (XDP_DROP, st') ∧
    bm_view (STATS st') !! 0 = Some {| packets_dropped := 0 |}.
Proof.
  destruct (rustguard (ctx_demo 17 [1; 2; 3; 4]) 7 banned_demo) as [[a st']|] eqn:Hr;
    [|vm_compute in Hr; discriminate].
  assert (a = XDP_DROP) as -> by (vm_compute in Hr; congruence).
  exists st'. split; [reflexivity|].
  destruct (filter_effects (MB := MB) (MS := MS) (ctx_demo 17 [1; 2; 3; 4]) 7 banned_demo XDP_DROP st')
    as (_ & _ & Hd); [demo | exact Hr |].
  destruct (Hd eq_refl) as (src & port & _ & _ & ->). vm_compute. reflexivity.
Defined.

Lemma segments_recognised_witness :
  ∃ st', rustguard (ctx_demo 6 [1; 2; 3; 4]) 7 banned_demo = Some (XDP_DROP, st') ∧
    xdp_log st' = [(16909060, 1234)].
Proof.
  destruct (segments_recognised (MB := MB) (MS := MS) (ctx_demo 6 [1; 2; 3; 4]) 7 banned_demo
    (replicate 12 0) [69; 0; 0; 40; 0; 0; 0; 0; 64] 6 [0; 0] [1; 2; 3; 4] [10; 0; 0; 1] [4; 210]
    (replicate 18 0) ltac:(demo) eq_refl eq_refl eq_refl eq_refl eq_refl eq_refl eq_refl
    (or_introl (conj eq_refl (le_n 18)))) as [Hdrop _].
  apply (Hdrop {| end_time := 1000 |}); [vm_compute; reflexivity | right; simpl; lia].
Defined.

Lemma other_protocols_aborted_witness :
  rustguard (ctx_demo IPPROTO_ICMP [9; 9; 9; 9]) 7 banned_demo = Some (XDP_ABORTED, banned_demo).
Proof.
  apply (other_protocols_aborted (MB := MB) (MS := MS) (ctx_demo IPPROTO_ICMP [9; 9; 9; 9]) 7 banned_demo
    IPPROTO_ICMP); demo.
Defined.
End witnesses.
