(* ===== verification/Bindings.v ===== *)
(** * What the kernel bindings promise

    A [tcp_sock] read through a pointer to [sock], and the bit fields: their reads
    and writes as arithmetic on the integer of the unit, on either byte order, and
    the independence of the accessors of every unit. *)

From S2P Require Export Layout Bitfield Vmlinux VmlinuxBits Kernel.

(** ** Places in a [tcp_sock] *)

Lemma offset_of_app t p q o ft :
  offset_of t p = Some (o, ft) →
  offset_of t (p ++ q) = '(o', ft') ← offset_of ft q; Some (o + o', ft').
Proof.
  revert t o. induction p as [|x p IH]; simpl; intros t o Ho.
  - simplify_eq. by destruct (offset_of ft q) as [[? ?]|].
  - destruct (field t x) as [[o1 t1]|]; simplify_eq/=.
    destruct (offset_of t1 p) as [[o2 t2]|] eqn:Hp; simplify_eq/=.
    rewrite (IH _ _ Hp). destruct (offset_of ft q) as [[o' ft']|]; simpl; [|done].
    by rewrite Z.add_assoc.
Qed.

(** The sockets of TCP.  The kernel hands the tracers a pointer to a
    [tcp_sock]; the program reads it as a [sock].  The 136 bytes it reads first are
    the [sock_common] inside, and each of its fields is where the full path
    through the nested structs says. *)
Theorem tcp_socket_prefix l path o t :
  Z.of_nat (length l) = sizeof vmlinux.tcp_sock →
  offset_of vmlinux.sock_common path = Some (o, t) →
  ∃ common v, slice l 0 136 = Some common ∧
    read_field vmlinux.sock_common path common = Some v ∧
    read_field vmlinux.tcp_sock (["inet_conn"; "icsk_inet"; "sk"; "__sk_common"]%string ++ path) l = Some v.
Proof.
  intros Hl Ho.
  assert (offset_of vmlinux.tcp_sock ["inet_conn"; "icsk_inet"; "sk"; "__sk_common"]%string =
    Some (0, vmlinux.sock_common)) as Hp by (vm_compute; reflexivity).
  assert (sizeof vmlinux.tcp_sock = 2432) as Hs by (vm_compute; reflexivity). rewrite Hs in Hl.
  pose proof (offset_of_bounds _ _ _ _ wf_sock_common Ho) as (? & Hft & Hb).
  rewrite sizeof_sock_common in Hb. pose proof (sizeof_nonneg t Hft).
  destruct (slice_is_Some l 0 136) as [common Hc]; [lia..|].
  pose proof (slice_Some _ _ _ _ Hc) as (_ & _ & _ & Hlc & _).
  destruct (slice_is_Some common o (sizeof t)) as [v Hv]; [lia..|].
  exists common, v. split; [done|]. unfold read_field.
  rewrite (offset_of_app _ _ _ _ _ Hp), Ho. cbn [mbind option_bind]. split; [done|].
  rewrite <- Hv. symmetry. apply (slice_slice l common 0 136 o (sizeof t) Hc); lia.
Qed.

(** ** Bit fields *)

Section bits.
Context (en : endian) (dbg : bool).

Lemma le_testbit l k :
  wf_bytes l → 0 ≤ k →
  Z.testbit (from_le_bytes l) k = Z.testbit (default 0 (l !! Z.to_nat (k `div` 8))) (k `mod` 8).
Proof.
  unfold from_le_bytes. intros Hwf. revert k. induction Hwf as [|b l [Hb0 Hb1] _ IH]; intros k Hk.
  { by rewrite lookup_nil, !Z.bits_0. }
  cbn [little_endian_to_Z]. rewrite Z.lor_spec, Z.shiftl_spec by lia.
  assert (∀ m, 8 ≤ m → Z.testbit b m = false) as Hhigh.
  { intros m Hm. destruct (decide (b = 0)) as [->|]; [apply Z.bits_0|].
    apply Z.bits_above_log2; [done|]. apply Z.log2_lt_pow2 in Hb1; lia. }
  destruct (Z_lt_le_dec k 8) as [Hlt|Hge].
  - rewrite Z.div_small, Z.mod_small by lia. cbn.
    rewrite (Z.testbit_neg_r _ (k - 8)) by lia. apply orb_false_r.
  - rewrite Hhigh by done. cbn [orb]. rewrite IH by lia.
    replace k with (k - 8 + 1 * 8) at 3 4 by lia. rewrite Z.div_add, Z_mod_plus_full by lia.
    pose proof (Z.div_pos (k - 8) 8).
    replace (Z.to_nat ((k - 8) `div` 8 + 1)) with (S (Z.to_nat ((k - 8) `div` 8))) by lia. done.
Qed.

(** The bit of a unit at an index, in the integer of its bytes. *)
Definition unit_int (l : bytes) : Z := from_ne_bytes en l.
Definition int_index (l : bytes) (k : Z) : Z :=
  match en with LittleEndian => k | BigEndian => 8 * Z.of_nat (length l) - 1 - k end.

Lemma bit_at_int l k :
  wf_bytes l → 0 ≤ k < 8 * Z.of_nat (length l) →
  bit_at en l k = Z.testbit (unit_int l) (int_index l k).
Proof.
  intros Hwf Hk. unfold bit_at, unit_int, int_index. rewrite extract_bit_testbit. unfold bit_index.
  destruct en; simpl; [by rewrite le_testbit by (done || lia)|].
  unfold from_be_bytes. rewrite le_testbit by (try lia; by apply Forall_reverse).
  pose proof (Z.div_mod k 8). pose proof (Z.mod_pos_bound k 8).
  pose proof (Z.div_pos k 8). pose proof (Z.div_lt_upper_bound k 8 (Z.of_nat (length l))).
  set (n := 8 * Z.of_nat (length l) - 1 - k).
  assert (n = 8 * (Z.of_nat (length l) - 1 - k `div` 8) + (7 - k `mod` 8)) as Hn by lia.
  rewrite <- (Z.div_unique n 8 (Z.of_nat (length l) - 1 - k `div` 8) (7 - k `mod` 8)) by lia.
  rewrite <- (Z.mod_unique n 8 (Z.of_nat (length l) - 1 - k `div` 8) (7 - k `mod` 8)) by lia.
  rewrite reverse_lookup by lia. do 3 f_equal. lia.
Qed.

(** C39: a bit field is a part of an integer.  The bit-by-bit read of a field inside
    its unit, with or without debug assertions, is the field of that width of the
    integer the unit holds in the byte order of the machine: at the offset from
    the low end on a little-endian machine, from the high end on a big-endian
    one. *)
Theorem bitfield_read_is_shift l off w :
  wf_bytes l → fits l off w →
  bf_get en dbg l off w = Some (wrap w (Z.shiftr (unit_int l)
    (match en with LittleEndian => off | BigEndian => 8 * Z.of_nat (length l) - off - w end))).
Proof.
  intros Hwf Hfit. pose proof Hfit as (? & ? & ?).
  destruct (bf_get_spec en dbg l off w Hfit) as (v & -> & Hv & Hbits). f_equal.
  rewrite <- (wrap_small w v) by done. unfold wrap. apply Z.bits_inj'. intros m Hm.
  destruct (Z_lt_le_dec m w); [|by rewrite !Z.mod_pow2_bits_high by lia].
  rewrite !Z.mod_pow2_bits_low, Z.shiftr_spec, Hbits by lia.
  pose proof (value_index_range en w m ltac:(lia)).
  rewrite bit_at_int by (done || lia). f_equal. unfold int_index, value_index. destruct en; lia.
Qed.

(** Writing a bit field.  A write succeeds inside the unit, keeps its size,
    truncates the value to the width, and is read back; every field that does not
    overlap reads as before.  The accessors through a raw pointer do the same. *)
Theorem bitfield_write_read l off w val :
  wf_bytes l → fits l off w →
  ∃ l', bf_set en dbg l off w val = Some l' ∧ length l' = length l ∧ wf_bytes l' ∧
    bf_get en dbg l' off w = Some (wrap w val) ∧
    raw_set en dbg (Z.of_nat (length l)) l off w val = Some l' ∧
    raw_get en dbg (Z.of_nat (length l)) l' off w = Some (wrap w val) ∧
    ∀ off' w', fits l off' w' → off + w ≤ off' ∨ off' + w' ≤ off →
      bf_get en dbg l' off' w' = bf_get en dbg l off' w'.
Proof.
  intros Hwf Hfit. destruct (bf_get_set_same en dbg l off w val Hwf Hfit) as (l' & Hs & Hl & Hw & Hg).
  exists l'. split_and!; [done.. | by rewrite raw_set_eq | by rewrite <- Hl, raw_get_eq |]. intros off' w' Hfit' Hd.
  destruct (bf_get_set_other en dbg l off w val off' w' Hwf Hfit Hfit' Hd) as (l'' & Hs' & Hg'').
  by simplify_eq.
Qed.

(** C40: the accessors of the kernel's bit fields are independent.  For every unit
    of bit fields of the types behind a TCP socket, setting a field and getting it
    returns the value truncated to its width, through a reference or a raw pointer;
    the other fields of the unit are not affected, and the unit keeps the size it has in its type. *)
Theorem accessors_independent t x fs i f unit v :
  (t, x, fs) ∈ bitfield_units → fs !! i = Some f →
  wf_bytes unit → Z.of_nat (length unit) = unit_size t x →
  ∃ unit', field_set en dbg f unit v = Some unit' ∧ Z.of_nat (length unit') = unit_size t x ∧
    field_get en dbg f unit' = Some (wrap (bf_width f) v) ∧
    field_set_raw en dbg f unit v = Some unit' ∧
    field_get_raw en dbg f unit' = Some (wrap (bf_width f) v) ∧
    ∀ j g, fs !! j = Some g → i ≠ j → field_get en dbg g unit' = field_get en dbg g unit.
Proof.
  intros Hin Hi Hwf Hn. pose proof bitfield_units_ok as Hok. rewrite Forall_forall in Hok.
  specialize (Hok _ Hin). cbn in Hok. destruct (unit_ok_lookup _ _ _ _ Hok Hi) as [Hf Hd].
  destruct (field_get_set en dbg _ unit f v Hf Hwf Hn) as (u & Hs & Hl & _ & Hg & Ho).
  exists u. split_and!; [done | by rewrite Hl | done | | |].
  { unfold field_set_raw. by rewrite raw_set_eq. }
  { unfold field_get_raw. by rewrite raw_get_eq. }
  intros j g Hj Hne.
  destruct (unit_ok_lookup _ _ _ _ Hok Hj) as [Hg' _]. apply Ho; [done | by eapply Hd].
Qed.

(** The constructors of units.  [new_bitfield] of every unit puts each value,
    truncated to the width of its field, where the accessor of the field finds
    it. *)
Theorem new_bitfield_fields t x fs vals :
  (t, x, fs) ∈ bitfield_units → length vals = length fs →
  ∃ unit, new_bitfield en dbg (unit_size t x) fs vals = Some unit ∧
    Z.of_nat (length unit) = unit_size t x ∧
    ∀ i f v, fs !! i = Some f → vals !! i = Some v →
      field_get en dbg f unit = Some (wrap (bf_width f) v).
Proof.
  intros Hin Hlen. pose proof bitfield_units_ok as Hok. rewrite Forall_forall in Hok.
  specialize (Hok _ Hin). cbn in Hok.
  assert (Forall (λ '(t, x, _), 0 ≤ unit_size t x) bitfield_units) as Hpos
    by (apply (bool_decide_unpack _); by vm_compute).
  rewrite Forall_forall in Hpos. specialize (Hpos _ Hin). cbn in Hpos.
  destruct (set_fields_spec en dbg (unit_size t x) fs vals (replicate (Z.to_nat (unit_size t x)) 0) Hok)
    as (u & Hs & Hl & _ & Hg & _); [| |done|].
  - apply Forall_replicate. split; lia.
  - rewrite length_replicate. lia.
  - exists u. split_and!; [done | rewrite Hl, length_replicate; lia | done].
Qed.
End bits.

(** ** The theorems at concrete inputs *)

Definition tcp_sock_demo : bytes := [93; 184; 216; 34; 10; 0; 0; 1] ++ replicate 2424 0.

Lemma tcp_socket_prefix_witness :
  ∃ common v, slice tcp_sock_demo 0 136 = Some common ∧
    read_field vmlinux.sock_common skc_rcv_saddr common = Some v ∧
    read_field vmlinux.tcp_sock
      (["inet_conn"; "icsk_inet"; "sk"; "__sk_common"]%string ++ skc_rcv_saddr) tcp_sock_demo = Some v.
Proof.
  apply (tcp_socket_prefix tcp_sock_demo skc_rcv_saddr 4 (TInt 4)); vm_compute; reflexivity.
Defined.

Lemma bitfield_read_is_shift_witness :
  bf_get LittleEndian true [181; 1] 3 6 = Some 54 ∧ bf_get BigEndian true [181; 1] 3 6 = Some 42.
Proof.
  assert (wf_bytes [181; 1]) as Hwf by (apply (bool_decide_unpack _); vm_compute; exact I).
  assert (fits [181; 1] 3 6) as Hf by (unfold fits; simpl; lia).
  split.
  - rewrite (bitfield_read_is_shift LittleEndian true [181; 1] 3 6 Hwf Hf). reflexivity.
  - rewrite (bitfield_read_is_shift BigEndian true [181; 1] 3 6 Hwf Hf). reflexivity.
Defined.

Lemma bitfield_write_read_witness :
  ∃ l', bf_set BigEndian true [0; 255] 4 8 5 = Some l' ∧ bf_get BigEndian true l' 4 8 = Some 5 ∧
    bf_get BigEndian true l' 12 4 = Some 15.
Proof.
  destruct (bitfield_write_read BigEndian true [0; 255] 4 8 5) as (l' & Hs & _ & _ & Hg & _ & _ & Ho).
  - apply (bool_decide_unpack _); vm_compute; exact I.
  - unfold fits; simpl; lia.
  - exists l'. split_and!; [exact Hs | exact Hg |].
    rewrite (Ho 12 4); [reflexivity | unfold fits; simpl; lia | lia].
Defined.

Lemma accessors_independent_witness :
  ∃ unit', field_set LittleEndian true sock_common_bits.skc_ipv6only [0] 1 = Some unit' ∧
    field_get LittleEndian true sock_common_bits.skc_ipv6only unit' = Some 1 ∧
    field_get LittleEndian true sock_common_bits.skc_reuse unit' = Some 0.
Proof.
  destruct (accessors_independent LittleEndian true vmlinux.sock_common "_bitfield_1"
    sock_common_bits.new_bitfield_1 2 sock_common_bits.skc_ipv6only [0] 1) as (u & Hs & _ & Hg & _ & _ & Ho).
  - left.
  - reflexivity.
  - apply (bool_decide_unpack _); vm_compute; exact I.
  - vm_compute. reflexivity.
  - exists u. split_and!; [exact Hs | exact Hg |].
    rewrite (Ho 0%nat sock_common_bits.skc_reuse eq_refl ltac:(done)). reflexivity.
Defined.

Lemma new_bitfield_fields_witness :
  ∃ unit, new_bitfield BigEndian true 4 inet_connection_sock__bindgen_ty_3_bits.new_bitfield_1 [5; 1] =
      Some unit ∧
    field_get BigEndian true inet_connection_sock__bindgen_ty_3_bits.probe_size unit = Some 5.
Proof.
  destruct (new_bitfield_fields BigEndian true vmlinux.inet_connection_sock__bindgen_ty_3 "_bitfield_1"
    inet_connection_sock__bindgen_ty_3_bits.new_bitfield_1 [5; 1]) as (u & Hs & _ & Hg).
  - do 6 right. left.
  - reflexivity.
  - exists u. split; [exact Hs|]. exact (Hg 0%nat inet_connection_sock__bindgen_ty_3_bits.probe_size 5 eq_refl eq_refl).
Defined.
