(* ===== verification/Display.v ===== *)
(** * What the monitor's text means

    The helpers that turn the fields of an event into text, the cache of
    executables, and the agreement of the two ends of the ring buffer on the
    bytes of an event. *)

From S2P Require Export Kernel Monitor.

(** C38: the name of a task.  The kernel side and the user side cut a name of
    sixteen bytes at the same place, the first zero byte; the text shown is
    well-formed UTF-8, and is the name itself when that is well-formed. *)
Theorem comm_shown (c : bytes) :
  length c = 16%nat → wf_bytes c →
  let name := comm_to_str c in
  ¬ 0 ∈ name ∧ (∃ rest, c = name ++ rest ∧ (rest = [] ∨ head rest = Some 0)) ∧
  utf8 (bytes_of_string (comm_to_string c)) ∧
  (utf8 name → bytes_of_string (comm_to_string c) = name).
Proof.
  intros Hl Hwf.
  assert (∀ n l i, (length l = n)%nat → 0 ≤ i → i + Z.of_nat n = 16 →
    drop (Z.to_nat i) c = l →
    comm_to_str_loop (n + 1) c i = i + Z.of_nat (position_zero l)) as Hloop.
  { induction n as [|n IH]; intros [|b l] i Hn Hi Hin Hd; try done; simpl in Hn; cbn [Nat.add comm_to_str_loop].
    - unfold TASK_COMM_LEN. rewrite (proj2 (Z.ltb_ge i 16)) by lia. simpl. lia.
    - unfold TASK_COMM_LEN. rewrite (proj2 (Z.ltb_lt i 16)) by lia.
      assert (c !! Z.to_nat i = Some b) as ->.
      { rewrite <- (Nat.add_0_r (Z.to_nat i)), <- lookup_drop, Hd. done. }
      cbn. destruct (b =? 0); [lia|].
      assert (drop (Z.to_nat (i + 1)) c = l) as Hd'.
      { replace (Z.to_nat (i + 1)) with (Z.to_nat i + 1)%nat by lia. by rewrite <- drop_drop, Hd. }
      rewrite (IH l (i + 1) ltac:(lia) ltac:(lia) ltac:(lia) Hd'). lia. }
  assert (comm_to_str c = take (position_zero c) c) as ->.
  { unfold comm_to_str. change (Z.to_nat TASK_COMM_LEN + 1)%nat with (16 + 1)%nat.
    rewrite (Hloop 16%nat c 0) by done. f_equal. lia. }
  assert (bytes_of_string (comm_to_string c) = from_utf8_lossy (take (position_zero c) c)) as ->.
  { unfold comm_to_string. apply bytes_of_string_of_bytes, lossy_wf. by apply Forall_take. }
  split_and!.
  - intros H0. pose proof (position_zero_take c) as Hnz. rewrite Forall_forall in Hnz. by eapply Hnz.
  - exists (drop (position_zero c) c). split; [by rewrite take_drop|]. clear.
    induction c as [|b c IH]; simpl; [by left|]. destruct (Z.eqb_spec b 0) as [->|]; [by right | done].
  - by apply lossy_utf8.
  - intros Hu. by apply lossy_id.
Qed.

(** An address.  Sixteen bytes are shown as the IPv4 address in the first four
    when the other twelve are zero, as the one in the last four for an IPv4-mapped
    address, and as an IPv6 address otherwise.  So an IPv6 address whose last
    twelve bytes are zero is shown as an IPv4 address. *)
Theorem address_shown ip :
  length ip = 16%nat →
  ip_to_string ip =
    (if decide (drop 4 ip = replicate 12 0) then ipv4_to_string (Ipv4 (take 4 ip))
     else if decide (take 12 ip = replicate 10 0 ++ [255; 255]) then ipv4_to_string (Ipv4 (drop 12 ip))
     else ipv6_to_string (Ipv6 ip)) ∧
  (drop 4 ip = replicate 12 0 → ip_to_string ip = ipv4_to_string (Ipv4 (take 4 ip))).
Proof.
  intros Hl. assert (ip_to_string ip =
    (if decide (drop 4 ip = replicate 12 0) then ipv4_to_string (Ipv4 (take 4 ip))
     else if decide (take 12 ip = replicate 10 0 ++ [255; 255]) then ipv4_to_string (Ipv4 (drop 12 ip))
     else ipv6_to_string (Ipv6 ip))) as ->; [|by split; [|intros ?; rewrite decide_True by done]].
  do 16 (destruct ip as [|? ip]; [done|]). destruct ip; [|done]. clear Hl.
  unfold ip_to_string. cbn [drop take].
  assert (∀ l, all_zero l = bool_decide (l = replicate (length l) 0)) as Hz.
  { intros l. apply eq_bool_prop_intro. rewrite bool_decide_spec, <- all_zero_spec. by destruct (all_zero l). }
  rewrite !Hz. cbn [length].
  case_bool_decide as H4; [by rewrite decide_True by done|]. rewrite decide_False by done.
  case_bool_decide as H10; cbn [andb].
  - injection H10 as -> -> -> -> -> -> -> -> -> ->. unfold ip_at. cbn.
    repeat match goal with |- context [?a =? 255] => destruct (Z.eqb_spec a 255) as [->|] end; cbn;
      by rewrite ?decide_True, ?decide_False by (done || congruence).
  - rewrite decide_False; [done|]. intros [=]; subst. by apply H10.
Qed.

Lemma zero_pad_count_2 n : 0 ≤ n < 100 → char_count (zero_pad 2 n) = 2%nat.
Proof.
  intros Hn. assert (Forall (λ n, char_count (zero_pad 2 n) = 2%nat) (seqZ 0 100)) as H
    by (apply (bool_decide_unpack _); by vm_compute).
  rewrite Forall_seqZ in H. by apply H.
Qed.
Lemma zero_pad_count_3 n : 0 ≤ n < 1000 → char_count (zero_pad 3 n) = 3%nat.
Proof.
  intros Hn. assert (Forall (λ n, char_count (zero_pad 3 n) = 3%nat) (seqZ 0 1000)) as H
    by (apply (bool_decide_unpack _); by vm_compute).
  rewrite Forall_seqZ in H. by apply H.
Qed.

(** The time of a line.  The clock is shown as hours, minutes, seconds and
    milliseconds of the day (UTC), in twelve characters, which fill the column. *)
Theorem time_shown secs ns :
  0 ≤ secs → 0 ≤ ns < 1000000000 →
  ∃ h m s ms, 0 ≤ h < 24 ∧ 0 ≤ m < 60 ∧ 0 ≤ s < 60 ∧
    secs `mod` 86400 = h * 3600 + m * 60 + s ∧ ms * 1000000 ≤ ns < (ms + 1) * 1000000 ∧
    now_string (secs, ns) = zero_pad 2 h +:+ ":" +:+ zero_pad 2 m +:+ ":" +:+ zero_pad 2 s +:+ "." +:+
      zero_pad 3 ms ∧
    char_count (now_string (secs, ns)) = 12%nat ∧
    pad_right 12 (now_string (secs, ns)) = now_string (secs, ns).
Proof.
  intros Hs Hn. pose proof (Z.mod_pos_bound secs 86400) as Hd. set (d := secs `mod` 86400) in *.
  assert (0 ≤ d `div` 3600 < 24) as Hh by (split; [apply Z.div_pos | apply Z.div_lt_upper_bound]; lia).
  assert (0 ≤ ns `div` 1000000 < 1000) as Hms
    by (split; [apply Z.div_pos | apply Z.div_lt_upper_bound]; lia).
  pose proof (Z.mod_pos_bound (d `div` 60) 60) as Hm. pose proof (Z.mod_pos_bound d 60) as Hsec.
  assert (char_count (now_string (secs, ns)) = 12%nat) as Hc.
  { unfold now_string. cbn [fst snd]. fold d. rewrite !char_count_app.
    rewrite !zero_pad_count_2, zero_pad_count_3 by lia. reflexivity. }
  exists (d `div` 3600), ((d `div` 60) `mod` 60), (d `mod` 60), (ns `div` 1000000).
  split_and!; try lia; try done.
  - replace 3600 with (60 * 60) by lia. rewrite <- Z.div_div by lia.
    pose proof (Z.div_mod d 60). pose proof (Z.div_mod (d `div` 60) 60). lia.
  - pose proof (Z.mul_div_le ns 1000000). lia.
  - pose proof (Z.mul_succ_div_gt ns 1000000). lia.
  - apply pad_right_exact. lia.
Qed.

(** The columns of the monitor.  When time, name and process fit their columns,
    the result of a line begins at a column that depends on the names of the
    protocol and of the event, since these ignore the width they are given; it is
    the column of the heading RESULT exactly for an unknown protocol and an event
    whose name has seven letters. *)
Theorem columns_shift now e :
  char_count (now_string now) = 12%nat → (char_count (comm_to_string (comm e)) ≤ 16)%nat →
  (char_count (fmt_uint (ev_pid e)) ≤ 6)%nat →
  ∃ before after head rest,
    event_line now e = before +:+ result_string (ret e) +:+ after ∧
    header = head +:+ "RESULT" +:+ rest ∧ char_count head = 53%nat ∧
    char_count before =
      (39 + char_count (TransportProtocol_fmt 5 (protocol e)) + char_count (EventType_fmt 9 (event e)))%nat ∧
    (char_count before = char_count head ↔
       protocol e = ProtoUnknown ∧ (event e = EvUnknown ∨ event e = EvConnect)).
Proof.
  intros Ht Hc Hp.
  exists (pad_right 12 (now_string now) +:+ " " +:+ pad_right 16 (comm_to_string (comm e)) +:+ " " +:+
    pad_left 6 (fmt_uint (ev_pid e)) +:+ " " +:+ TransportProtocol_fmt 5 (protocol e) +:+ " " +:+
    EventType_fmt 9 (event e) +:+ " ").
  eexists. exists "TIME         COMM                PID PROTO EVENT     "%string, "     CONNECTION"%string.
  assert (∀ w s r, pad_right w s +:+ r = s +:+ repeat_char (w - char_count s) " " +:+ r) as Hpad
    by (intros; apply string_app_assoc).
  split_and!; [|done..| |].
  - unfold event_line. rewrite !string_app_assoc. rewrite (Hpad 10%nat). reflexivity.
  - rewrite !char_count_app, !pad_right_count, pad_left_count. simpl. lia.
  - rewrite !char_count_app, !pad_right_count, pad_left_count.
    destruct (protocol e), (event e); simpl; split; try lia; naive_solver.
Qed.

Section cache.
Variable read_link : Z → option string.

(** The cache of executables.  The executable returned for a process was read
    less than thirty seconds ago, in an earlier call, or just now; it is the one
    remembered afterwards with the time of its reading, and no other process is
    touched; a second call within thirty seconds of the reading returns the same
    without a new one. *)
Theorem executable_cached (pc : ProcessCache) pid now1 now2 x pc' :
  exe read_link pc pid now1 now2 = (x, pc') →
  ∃ ts, cache pc' !! pid = Some (x, ts) ∧
    ((cache pc !! pid = Some (x, ts) ∧ now1 - ts < TTL) ∨
     (x = default "<unknown>"%string (read_link pid) ∧ ts = now2)) ∧
    (∀ pid', pid ≠ pid' → cache pc' !! pid' = cache pc !! pid') ∧
    (∀ read_link' now3 now4, now3 - ts < TTL →
       exe read_link' pc' pid now3 now4 = (x, pc')).
Proof.
  assert (∀ (c : ProcessCache) x ts rl n3 n4, cache c !! pid = Some (x, ts) → n3 - ts < TTL →
    exe rl c pid n3 n4 = (x, c)) as Hhit.
  { intros c y ts rl n3 n4 Hc Hts. unfold exe. rewrite Hc.
    by rewrite (proj2 (Z.ltb_lt _ _)) by (unfold TTL in *; lia). }
  intros He. assert (∀ pid', pid ≠ pid' → cache pc' !! pid' = cache pc !! pid') as Hother.
  { intros pid' Hne. rewrite <- (exe_other read_link pc pid now1 now2 pid' Hne). by rewrite He. }
  assert ((∃ ts, cache pc !! pid = Some (x, ts) ∧ now1 - ts < TTL ∧ pc' = pc) ∨
    (x = default "<unknown>"%string (read_link pid) ∧ cache pc' = <[pid:=(x, now2)]> (cache pc)))
    as [(ts & Hc & Hts & ->)|[-> Hpc']].
  { unfold exe in He. cbn zeta in He.
    destruct (cache pc !! pid) as [[y ts]|]; [|by injection He as <- <-; right].
    destruct (Z.ltb_spec (Z.max 0 (now1 - ts)) TTL); injection He as <- <-; [|by right].
    left. exists ts. split_and!; done || lia. }
  - exists ts. split_and!; [done | by left | done |]. intros. by apply Hhit with ts.
  - assert (cache pc' !! pid = Some (default "<unknown>"%string (read_link pid), now2)) as Hn
      by (rewrite Hpc'; apply lookup_insert_eq).
    exists now2. split_and!; [done | by right | done |]. intros. by apply Hhit with now2.
Qed.
End cache.

(** The executable is not shown.  The printed line depends on the event and
    the clock only: whatever the executable of the process is, and whatever the
    cache holds, it is the same. *)
Theorem executable_not_shown read_link read_link' pc pc' cl e :
  fst <$> print_event read_link cl e pc = fst <$> print_event read_link' cl e pc' ∧
  (is_Some (print_event read_link cl e pc) ↔ is_Some (system_time cl)).
Proof.
  unfold print_event. destruct (exe read_link _ _ _ _) as [x c]. destruct (exe read_link' _ _ _ _) as [x' c'].
  destruct (system_time cl) as [now|]; simpl; [split; [done | split; eauto] | split; [done | split; by intros [? ?]]].
Qed.

(** ** The bytes of an event *)

Section event_bytes.
Context (en : endian).

Lemma EventType_as_of_u8 b e : EventType_of_u8 b = Some e → EventType_as_u8 e = b.
Proof. unfold EventType_of_u8. intros H. repeat (case_match; simplify_eq/=; try done). Qed.
Lemma TransportProtocol_as_of_u8 b p : TransportProtocol_of_u8 b = Some p → TransportProtocol_as_u8 p = b.
Proof. unfold TransportProtocol_of_u8. intros H. repeat (case_match; simplify_eq/=; try done). Qed.
Lemma Direction_as_of_u8 b d : Direction_of_u8 b = Some d → Direction_as_u8 d = b.
Proof. unfold Direction_of_u8. intros H. repeat (case_match; simplify_eq/=; try done). Qed.

Definition chunk (l : bytes) (o n : Z) : bytes := take (Z.to_nat n) (drop (Z.to_nat o) l).

(** A field of 88 bytes: its bytes, in place. *)
Lemma NetEvent_field_at l x o t :
  Z.of_nat (length l) = 88 → wf_bytes l → offset_of NetEvent_ty [x] = Some (o, t) →
  read_field NetEvent_ty [x] l = Some (chunk l o (sizeof t)) ∧
  Z.of_nat (length (chunk l o (sizeof t))) = sizeof t ∧ wf_bytes (chunk l o (sizeof t)).
Proof.
  intros Hl Hwf Ho. pose proof (offset_of_bounds _ _ _ _ wf_NetEvent_ty Ho) as (? & ? & Hb).
  assert (sizeof NetEvent_ty = 88) as Hs by (vm_compute; reflexivity). rewrite Hs in Hb.
  pose proof (sizeof_nonneg t ltac:(done)). unfold read_field, chunk. rewrite Ho. simpl.
  rewrite slice_eq by lia. split_and!; [done | rewrite length_take, length_drop; lia |].
  by apply Forall_take, Forall_drop.
Qed.

Lemma int_field l x o n :
  Z.of_nat (length l) = 88 → wf_bytes l → offset_of NetEvent_ty [x] = Some (o, TInt n) →
  ∃ z, from_ne_bytes en <$> read_field NetEvent_ty [x] l = Some z ∧ in_u (8 * n) z ∧
    chunk l o n = to_ne_bytes en n z.
Proof.
  intros Hl Hwf Ho. destruct (NetEvent_field_at l x o (TInt n) Hl Hwf Ho) as (-> & Hn & Hw).
  cbn [sizeof] in *. eexists. split; [done|].
  pose proof (from_ne_bytes_range en _ Hw) as Hr. rewrite Hn in Hr. split; [done|].
  by rewrite to_from_ne_bytes.
Qed.

Lemma array_field l x o :
  Z.of_nat (length l) = 88 → wf_bytes l →
  offset_of NetEvent_ty [x] = Some (o, TArr (TInt 1) 16) →
  read_field NetEvent_ty [x] l = Some (chunk l o 16) ∧
  length (chunk l o 16) = 16%nat ∧ wf_bytes (chunk l o 16).
Proof.
  intros Hl Hwf Ho. destruct (NetEvent_field_at l x o _ Hl Hwf Ho) as (? & ? & ?).
  cbn [sizeof] in *. change (16 * 1) with 16 in *. split_and!; [done | lia | done].
Qed.

Lemma to_ne_bytes_1 z : is_byte z → to_ne_bytes en 1 z = [z].
Proof.
  intros Hz. assert (length (to_ne_bytes en 1 z) = 1%nat) as Hl by (by rewrite length_to_ne_bytes).
  destruct (to_ne_bytes en 1 z) as [|b [|]] eqn:Hb; try done. f_equal.
  rewrite <- (from_to_ne_bytes en 1 z), Hb by (done || lia).
  destruct en; unfold from_ne_bytes, from_be_bytes, from_le_bytes; simpl;
    unfold little_endian_to_Z; simpl; by rewrite Z.lor_0_r.
Qed.

Lemma wrap_as_i32 z : in_u 32 z → wrap 32 (as_i32 z) = z.
Proof.
  intros Hz. unfold as_i32. rewrite (wrap_small 32 z) by done. case_bool_decide; [by apply wrap_small|].
  unfold wrap. symmetry. apply (Z.mod_unique _ _ (-1)); [left; apply Hz | lia].
Qed.

(** The bytes of an event, and 88 bytes cut at its fields. *)
Lemma NetEvent_bytes_fields pad e :
  NetEvent_bytes en pad e =
    to_ne_bytes en 8 (timestamp_ns e) ++ to_ne_bytes en 8 (socket_id e) ++
    to_ne_bytes en 4 (ev_pid e) ++ to_ne_bytes en 4 (ev_tid e) ++ to_ne_bytes en 4 (ev_uid e) ++
    [EventType_as_u8 (event e)] ++ [TransportProtocol_as_u8 (protocol e)] ++
    [Direction_as_u8 (ev_direction e)] ++ comm e ++ src_ip e ++ dst_ip e ++ [pad 79] ++
    to_ne_bytes en 2 (src_port e) ++ to_ne_bytes en 2 (dst_port e) ++
    to_ne_bytes en 4 (wrap 32 (ret e)) ++ [].
Proof. reflexivity. Qed.

Lemma chunks_88 (l : bytes) :
  Z.of_nat (length l) = 88 →
  chunk l 0 8 ++ chunk l 8 8 ++ chunk l 16 4 ++ chunk l 20 4 ++ chunk l 24 4 ++ chunk l 28 1 ++
  chunk l 29 1 ++ chunk l 30 1 ++ chunk l 31 16 ++ chunk l 47 16 ++ chunk l 63 16 ++
  [default 0 (l !! 79%nat)] ++ chunk l 80 2 ++ chunk l 82 2 ++ chunk l 84 4 ++ [] = l.
Proof.
  intros Hl. do 88 (destruct l as [|? l]; [done|]). destruct l; [reflexivity | cbn [length] in Hl; lia].
Qed.

(** The place of every byte of an event, with the numbers of its variants. *)
Definition event_image (p : Z) (e : NetEvent) : bytes :=
  to_ne_bytes en 8 (timestamp_ns e) ++                                  (* at 0 *)
  to_ne_bytes en 8 (socket_id e) ++                                     (* at 8 *)
  to_ne_bytes en 4 (ev_pid e) ++                                        (* at 16 *)
  to_ne_bytes en 4 (ev_tid e) ++                                        (* at 20 *)
  to_ne_bytes en 4 (ev_uid e) ++                                        (* at 24 *)
  [match event e with                                                   (* at 28 *)
   | EvUnknown => 0 | EvConnect => 1 | EvAccept => 2 | EvSend => 3 | EvRecv => 4 | EvClose => 5
   | EvStateChange => 6 | EvDns => 7 | EvTlsHandshake => 8 end] ++
  [match protocol e with ProtoUnknown => 0 | ProtoTcp => 6 | ProtoUdp => 17 end] ++ (* at 29 *)
  [match ev_direction e with DirUnknown => 0 | DirIngress => 1 | DirEgress => 2 end] ++ (* at 30 *)
  comm e ++ src_ip e ++ dst_ip e ++                                     (* at 31, 47, 63 *)
  [p] ++                                                                (* padding at 79 *)
  to_ne_bytes en 2 (src_port e) ++                                      (* at 80 *)
  to_ne_bytes en 2 (dst_port e) ++                                      (* at 82 *)
  to_ne_bytes en 4 (wrap 32 (ret e)).                                   (* at 84 *)

(** C26: the two ends of the ring buffer agree on the bytes of an event.  The kernel
    side writes each field at its place in 88 bytes, in the machine's byte order, the
    enums by their numbers, with one padding byte; the monitor's reinterpretation of
    these bytes is the event, whatever the padding byte holds; and any 88 bytes it
    takes for a valid event are the bytes of that event, which is well formed. *)
Theorem event_bytes_roundtrip :
  (∀ e pad, wf_NetEvent e →
     NetEvent_bytes en pad e = event_image (pad 79) e ∧
     Z.of_nat (length (event_image (pad 79) e)) = 88 ∧
     NetEvent_of_bytes en (event_image (pad 79) e) = Some e) ∧
  (∀ l e, wf_bytes l → Z.of_nat (length l) = 88 → NetEvent_of_bytes en l = Some e →
     wf_NetEvent e ∧ NetEvent_bytes en (λ o, default 0 (l !! Z.to_nat o)) e = l).
Proof.
  split.
  { intros e pad He.
    assert (NetEvent_bytes en pad e = event_image (pad 79) e) as Heq.
    { rewrite NetEvent_bytes_fields, app_nil_r. unfold event_image.
      destruct (event e), (protocol e), (ev_direction e); reflexivity. }
    rewrite <- Heq. split; [done|].
    split; [by apply length_NetEvent_bytes | by apply NetEvent_of_bytes_bytes]. }
  intros l e Hwf Hl He. unfold NetEvent_of_bytes in He.
  destruct (int_field l "timestamp_ns" 0 8 Hl Hwf eq_refl) as (z0 & R0 & U0 & C0).
  destruct (int_field l "socket_id" 8 8 Hl Hwf eq_refl) as (z1 & R1 & U1 & C1).
  destruct (int_field l "pid" 16 4 Hl Hwf eq_refl) as (z2 & R2 & U2 & C2).
  destruct (int_field l "tid" 20 4 Hl Hwf eq_refl) as (z3 & R3 & U3 & C3).
  destruct (int_field l "uid" 24 4 Hl Hwf eq_refl) as (z4 & R4 & U4 & C4).
  destruct (int_field l "event" 28 1 Hl Hwf eq_refl) as (z5 & R5 & U5 & C5).
  destruct (int_field l "protocol" 29 1 Hl Hwf eq_refl) as (z6 & R6 & U6 & C6).
  destruct (int_field l "direction" 30 1 Hl Hwf eq_refl) as (z7 & R7 & U7 & C7).
  destruct (array_field l "comm" 31 Hl Hwf eq_refl) as (R8 & L8).
  destruct (array_field l "src_ip" 47 Hl Hwf eq_refl) as (R9 & L9).
  destruct (array_field l "dst_ip" 63 Hl Hwf eq_refl) as (R10 & L10).
  destruct (int_field l "src_port" 80 2 Hl Hwf eq_refl) as (z11 & R11 & U11 & C11).
  destruct (int_field l "dst_port" 82 2 Hl Hwf eq_refl) as (z12 & R12 & U12 & C12).
  destruct (int_field l "ret" 84 4 Hl Hwf eq_refl) as (z13 & R13 & U13 & C13).
  rewrite R0, R1, R2, R3, R4, R5, R6, R7, R8, R9, R10, R11, R12, R13 in He.
  cbn [mbind option_bind] in He.
  destruct (EventType_of_u8 z5) as [ev|] eqn:E5; [|done].
  destruct (TransportProtocol_of_u8 z6) as [pr|] eqn:E6; [|done].
  destruct (Direction_of_u8 z7) as [di|] eqn:E7; [|done]. injection He as <-.
  split; [unfold wf_NetEvent; cbn; pose proof (as_i32_range z13); tauto|].
  rewrite NetEvent_bytes_fields. cbn [timestamp_ns socket_id ev_pid ev_tid ev_uid event protocol
    ev_direction comm src_ip dst_ip src_port dst_port ret].
  rewrite (EventType_as_of_u8 _ _ E5), (TransportProtocol_as_of_u8 _ _ E6), (Direction_as_of_u8 _ _ E7).
  rewrite <- (to_ne_bytes_1 z5), <- (to_ne_bytes_1 z6), <- (to_ne_bytes_1 z7), wrap_as_i32 by done.
  rewrite <- C0, <- C1, <- C2, <- C3, <- C4, <- C5, <- C6, <- C7, <- C11, <- C12, <- C13.
  by apply chunks_88.
Qed.
End event_bytes.

(** ** The theorems at concrete inputs *)

(** "curl", and a name that is not UTF-8. *)
Definition comm_demo : bytes := [99; 117; 114; 108] ++ replicate 12 0.
Definition bad_comm_demo : bytes := [195] ++ replicate 15 65.

Lemma comm_shown_witness :
  comm_to_str comm_demo = [99; 117; 114; 108] ∧
  bytes_of_string (comm_to_string comm_demo) = [99; 117; 114; 108] ∧
  utf8 (bytes_of_string (comm_to_string bad_comm_demo)).
Proof.
  split; [reflexivity|]. split.
  - apply (comm_shown comm_demo); [reflexivity | apply (bool_decide_unpack _); vm_compute; exact I |].
    apply (utf8_check_sound 4). reflexivity.
  - apply (comm_shown bad_comm_demo); [reflexivity | apply (bool_decide_unpack _); vm_compute; exact I].
Defined.

(** 2001:db8:: is shown as 32.1.13.184. *)
Lemma address_shown_witness :
  ip_to_string ([32; 1; 13; 184] ++ replicate 12 0) = "32.1.13.184"%string ∧
  ip_addr_to_string (V6 (Ipv6 ([32; 1; 13; 184] ++ replicate 12 0))) = "2001:db8::"%string.
Proof.
  split; [|vm_compute; reflexivity].
  destruct (address_shown ([32; 1; 13; 184] ++ replicate 12 0) eq_refl) as [_ H].
  rewrite (H eq_refl). vm_compute. reflexivity.
Defined.

Lemma time_shown_witness :
  char_count (now_string (1700000000, 123456789)) = 12%nat ∧
  now_string (1700000000, 123456789) = "22:13:20.123"%string.
Proof.
  split; [|vm_compute; reflexivity].
  destruct (time_shown 1700000000 123456789) as (h & m & s & ms & _ & _ & _ & _ & _ & _ & Hc & _);
    [lia | lia | exact Hc].
Defined.

Lemma columns_shift_witness :
  ∃ before after, event_line (0, 0) NetEvent_default = before +:+ "OK" +:+ after ∧
    char_count before = 53%nat.
Proof.
  destruct (columns_shift (0, 0) NetEvent_default) as (b & a & hd & r & Hl & _ & Hhd & _ & Hiff);
    [vm_compute; reflexivity | vm_compute; lia | vm_compute; lia |].
  exists b, a. split; [exact Hl|]. rewrite <- Hhd. apply Hiff. split; [reflexivity | by left].
Defined.

Definition cache_demo : ProcessCache := {| cache := {[7 := ("/usr/bin/curl"%string, 5)]} |}.

Lemma cache_demo_lookup : cache cache_demo !! 7 = Some ("/usr/bin/curl"%string, 5).
Proof. apply lookup_singleton_eq. Qed.

Lemma executable_cached_witness :
  ∃ ts, cache cache_demo !! 7 = Some ("/usr/bin/curl"%string, ts) ∧
    exe (λ _, None) cache_demo 7 20 21 = ("/usr/bin/curl"%string, cache_demo).
Proof.
  destruct (executable_cached (λ _, Some "/bin/sh"%string) cache_demo 7 10 11
    "/usr/bin/curl" cache_demo) as (ts & Hts & _ & _ & Hhit).
  - unfold exe. rewrite cache_demo_lookup. reflexivity.
  - exists ts. split; [exact Hts|]. apply Hhit.
    rewrite cache_demo_lookup in Hts. injection Hts as <-. reflexivity.
Defined.

Definition traced_demo : NetEvent := {|
  timestamp_ns := 1; socket_id := 2; ev_pid := 4242; ev_tid := 4243; ev_uid := 1000;
  event := EvConnect; protocol := ProtoTcp; ev_direction := DirEgress;
  comm := comm_demo; src_ip := [10; 0; 0; 1] ++ replicate 12 0;
  dst_ip := [93; 184; 216; 34] ++ replicate 12 0; src_port := 40000; dst_port := 443; ret := -115;
|}.

Example traced_demo_bytes :
  NetEvent_of_bytes BigEndian (NetEvent_bytes BigEndian (λ _, 7) traced_demo) = Some traced_demo.
Proof. vm_compute. reflexivity. Qed.
