(* ===== verification/Tracing.v ===== *)
(** * What the tracers and the monitor promise: from a socket to a printed line

    The events the two programs send for a socket, their bytes in the ring
    buffer, and the lines the monitor prints for them. *)

From S2P Require Export Concrete Fexit Monitor Display.

(** ** The events of the tracers *)

Section tracers.
Context (k : Kernel) (en : endian) (pad : Z → Z) `{BpfRingBufSpec R}.
Implicit Types events : R.

(** What the tracers read of a socket: its [sock_common], its protocol, and the
    name of the task. *)
Definition socket_read (sk : Z) (common proto c : bytes) : Prop :=
  bpf_probe_read_kernel k sk 136 = Ok common ∧
  bpf_probe_read_kernel k (as_u64 (sk + 548)) 2 = Ok proto ∧
  bpf_get_current_comm k = Ok c.

(** The transport protocol of a number. *)
Definition transport_of (n : Z) : TransportProtocol :=
  if decide (n = 6) then ProtoTcp else if decide (n = 17) then ProtoUdp else ProtoUnknown.

(** The addresses and ports in the bytes of a [sock_common], by its family: IPv4
    addresses at 4 and 0, IPv6 at 72 and 56; the local port at 14 in the order of the
    machine, the remote one at 12 in network order; nothing for other families. *)
Definition end_points (common : bytes) : bytes * bytes * Z * Z :=
  let family := from_ne_bytes en (at_ common 16 2) in
  let sport := from_ne_bytes en (at_ common 14 2) in
  let dport := from_be_bytes (at_ common 12 2) in
  if decide (family = AF_INET) then
    (at_ common 4 4 ++ replicate 12 0, at_ common 0 4 ++ replicate 12 0, sport, dport)
  else if decide (family = AF_INET6) then (at_ common 72 16, at_ common 56 16, sport, dport)
  else (replicate 16 0, replicate 16 0, 0, 0).

(** The event for a socket. *)
Definition socket_event (ev : EventType) (sk r : Z) (common proto c : bytes) : NetEvent :=
  let '(src, dst, sport, dport) := end_points common in {|
  timestamp_ns := bpf_ktime_get_ns k; socket_id := sk;
  ev_pid := Z.shiftr (bpf_get_current_pid_tgid k) 32;
  ev_tid := bpf_get_current_pid_tgid k `mod` 2 ^ 32;
  ev_uid := bpf_get_current_uid_gid k `mod` 2 ^ 32;
  event := ev; protocol := transport_of (from_ne_bytes en proto); ev_direction := direction ev;
  comm := c; src_ip := src; dst_ip := dst; src_port := sport; dst_port := dport; ret := r;
|}.

Lemma socket_protocol_read sk common proto c :
  in_u 64 sk → socket_read sk common proto c →
  socket_protocol k en sk = Ok (transport_of (from_ne_bytes en proto)).
Proof.
  intros Hsk (_ & Hp & _). unfold socket_protocol, probe_read_field. rewrite sk_protocol_field.
  change (sizeof vmlinux.u16_) with 2. rewrite Hp. unfold transport_of, IPPROTO_TCP, IPPROTO_UDP.
  f_equal. destruct (Z.eqb_spec (from_ne_bytes en proto) 6), (Z.eqb_spec (from_ne_bytes en proto) 17);
    repeat case_decide; done.
Qed.

Lemma fill_socket_read e sk common proto c :
  in_u 64 sk → socket_read sk common proto c →
  fill_socket k en e sk =
    let family := as_u16 (common_int en common skc_family) in
    Ok (if family =? AF_INET then fill_ipv4 en e common
        else if family =? AF_INET6 then fill_ipv6 en e common else e).
Proof.
  intros Hsk (Hc & _ & _). unfold fill_socket, probe_read_field. rewrite sock_common_field.
  rewrite sizeof_sock_common, Z.add_0_r. unfold as_u64. rewrite (wrap_small 64 sk) by done.
  by rewrite Hc.
Qed.

Lemma family_at common :
  Z.of_nat (length common) = 136 → wf_bytes common →
  as_u16 (common_int en common skc_family) = from_ne_bytes en (at_ common 16 2).
Proof.
  intros Hl Hwf. unfold common_int.
  rewrite (common_bytes_at common Hl Hwf skc_family 16 (TInt 2)) by (vm_compute; reflexivity).
  destruct (at_spec common Hl Hwf 16 2) as [Ha Hw]; [lia..|]. cbn [sizeof].
  apply wrap_small. pose proof (from_ne_bytes_range en _ Hw) as Hr.
  by rewrite Ha in Hr.
Qed.

Lemma pid_shift : wf_kernel k → pid k = Z.shiftr (bpf_get_current_pid_tgid k) 32.
Proof.
  intros Hk. unfold pid. apply wrap_small. pose proof (wf_pid_tgid k Hk) as Hp.
  rewrite Z.shiftr_div_pow2 by lia. unfold in_u in *. split; [apply Z.div_pos; lia|].
  apply Z.div_lt_upper_bound; lia.
Qed.

(** The helpers of the kernel side.  The process and the thread are the two
    halves of the helper's 64 bits, the user its low half; the time since a start
    is the 64-bit difference of the clocks, which is the time that has passed when
    the start is not in the future; and a cookie is tested against zero. *)
Theorem kernel_helpers ctx start :
  wf_kernel k → in_u 64 start →
  pid_tgid k = pid k * 2 ^ 32 + tid k ∧ in_u 32 (pid k) ∧ in_u 32 (tid k) ∧
  uid k = bpf_get_current_uid_gid k `mod` 2 ^ 32 ∧
  in_u 64 (ns_since k start) ∧ (start + ns_since k start) `mod` 2 ^ 64 = timestamp_ns' k ∧
  (start ≤ timestamp_ns' k → ns_since k start = timestamp_ns' k - start) ∧
  (is_zero_cookie (socket_cookie k ctx) = true ↔ bpf_get_socket_cookie k ctx = 0).
Proof.
  intros Hk Hs. pose proof (wf_ktime k Hk) as Ht. unfold ns_since, as_u64, timestamp_ns' in *.
  split_and!; try (apply wrap_range; lia).
  - rewrite pid_shift by done. unfold pid_tgid, tid, as_u32, wrap. rewrite Z.shiftr_div_pow2 by lia.
    pose proof (Z.div_mod (bpf_get_current_pid_tgid k) (2 ^ 32)). lia.
  - done.
  - unfold wrap. rewrite Zplus_mod_idemp_r.
    replace (start + (bpf_ktime_get_ns k - start)) with (bpf_ktime_get_ns k) by lia.
    by apply Z.mod_small.
  - intros. apply wrap_small. unfold in_u in *. lia.
  - apply Z.eqb_eq.
Qed.

Lemma complete_socket_event ev sk r common proto c :
  wf_kernel k → in_u 64 sk → socket_read sk common proto c →
  complete_event k en (tracer_event k ev sk r) sk = Ok (socket_event ev sk r common proto c).
Proof.
  intros Hk Hsk Hread. pose proof Hread as (Hc & _ & Hcomm).
  destruct (wf_probe_read k Hk _ _ _ Hc) as [Hl Hwf].
  unfold complete_event. rewrite (socket_protocol_read sk common proto c) by done.
  cbn [map_err]. rewrite (fill_socket_read _ sk common proto c) by done. cbn zeta.
  rewrite family_at by done. cbn [map_err]. unfold current_comm. rewrite Hcomm. cbn [map_err].
  rewrite fill_ipv4_spec, fill_ipv6_spec by done. unfold socket_event, end_points. cbn zeta.
  assert (as_u64 sk = sk) as Has by (by apply wrap_small).
  destruct (Z.eqb_spec (from_ne_bytes en (at_ common 16 2)) AF_INET) as [He|He];
    [|destruct (Z.eqb_spec (from_ne_bytes en (at_ common 16 2)) AF_INET6) as [He'|He']];
    repeat first [rewrite decide_True by done | rewrite decide_False by done];
    unfold set_comm, set_endpoints, set_protocol, tracer_event; cbn; rewrite pid_shift by done;
    by rewrite Has.
Qed.

(** The sources and the destinations as the monitor shows them. *)
Lemma at_4_ipv4 common o :
  Z.of_nat (length common) = 136 → wf_bytes common → 0 ≤ o → o + 4 ≤ 136 →
  ip_to_string (at_ common o 4 ++ replicate 12 0) = ipv4_to_string (Ipv4 (at_ common o 4)).
Proof.
  intros Hl Hwf Ho Hb. destruct (at_spec common Hl Hwf o 4); [lia..|]. apply ip_to_string_v4. lia.
Qed.

(** C16: a connection attempt is reported.  When [tcp_v4_connect] returns on an
    IPv4 socket that can be read and the ring buffer has room, exactly one event
    is appended: with the task, the clock, the return value as an [i32], the
    direction EGRESS and the end points of the socket, on either byte order; and
    the monitor shows the addresses in dotted form. *)
Theorem connect_reported ctx events common proto c :
  wf_kernel k → let sk := ctx_arg ctx 0 in
  in_u 64 sk → socket_read sk common proto c → from_ne_bytes en (at_ common 16 2) = AF_INET →
  let e := socket_event EvConnect sk (as_i32 (ctx_arg ctx 3)) common proto c in
  (rb_output events (NetEvent_bytes en pad e)).1 = Ok () →
  rb_view (tcp_v4_connect_exit k en pad ctx events).2 = rb_view events ++ [NetEvent_bytes en pad e] ∧
  wf_NetEvent e ∧ ev_direction e = DirEgress ∧
  ip_to_string (src_ip e) = ipv4_to_string (Ipv4 (at_ common 4 4)) ∧
  ip_to_string (dst_ip e) = ipv4_to_string (Ipv4 (at_ common 0 4)).
Proof.
  intros Hk sk Hsk Hread Hfam e Hout.
  assert (complete_event k en (tracer_event k EvConnect sk (as_i32 (ctx_arg ctx 3))) sk = Ok e) as He
    by (by apply complete_socket_event).
  pose proof Hread as (Hc & _). destruct (wf_probe_read k Hk _ _ _ Hc) as [Hl Hwf].
  split; [|split; [|unfold e, socket_event, end_points; rewrite decide_True by done;
    split; [done | split; apply at_4_ipv4; done || lia]]].
  - unfold tcp_v4_connect_exit, try_tcp_v4_connect_exit. fold sk. cbn zeta. rewrite He. unfold output_event.
    pose proof (rb_output_spec events (NetEvent_bytes en pad e)) as Hv. rewrite Hout in Hv.
    destruct (rb_output events (NetEvent_bytes en pad e)) as [r events'].
    cbn [fst] in Hout. rewrite Hout. exact Hv.
  - apply (complete_event_wf k Hk en pad _ _ _) in He; [exact He|]. apply tracer_event_wf; [done|]. apply as_i32_range.
Qed.

(** C28: an accepted connection is reported.  When [inet_csk_accept] returns a
    socket that can be read and the ring buffer has room, exactly one event is
    appended, with the return value 0, the direction INGRESS and the end points of
    the socket by its family, IPv4, IPv6 or none; when it returns the null pointer,
    none is, and the program reports success. *)
Theorem accept_reported ctx events newsk common proto c :
  wf_kernel k → ctx_ret ctx = Ok newsk →
  (newsk = 0 → try_incoming_connection k en pad ctx events = (Ok (), events)) ∧
  (newsk ≠ 0 → in_u 64 newsk → socket_read newsk common proto c →
   let e := socket_event EvAccept newsk 0 common proto c in
   (rb_output events (NetEvent_bytes en pad e)).1 = Ok () →
   (try_incoming_connection k en pad ctx events).1 = Ok () ∧
   rb_view (incoming_connection k en pad ctx events).2 = rb_view events ++ [NetEvent_bytes en pad e] ∧
   wf_NetEvent e ∧ ev_direction e = DirIngress ∧
   (src_ip e, dst_ip e, src_port e, dst_port e) = end_points common).
Proof.
  intros Hk Hret. unfold incoming_connection, try_incoming_connection. rewrite Hret. cbn [map_err].
  split; [by intros ->|]. intros Hne Hsk Hread.
  set (e := socket_event EvAccept newsk 0 common proto c). intros Hout.
  assert (complete_event k en (tracer_event k EvAccept newsk 0) newsk = Ok e) as He
    by (by apply complete_socket_event).
  destruct (Z.eqb_spec newsk 0) as [|_]; [done|]. rewrite He. unfold output_event.
  pose proof (rb_output_spec events (NetEvent_bytes en pad e)) as Hv. rewrite Hout in Hv.
  destruct (rb_output events (NetEvent_bytes en pad e)) as [r events'] eqn:Heq.
  cbn [fst] in Hout. rewrite Hout in *. split; [done|]. split; [exact Hv | split].
  2: { unfold e, socket_event. by destruct (end_points common) as [[[? ?] ?] ?]. }
  apply (complete_event_wf k Hk en pad _ _ _) in He; [exact He|]. apply tracer_event_wf; [done | lia].
Qed.

Lemma output_event_appends ev sk r events :
  wf_kernel k → - 2 ^ 31 ≤ r < 2 ^ 31 →
  let out := output_event en pad (complete_event k en (tracer_event k ev sk r) sk) events in
  ∃ evs, rb_view out.2 = rb_view events ++ (NetEvent_bytes en pad <$> evs) ∧
    (length evs ≤ 1)%nat ∧ Forall wf_NetEvent evs ∧ (is_ok out.1 = true ↔ evs ≠ []).
Proof.
  intros Hk Hr out. unfold out. rewrite (output_event_view en pad).
  destruct (complete_event k en (tracer_event k ev sk r) sk) as [e|err] eqn:He.
  - destruct (output_event en pad (Ok e) events).1 as [u|err] eqn:Ho.
    + exists [e]. split_and!; [done | done | | done]. apply Forall_singleton.
      apply (complete_event_wf k Hk en pad _ _ _) in He; [done|]. by apply tracer_event_wf.
    + exists []. split_and!; [done | simpl; lia | constructor | by split].
  - exists []. split_and!; [done | simpl; lia | constructor | by split].
Qed.

(** C29: what a tracer can do.  Whatever the helpers answer, both programs return 0
    and append at most one event, a well-formed one; they append one exactly when
    their body succeeds (and, for an accept, did not return the null pointer), so
    that a failed read, a failed helper or a full ring buffer leaves it as it was. *)
Theorem tracers_append_at_most_one ctx events :
  wf_kernel k →
  (let p := tcp_v4_connect_exit k en pad ctx events in
   p.1 = 0 ∧ ∃ evs, rb_view p.2 = rb_view events ++ (NetEvent_bytes en pad <$> evs) ∧
     (length evs ≤ 1)%nat ∧ Forall wf_NetEvent evs ∧
     (is_ok (try_tcp_v4_connect_exit k en pad ctx events).1 = true ↔ evs ≠ [])) ∧
  (let p := incoming_connection k en pad ctx events in
   p.1 = 0 ∧ ∃ evs, rb_view p.2 = rb_view events ++ (NetEvent_bytes en pad <$> evs) ∧
     (length evs ≤ 1)%nat ∧ Forall wf_NetEvent evs ∧
     (is_ok (try_incoming_connection k en pad ctx events).1 = true ∧ ctx_ret ctx ≠ Ok 0 ↔ evs ≠ [])).
Proof.
  intros Hk. cbn zeta. split.
  - unfold tcp_v4_connect_exit, try_tcp_v4_connect_exit. cbn zeta.
    destruct (output_event_appends EvConnect (ctx_arg ctx 0) (as_i32 (ctx_arg ctx 3)) events Hk)
      as (evs & Hv & ? & ? & ?); [apply as_i32_range|].
    destruct (output_event _ _ _ _) as [[?|?] ev']; (split; [done|]); exists evs;
      cbn [fst snd] in *; by split_and!.
  - unfold incoming_connection, try_incoming_connection.
    destruct (ctx_ret ctx) as [newsk|err]; cbn [map_err].
    2:{ split; [done|]. exists []. rewrite app_nil_r. split_and!; done || naive_solver. }
    destruct (Z.eqb_spec newsk 0) as [->|Hne].
    { split; [done|]. exists []. rewrite app_nil_r. split_and!; done || naive_solver. }
    destruct (output_event_appends EvAccept newsk 0 events Hk) as (evs & Hv & ? & ? & Hok); [lia|].
    destruct (output_event _ _ _ _) as [[?|?] ev']; (split; [done|]); exists evs;
      cbn [fst snd] in *; split_and!; try done; rewrite <- Hok; naive_solver.
Qed.

(** The end points of a socket.  [fill_socket] sets the addresses and the
    ports from the [sock_common] it reads, by the address family: the four bytes
    at 4 and 0 followed by zeros for AF_INET, the sixteen at 72 and 56 for
    AF_INET6, nothing for another family; on either byte order. *)
Theorem socket_end_points e sk common proto c :
  wf_kernel k → in_u 64 sk → socket_read sk common proto c →
  let sport := from_ne_bytes en (at_ common 14 2) in
  let dport := from_be_bytes (at_ common 12 2) in
  let family := from_ne_bytes en (at_ common 16 2) in
  fill_socket k en e sk = Ok
    (if decide (family = AF_INET) then
       set_endpoints e (at_ common 4 4 ++ replicate 12 0) (at_ common 0 4 ++ replicate 12 0) sport dport
     else if decide (family = AF_INET6) then
       set_endpoints e (at_ common 72 16) (at_ common 56 16) sport dport
     else e).
Proof.
  intros Hk Hsk Hread. cbn zeta. pose proof Hread as (Hc & _).
  destruct (wf_probe_read k Hk _ _ _ Hc) as [Hl Hwf].
  rewrite (fill_socket_read e sk common proto c) by done. cbn zeta. rewrite family_at by done.
  rewrite <- (fill_ipv4_spec en common Hl Hwf e), <- (fill_ipv6_spec en common Hl Hwf e).
  f_equal. repeat case_decide; repeat (case_match; try done);
    repeat match goal with H : (_ =? _) = _ |- _ => apply Z.eqb_eq in H || apply Z.eqb_neq in H end; done.
Qed.
End tracers.

(** ** From the ring buffer to the lines *)

Section lines.
Context (en : endian) `{BpfRingBufSpec R}.
Variable read_link : Z → option string.

(** What a ring buffer may hold: events' bytes and items of another size; with
    the events and their positions, from [i] on. *)
Inductive ring_items : nat → list bytes → list (nat * NetEvent) → Prop :=
| items_nil i : ring_items i [] []
| items_event i pad e l es :
    wf_NetEvent e → ring_items (S i) l es →
    ring_items i (NetEvent_bytes en pad e :: l) ((i, e) :: es)
| items_other i b l es :
    Z.of_nat (length b) ≠ NetEvent_size → ring_items (S i) l es → ring_items i (b :: l) es.

Lemma drain_items i items es fuel cls now ring pc :
  ring_items i items es → rb_view ring = items → (length items < fuel)%nat →
  (∀ j, system_time (cls j) = Some (now (i + j)%nat)) →
  ∃ ring' pc',
    drain read_link en fuel cls ring pc =
      Ok ((λ '(i, e), event_line (now i) e) <$> es, ring', pc', true) ∧ rb_view ring' = [].
Proof.
  intros Hit. revert fuel cls ring pc.
  induction Hit as [i|i pad e l es He _ IH|i b l es Hb _ IH];
    intros [|fuel] cls ring pc Hv Hf Hnow; cbn [length] in Hf; try lia;
    cbn [drain]; destruct (rb_next_spec ring) as [Hn Hv']; rewrite Hv in Hn, Hv';
    destruct (rb_next ring) as [o r']; cbn [fst snd head tail] in *; subst o.
  - by eexists _, _.
  - rewrite (print_item_event read_link en pad (cls 0%nat) e (now i))
      by (done || (rewrite Hnow; do 2 f_equal; lia)).
    destruct (IH fuel (λ j, cls (S j)) r' (exe read_link pc (ev_pid e) (instant1 (cls 0%nat))
      (instant2 (cls 0%nat))).2) as (ring' & pc' & -> & Hr); [done | lia | |].
    { intros j. rewrite Hnow. do 2 f_equal. lia. }
    by eexists _, _.
  - unfold print_item. rewrite (proj2 (Z.eqb_neq _ _) Hb). cbn [negb].
    destruct (IH fuel (λ j, cls (S j)) r' pc) as (ring' & pc' & -> & Hr); [done | lia | |].
    { intros j. rewrite Hnow. do 2 f_equal. lia. }
    by eexists _, _.
Qed.

(** C17: the monitor drains the ring buffer.  When its items are events' bytes or
    have another size, one pass of the inner loop ends after as many turns as
    there are items, leaves the ring buffer empty, and prints, in the order in
    which the events were sent and once each, the line of every event with the
    time of its turn; it never panics, never reads an invalid event, and skips
    the items of another size. *)
Theorem monitor_prints_events es fuel cls now ring pc :
  ring_items 0 (rb_view ring) es → (length (rb_view ring) < fuel)%nat →
  (∀ i, system_time (cls i) = Some (now i)) →
  ∃ ring' pc',
    drain read_link en fuel cls ring pc =
      Ok ((λ '(i, e), event_line (now i) e) <$> es, ring', pc', true) ∧
    rb_view ring' = [].
Proof. intros Hit Hf Hnow. by eapply drain_items. Qed.
End lines.

(** ** The theorems at concrete inputs *)

Section witnesses.
(** A socket from 10.0.0.1:40000 to 93.184.216.34:443 on a little-endian machine:
    its [sock_common] is 136 bytes. *)
Definition common_demo : bytes :=
  [93; 184; 216; 34] ++ [10; 0; 0; 1] ++ replicate 4 0 ++ [1; 187] ++ [64; 156] ++ [2; 0] ++
  replicate 118 0.

Definition kernel_demo : Kernel := {|
  bpf_ktime_get_ns := 12345;
  bpf_get_current_pid_tgid := 4242 * 2 ^ 32 + 4243;
  bpf_get_current_uid_gid := 1000 * 2 ^ 32 + 1000;
  bpf_get_current_comm := Ok comm_demo;
  bpf_get_socket_cookie _ := 0;
  bpf_probe_read_kernel a n :=
    if decide (a = 65536 ∧ n = 136) then Ok common_demo
    else if decide (a = 66084 ∧ n = 2) then Ok [6; 0] else Err (-14);
|}.

Definition connect_demo : FExitContext :=
  {| ctx_arg i := match i with 0%nat => 65536 | 3%nat => 2 ^ 64 - 115 | _ => 0 end; ctx_ret := Ok 65536 |}.

Lemma kernel_demo_wf : wf_kernel kernel_demo.
Proof.
  split; try concrete.
  - intros c [= <-]. split; concrete.
  - intros a n l. cbn. repeat case_decide; split_hyps; subst; intros [= <-]; split; concrete.
Qed.

Lemma socket_demo_read : socket_read kernel_demo 65536 common_demo [6; 0] comm_demo.
Proof. by split_and!. Qed.

Lemma connect_reported_witness :
  let e := socket_event kernel_demo LittleEndian EvConnect 65536 (-115) common_demo [6; 0] comm_demo in
  rb_view (tcp_v4_connect_exit kernel_demo LittleEndian (λ _, 0) connect_demo (rb_new EVENTS_byte_size : kring)).2
    = [NetEvent_bytes LittleEndian (λ _, 0) e] ∧
  event_line (1700000000, 123456789) e =
    "22:13:20.123 curl               4242 TCP CONNECT ERR(-115)  10.0.0.1:40000 ─────▶ 93.184.216.34:443"%string.
Proof.
  split; [|vm_compute; reflexivity].
  destruct (connect_reported (R := kring) kernel_demo LittleEndian (λ _, 0) connect_demo (rb_new EVENTS_byte_size)
    common_demo [6; 0] comm_demo kernel_demo_wf) as [Hv _];
    [concrete | exact socket_demo_read | vm_compute; reflexivity | vm_compute; reflexivity | exact Hv].
Defined.

Lemma accept_reported_witness :
  let e := socket_event kernel_demo LittleEndian EvAccept 65536 0 common_demo [6; 0] comm_demo in
  rb_view (incoming_connection kernel_demo LittleEndian (λ _, 0) connect_demo (rb_new EVENTS_byte_size : kring)).2
    = [NetEvent_bytes LittleEndian (λ _, 0) e].
Proof.
  destruct (accept_reported (R := kring) kernel_demo LittleEndian (λ _, 0) connect_demo (rb_new EVENTS_byte_size)
    65536 common_demo [6; 0] comm_demo kernel_demo_wf eq_refl) as [_ Ha].
  destruct Ha as (_ & Hv & _);
    [done | concrete | exact socket_demo_read | vm_compute; reflexivity | exact Hv].
Defined.

(** A full ring buffer: the event is lost, and the program returns 0. *)
Lemma tracers_append_at_most_one_witness :
  (tcp_v4_connect_exit kernel_demo LittleEndian (λ _, 0) connect_demo (rb_new 90 : kring)).1 = 0 ∧
  is_ok (try_tcp_v4_connect_exit kernel_demo LittleEndian (λ _, 0) connect_demo (rb_new 90 : kring)).1 = false.
Proof.
  split; [|vm_compute; reflexivity].
  pose proof (tracers_append_at_most_one (R := kring) kernel_demo LittleEndian (λ _, 0) connect_demo
    (rb_new 90) kernel_demo_wf) as H. exact (proj1 (proj1 H)).
Defined.

Lemma socket_end_points_witness :
  fill_socket kernel_demo LittleEndian NetEvent_default 65536 =
    Ok (set_endpoints NetEvent_default ([10; 0; 0; 1] ++ replicate 12 0)
      ([93; 184; 216; 34] ++ replicate 12 0) 40000 443).
Proof.
  pose proof (socket_end_points kernel_demo LittleEndian NetEvent_default 65536 common_demo [6; 0] comm_demo
    kernel_demo_wf ltac:(concrete) socket_demo_read) as H.
  vm_compute in H |- *. exact H.
Defined.

(** A start in the future: the difference wraps. *)
Lemma kernel_helpers_witness :
  in_u 64 (bpf_ktime_get_ns kernel_demo + 1) ∧
  ns_since kernel_demo (bpf_ktime_get_ns kernel_demo + 1) = 2 ^ 64 - 1 ∧
  pid_tgid kernel_demo = pid kernel_demo * 2 ^ 32 + tid kernel_demo.
Proof.
  assert (in_u 64 (bpf_ktime_get_ns kernel_demo + 1)) as Hs by concrete.
  split; [exact Hs|]. split; [vm_compute; reflexivity|].
  exact (proj1 (kernel_helpers kernel_demo 0 _ kernel_demo_wf Hs)).
Defined.

Definition ring_demo : kring :=
  {| kring_size := 4096; kring_items := [[1; 2; 3]; NetEvent_bytes LittleEndian (λ _, 9) traced_demo] |}.

Lemma monitor_prints_events_witness :
  ∃ ring' pc', drain (λ _, None) LittleEndian 5
      (λ _, {| instant1 := 0; instant2 := 0; system_time := Some (0, 0) |}) ring_demo ProcessCache_default =
    Ok ([event_line (0, 0) traced_demo], ring', pc', true).
Proof.
  destruct (monitor_prints_events (R := kring) LittleEndian (λ _, None) [(1%nat, traced_demo)] 5
    (λ _, {| instant1 := 0; instant2 := 0; system_time := Some (0, 0) |}) (λ _, (0, 0)) ring_demo ProcessCache_default)
    as (ring' & pc' & Hd & _).
  - apply items_other; [vm_compute; discriminate|]. apply items_event; [concrete | constructor].
  - simpl. lia.
  - done.
  - exists ring', pc'. exact Hd.
Defined.
End witnesses.
