(* ===== verification/Pipeline.v ===== *)
(** * From the kernel to the screen

    The two tracers, on any number of CPUs, and the monitor share the ring buffer:
    a run of a tracer appends, a turn of the monitor's inner loop takes an item
    and prints.  [p_step] interleaves them; the theorem is that every event that
    was accepted by the ring buffer is printed once, in order. *)

From S2P Require Export Concrete Fexit Monitor Display Tracing.

Section pipeline.
Context (en : endian) `{BpfRingBuf R}.
Variable read_link : Z → option string.

(** The ring buffer, the monitor's cache of executables, and what it has printed. *)
Record PState := { p_ring : R; p_cache : ProcessCache; p_lines : list string }.

(** A run of a tracer, with the answers of the helpers, the padding of the event and
    the context; or a turn of [while let Some(item) = ring.next()], with the
    clocks. *)
Inductive p_event :=
| ConnectExit (k : Kernel) (pad : Z → Z) (ctx : FExitContext)
| AcceptExit (k : Kernel) (pad : Z → Z) (ctx : FExitContext)
| MonitorTurn (cl : clocks).

Definition p_step (ev : p_event) (s : PState) : result PState stop :=
  match ev with
  | ConnectExit k pad ctx =>
      let '(_, ring) := tcp_v4_connect_exit k en pad ctx (p_ring s) in
      Ok {| p_ring := ring; p_cache := p_cache s; p_lines := p_lines s |}
  | AcceptExit k pad ctx =>
      let '(_, ring) := incoming_connection k en pad ctx (p_ring s) in
      Ok {| p_ring := ring; p_cache := p_cache s; p_lines := p_lines s |}
  | MonitorTurn cl =>
      match rb_next (p_ring s) with
      | (None, ring) => Ok {| p_ring := ring; p_cache := p_cache s; p_lines := p_lines s |}
      | (Some item, ring) =>
          match print_item read_link en cl item (p_cache s) with
          | Err e => Err e
          | Ok (lines, pc) => Ok {| p_ring := ring; p_cache := pc; p_lines := p_lines s ++ lines |}
          end
      end
  end.

Fixpoint p_run (evs : list p_event) (s : PState) : result PState stop :=
  match evs with
  | [] => Ok s
  | ev :: evs => match p_step ev s with Ok s => p_run evs s | Err e => Err e end
  end.

Definition p_init : PState :=
  {| p_ring := rb_new EVENTS_byte_size; p_cache := ProcessCache_default; p_lines := [] |}.

(** The event a run of a tracer sends: it could be completed, and the ring buffer
    had room for it. *)
Definition sent_of (k : Kernel) (pad : Z → Z) (ev : EventType) (sk ret : Z) (ring : R) : list NetEvent :=
  match complete_event k en (tracer_event k ev sk ret) sk with
  | Ok e => if is_ok (rb_output ring (NetEvent_bytes en pad e)).1 then [e] else []
  | Err _ => []
  end.

Definition sent_by (ev : p_event) (s : PState) : list NetEvent :=
  match ev with
  | ConnectExit k pad ctx =>
      sent_of k pad EvConnect (ctx_arg ctx 0) (as_i32 (ctx_arg ctx 3)) (p_ring s)
  | AcceptExit k pad ctx =>
      match ctx_ret ctx with
      | Ok newsk => if decide (newsk = 0) then [] else sent_of k pad EvAccept newsk 0 (p_ring s)
      | Err _ => []
      end
  | MonitorTurn _ => []
  end.

(** The events sent in an execution, in order. *)
Fixpoint sent (evs : list p_event) (s : PState) : list NetEvent :=
  match evs with
  | [] => []
  | ev :: evs => sent_by ev s ++ match p_step ev s with Ok s => sent evs s | Err _ => [] end
  end.
End pipeline.

Arguments PState R : clear implicits.
Arguments p_ring {R} _.
Arguments p_cache {R} _.
Arguments p_lines {R} _.

Section proofs.
Context (en : endian) `{BpfRingBufSpec R}.
Variable read_link : Z → option string.
Implicit Types s : PState R.

(** The helpers answer within their types, and the system clock is past the epoch. *)
Definition wf_p_event (ev : p_event) : Prop :=
  match ev with
  | ConnectExit k _ _ | AcceptExit k _ _ => wf_kernel k
  | MonitorTurn cl => is_Some (system_time cl)
  end.

(** A line that shows an event at a time the monitor read. *)
Definition shows (evs : list p_event) (line : string) (e : NetEvent) : Prop :=
  ∃ cl now, MonitorTurn cl ∈ evs ∧ system_time cl = Some now ∧ line = event_line now e.

Definition bytes_of (item : bytes) (e : NetEvent) : Prop :=
  wf_NetEvent e ∧ ∃ pad, item = NetEvent_bytes en pad e.

(** After an execution with the events [all]: those printed, and those in the ring
    buffer. *)
Definition p_ok (evs : list p_event) (all : list NetEvent) s : Prop :=
  ∃ printed waiting, all = printed ++ waiting ∧ Forall2 (shows evs) (p_lines s) printed ∧
    Forall2 bytes_of (rb_view (p_ring s)) waiting.

Lemma output_sent k pad ev sk r ring :
  wf_kernel k → - 2 ^ 31 ≤ r < 2 ^ 31 →
  ∃ items, rb_view (output_event en pad (complete_event k en (tracer_event k ev sk r) sk) ring).2 =
      rb_view ring ++ items ∧ Forall2 bytes_of items (sent_of en k pad ev sk r ring).
Proof.
  intros Hk Hr. rewrite (output_event_view en pad). unfold sent_of, output_event.
  destruct (complete_event k en (tracer_event k ev sk r) sk) as [e|err] eqn:He; [|by eexists].
  apply (complete_event_wf k Hk en pad _ _ _) in He; [|by apply tracer_event_wf].
  destruct (rb_output ring (NetEvent_bytes en pad e)) as [[u|err] ring'] eqn:Ho; simpl;
    (eexists; split; [done|]); [|constructor].
  constructor; [split; [done | by eexists] | constructor].
Qed.

Lemma shows_mono evs evs' line e : evs ⊆ evs' → shows evs line e → shows evs' line e.
Proof. intros Hsub (cl & now & Hin & ?). exists cl, now. split; [by apply Hsub | done]. Qed.

Lemma p_step_ok evs all ev s :
  p_ok evs all s → wf_p_event ev →
  ∃ s', p_step en read_link ev s = Ok s' ∧ p_ok (evs ++ [ev]) (all ++ sent_by en ev s) s'.
Proof.
  intros (printed & waiting & -> & Hl & Hw) Hev.
  assert (Forall2 (shows (evs ++ [ev])) (p_lines s) printed) as Hl'.
  { eapply Forall2_impl; [exact Hl|]. intros ? ?. apply shows_mono. set_solver. }
  assert (∀ ring items es, rb_view ring = rb_view (p_ring s) ++ items → Forall2 bytes_of items es →
    p_ok (evs ++ [ev]) ((printed ++ waiting) ++ es)
      {| p_ring := ring; p_cache := p_cache s; p_lines := p_lines s |}) as Happ.
  { intros ring items es Hr Hi. exists printed, (waiting ++ es). split; [by rewrite app_assoc|].
    split; [done|]. simpl. rewrite Hr. by apply Forall2_app. }
  destruct ev as [k pad ctx|k pad ctx|cl]; cbn [p_step sent_by wf_p_event] in *.
  - unfold tcp_v4_connect_exit, try_tcp_v4_connect_exit. cbn zeta.
    destruct (output_sent k pad EvConnect (ctx_arg ctx 0) (as_i32 (ctx_arg ctx 3)) (p_ring s) Hev)
      as (items & Hv & Hi); [apply as_i32_range|].
    destruct (output_event _ _ _ _) as [[u|err] ring]; eexists; (split; [done|]); by eapply Happ.
  - unfold incoming_connection, try_incoming_connection.
    destruct (ctx_ret ctx) as [newsk|err]; cbn [map_err];
      [|eexists; split; [done|]; eapply Happ; [by rewrite app_nil_r | done]].
    destruct (Z.eqb_spec newsk 0) as [->|Hne].
    { eexists. split; [done|]. eapply Happ; [by rewrite app_nil_r | done]. }
    rewrite decide_False by done.
    destruct (output_sent k pad EvAccept newsk 0 (p_ring s) Hev) as (items & Hv & Hi); [lia|].
    destruct (output_event _ _ _ _) as [[u|err] ring]; eexists; (split; [done|]); by eapply Happ.
  - destruct (rb_next_spec (p_ring s)) as [Hn Ht]. destruct (rb_next (p_ring s)) as [o ring].
    cbn [fst snd] in *. rewrite app_nil_r. destruct Hw as [|item e items waiting [He [pad ->]] Hw].
    + simpl in Hn. subst o. eexists. split; [done|]. exists printed, []. split_and!; [done..|].
      simpl. by rewrite Ht.
    + simpl in Hn. subst o. destruct Hev as [now Hnow].
      rewrite (print_item_event read_link en pad cl e now) by done.
      eexists. split; [done|]. exists (printed ++ [e]), waiting. split; [by rewrite <- app_assoc|].
      split; [|simpl; by rewrite Ht]. apply Forall2_app; [done|]. constructor; [|constructor].
      exists cl, now. split; [set_solver | done].
Qed.

(** C14: every reported connection is printed once and in order.  However the runs
    of the tracers and the turns of the monitor interleave, with whatever the
    helpers answer, the monitor does not stop, and the events the ring buffer has
    accepted are, in the order in which they were sent, those printed so far, one
    line each at a time the monitor read, followed by those whose bytes are still
    in the ring buffer. *)
Theorem events_printed_once evs :
  Forall wf_p_event evs →
  ∃ s printed waiting, p_run en read_link evs (p_init (R := R)) = Ok s ∧
    sent en read_link evs (p_init (R := R)) = printed ++ waiting ∧
    Forall2 (shows evs) (p_lines s) printed ∧ Forall2 bytes_of (rb_view (p_ring s)) waiting.
Proof.
  assert (∀ evs done all s, Forall wf_p_event evs → p_ok done all s →
    ∃ s', p_run en read_link evs s = Ok s' ∧ p_ok (done ++ evs) (all ++ sent en read_link evs s) s') as Hrun.
  { clear evs. induction evs as [|ev evs IH]; intros dn all s Hwf Hok.
    { exists s. rewrite !app_nil_r. by split. }
    apply Forall_cons in Hwf as [Hev Hwf].
    destruct (p_step_ok dn all ev s Hok Hev) as (s1 & Hs & Hok1).
    destruct (IH _ _ s1 Hwf Hok1) as (s' & Hr & Hok'). exists s'. cbn [p_run sent]. rewrite Hs.
    split; [done|]. by rewrite <- !app_assoc in Hok'. }
  intros Hwf. destruct (Hrun evs [] [] (p_init (R := R)) Hwf) as (s & Hr & printed & waiting & Hall & ? & ?).
  - exists [], []. split_and!; [done | constructor|]. simpl. rewrite rb_new_spec. constructor.
  - by exists s, printed, waiting.
Qed.
End proofs.

(** ** The theorem at concrete inputs *)

Definition clocks_demo : clocks := {| instant1 := 0; instant2 := 0; system_time := Some (0, 0) |}.

(** A connection is made, another accepted while the monitor prints the first, and a
    third one waits. *)
Definition pipeline_demo : list p_event :=
  [MonitorTurn clocks_demo; ConnectExit kernel_demo (λ _, 0) connect_demo; MonitorTurn clocks_demo;
   AcceptExit kernel_demo (λ _, 7) connect_demo; ConnectExit kernel_demo (λ _, 0) connect_demo;
   MonitorTurn clocks_demo].

Lemma pipeline_demo_sent :
  map event (sent LittleEndian (λ _, None) pipeline_demo (p_init (R := kring))) =
    [EvConnect; EvAccept; EvConnect].
Proof. vm_compute. reflexivity. Qed.

Lemma events_printed_once_witness :
  Forall wf_p_event pipeline_demo ∧
  ∃ (s : PState kring) printed waiting,
    p_run LittleEndian (λ _, None) pipeline_demo p_init = Ok s ∧
    map event (printed ++ waiting) = [EvConnect; EvAccept; EvConnect] ∧
    length (p_lines s) = length printed.
Proof.
  assert (Forall wf_p_event pipeline_demo) as Hwf.
  { repeat (apply List.Forall_cons; [first [exact kernel_demo_wf | by eexists]|]). by apply List.Forall_nil. }
  split; [exact Hwf|].
  destruct (events_printed_once (R := kring) LittleEndian (λ _, None) pipeline_demo Hwf)
    as (s & printed & waiting & Hr & Hs & Hl & _).
  exists s, printed, waiting. split; [exact Hr|]. split.
  - rewrite <- Hs. exact pipeline_demo_sent.
  - by eapply Forall2_length.
Defined.

Example pipeline_demo_lines :
  match p_run LittleEndian (λ _, None) pipeline_demo (p_init (R := kring)) with
  | Ok s => (length (p_lines s), length (rb_view (p_ring s)))
  | Err _ => (0, 0)%nat
  end = (2, 1)%nat.
Proof. vm_compute. reflexivity. Qed.
