(* ===== verification/Service.v ===== *)
(** * What the daemon and its clients promise each other

    The requests and their answers, the expiry computed for a ban, the framing of
    messages, the progress of the accept loop, and the start of the programs. *)

From S2P Require Export Daemon Client Concrete CommandLine.

Section handler.
Context `{BpfHashMapSpec MB BanValue} `{BpfHashMapSpec MS StatsValue}.
Variable oc : bool.
Implicit Types (b : MB) (st : MS).

(** The target of a request that names one. *)
Definition request_target (req : DaemonRequest) : option string :=
  match req with ReqBan t _ | ReqUnban t => Some t | ReqList | ReqStats => None end.

(** C23: which targets are accepted.  A request to ban or unban is answered "Ok"
    exactly when its target is an IPv4 address in the form the program prints
    addresses in (four decimal octets without leading zeros); any other target is
    answered with the error "invalid ip" and changes no ban. *)
Theorem target_accepted u req target b st resp b' :
  request_target req = Some target → handle_request oc u req b st = Some (resp, b') →
  (resp = RespOk ↔ ∃ ip, wf_ipv4 ip ∧ target = ipv4_to_string ip) ∧
  (resp ≠ RespOk → resp = RespError "invalid ip" ∧ b' = b).
Proof.
  intros Ht Hr.
  assert (match ipv4_from_str target with
          | Ok _ => resp = RespOk
          | Err _ => resp = RespError "invalid ip" ∧ b' = b
          end) as Hcase.
  { destruct req as [t ttl|t| |]; simplify_eq/=; destruct (ipv4_from_str target) as [ip|].
    - destruct (ban_end_time oc u ttl); simplify_eq/=. by destruct (bm_insert _ _ _); simplify_eq.
    - by simplify_eq.
    - by destruct (bm_remove _ _); simplify_eq.
    - by simplify_eq. }
  setoid_rewrite <- ipv4_from_str_spec.
  destruct (ipv4_from_str target) as [ip|]; [by split; [split; eauto|]|].
  destruct Hcase as [-> ->]. split; [|done]. split; [done | by intros [? ?]].
Qed.

(** The other targets the command line documents (a network, an autonomous
    system, a country) are refused as invalid addresses. *)
Theorem documented_targets_refused u ttl b st :
  handle_request oc u (ReqBan "192.168.1.0/24" ttl) b st = Some (RespError "invalid ip", b) ∧
  handle_request oc u (ReqBan "AS123" ttl) b st = Some (RespError "invalid ip", b) ∧
  handle_request oc u (ReqBan "US" ttl) b st = Some (RespError "invalid ip", b).
Proof.
  cbn [handle_request].
  assert (ipv4_from_str "192.168.1.0/24" = Err AddrParseError_Ipv4 ∧
    ipv4_from_str "AS123" = Err AddrParseError_Ipv4 ∧
    ipv4_from_str "US" = Err AddrParseError_Ipv4) as (-> & -> & ->) by vm_done.
  done.
Qed.

(** A ban that does not fit is lost.  When the map is full, the request to ban
    a further address is answered "Ok" and the bans stay as they were. *)
Theorem full_map_ban_lost u target ttl ip e b st :
  ipv4_from_str target = Ok ip → ban_end_time oc u ttl = Some e →
  bm_view b !! u32_of_ipv4 ip = None → (bm_cap b ≤ size (bm_view b))%nat →
  handle_request oc u (ReqBan target ttl) b st = Some (RespOk, b).
Proof.
  intros Hip He Hn Hfull. cbn [handle_request]. rewrite Hip, He. cbn [mbind option_bind].
  destruct (bm_insert_full b (u32_of_ipv4 ip) {| end_time := e |} Hn Hfull) as [_ Hb].
  by destruct (bm_insert _ _ _) as [r m]; simplify_eq/=.
Qed.

(** C24: the list is exact.  The answer to the request for the bans has one text
    for each key, the texts are distinct, and a text is in it exactly when it is
    the text of a banned address. *)
Theorem list_exact u b st resp b' :
  (∀ k v, bm_view b !! k = Some v → in_u 32 k) →
  handle_request oc u ReqList b st = Some (resp, b') →
  b' = b ∧ ∃ l, resp = RespList l ∧ NoDup l ∧ length l = size (bm_view b) ∧
    ∀ s, s ∈ l ↔ ∃ ip v, wf_ipv4 ip ∧ s = ipv4_to_string ip ∧ bm_view b !! u32_of_ipv4 ip = Some v.
Proof.
  intros Hk. cbn [handle_request]. intros [= <- <-]. split; [done|].
  assert (omap ok (bm_keys b) ≡ₚ (map_to_list (bm_view b)).*1) as Hp.
  { rewrite bm_keys_spec. generalize ((map_to_list (bm_view b)).*1). intros l.
    induction l as [|k l IH]; [done|]. simpl. by rewrite IH. }
  set (text := λ k, ipv4_to_string (ipv4_of_u32 k)).
  assert (∀ k, k ∈ omap ok (bm_keys b) ↔ is_Some (bm_view b !! k)) as Hin.
  { intros k. rewrite Hp, list_elem_of_fmap. split.
    - intros ([k' v] & -> & Hkv%elem_of_map_to_list). eauto.
    - intros [v Hv]. exists (k, v). by rewrite elem_of_map_to_list. }
  assert (∀ k, in_u 32 k → ipv4_from_str (text k) = Ok (ipv4_of_u32 k)) as Hparse.
  { intros k ?. apply ipv4_from_str_spec. auto with rust. }
  exists (text <$> omap ok (bm_keys b)). split_and!; [done | | |].
  - apply NoDup_fmap_2_strong.
    + intros k1 k2 [v1 Hv1]%Hin [v2 Hv2]%Hin Heq. pose proof (Hparse k1 (Hk _ _ Hv1)) as H1'.
      rewrite Heq, Hparse in H1' by eauto.
      rewrite <- (u32_of_ipv4_of_u32 k1), <- (u32_of_ipv4_of_u32 k2) by eauto. congruence.
    + rewrite Hp. apply NoDup_fst_map_to_list.
  - by rewrite length_fmap, Hp, length_fmap, length_map_to_list.
  - intros s. rewrite list_elem_of_fmap. split.
    + intros (k & -> & [v Hv]%Hin). exists (ipv4_of_u32 k), v.
      rewrite u32_of_ipv4_of_u32 by eauto. auto with rust.
    + intros (ip & v & Hip & -> & Hv). exists (u32_of_ipv4 ip). unfold text.
      rewrite ipv4_of_u32_of_ipv4 by done. split; [done|]. apply Hin. eauto.
Qed.
End handler.

(** C30: the expiry of a ban at the width of the machine.  A ban without a
    time-to-live is permanent.  With one, a build with overflow checks computes
    the clock plus the time-to-live in nanoseconds, or panics when that exceeds
    64 bits; a build without them wraps it, so that a longer time-to-live can give
    an earlier expiry. *)
Theorem ban_expiry oc u t :
  0 ≤ t →
  let sum := get_boot_time_ns u + t * 1000000000 in
  ban_end_time oc u None = Some 0 ∧
  ban_end_time oc u (Some t) =
    (if decide (sum < 2 ^ 64) then Some sum else if oc then None else Some (wrap 64 sum)) ∧
  in_u 64 (get_boot_time_ns u).
Proof.
  intros Ht sum. assert (in_u 64 (get_boot_time_ns u)) as Hu by (apply wrap_range; lia).
  split_and!; [done | | done]. unfold ban_end_time. cbn zeta. unfold sum.
  destruct (decide (in_u 64 (t * 1000000000))) as [Hd|Hd].
  - rewrite arith_small by done. cbn [mbind option_bind]. unfold arith.
    repeat case_decide; try done; exfalso; uint.
  - assert (2 ^ 64 ≤ t * 1000000000) by (unfold in_u in Hd; lia).
    unfold arith at 2. rewrite (decide_False (P := in_u 64 (t * _))) by done.
    rewrite (decide_False (P := _ < _)) by (unfold in_u in Hu; lia).
    destruct oc; [done|]. cbn [mbind option_bind]. unfold arith.
    assert (∀ x, wrap 64 (get_boot_time_ns u + wrap 64 x) = wrap 64 (get_boot_time_ns u + x)) as Hw.
    { intros x. unfold wrap. by rewrite Zplus_mod_idemp_r. }
    case_decide as Hin; [|by rewrite Hw]. by rewrite <- Hw, (wrap_small 64 (_ + _)).
Qed.

Section service.
Context `{BpfHashMapSpec MB BanValue} `{BpfHashMapSpec MS StatsValue}.
Context `{SerdeJsonSpec} `{TokioStreamSpec T}.
Implicit Types (b : MB) (st : MS).

(** A message that does not arrive whole does nothing.  When the peer closes
    the connection before the length or the body is complete, the turn of the loop
    ends without an answer, and when the body is no request it is answered with
    the error "invalid request"; no ban changes. *)
Theorem bad_message_harmless oc u stream b st :
  wf_bytes (st_in stream) → st_writable stream = true → st_closed stream = true →
  (message (st_in stream) = None → serve oc u stream b st = (Next None, b)) ∧
  (∀ buf, message (st_in stream) = Some buf → is_ok (from_slice_request buf) = false →
     ∃ stream' r, serve oc u stream b st = (Next (Some stream'), b) ∧
       st_out stream' = st_out stream ++ frame_bytes r ∧
       from_slice_response r = Ok (RespError "invalid request")).
Proof.
  intros Hwf Hw Hcl. pose proof (serve_message oc u stream b st Hwf) as Hs. rewrite Hcl in Hs.
  split; [by intros Hm; rewrite Hm in Hs|].
  intros buf Hm Hreq. rewrite Hm in Hs. destruct Hs as (s1 & _ & Ho & Hw1 & ->).
  unfold respond. destruct (from_slice_request buf) as [|e]; [done|].
  destruct (send_response_ok (RespError "invalid request") s1) as (r & s2 & -> & _ & Hd & _ & _ & Ho2);
    [congruence|].
  exists s2, r. split_and!; [done | congruence | done].
Qed.

(** A peer that completes its side: it reads the answer, and it sends a whole
    message or closes the connection. *)
Definition responsive (stream : T) : Prop :=
  wf_bytes (st_in stream) ∧ st_writable stream = true ∧
  (st_closed stream = true ∨ is_Some (message (st_in stream))).

(** C33: progress of the accept loop.  In a build without overflow checks, when
    every peer completes its side, the loop takes every turn to its end: none of
    the connections is left, each accepted one has an outcome, and failed accepts
    are skipped. *)
Theorem accept_loop_progress conns b :
  Forall (λ '(_, _, r), match r with Ok stream => responsive stream | Err _ => True end) conns →
  ∃ out b', accept_loop false conns b = (out, b', []) ∧
    length out = length (omap (λ '(_, _, r), ok r) conns : list T) ∧
    Forall (λ o, ∃ sent, o = Next sent) out.
Proof.
  intros Hc. revert b. induction Hc as [|[[u st] r] conns Hr _ IH]; intros b; [by exists [], b|].
  destruct r as [stream|e]; [|apply IH]. destruct Hr as (Hwf & Hw & Hcl). simpl.
  assert (∃ sent b1, serve false u stream b st = (Next sent, b1)) as (sent & b1 & ->).
  { pose proof (serve_message false u stream b st Hwf) as Hs.
    destruct (message (st_in stream)) as [buf|].
    - destruct Hs as (s1 & _ & _ & Hw1 & ->). rewrite Hw in Hw1.
      destruct (respond false u buf b st) as [[resp b1]|] eqn:Hresp.
      + destruct (send_response_ok resp s1 Hw1) as (? & s2 & -> & _). eauto.
      + destruct (respond_release u buf b st) as [x Hx]. by rewrite Hx in Hresp.
    - destruct Hcl as [Hcl|[? ?]]; [|done]. rewrite Hcl in Hs. eauto. }
  destruct (IH b1) as (out & b' & -> & Hlen & Hout).
  exists (Next sent :: out), b'. split_and!; [done | simpl; by rewrite Hlen | constructor; eauto].
Qed.

(** C18: a command and its answer.  What the client writes for a command is what
    the daemon reads: the daemon handles exactly that request, and the client
    prints the lines of exactly the response the handler gave. *)
Theorem command_roundtrip oc u cmd req b st resp b' (client server : T) :
  command_request cmd = Some req → wf_request req →
  st_writable client = true → st_out client = [] →
  st_writable server = true → st_out server = [] →
  handle_request oc u req b st = Some (resp, b') →
  (∀ l, to_vec_request req = Ok l → Z.of_nat (length l) < 2 ^ 32) →
  (∀ l, to_vec_response resp = Ok l → Z.of_nat (length l) < 2 ^ 32) →
  ∃ client', send_request client req = Some (Ok client') ∧
    (st_in server = st_out client' →
     ∃ server', serve oc u server b st = (Next (Some server'), b') ∧
       ∀ client'', st_in client'' = st_out server' →
         receive_response client'' = Some (Ok (print_response resp))).
Proof.
  intros Hcmd Hwf Hcw Hco Hsw Hso Hresp Hl1 Hl2.
  destruct (send_request_ok client req Hwf Hcw) as (l & client' & Hsend & Hdec & Hlw & Hvec & Hout & _).
  exists client'. split; [done|]. intros Hin. rewrite Hco in Hout. simpl in Hout.
  rewrite Hout in Hin.
  assert (message (st_in server) = Some l) as Hmsg.
  { rewrite Hin, <- (app_nil_r (frame_bytes l)). apply message_frame; auto. }
  assert (wf_bytes (st_in server)) as Hsin.
  { rewrite Hin. apply Forall_app. split; [by apply wf_to_be_bytes | done]. }
  pose proof (serve_message oc u server b st Hsin) as Hs. rewrite Hmsg in Hs.
  destruct Hs as (s1 & _ & Ho1 & Hw1 & ->). unfold respond. rewrite Hdec, Hresp.
  destruct (send_response_ok resp s1) as (r & s2 & -> & Hrv & Hrd & Hrw & Hrne & Hro); [congruence|].
  exists s2. split; [done|]. intros c Hc.
  apply (receive_response_framed c r resp []); auto.
  rewrite app_nil_r, Hc, Hro, Ho1, Hso. done.
Qed.

(** C32: what the client accepts as an answer.  It prints exactly the lines of a
    response whose text, not empty, arrived whole behind its length; when the
    daemon closes the connection it always ends, with an error in every other
    case. *)
Theorem client_answers (stream : T) :
  wf_bytes (st_in stream) →
  (∀ lines, receive_response stream = Some (Ok lines) ↔
     ∃ r resp, message (st_in stream) = Some r ∧ r ≠ [] ∧ from_slice_response r = Ok resp ∧
       lines = print_response resp) ∧
  (st_closed stream = true → is_Some (receive_response stream)).
Proof.
  intros Hwf. unfold receive_response, message. case_bool_decide as Hl.
  { pose proof (read_u32_short stream Hl) as Hr. destruct (st_closed stream).
    - destruct Hr as [e ->]. simpl. split; [|eauto]. intros lines.
      split; [done | by intros (? & ? & ? & _)].
    - rewrite Hr. split; [|done]. intros lines. split; [done | by intros (? & ? & ? & _)]. }
  destruct (read_u32_ok stream) as (s1 & -> & Hi1 & Hc1 & _); [lia|]. cbn [and_then].
  assert (0 ≤ from_be_bytes (take 4 (st_in stream))) as Hpos
    by (apply from_be_bytes_range; by apply Forall_take).
  set (n := from_be_bytes (take 4 (st_in stream))) in *. rewrite <- Hi1.
  destruct (Z.eqb_spec n 0) as [Hn|Hn].
  { split; [|eauto]. rewrite Hn. intros lines. split; [done|]. rewrite bool_decide_true by lia.
    by intros (? & ? & [= <-] & ? & _). }
  case_bool_decide as Hb.
  - destruct (read_exact_ok s1 n) as (s2 & -> & _); [done|]. cbn [and_then].
    destruct (from_slice_response _) as [resp|e] eqn:Hd; (split; [|eauto]); intros lines.
    + split; [intros [= <-] | intros (r & resp' & Hr & _ & Hd' & ->); congruence].
      eexists _, resp. split_and!; [done | | done | done].
      intros Hnil%(f_equal length). rewrite length_take in Hnil. simpl in Hnil. lia.
    + split; [done|]. intros (r & resp' & Hr & _ & Hd' & _). congruence.
  - pose proof (read_exact_short s1 n (proj1 (Z.nle_gt _ _) Hb)) as Hr. rewrite Hc1 in Hr.
    destruct (st_closed stream).
    + destruct Hr as [e ->]. simpl. split; [|eauto]. intros lines.
      split; [done | by intros (? & ? & ? & _)].
    + rewrite Hr. split; [|done]. intros lines. split; [done | by intros (? & ? & ? & _)].
Qed.
End service.

(** ** The start of the programs *)

(** The trace of a run that stops here: an initial part, and which one. *)
Ltac trace_done :=
  split_and!; [by eexists | first [done | split;
    first [done | by intros _ | intros; split_hyps; exfalso; simplify_eq/=; case_match; done]] ..].

Section setup.
Context {Logger : Type} (sys : System Logger).

(** The change of the memory limit, with the record of its failure. *)
Definition memlock_trace : list effect :=
  SetMemlockLimit ::
  if setrlimit sys =? 0 then []
  else [Log (debug ("remove limit on locked memory failed, ret is: " +:+ fmt_int (setrlimit sys)))].

(** The logger of the kernel side is flushed, or its absence is recorded. *)
Definition logger_trace : list effect :=
  match ebpf_logger sys with
  | Ok _ => [SpawnLogFlush]
  | Err e => [Log (warn ("failed to initialize eBPF logger: " +:+ e))]
  end.

(** The effects of the daemon up to its wait for Ctrl-C, and of a complete run. *)
Definition daemon_serving (iface : string) : list effect :=
  InitLogger :: memlock_trace ++ logger_trace ++
  [LoadProgram "rustguard"; AttachXdp iface; TakeMap "BANNED_IPS"; TakeMap "STATS";
   Log (info ("starting daemon on iface=" +:+ iface));
   RemoveFile SOCKET_PATH; BindSocket SOCKET_PATH; SetPermissions SOCKET_PATH 432;
   Log (info "Daemon started. Listening on /tmp/rustguard.sock"); SpawnAcceptLoop;
   Print ("Daemon running on interface " +:+ iface +:+ ". Press Ctrl-C to exit.")].
Definition daemon_trace (iface : string) : list effect :=
  daemon_serving iface ++ [Print "Exiting..."; RemoveFile SOCKET_PATH].

(** C35: the order of the daemon's start.  Whatever the libraries answer, the
    effects are an initial part of the complete run's: so the filter is attached
    and the maps taken before the socket exists, its mode is restricted before a
    connection is accepted, and a run that returns has done everything, the
    removal of the socket included.  It stays running exactly when Ctrl-C never comes
    and it has come to wait for it, accepting connections.  Neither a memory limit that cannot be raised
    nor a missing logger of the kernel side stops it: each leaves one record. *)
Theorem daemon_start_order l iface :
  let p := run_daemon sys l iface in
  let trace := daemon_trace iface in
  p.1 `prefix_of` trace ∧ (p.2 = Return () ↔ p.1 = trace) ∧
  (p.2 = Hang ↔ ctrl_c sys = None ∧ p.1 = daemon_serving iface).
Proof.
  unfold daemon_trace, daemon_serving, run_daemon, init_env_logger, init_ebpf_logger, get_program, load_program, attach_program,
    get_map, raise_memlock_limit, memlock_trace, logger_trace. simpl.
  destruct (env_logger_init sys l) as [l'|]; simpl; [|trace_done].
  destruct (setrlimit sys =? 0); simpl;
  (destruct (ebpf_load sys) as [[]|]; simpl; [|trace_done]);
  (destruct (ebpf_logger sys) as [[[]|]|]; simpl; [|trace_done|]);
  (destruct (program_mut sys "rustguard") as [[[]|]|]; simpl; [|trace_done..]);
  (destruct (program_load sys "rustguard") as [[]|]; simpl; [|trace_done]);
  (destruct (program_attach sys "rustguard") as [[]|]; simpl; [|trace_done]);
  (destruct (take_map sys "BANNED_IPS") as [[[]|]|]; simpl; [|trace_done..]);
  (destruct (take_map sys "STATS") as [[[]|]|]; simpl; [|trace_done..]);
  (destruct (bind_socket sys SOCKET_PATH) as [[]|]; simpl; [|trace_done]);
  (destruct (set_permissions sys SOCKET_PATH) as [[]|]; simpl; [|trace_done]);
  (destruct (ctrl_c sys) as [[[]|]|]; simpl; trace_done).
Qed.

Definition monitor_trace (header : string) : list effect :=
  logger_trace ++
  [LoadProgram "tcp_v4_connect_exit"; AttachFexit "tcp_v4_connect_exit" "tcp_v4_connect";
   LoadProgram "incoming_connection"; AttachFexit "incoming_connection" "inet_csk_accept";
   TakeMap "EVENTS"; Print header; Monitoring].

(** The order of the monitor's start.  Whatever the libraries answer, the
    effects are an initial part of the complete run's, and the monitor never
    returns: it fails, panics, or has attached both tracers and taken the events
    before it enters its endless loop. *)
Theorem monitor_start_order header :
  let p := monitor_run sys header in
  let trace := monitor_trace header in
  p.1 `prefix_of` trace ∧ p.2 ≠ Return () ∧ (p.2 = Hang ↔ p.1 = trace).
Proof.
  unfold monitor_run, init_ebpf_logger, get_program, load_program, attach_program, monitor_trace,
    logger_trace. simpl.
  destruct (ebpf_load sys) as [[]|]; simpl; [|trace_done].
  destruct (ebpf_logger sys) as [[[]|]|]; simpl; [|trace_done|];
  (destruct (btf_from_sys_fs sys) as [[]|]; simpl; [|trace_done]);
  (destruct (program_mut sys "tcp_v4_connect_exit") as [[[]|]|]; simpl; [|trace_done..]);
  (destruct (program_load sys "tcp_v4_connect_exit") as [[]|]; simpl; [|trace_done]);
  (destruct (program_attach sys "tcp_v4_connect_exit") as [[]|]; simpl; [|trace_done]);
  (destruct (program_mut sys "incoming_connection") as [[[]|]|]; simpl; [|trace_done..]);
  (destruct (program_load sys "incoming_connection") as [[]|]; simpl; [|trace_done]);
  (destruct (program_attach sys "incoming_connection") as [[]|]; simpl; [|trace_done]);
  (destruct (take_map sys "EVENTS") as [[[]|]|]; simpl; trace_done).
Qed.

(** What a command asks the daemon for. *)
Inductive asks : Commands → DaemonRequest → Prop :=
| asks_ban target ttl : asks (CmdBan target ttl) (ReqBan target ttl)
| asks_unban target : asks (CmdUnban target) (ReqUnban target)
| asks_list : asks CmdList ReqList
| asks_stats : asks CmdStats ReqStats.

(** C19: the client's commands.  For a ban, unban, list or stats command, [main]
    connects to the daemon's socket and writes a message that decodes to exactly the
    request of that command, behind its length; when the answer arrives it then
    prints exactly its lines and returns, and when the connection fails it fails with
    that error, having written and printed nothing. *)
Theorem main_runs_command `{SerdeJsonSpec} `{TokioStreamSpec T} l l' header connect show cmd req :
  env_logger_init sys l = Some l' → asks cmd req → wf_request req →
  let run := main (T := T) sys l header connect show {| command := cmd |} in
  (∀ stream b resp rest, connect SOCKET_PATH = Ok stream → st_writable stream = true →
     from_slice_response b = Ok resp → wf_bytes b → b ≠ [] → Z.of_nat (length b) < 2 ^ 32 →
     st_in stream = frame_bytes b ++ rest →
     ∃ m, from_slice_request m = Ok req ∧
       run = ([InitLogger; ConnectTo SOCKET_PATH; Send (to_be_bytes 4 (as_u32 (Z.of_nat (length m)))); Send m] ++
              (Print <$> print_response resp), Return ())) ∧
  (∀ e, connect SOCKET_PATH = Err e →
     run = ([InitLogger; ConnectTo SOCKET_PATH], Fail (show (ConnectFailed e)))).
Proof.
  intros Hl Hasks Hwf run.
  assert (command_request cmd = Some req) as Hcmd by by destruct Hasks.
  assert (run = let '(eff, r) := command_proc connect show SOCKET_PATH cmd in (InitLogger :: eff, r)) as Hrun.
  { subst run. unfold main, init_env_logger. rewrite Hl. by destruct cmd. }
  rewrite Hrun. unfold command_proc. split.
  - intros stream b resp rest -> Hw Hd Hb Hne Hlen Hin.
    destruct (send_command_writes_answered stream cmd req b resp rest) as (m & Hm & _ & ->); try done.
    by exists m.
  - intros e ->. done.
Qed.

(** The daemon does not start from the command line.  [main] initialises the
    logger and [run_daemon] does it again; the second initialisation panics
    (env_logger: "This function will panic if it is called more than once"), and
    nothing is loaded, attached or bound. *)
Theorem daemon_command_panics `{SerdeJson} `{TokioStream T} l header connect show iface :
  (∀ l', env_logger_init sys l = Some l' → env_logger_init sys l' = None) →
  is_Some (env_logger_init sys l) →
  main (T := T) sys l header connect show {| command := CmdDaemon iface |} =
    ([InitLogger], PanicAt "env_logger::init").
Proof.
  intros Htwice [l' Hl]. unfold main, run_daemon, init_env_logger. rewrite Hl. simpl.
  by rewrite (Htwice _ Hl).
Qed.
End setup.

(** ** The theorems at concrete inputs *)

Section witnesses.
Abbreviation MB := (khash BanValue).
Abbreviation MS := (khash StatsValue).

(** The bans 1.2.3.4 (permanent) and 9.8.7.6, alone in a map of two entries. *)
Definition bans_demo : MB :=
  {| kcap := 2; ktbl := <[16909060 := {| end_time := 0 |}]> {[151521030 := {| end_time := 5 |}]} |}.
Definition stats_demo : MS := {| kcap := 1; ktbl := ∅ |}.

Lemma target_accepted_witness :
  ∃ resp b', handle_request true (Some 1) (ReqBan "01.2.3.4" None) bans_demo stats_demo = Some (resp, b') ∧
    (resp ≠ RespOk → resp = RespError "invalid ip" ∧ b' = bans_demo).
Proof.
  exists (RespError "invalid ip"), bans_demo. split; [vm_compute; reflexivity|].
  apply (target_accepted (MB := MB) (MS := MS) true (Some 1) (ReqBan "01.2.3.4" None) "01.2.3.4"
    bans_demo stats_demo); vm_compute; reflexivity.
Defined.

Lemma full_map_ban_lost_witness :
  handle_request true (Some 1) (ReqBan "10.0.0.1" (Some 60)) bans_demo stats_demo =
    Some (RespOk, bans_demo).
Proof.
  apply (full_map_ban_lost (MB := MB) (MS := MS) true (Some 1) "10.0.0.1" (Some 60) (Ipv4 [10; 0; 0; 1])
    60000000001); [vm_compute; reflexivity.. | concrete].
Defined.

Lemma list_exact_witness :
  ∃ l, handle_request true None ReqList bans_demo stats_demo = Some (RespList l, bans_demo) ∧
    length l = 2%nat ∧ ("9.8.7.6"%string) ∈ l.
Proof.
  destruct (list_exact (MB := MB) (MS := MS) true None bans_demo stats_demo
    (RespList ["9.8.7.6"; "1.2.3.4"]%string) bans_demo) as (_ & l & Hl & _ & Hlen & Hin).
  - assert (map_Forall (λ k _, in_u 32 k) (ktbl bans_demo)) as Hk by concrete. exact Hk.
  - vm_compute. reflexivity.
  - exists l. rewrite <- Hl. split_and!; [vm_compute; reflexivity | rewrite Hlen; vm_compute; reflexivity |].
    apply Hin. exists (Ipv4 [9; 8; 7; 6]), {| end_time := 5 |}.
    split_and!; [split; concrete | vm_compute; reflexivity | vm_compute; reflexivity].
Defined.

(** A ban for 18446744074 seconds ends 0.29 seconds later without the checks. *)
Lemma ban_expiry_witness :
  0 ≤ 18446744074 ∧
  ban_end_time true (Some 1700000000000000000) (Some 18446744074) = None ∧
  ban_end_time false (Some 1700000000000000000) (Some 18446744074) = Some 1700000000290448384.
Proof.
  split; [lia|].
  destruct (ban_expiry true (Some 1700000000000000000) 18446744074 ltac:(lia)) as (_ & Ht & _).
  destruct (ban_expiry false (Some 1700000000000000000) 18446744074 ltac:(lia)) as (_ & Hf & _).
  split; [exact Ht | exact Hf].
Defined.

Lemma bad_message_harmless_witness :
  serve true None (closed_pipe [0; 0; 0; 9; 1]) bans_demo stats_demo = (Next None, bans_demo).
Proof.
  apply (bad_message_harmless (MB := MB) (MS := MS) (T := pipe) true None (closed_pipe [0; 0; 0; 9; 1]));
    [concrete | reflexivity | reflexivity | vm_compute; reflexivity].
Defined.

Definition conns_demo : list (option Z * MS * result pipe (IoError pipe)) := [
  (None, stats_demo, Err (() : IoError pipe)); (None, stats_demo, Ok (closed_pipe [0]));
  (Some 7, stats_demo, Ok (request_demo (ReqUnban "1.2.3.4")))].

Lemma accept_loop_progress_witness :
  ∃ out b', accept_loop (T := pipe) false conns_demo bans_demo = (out, b', []) ∧
    length out = 2%nat.
Proof.
  destruct (accept_loop_progress (MB := MB) (MS := MS) (T := pipe) conns_demo bans_demo)
    as (out & b' & Hl & Hlen & _).
  - apply Forall_cons; split; [done|]. apply Forall_cons; split; [|apply Forall_singleton].
    + split_and!; [concrete | reflexivity | by left].
    + split_and!; [concrete | reflexivity | right; eexists; vm_compute; reflexivity].
  - exists out, b'. split; [exact Hl | exact Hlen].
Defined.

Definition sent_demo : pipe :=
  {| p_in := []; p_closed := false; p_out := frame_bytes (request_text ReqList); p_writable := true |}.

Lemma command_roundtrip_witness :
  send_request (open_pipe []) ReqList = Some (Ok sent_demo) ∧
  ∃ server' : pipe,
    serve true None (open_pipe (frame_bytes (request_text ReqList))) bans_demo stats_demo = (Next (Some server'), bans_demo) ∧
    receive_response (open_pipe (p_out server')) =
      Some (Ok ["Active bans:"; "  9.8.7.6"; "  1.2.3.4"]%string).
Proof.
  destruct (command_roundtrip (MB := MB) (MS := MS) (T := pipe) true None CmdList ReqList bans_demo
    stats_demo (RespList ["9.8.7.6"; "1.2.3.4"]%string) bans_demo (open_pipe [])
    (open_pipe (frame_bytes (request_text ReqList)))) as (client' & Hs & Hserve); try done.
  - intros l [= <-]. vm_compute. reflexivity.
  - intros l [= <-]. vm_compute. reflexivity.
  - assert (send_request (open_pipe []) ReqList = Some (Ok sent_demo)) as Hsent by reflexivity.
    split; [exact Hsent|]. rewrite Hsent in Hs. injection Hs as <-.
    destruct (Hserve eq_refl) as (server' & Hsv & Hrecv).
    exists server'. split; [exact Hsv | exact (Hrecv (open_pipe (p_out server')) eq_refl)].
Defined.

Lemma client_answers_witness :
  receive_response (closed_pipe (frame_bytes (response_text RespOk))) = Some (Ok ["Success"%string]).
Proof.
  apply (client_answers (T := pipe) (closed_pipe (frame_bytes (response_text RespOk)))); [concrete|].
  exists (response_text RespOk), RespOk. split_and!; [vm_compute; reflexivity | done | reflexivity | reflexivity].
Defined.

(** Libraries that all succeed; the state of the logger is whether it is set. *)
Lemma main_runs_command_witness :
  ∃ m, from_slice_request m = Ok (ReqUnban "1.2.3.4") ∧
    main (T := pipe) sys_demo false "TIME" (λ _, Ok (open_pipe (frame_bytes (response_text RespOk))))
      (λ _, "error"%string) {| command := CmdUnban "1.2.3.4" |} =
    ([InitLogger; ConnectTo SOCKET_PATH; Send (to_be_bytes 4 (as_u32 (Z.of_nat (length m)))); Send m;
      Print "Success"], Return ()).
Proof.
  destruct (main_runs_command (T := pipe) sys_demo false true "TIME"
    (λ _, Ok (open_pipe (frame_bytes (response_text RespOk)))) (λ _, "error"%string)
    (CmdUnban "1.2.3.4") (ReqUnban "1.2.3.4") eq_refl (asks_unban _) I) as [Hok _].
  assert (wf_bytes (response_text RespOk)) as Hwf by concrete.
  assert (response_text RespOk ≠ []) as Hne by discriminate.
  assert (from_slice_response (response_text RespOk) = Ok RespOk) as Hd by (vm_compute; reflexivity).
  assert (Z.of_nat (length (response_text RespOk)) < 2 ^ 32) as Hlen by (vm_compute; reflexivity).
  assert (st_in (open_pipe (frame_bytes (response_text RespOk))) =
    frame_bytes (response_text RespOk) ++ []) as Hin by (symmetry; apply app_nil_r).
  destruct (Hok (open_pipe (frame_bytes (response_text RespOk))) (response_text RespOk) RespOk []
    eq_refl eq_refl Hd Hwf Hne Hlen Hin) as (m & Hm & Hrun).
  exists m. split; [exact Hm | exact Hrun].
Defined.

Lemma daemon_command_panics_witness :
  main (T := pipe) sys_demo false "TIME" (λ _, Err (() : IoError pipe)) (λ _, "error"%string)
    {| command := CmdDaemon "eth0" |} =
    ([InitLogger], PanicAt "env_logger::init").
Proof.
  apply (daemon_command_panics (T := pipe) sys_demo false); [|by eexists].
  intros l'. simpl. by intros [= <-].
Defined.
End witnesses.
