(* ===== verification/Logging.v ===== *)
(** * What the daemon logs

    The accept loop of [run_daemon] with the records its [warn!] macros hand to the
    logger, and the theorem that they explain what became of each connection.  The
    texts of the errors of tokio and serde_json are parameters. *)

From S2P Require Export Service.

(** A computation and the records it logs. *)
Definition logged (A : Type) : Type := list LogRecord * A.
#[export] Instance logged_ret : MRet logged := λ _ a, ([], a).
#[export] Instance logged_bind : MBind logged :=
  λ _ _ k m, let '(l, a) := m in let '(l', b) := k a in (l ++ l', b).
Definition log (r : LogRecord) : logged () := ([r], ()).

Section logging.
Context `{BpfHashMap MB BanValue} `{BpfHashMap MS StatsValue} `{SerdeJson} `{TokioStream T}.
Variable overflow_checks : bool.
(** [{e}]. *)
Variable io_error : IoError T → string.
Variable json_error : JsonError → string.

Definition respond_logged (utc : option Z) (buf : bytes) (banned_ips : MB) (stats : MS) :
    logged (option (DaemonResponse * MB)) :=
  match from_slice_request buf with
  | Ok req => mret (handle_request overflow_checks utc req banned_ips stats)
  | Err e =>
      log (warn ("bad request json: " +:+ json_error e));;
      mret (Some (RespError "invalid request", banned_ips))
  end.

Definition serve_logged (utc : option Z) (stream : T) (banned_ips : MB) (stats : MS) :
    logged (served (T := T) * MB) :=
  match read_u32 stream with
  | None => mret (Blocked, banned_ips)
  | Some (Err e) => log (warn ("read len failed: " +:+ io_error e));; mret (Next None, banned_ips)
  | Some (Ok (len, stream)) =>
      match read_exact stream len with
      | None => mret (Blocked, banned_ips)
      | Some (Err e) => log (warn ("read body failed: " +:+ io_error e));; mret (Next None, banned_ips)
      | Some (Ok (buf, stream)) =>
          answer ← respond_logged utc buf banned_ips stats;
          match answer with
          | None => mret (Panicked, banned_ips)
          | Some (resp, banned_ips) => mret (send_response resp stream, banned_ips)
          end
      end
  end.

Fixpoint accept_loop_logged (conns : list (option Z * MS * result T (IoError T))) (banned_ips : MB) :
    logged (list (served (T := T)) * MB * list (option Z * MS * result T (IoError T))) :=
  match conns with
  | [] => mret ([], banned_ips, [])
  | (_, _, Err e) :: conns =>
      log (warn ("accept error: " +:+ io_error e));; accept_loop_logged conns banned_ips
  | (utc, stats, Ok stream) :: conns =>
      turn ← serve_logged utc stream banned_ips stats;
      match turn with
      | (Next sent, banned_ips) =>
          rest ← accept_loop_logged conns banned_ips;
          let '(out, banned_ips, rest) := rest in mret (Next sent :: out, banned_ips, rest)
      | (stop, banned_ips) => mret ([stop], banned_ips, conns)
      end
  end.
End logging.

(** The task that hands the records of the kernel side to the logger:
    [flush] is [EbpfLogger::flush], a readiness what [readable_mut().await] gave; an
    error is the panic of its [unwrap]. *)
Section flush_task.
Context {EbpfLogger E : Type} (flush : EbpfLogger → logged EbpfLogger).

Inductive flush_task := Waiting (logger : EbpfLogger) | FlushPanicked.

Fixpoint flush_loop (readiness : list (result () E)) (logger : EbpfLogger) : logged flush_task :=
  match readiness with
  | [] => mret (Waiting logger)
  | Ok _ :: readiness => logger ← flush logger; flush_loop readiness logger
  | Err _ :: _ => mret FlushPanicked
  end.
End flush_task.
Arguments FlushPanicked {_}.
Arguments Waiting {_} logger.

Section logging_proofs.
Context `{BpfHashMapSpec MB BanValue} `{BpfHashMapSpec MS StatsValue}.
Context `{SerdeJsonSpec} `{TokioStreamSpec T}.
Variable oc : bool.
Variable io_error : IoError T → string.
Variable json_error : JsonError → string.
Implicit Types (b : MB) (st : MS).

(** The records of one turn of the loop: none for a request that arrived whole, and
    none for a message still awaited; one that names the step that failed
    otherwise. *)
Definition explained (turn : option Z * MS * result T (IoError T)) (l : list LogRecord) : Prop :=
  match turn with
  | (_, _, Err e) => l = [warn ("accept error: " +:+ io_error e)]
  | (_, _, Ok stream) =>
      match message (st_in stream) with
      | Some buf =>
          match from_slice_request buf with
          | Ok _ => l = []
          | Err e => l = [warn ("bad request json: " +:+ json_error e)]
          end
      | None =>
          if st_closed stream then
            ∃ e, l = [warn ((if bool_decide (length (st_in stream) < 4)%nat then "read len failed: "
                             else "read body failed: ") +:+ io_error e)]
          else l = []
      end
  end.

(** Logging changes nothing of what a turn does. *)
Lemma serve_logged_serve u stream b st :
  (serve_logged oc io_error json_error u stream b st).2 = serve oc u stream b st.
Proof.
  unfold serve_logged, serve, respond_logged, respond.
  destruct (read_u32 stream) as [[[n s1]|]|]; [|done..].
  destruct (read_exact s1 n) as [[[buf s2]|]|]; [|done..].
  destruct (from_slice_request buf) as [req|e]; [|done].
  simpl. by destruct (handle_request oc u req b st) as [[? ?]|].
Qed.

Lemma serve_logged_explained u stream b st :
  wf_bytes (st_in stream) →
  explained (u, st, Ok stream) (serve_logged oc io_error json_error u stream b st).1.
Proof.
  intros Hwf. unfold explained, message, serve_logged. case_bool_decide as Hl.
  { pose proof (read_u32_short stream Hl) as Hr. destruct (st_closed stream).
    - destruct Hr as [e ->]. by exists e.
    - by rewrite Hr. }
  destruct (read_u32_ok stream) as (s1 & -> & Hi1 & Hc1 & _); [lia|]. cbn zeta.
  assert (0 ≤ from_be_bytes (take 4 (st_in stream))).
  { apply from_be_bytes_range. by apply Forall_take. }
  set (n := from_be_bytes (take 4 (st_in stream))) in *. rewrite <- Hi1.
  case_bool_decide as Hn.
  - destruct (read_exact_ok s1 n) as (s2 & -> & _); [done|]. unfold respond_logged.
    destruct (from_slice_request _) as [req|e]; [|done].
    simpl. by destruct (handle_request oc u req b st) as [[? ?]|].
  - pose proof (read_exact_short s1 n (proj1 (Z.nle_gt _ _) Hn)) as Hr. rewrite Hc1 in Hr.
    destruct (st_closed stream).
    + destruct Hr as [e ->]. by exists e.
    + by rewrite Hr.
Qed.

(** C31: the log explains the service.  Whatever is accepted, the loop logs, turn by
    turn and in order, exactly one record for an accept that failed, a message cut
    off in its length or in its body, and a body that is no request, and none for a
    request that is handled or a peer that is waited for; and it answers and bans as
    it does without the log. *)
Theorem warnings_explain conns b :
  Forall (λ '(_, _, r), match r with Ok stream => wf_bytes (st_in stream) | Err _ => True end) conns →
  let '(out, b', rest) := accept_loop oc conns b in
  ∃ reached records, conns = reached ++ rest ∧ Forall2 explained reached records ∧
    accept_loop_logged oc io_error json_error conns b = (concat records, (out, b', rest)).
Proof.
  intros Hc. revert b. induction Hc as [|[[u st] r] conns Hr _ IH]; intros b.
  { exists [], []. by split_and!. }
  destruct r as [stream|e]; cbn [accept_loop accept_loop_logged].
  - pose proof (serve_logged_serve u stream b st) as Hs.
    pose proof (serve_logged_explained u stream b st Hr) as Hx.
    destruct (serve_logged oc io_error json_error u stream b st) as [l turn].
    simpl in Hs, Hx. rewrite <- Hs. destruct turn as [o b1].
    destruct o as [| |sent]; [exists [(u, st, Ok stream)], [l]; by split_and!; [|repeat constructor|]..|].
    specialize (IH b1). destruct (accept_loop oc conns b1) as [[out b'] rest].
    destruct IH as (reached & records & -> & Hf & Heq).
    exists ((u, st, Ok stream) :: reached), (l :: records).
    split_and!; [done | by constructor |]. unfold mbind, logged_bind. rewrite Heq.
    simpl. by rewrite app_nil_r.
  - specialize (IH b). destruct (accept_loop oc conns b) as [[out b'] rest].
    destruct IH as (reached & records & -> & Hf & Heq).
    exists ((u, st, Err e) :: reached), ([warn ("accept error: " +:+ io_error e)] :: records).
    split_and!; [done | by constructor |]. unfold mbind, logged_bind. by rewrite Heq.
Qed.

(** The connection of a client of the program leaves no record. *)
Lemma client_leaves_no_record u st req (client client' server : T) l :
  wf_request req → st_writable client = true → st_out client = [] →
  (∀ m, to_vec_request req = Ok m → Z.of_nat (length m) < 2 ^ 32) →
  send_request client req = Some (Ok client') → st_in server = st_out client' →
  explained (u, st, Ok server) l → l = [].
Proof.
  intros Hwf Hw Ho Hlen Hsend Hin.
  destruct (send_request_ok client req Hwf Hw) as (b & c & Hs & Hd & Hb & Hv & Hout & _).
  rewrite Hs in Hsend. injection Hsend as ->. unfold explained.
  rewrite Hin, Hout, Ho, app_nil_l, <- (app_nil_r (frame_bytes b)), message_frame by auto.
  by rewrite Hd.
Qed.
End logging_proofs.

(** A logger whose [flush] hands on what is pending, to which nothing is added
    meanwhile: as long as its file descriptor can be waited for, the task goes on and
    logs exactly what was pending, once. *)
Lemma flush_loop_logs {L E} (flush : L → logged L) (pending : L → list LogRecord) readiness logger :
  (∀ l, (flush l).1 = pending l ∧ pending (flush l).2 = []) →
  Forall (λ r : result () E, is_ok r = true) readiness →
  (flush_loop flush readiness logger).1 = (match readiness with [] => [] | _ => pending logger end) ∧
  ∃ l, (flush_loop flush readiness logger).2 = Waiting l.
Proof.
  intros Hf Hr. revert logger. induction Hr as [|r readiness Hok _ IH]; intros logger; simpl; [by eauto|].
  destruct r as [[]|]; [|done]. destruct (Hf logger) as [Hl He].
  unfold mbind, logged_bind. destruct (flush logger) as [l logger']. simpl in *.
  destruct (IH logger') as [Hl' [l2 Ht]].
  destruct (flush_loop flush readiness logger') as [l' t]. simpl in *. subst.
  split; [|eauto]. destruct readiness; [by rewrite app_nil_r | by rewrite He, app_nil_r].
Qed.

(** ** The theorem at concrete inputs *)

(** A failed accept, a message cut off and a request. *)
Example conns_demo_records :
  (accept_loop_logged (T := pipe) false (λ _, "eof"%string) (λ _, "bad"%string) conns_demo bans_demo).1 =
    [warn "accept error: eof"; warn "read len failed: eof"].
Proof. vm_done. Qed.

Lemma warnings_explain_witness :
  ∃ reached records rest, conns_demo = reached ++ rest ∧
    Forall2 (explained (MS := khash StatsValue) (T := pipe) (λ _, "eof"%string) (λ _, "bad"%string))
      reached records ∧
    (accept_loop_logged (T := pipe) false (λ _, "eof"%string) (λ _, "bad"%string) conns_demo
       bans_demo).1 = concat records.
Proof.
  pose proof (warnings_explain (MB := khash BanValue) (MS := khash StatsValue) (T := pipe) false
    (λ _, "eof"%string) (λ _, "bad"%string) conns_demo bans_demo) as Hw.
  destruct (accept_loop false conns_demo bans_demo) as [[out b'] rest].
  destruct Hw as (reached & records & Hc & Hf & Heq).
  - repeat (apply List.Forall_cons; [first [done | concrete]|]). by apply List.Forall_nil.
  - exists reached, records, rest. rewrite Heq. split_and!; [exact Hc | exact Hf | done].
Defined.
