(* ===== verification/Firewall.v ===== *)
(** * What the system promises: the daemon and the filter as one firewall

    The theorems on executions: the refinement of the abstract firewall, bans and
    their expiry, and what the accept loop and the counters do over time. *)

From S2P Require Export System Concrete.

Section firewall.
Context `{NetworkTypesSpec} `{BpfHashMapSpec MB BanValue} `{BpfHashMapSpec MS StatsValue}.
Context `{SerdeJsonSpec} `{TokioStreamSpec T}.
Variable oc : bool.
Implicit Types s : SysState MB MS.

(** C1: refinement.  In every reachable state each event has a transition (the
    filter makes no faulting read), which is the step of the abstract firewall
    that the event's label names (a frame, a ban, an unban, nothing), and the
    verdict on a frame is the firewall's. *)
Theorem system_refines_firewall s ev :
  reachable oc s → wf_event ev →
  ∃ o s', sys_step oc ev s = Some (o, s') ∧
    fw_step (fw_of s) (event_label oc s ev) (fw_of s') ∧
    ∀ ctx, ev = Frame ctx → o = Verdict (fw_verdict (fw_of s) (packet ctx) (as_u64 (ktime s))).
Proof.
  intros Hs%reachable_ok Hev. destruct (sys_step_spec oc s ev Hs Hev) as (o & s' & Hst & _ & Hfw & Ho).
  exists o, s'. split_and!; [done | | by intros ctx ->; apply Ho].
  rewrite Hfw. apply fw_step_after; apply event_label_ok.
Qed.

(** C6: a ban is enforced.  Once the daemon has served the request to ban an
    address, and the map has room for it, every later segment of that address is
    dropped as long as the ban holds and passed afterwards, whatever happens in
    between but a request that names the address. *)
Theorem ban_enforced s stream target ttl ip e evs ctx port :
  reachable oc s → serving s = true → wf_bytes (st_in stream) →
  request_of stream = Some (ReqBan target ttl) → ipv4_from_str target = Ok ip →
  ban_end_time oc (utc_nanos (utc s)) ttl = Some e →
  is_Some (fw_of s !! u32_of_ipv4 ip) ∨ (size (fw_of s) < fw_capacity)%nat →
  Forall wf_event evs → Forall (leaves (u32_of_ipv4 ip)) evs → wf_ctx ctx →
  parse_frame (packet ctx) = Segment (u32_of_ipv4 ip) port →
  ∃ os s', sys_run oc (Connection stream :: evs ++ [Frame ctx]) s = Some (os, s') ∧
    last os = Some (Verdict
      (if decide (e = 0 ∨ as_u64 (ktime s + elapsed evs) ≤ e) then XDP_DROP else XDP_PASS)).
Proof.
  intros Hs%reachable_ok Hserv Hwf Hreq Hip He Hroom Hevs Hl Hctx Hp.
  destruct (request_then_frame oc s stream _ evs ctx _ _ Hs Hserv Hwf Hreq Hevs Hl Hctx Hp)
    as (os & s' & Hr & Hlast).
  exists os, s'. split; [done|]. rewrite Hlast. cbn [request_label]. rewrite Hip, He.
  cbn [fw_after]. by rewrite decide_True, lookup_insert_eq.
Qed.

(** C11: an unban restores the traffic.  Once the daemon has served the request
    to unban an address, every later segment of it passes, until a request names
    the address again. *)
Theorem unban_restores s stream target ip evs ctx port :
  reachable oc s → serving s = true → wf_bytes (st_in stream) →
  request_of stream = Some (ReqUnban target) → ipv4_from_str target = Ok ip →
  Forall wf_event evs → Forall (leaves (u32_of_ipv4 ip)) evs → wf_ctx ctx →
  parse_frame (packet ctx) = Segment (u32_of_ipv4 ip) port →
  ∃ os s', sys_run oc (Connection stream :: evs ++ [Frame ctx]) s = Some (os, s') ∧
    last os = Some (Verdict XDP_PASS).
Proof.
  intros Hs%reachable_ok Hserv Hwf Hreq Hip Hevs Hl Hctx Hp.
  destruct (request_then_frame oc s stream _ evs ctx _ _ Hs Hserv Hwf Hreq Hevs Hl Hctx Hp)
    as (os & s' & Hr & Hlast).
  exists os, s'. split; [done|]. rewrite Hlast. cbn [request_label]. rewrite Hip.
  cbn [fw_after]. by rewrite lookup_delete_eq.
Qed.

(** The invariant of every execution: at most 1024 bans, each of a 32-bit
    address with a 64-bit expiry, in a map that keeps its capacity. *)
Theorem reachable_bounded s :
  reachable oc s →
  bm_cap (BANNED_IPS (maps s)) = BANNED_IPS_max_entries ∧
  (size (fw_of s) ≤ 1024)%nat ∧
  ∀ ip e, fw_of s !! ip = Some e → in_u 32 ip ∧ in_u 64 e.
Proof.
  intros [Hc Hs Hb _]%reachable_ok. split_and!; [done | by unfold fw_of; rewrite map_size_fmap|].
  intros ip e. unfold fw_of. rewrite lookup_fmap, fmap_Some. intros (b & ? & ->). eauto.
Qed.

(** C15: how long a temporary ban lasts.  The daemon counts the expiry on the
    wall clock ([Utc::now]) and the filter compares it with the time since boot
    ([bpf_ktime_get_ns]): a ban for [t] seconds drops segments for those [t]
    seconds and, further, for the difference of the two clocks. *)
Theorem temporary_ban_duration s stream target t ip evs ctx port :
  reachable oc s → serving s = true → wf_bytes (st_in stream) →
  request_of stream = Some (ReqBan target (Some t)) → ipv4_from_str target = Ok ip →
  0 ≤ t → 0 < utc s → utc s + t * 1000000000 < 2 ^ 63 →
  is_Some (fw_of s !! u32_of_ipv4 ip) ∨ (size (fw_of s) < fw_capacity)%nat →
  Forall wf_event evs → Forall (leaves (u32_of_ipv4 ip)) evs → wf_ctx ctx →
  0 ≤ ktime s + elapsed evs < 2 ^ 64 →
  parse_frame (packet ctx) = Segment (u32_of_ipv4 ip) port →
  ∃ os s', sys_run oc (Connection stream :: evs ++ [Frame ctx]) s = Some (os, s') ∧
    last os = Some (Verdict
      (if decide (elapsed evs ≤ t * 1000000000 + (utc s - ktime s)) then XDP_DROP else XDP_PASS)).
Proof.
  intros Hs%reachable_ok Hserv Hwf Hreq Hip Ht Hu Hover Hroom Hevs Hl Hctx Hk Hp.
  destruct (request_then_frame oc s stream _ evs ctx _ _ Hs Hserv Hwf Hreq Hevs Hl Hctx Hp)
    as (os & s' & Hr & Hlast).
  exists os, s'. split; [done|]. rewrite Hlast. cbn [request_label].
  assert (ban_end_time oc (utc_nanos (utc s)) (Some t) = Some (utc s + t * 1000000000)) as He.
  { unfold ban_end_time, utc_nanos, get_boot_time_ns, as_u64. rewrite decide_True by lia. simpl.
    rewrite wrap_small, arith_small by uint. simpl. by rewrite arith_small by uint. }
  rewrite Hip, He. cbn [fw_after]. rewrite decide_True, lookup_insert_eq by done.
  unfold as_u64. rewrite wrap_small by done.
  do 2 f_equal. repeat case_decide; done || lia.
Qed.

(** C34: the statistics never count.  Nothing puts the key 0 into [STATS], which
    the filter only increments in place: in every reachable state the request
    for the statistics is answered "No stats". *)
Theorem stats_never_available s stream :
  reachable oc s → serving s = true → wf_bytes (st_in stream) → st_writable stream = true →
  request_of stream = Some ReqStats →
  ∃ b stream' s', sys_step oc (Connection stream) s = Some (Served (Next (Some stream')), s') ∧
    st_out stream' = st_out stream ++ frame_bytes b ∧
    from_slice_response b = Ok (RespStats "No stats").
Proof.
  intros [_ _ _ Hst]%reachable_ok Hserv Hwf Hw Hreq.
  cbn [sys_step]. rewrite Hserv.
  pose proof (serve_message oc (utc_nanos (utc s)) stream (BANNED_IPS (maps s)) (STATS (maps s)) Hwf) as Hs.
  unfold request_of in Hreq. destruct (message (st_in stream)) as [buf|]; [|done].
  destruct Hs as (s1 & _ & Ho & Hw1 & ->). simpl in Hreq. unfold respond.
  destruct (from_slice_request buf) as [req|]; [|done]. injection Hreq as ->.
  cbn [handle_request]. rewrite bm_get_spec, Hst, lookup_empty.
  destruct (send_response_ok (RespStats "No stats") s1) as (b & s2 & -> & _ & Hd & _ & _ & Ho2);
    [congruence|].
  exists b, s2. eexists. split_and!; [done | congruence | done].
Qed.

(** C25: one peer can stop the daemon.  Serving a peer that sends less than a
    message and keeps the connection open never completes, and from then on no
    connection is served and no ban changes, whatever happens. *)
Theorem stalled_peer_stops_service s stream evs :
  reachable oc s → serving s = true → wf_bytes (st_in stream) →
  message (st_in stream) = None → st_closed stream = false → Forall wf_event evs →
  ∃ s1 os s2, sys_step oc (Connection stream) s = Some (Served Blocked, s1) ∧
    sys_run oc evs s1 = Some (os, s2) ∧ fw_of s2 = fw_of s ∧
    ∀ i stream', evs !! i = Some (Connection stream') → os !! i = Some NotServed.
Proof.
  intros Hs%reachable_ok Hserv Hwf Hmsg Hcl Hevs.
  pose proof (serve_message oc (utc_nanos (utc s)) stream (BANNED_IPS (maps s)) (STATS (maps s)) Hwf) as Hsv.
  rewrite Hmsg, Hcl in Hsv.
  destruct (sys_step_spec oc s (Connection stream) Hs Hwf) as (o & s1 & Hst & Hok1 & Hfw & _).
  assert (o = Served Blocked ∧ serving s1 = false ∧ fw_of s1 = fw_of s) as (-> & Hs1 & <-).
  { revert Hst. cbn [sys_step]. rewrite Hserv, Hsv. by intros [= <- <-]. }
  exists s1. enough (∃ os s2, sys_run oc evs s1 = Some (os, s2) ∧ fw_of s2 = fw_of s1 ∧
    ∀ i stream', evs !! i = Some (Connection stream') → os !! i = Some NotServed)
    as (os & s2 & ? & ? & ?) by eauto 10.
  clear Hst Hfw. revert s1 Hok1 Hs1. induction Hevs as [|ev evs Hev _ IH]; intros s1 Hok1 Hs1.
  { by exists [], s1. }
  destruct (sys_step_spec oc s1 ev Hok1 Hev) as (o & s3 & Hst & Hok3 & Hfw & Ho).
  assert (serving s3 = false ∧ fw_of s3 = fw_of s1) as [Hs3 Hf3].
  { rewrite Hfw. destruct ev as [ctx|st|d]; cbn [event_label fw_after]; rewrite ?Hs1.
    - destruct Ho as (_ & _ & _ & ->). done.
    - destruct Ho as (_ & _ & Ho). by destruct (Ho Hs1) as [-> _].
    - destruct Ho as (_ & _ & ->). done. }
  destruct (IH s3 Hok3 Hs3) as (os & s2 & Hr & Hf & Hi).
  exists (o :: os), s2. rewrite (sys_run_cons _ _ _ _ _ _ Hst), Hr. split_and!; [done | congruence|].
  intros [|i] st' Hl; [|by eapply Hi]. simplify_eq/=. f_equal. by apply Ho.
Qed.

(** An expired ban is still listed.  A ban whose expiry has passed lets the
    segments of its address through, and stays in the answer to the request for
    the active bans until it is removed. *)
Theorem expired_ban_listed s ip e ctx port u :
  reachable oc s → fw_of s !! ip = Some e → e ≠ 0 → e < as_u64 (ktime s) → wf_ctx ctx →
  parse_frame (packet ctx) = Segment ip port →
  (∃ s', sys_step oc (Frame ctx) s = Some (Verdict XDP_PASS, s')) ∧
  ∃ l, handle_request oc u ReqList (BANNED_IPS (maps s)) (STATS (maps s)) =
         Some (RespList l, BANNED_IPS (maps s)) ∧
       ipv4_to_string (ipv4_of_u32 ip) ∈ l.
Proof.
  intros Hs%reachable_ok Hip He Hlt Hctx Hp. split.
  - destruct (sys_step_spec oc s (Frame ctx) Hs Hctx) as (o & s' & Hst & _ & _ & -> & _).
    exists s'. rewrite Hst. unfold fw_verdict. rewrite Hp, Hip. by rewrite decide_False by lia.
  - eexists. split; [done|]. apply list_elem_of_fmap. exists ip. split; [done|].
    apply list_elem_of_omap. exists (Ok ip). split; [|done]. apply bm_keys_elem.
    unfold fw_of in Hip. rewrite lookup_fmap, fmap_Some in Hip. destruct Hip as (b & ? & _). eauto.
Qed.
End firewall.

(** ** The theorems at concrete inputs *)

Section witnesses.
Abbreviation MB := (khash BanValue).
Abbreviation MS := (khash StatsValue).
Abbreviation addr := ([1; 2; 3; 4]).
Abbreviation ip := (Ipv4 addr).
Abbreviation frame := (ctx_demo 6 addr).

Lemma system_refines_firewall_witness :
  ∃ o (s' : state_demo), sys_step true (Frame frame : event_demo) boot_demo = Some (o, s') ∧
    fw_step (fw_of boot_demo) (event_label true boot_demo (Frame frame : event_demo)) (fw_of s') ∧
    o = Verdict XDP_PASS.
Proof.
  destruct (system_refines_firewall (MB := MB) (MS := MS) (T := pipe) true boot_demo (Frame frame))
    as (o & s' & Hs & Hf & Ho); [apply boot_demo_reachable | by apply ctx_demo_wf |].
  exists o, s'. split_and!; [exact Hs | exact Hf | exact (Ho frame eq_refl)].
Defined.

Lemma ban_enforced_witness :
  ∃ os (s' : state_demo),
    sys_run true [Connection (request_demo (ReqBan "1.2.3.4" None)); Elapse 5; Frame frame] boot_demo
      = Some (os, s') ∧
    last os = Some (Verdict XDP_DROP).
Proof.
  pose proof (request_of_demo (ReqBan "1.2.3.4" None) I eq_refl) as [Hreq Hwf].
  apply (ban_enforced (MB := MB) (MS := MS) (T := pipe) true boot_demo _ "1.2.3.4" None ip 0
    [Elapse 5] frame 1234); demo.
Defined.

Lemma unban_restores_witness :
  ∃ os (s' : state_demo),
    sys_run true [Connection (request_demo (ReqUnban "1.2.3.4")); Elapse 5; Frame frame] boot_demo
      = Some (os, s') ∧
    last os = Some (Verdict XDP_PASS).
Proof.
  pose proof (request_of_demo (ReqUnban "1.2.3.4") I eq_refl) as [Hreq Hwf].
  apply (unban_restores (MB := MB) (MS := MS) (T := pipe) true boot_demo _ "1.2.3.4" ip
    [Elapse 5] frame 1234); demo.
Defined.

Lemma reachable_bounded_witness :
  bm_cap (BANNED_IPS (maps boot_demo)) = 1024%nat ∧ (size (fw_of boot_demo) ≤ 1024)%nat.
Proof.
  destruct (reachable_bounded (MB := MB) (MS := MS) (T := pipe) true boot_demo) as (Hc & Hs & _).
  - apply boot_demo_reachable.
  - split; [exact Hc | exact Hs].
Defined.

(** A ban for sixty seconds still drops a day later. *)
Lemma temporary_ban_duration_witness :
  ∃ os (s' : state_demo),
    sys_run true [Connection (request_demo (ReqBan "1.2.3.4" (Some 60)));
                  Elapse (86400 * 1000000000); Frame frame] boot_demo = Some (os, s') ∧
    last os = Some (Verdict XDP_DROP).
Proof.
  pose proof (request_of_demo (ReqBan "1.2.3.4" (Some 60)) ltac:(concrete) eq_refl) as [Hreq Hwf].
  apply (temporary_ban_duration (MB := MB) (MS := MS) (T := pipe) true boot_demo _ "1.2.3.4" 60 ip
    [Elapse (86400 * 1000000000)] frame 1234);
    demo.
Defined.

Lemma stats_never_available_witness :
  ∃ b stream' (s' : state_demo),
    sys_step true (Connection (request_demo ReqStats)) boot_demo =
      Some (Served (Next (Some stream')), s') ∧
    p_out stream' = frame_bytes b ∧ from_slice_response b = Ok (RespStats "No stats").
Proof.
  pose proof (request_of_demo ReqStats I eq_refl) as [Hreq Hwf].
  destruct (stats_never_available (MB := MB) (MS := MS) (T := pipe) true boot_demo (request_demo ReqStats))
    as (b & stream' & s' & Hs & Ho & Hd); [demo..|].
  exists b, stream', s'. split_and!; [exact Hs | exact Ho | exact Hd].
Defined.

Lemma stalled_peer_stops_service_witness :
  ∃ (s1 : state_demo) os s2,
    sys_step true (Connection (open_pipe [0; 0])) boot_demo = Some (Served Blocked, s1) ∧
    sys_run true [Elapse 1; Connection (request_demo ReqList)] s1 = Some (os, s2) ∧
    os !! 1%nat = Some NotServed.
Proof.
  pose proof (request_of_demo ReqList I eq_refl) as [_ Hwf].
  destruct (stalled_peer_stops_service (MB := MB) (MS := MS) (T := pipe) true boot_demo
    (open_pipe [0; 0]) [Elapse 1; Connection (request_demo ReqList)])
    as (s1 & os & s2 & Hs1 & Hr & _ & Hos); [demo..|].
  exists s1, os, s2. split_and!; [exact Hs1 | exact Hr | by eapply Hos].
Defined.

(** The system an hour after a ban of one second, clocks agreeing. *)
Definition expired_demo : state_demo := {|
  maps := with_banned xdp_init
    (bm_insert (bm_new BANNED_IPS_max_entries) (u32_of_ipv4 ip) {| end_time := 1000000001 |}).2;
  ktime := 3600000000001; utc := 3600000000001; serving := true;
|}.

Lemma expired_ban_listed_witness :
  (∃ s', sys_step true (Frame frame : event_demo) expired_demo = Some (Verdict XDP_PASS, s')) ∧
  ∃ l, handle_request true None ReqList (BANNED_IPS (maps expired_demo)) (STATS (maps expired_demo)) =
         Some (RespList l, BANNED_IPS (maps expired_demo)) ∧ ("1.2.3.4"%string) ∈ l.
Proof.
  apply (expired_ban_listed (MB := MB) (MS := MS) (T := pipe) true expired_demo (u32_of_ipv4 ip)
    1000000001 frame 1234 None); [|demo..].
  pose proof (request_of_demo (ReqBan "1.2.3.4" (Some 1)) ltac:(concrete) eq_refl) as [Hreq Hwf].
  refine (reachable_step (T := pipe) true _ (Elapse 3600000000000) _ _
    (reachable_step (T := pipe) true _ (Connection (request_demo (ReqBan "1.2.3.4" (Some 1)))) _ _
      (reachable_init (T := pipe) true 1 1) Hwf _) I _); vm_compute; reflexivity.
Defined.
End witnesses.
