(* ===== verification/Network.v ===== *)
(** * Clients and the daemon over live connections

    [Client] and [Daemon] take a connection as a stream whose peer's bytes are
    already known.  Here both ends run: any number of clients execute
    [send_command] and the daemon its accept loop, step by step, over connections
    whose two directions are bounded byte channels.  A step moves some bytes, or
    goes to the next statement; a step that would block is not enabled.  Clients
    may be killed at any moment. *)

From S2P Require Export Concrete.

(** ** Byte channels *)

(** One direction of a connected Unix stream socket: [write] takes some bytes of a
    buffer and says how many, [read] gives some bytes, at most as many as asked
    for; none is "would block". *)
Class ByteChannel (C : Type) := {
  ch_new : C;
  ch_send : C → bytes → nat * C;
  ch_recv : C → nat → bytes * C;
}.

(** unix(7): a stream is delivered whole and in order; a write to an empty channel
    makes progress, and so does a read from one that is not empty. *)
Class ByteChannelSpec (C : Type) `{ByteChannel C} := {
  ch_view : C → bytes;
  ch_new_view : ch_view ch_new = [];
  ch_send_spec c b :
    ((ch_send c b).1 ≤ length b)%nat ∧
    ch_view (ch_send c b).2 = ch_view c ++ take (ch_send c b).1 b;
  ch_send_live c b : b ≠ [] → ch_view c = [] → (0 < (ch_send c b).1)%nat;
  ch_recv_spec c n :
    (length (ch_recv c n).1 ≤ n)%nat ∧ ch_view c = (ch_recv c n).1 ++ ch_view (ch_recv c n).2;
  ch_recv_live c n : (0 < n)%nat → ch_view c ≠ [] → (ch_recv c n).1 ≠ [];
}.

(** A channel of a few bytes. *)
Record bounded := { bo_cap : nat; bo_bytes : bytes }.
#[export] Instance bounded_ByteChannel : ByteChannel bounded := {|
  ch_new := {| bo_cap := 5; bo_bytes := [] |};
  ch_send c b :=
    let n := (S (bo_cap c) - length (bo_bytes c))%nat in
    (length (take n b), {| bo_cap := bo_cap c; bo_bytes := bo_bytes c ++ take n b |});
  ch_recv c n := (take n (bo_bytes c), {| bo_cap := bo_cap c; bo_bytes := drop n (bo_bytes c) |});
|}.
#[export] Instance bounded_ByteChannelSpec : ByteChannelSpec bounded.
Proof.
  refine {| ch_view := bo_bytes |}; simpl.
  - done.
  - intros c b. split; [rewrite length_take; lia|]. f_equal.
    by rewrite length_take, <- take_take, (take_ge b (length b)).
  - intros c [|x b] Hb Hc; [done|]. rewrite Hc. simpl. lia.
  - intros c n. rewrite length_take, take_drop. split; [lia | done].
  - intros c [|n] Hn Hc; [lia|]. by destruct (bo_bytes c).
Defined.

Section network.
Context `{BpfHashMap MB BanValue} `{BpfHashMap MS StatsValue} `{SerdeJson} `{ByteChannel C}.
Variable oc : bool.

(** ** The statements of the two ends *)

(** A write of the rest of a buffer: it blocks, fails (the peer has closed), or
    leaves a shorter rest. *)
Inductive poll (A : Type) := Pending | Failed | Ready (a : A).
Arguments Pending {A}.
Arguments Failed {A}.
Arguments Ready {A} a.

Definition poll_write (peer_open : bool) (c : C) (rest : bytes) : poll (bytes * C) :=
  if peer_open then
    let '(n, c) := ch_send c rest in
    if decide (n = 0%nat) then Pending else Ready (drop n rest, c)
  else Failed.

(** A read of at most [n] bytes: it blocks, fails (at the end of the stream), or
    gives some. *)
Definition poll_read (peer_open : bool) (c : C) (n : nat) : poll (bytes * C) :=
  match ch_recv c n with
  | ([], _) => if peer_open then Pending else Failed
  | (l, c) => Ready (l, c)
  end.

(** Why [send_command] fails after the connection. *)
Inductive client_failure := FJson | FIo | FResponseLength | FEmptyResponse | FResponseBody.

(** Where [send_command] is: in a [write_u32] or [write_all] with what is left to
    write, in a [read_u32] or [read_exact] with what has been read. *)
Inductive client_pc :=
| KSendLen (rest req_bytes : bytes)
| KSendBody (rest : bytes)
| KFlush
| KRecvLen (acc : bytes)
| KRecvBody (resp_len : nat) (acc : bytes)
| KPrinted (lines : list string)
| KFailed (e : client_failure)
| KKilled.

Definition client_open (p : client_pc) : bool :=
  match p with KPrinted _ | KFailed _ | KKilled => false | _ => true end.

Definition client_start (request : DaemonRequest) : client_pc :=
  match to_vec_request request with
  | Err _ => KFailed FJson
  | Ok req_bytes => KSendLen (to_be_bytes 4 (as_u32 (Z.of_nat (length req_bytes)))) req_bytes
  end.

(** A step of [send_command]; [None] when it would block, or is over. *)
Definition client_step (peer_open : bool) (p : client_pc) (out inp : C) :
    option (client_pc * C * C) :=
  match p with
  | KSendLen [] req_bytes => Some (KSendBody req_bytes, out, inp)
  | KSendLen rest req_bytes =>
      match poll_write peer_open out rest with
      | Pending => None
      | Failed => Some (KFailed FIo, out, inp)
      | Ready (rest, out) => Some (KSendLen rest req_bytes, out, inp)
      end
  | KSendBody [] => Some (KFlush, out, inp)
  | KSendBody rest =>
      match poll_write peer_open out rest with
      | Pending => None
      | Failed => Some (KFailed FIo, out, inp)
      | Ready (rest, out) => Some (KSendBody rest, out, inp)
      end
  | KFlush => Some (KRecvLen [], out, inp)
  | KRecvLen acc =>
      if decide (length acc = 4%nat) then
        let resp_len := from_be_bytes acc in
        Some (if resp_len =? 0 then KFailed FEmptyResponse else KRecvBody (Z.to_nat resp_len) [],
              out, inp)
      else
        match poll_read peer_open inp (4 - length acc) with
        | Pending => None
        | Failed => Some (KFailed FResponseLength, out, inp)
        | Ready (l, inp) => Some (KRecvLen (acc ++ l), out, inp)
        end
  | KRecvBody resp_len acc =>
      if decide (length acc = resp_len) then
        Some (match from_slice_response acc with
              | Err _ => KFailed FJson
              | Ok response => KPrinted (print_response response)
              end, out, inp)
      else
        match poll_read peer_open inp (resp_len - length acc) with
        | Pending => None
        | Failed => Some (KFailed FResponseBody, out, inp)
        | Ready (l, inp) => Some (KRecvBody resp_len (acc ++ l), out, inp)
        end
  | KPrinted _ | KFailed _ | KKilled => None
  end.

(** Where the daemon is on a connection: not accepted yet, in one of the statements
    of its turn, or done with it (the stream is dropped). *)
Inductive server_pc :=
| SWait
| SReadLen (acc : bytes)
| SReadBody (len : nat) (acc : bytes)
| SHandle (buf : bytes)
| SSendLen (rest resp_bytes : bytes)
| SSendBody (rest : bytes)
| SFlush
| SEnd.

Definition server_open (p : server_pc) : bool := match p with SEnd => false | _ => true end.

(** A step of the turn that reads or writes; [None] when it would block. *)
Definition server_io (peer_open : bool) (p : server_pc) (inp out : C) : option (server_pc * C * C) :=
  match p with
  | SReadLen acc =>
      if decide (length acc = 4%nat) then Some (SReadBody (Z.to_nat (from_be_bytes acc)) [], inp, out)
      else
        match poll_read peer_open inp (4 - length acc) with
        | Pending => None
        | Failed => Some (SEnd, inp, out)
        | Ready (l, inp) => Some (SReadLen (acc ++ l), inp, out)
        end
  | SReadBody len acc =>
      if decide (length acc = len) then Some (SHandle acc, inp, out)
      else
        match poll_read peer_open inp (len - length acc) with
        | Pending => None
        | Failed => Some (SEnd, inp, out)
        | Ready (l, inp) => Some (SReadBody len (acc ++ l), inp, out)
        end
  | SSendLen [] resp_bytes => Some (SSendBody resp_bytes, inp, out)
  | SSendLen rest resp_bytes =>
      match poll_write peer_open out rest with
      | Pending => None
      | Failed => Some (SEnd, inp, out)
      | Ready (rest, out) => Some (SSendLen rest resp_bytes, inp, out)
      end
  | SSendBody [] => Some (SFlush, inp, out)
  | SSendBody rest =>
      match poll_write peer_open out rest with
      | Pending => None
      | Failed => Some (SEnd, inp, out)
      | Ready (rest, out) => Some (SSendBody rest, inp, out)
      end
  | SFlush => Some (SEnd, inp, out)
  | SWait | SHandle _ | SEnd => None
  end.

(** The step that handles the request: the response, what is written next, and the
    bans; [None] is a panic. *)
Definition server_handle (utc : option Z) (buf : bytes) (banned_ips : MB) (stats : MS) :
    option (DaemonResponse * server_pc * MB) :=
  '(resp, banned_ips) ← respond oc utc buf banned_ips stats;
  match to_vec_response resp with
  | Err _ => None
  | Ok resp_bytes =>
      Some (resp, SSendLen (to_be_bytes 4 (as_u32 (Z.of_nat (length resp_bytes)))) resp_bytes,
            banned_ips)
  end.

(** ** The network *)

(** A connection: the client's request, the two ends, the two directions, and the
    response the daemon has computed. *)
Record Conn := {
  k_req : DaemonRequest;
  k_pc : client_pc;
  s_pc : server_pc;
  c2s : C;
  s2c : C;
  k_resp : option DaemonResponse;
}.

(** A request that was handled: whose, at what time, with which statistics, and
    the response. *)
Record entry := {
  e_conn : nat;
  e_utc : option Z;
  e_stats : MS;
  e_req : DaemonRequest;
  e_resp : DaemonResponse;
}.

(** The connections, the listener's queue, the connection being served, whether the
    daemon's task lives, its maps, the clock, and what it has handled. *)
Record Net := {
  n_conns : gmap nat Conn;
  n_backlog : list nat;
  n_current : option nat;
  n_alive : bool;
  n_bans : MB;
  n_stats : MS;
  n_utc : Z;
  n_log : list entry;
}.

Inductive n_event :=
| Connect (i : nat) (req : DaemonRequest)   (* a client connects *)
| Step (i : nat)                            (* a client takes a step *)
| Kill (i : nat)                            (* a client is killed *)
| Serve                                     (* the daemon accepts, or takes a step *)
| Pass (d : Z)                              (* time passes *)
| Count (stats : MS).                       (* the filter counts *)

Definition set_client (c : Conn) (p : client_pc) (out inp : C) : Conn :=
  {| k_req := k_req c; k_pc := p; s_pc := s_pc c; c2s := out; s2c := inp; k_resp := k_resp c |}.
Definition set_server (c : Conn) (p : server_pc) (inp out : C) : Conn :=
  {| k_req := k_req c; k_pc := k_pc c; s_pc := p; c2s := inp; s2c := out; k_resp := k_resp c |}.
Definition set_answer (c : Conn) (p : server_pc) (resp : DaemonResponse) : Conn :=
  {| k_req := k_req c; k_pc := k_pc c; s_pc := p; c2s := c2s c; s2c := s2c c; k_resp := Some resp |}.
(** The end of the daemon's task drops the listener and the connections in it. *)
Definition drop_waiting (c : Conn) : Conn :=
  match s_pc c with SWait => set_server c SEnd (c2s c) (s2c c) | _ => c end.

Definition with_conn (s : Net) (i : nat) (c : Conn) : Net :=
  {| n_conns := <[i:=c]> (n_conns s); n_backlog := n_backlog s; n_current := n_current s;
     n_alive := n_alive s; n_bans := n_bans s; n_stats := n_stats s; n_utc := n_utc s;
     n_log := n_log s |}.

(** The daemon's next step on the connection it serves. *)
Definition serve_step (s : Net) (i : nat) (c : Conn) : option Net :=
  match s_pc c with
  | SHandle buf =>
      Some
        match server_handle (utc_nanos (n_utc s)) buf (n_bans s) (n_stats s) with
        | None =>
            {| n_conns := drop_waiting <$> <[i:=set_server c SEnd (c2s c) (s2c c)]> (n_conns s);
               n_backlog := []; n_current := None; n_alive := false; n_bans := n_bans s;
               n_stats := n_stats s; n_utc := n_utc s; n_log := n_log s |}
        | Some (resp, p, b) =>
            {| n_conns := <[i:=set_answer c p resp]> (n_conns s); n_backlog := n_backlog s;
               n_current := Some i; n_alive := true; n_bans := b; n_stats := n_stats s;
               n_utc := n_utc s;
               n_log := n_log s ++ [{| e_conn := i; e_utc := utc_nanos (n_utc s);
                                       e_stats := n_stats s; e_req := k_req c; e_resp := resp |}] |}
        end
  | _ =>
      '(p, inp, out) ← server_io (client_open (k_pc c)) (s_pc c) (c2s c) (s2c c);
      Some {| n_conns := <[i:=set_server c p inp out]> (n_conns s); n_backlog := n_backlog s;
              n_current := if server_open p then Some i else None; n_alive := n_alive s;
              n_bans := n_bans s; n_stats := n_stats s; n_utc := n_utc s; n_log := n_log s |}
  end.

(** [None]: the event is not possible, or blocks. *)
Definition n_step (ev : n_event) (s : Net) : option Net :=
  match ev with
  | Connect i req =>
      match n_alive s, n_conns s !! i with
      | true, None =>
          Some {| n_conns := <[i:={| k_req := req; k_pc := client_start req; s_pc := SWait;
                                     c2s := ch_new; s2c := ch_new; k_resp := None |}]> (n_conns s);
                  n_backlog := n_backlog s ++ [i]; n_current := n_current s; n_alive := true;
                  n_bans := n_bans s; n_stats := n_stats s; n_utc := n_utc s; n_log := n_log s |}
      | _, _ => None
      end
  | Step i =>
      c ← n_conns s !! i;
      '(p, out, inp) ← client_step (server_open (s_pc c)) (k_pc c) (c2s c) (s2c c);
      Some (with_conn s i (set_client c p out inp))
  | Kill i =>
      c ← n_conns s !! i;
      if client_open (k_pc c) then Some (with_conn s i (set_client c KKilled (c2s c) (s2c c))) else None
  | Serve =>
      if n_alive s then
        match n_current s with
        | Some i => c ← n_conns s !! i; serve_step s i c
        | None =>
            match n_backlog s with
            | [] => None
            | i :: backlog =>
                c ← n_conns s !! i;
                Some {| n_conns := <[i:=set_server c (SReadLen []) (c2s c) (s2c c)]> (n_conns s);
                        n_backlog := backlog; n_current := Some i; n_alive := true;
                        n_bans := n_bans s; n_stats := n_stats s; n_utc := n_utc s; n_log := n_log s |}
            end
        end
      else None
  | Pass d =>
      Some {| n_conns := n_conns s; n_backlog := n_backlog s; n_current := n_current s;
              n_alive := n_alive s; n_bans := n_bans s; n_stats := n_stats s; n_utc := n_utc s + d;
              n_log := n_log s |}
  | Count stats =>
      Some {| n_conns := n_conns s; n_backlog := n_backlog s; n_current := n_current s;
              n_alive := n_alive s; n_bans := n_bans s; n_stats := stats; n_utc := n_utc s;
              n_log := n_log s |}
  end.

Fixpoint n_run (evs : list n_event) (s : Net) : option Net :=
  match evs with [] => Some s | ev :: evs => s ← n_step ev s; n_run evs s end.

Definition n_init (b : MB) (st : MS) (utc : Z) : Net :=
  {| n_conns := ∅; n_backlog := []; n_current := None; n_alive := true; n_bans := b; n_stats := st;
     n_utc := utc; n_log := [] |}.
End network.

Arguments Pending {A}.
Arguments Failed {A}.
Arguments Ready {A} a.
Arguments Conn C : clear implicits.
Arguments Net MB MS C : clear implicits.
#[global] Arguments poll_write : simpl never.
#[global] Arguments poll_read : simpl never.
Arguments entry MS : clear implicits.
Arguments e_conn {MS} _.
Arguments e_utc {MS} _.
Arguments e_stats {MS} _.
Arguments e_req {MS} _.
Arguments e_resp {MS} _.
Arguments n_event MS : clear implicits.
Arguments Connect {MS} i req.
Arguments Step {MS} i.
Arguments Kill {MS} i.
Arguments Serve {MS}.
Arguments Pass {MS} d.
Arguments Count {MS} stats.
Arguments k_req {C} _.
Arguments k_pc {C} _.
Arguments s_pc {C} _.
Arguments c2s {C} _.
Arguments s2c {C} _.
Arguments k_resp {C} _.
Arguments n_conns {MB MS C} _.
Arguments n_backlog {MB MS C} _.
Arguments n_current {MB MS C} _.
Arguments n_alive {MB MS C} _.
Arguments n_bans {MB MS C} _.
Arguments n_stats {MB MS C} _.
Arguments n_utc {MB MS C} _.
Arguments n_log {MB MS C} _.
