(* ===== verification/Sessions.v ===== *)
(** * What the clients of a running daemon see

    The invariant of [Network]: on every connection the bytes read, in flight and
    still to write are one framed request and then one framed response, whose
    decoding is what the daemon computed for that client; and the daemon's log is a
    sequential run of the requests in the order of the connections. *)

From S2P Require Export Network.

Section sessions.
Context `{BpfHashMapSpec MB BanValue} `{BpfHashMapSpec MS StatsValue}.
Context `{SerdeJsonSpec} `{ByteChannelSpec C}.
Variable oc : bool.

(** ** The invariant of a connection *)

(** A message whose length is a [u32]. *)
Definition fits_u32 (b : bytes) : Prop := Z.of_nat (length b) < 2 ^ 32.

(** What a client has still to write, and the daemon. *)
Definition unsent (p : client_pc) : bytes :=
  match p with KSendLen rest b => rest ++ b | KSendBody rest => rest | _ => [] end.
Definition unwritten (p : server_pc) : bytes :=
  match p with SSendLen rest b => rest ++ b | SSendBody rest => rest | _ => [] end.

(** The daemon is in the turn of the connection. *)
Definition serving (p : server_pc) : bool :=
  match p with SWait | SEnd => false | _ => true end.

(** The client has read nothing. *)
Definition asking (p : client_pc) : bool :=
  match p with KSendLen _ _ | KSendBody _ | KFlush | KRecvLen [] => true | _ => false end.

(** [acc] read of [frame], the rest on its way; a killed client may leave some of
    it unsent. *)
Definition incoming (c : Conn C) (acc frame : bytes) : Prop :=
  ∃ lost, acc ++ ch_view (c2s c) ++ unsent (k_pc c) ++ lost = frame ∧
    (client_open (k_pc c) = true → lost = []).
(** [acc] read of [frame] by the client, the rest on its way. *)
Definition outgoing (c : Conn C) (acc frame : bytes) : Prop :=
  acc ++ ch_view (s2c c) ++ unwritten (s_pc c) = frame.

(** Before the response: [b] is the encoded request. *)
Definition request_ok (b : bytes) (c : Conn C) : Prop :=
  ch_view (s2c c) = [] ∧
  (asking (k_pc c) = true ∨ k_pc c = KKilled ∨ s_pc c = SEnd ∧ client_open (k_pc c) = false) ∧
  (∀ l, k_pc c ≠ KPrinted l) ∧
  match s_pc c with
  | SWait => incoming c [] (frame_bytes b)
  | SReadLen acc => (length acc ≤ 4)%nat ∧ incoming c acc (frame_bytes b)
  | SReadBody len acc => len = length b ∧ incoming c acc b
  | SHandle buf => buf = b ∧ ch_view (c2s c) = [] ∧ unsent (k_pc c) = []
  | SEnd => oc = false → k_pc c = KKilled
  | _ => False
  end.

(** After it: [b] is the encoded response [r]. *)
Definition response_ok (r : DaemonResponse) (b : bytes) (c : Conn C) : Prop :=
  ch_view (c2s c) = [] ∧ unsent (k_pc c) = [] ∧
  match s_pc c with SSendLen _ _ | SSendBody _ | SFlush | SEnd => True | _ => False end ∧
  match k_pc c with
  | KSendLen _ _ | KSendBody _ | KFlush => outgoing c [] (frame_bytes b)
  | KRecvLen acc => (length acc ≤ 4)%nat ∧ outgoing c acc (frame_bytes b)
  | KRecvBody len acc =>
      len = Z.to_nat (as_u32 (Z.of_nat (length b))) ∧ (length acc ≤ len)%nat ∧ outgoing c acc b
  | KPrinted l => fits_u32 b → l = print_response r
  | KFailed _ => ¬ fits_u32 b
  | KKilled => True
  end.

Definition conn_ok (c : Conn C) : Prop :=
  ∃ b, to_vec_request (k_req c) = Ok b ∧ from_slice_request b = Ok (k_req c) ∧ fits_u32 b ∧
    match k_resp c with
    | None => request_ok b c
    | Some r => ∃ rb, to_vec_response r = Ok rb ∧ response_ok r rb c
    end.

(** ** Reads and writes *)

Lemma poll_write_spec o (c : C) rest :
  match poll_write o c rest with
  | Pending => o = true ∧ (rest ≠ [] → ch_view c ≠ [])
  | Failed => o = false
  | Ready (rest', c') => o = true ∧ ∃ w, w ≠ [] ∧ rest = w ++ rest' ∧ ch_view c' = ch_view c ++ w
  end.
Proof.
  unfold poll_write. destruct o; [|done]. pose proof (ch_send_spec c rest) as [Hn Hv].
  pose proof (ch_send_live c rest) as Hl. destruct (ch_send c rest) as [n c']; simpl in *.
  case_decide; [split; [done|]; intros ? ?; lia || (specialize (Hl ltac:(done) ltac:(done)); lia)|].
  split; [done|]. exists (take n rest). split_and!; [|by rewrite take_drop|done].
  destruct rest, n; simpl in *; (lia || done).
Qed.

Lemma poll_read_spec o (c : C) n :
  (0 < n)%nat →
  match poll_read o c n with
  | Pending => o = true ∧ ch_view c = []
  | Failed => o = false ∧ ch_view c = []
  | Ready (l, c') => l ≠ [] ∧ (length l ≤ n)%nat ∧ ch_view c = l ++ ch_view c'
  end.
Proof.
  intros Hn. unfold poll_read. pose proof (ch_recv_spec c n) as [Hl Hv].
  pose proof (ch_recv_live c n Hn) as Hlive. destruct (ch_recv c n) as [[|x l] c']; simpl in *.
  - assert (ch_view c = []) by (destruct (ch_view c) eqn:?; naive_solver). by destruct o.
  - done.
Qed.

(** The length read is the length of the message that follows. *)
Lemma frame_split b acc rest :
  acc ++ rest = frame_bytes b → length acc = 4%nat →
  from_be_bytes acc = as_u32 (Z.of_nat (length b)) ∧ rest = b.
Proof.
  intros Hf Hl. apply app_inj_1 in Hf as [-> ->]; [|by rewrite length_to_be_bytes].
  split; [|done]. apply from_to_be_bytes; [lia|]. unfold as_u32. apply wrap_range. lia.
Qed.

Lemma frame_length b : (4 ≤ length (frame_bytes b))%nat.
Proof. unfold frame_bytes. rewrite length_app, length_to_be_bytes; simpl; lia. Qed.

Lemma as_u32_length b : fits_u32 b → Z.to_nat (as_u32 (Z.of_nat (length b))) = length b.
Proof. intros. unfold as_u32. rewrite wrap_small by (unfold fits_u32 in *; uint). lia. Qed.

Lemma as_u32_length_le (b : bytes) : (Z.to_nat (as_u32 (Z.of_nat (length b))) ≤ length b)%nat.
Proof. unfold as_u32, wrap. pose proof (Z.mod_le (Z.of_nat (length b)) (2 ^ 32)). lia. Qed.

(** A step whose read or write is done. *)
Ltac polled :=
  match goal with
  | H : context [poll_write ?o ?c ?r] |- _ =>
      let Hp := fresh "Hpoll" in pose proof (poll_write_spec o c r) as Hp;
      destruct (poll_write o c r) as [| |[? ?]];
      [discriminate H | rename Hp into Ho | destruct Hp as (Ho & w & Hw & Hrest & Hview)];
      simplify_eq/=
  | H : context [poll_read ?o ?c ?n] |- _ =>
      let Hp := fresh "Hpoll" in pose proof (poll_read_spec o c n ltac:(lia)) as Hp;
      destruct (poll_read o c n) as [| |[? ?]];
      [discriminate H | destruct Hp as [Ho Hview] | destruct Hp as (Hne & Hread & Hview)];
      simplify_eq/=
  end.

(** ** The steps of a connection keep its invariant *)


(** What a client's step does to its outgoing bytes, and before anything is
    received. *)
Lemma client_step_out o p (out inp : C) p' out' inp' :
  client_step o p out inp = Some (p', out', inp') →
  client_open p = true ∧
  (ch_view out' ++ unsent p' = ch_view out ++ unsent p ∨
   p' = KFailed FIo ∧ o = false ∧ out' = out ∧ inp' = inp).
Proof.
  intros Hstep. split; [by destruct p|].
  destruct p as [[|x rest] rb|[|x rest]| |acc|n acc|l|e|]; cbn [client_step] in Hstep; simplify_eq/=;
    eauto; try case_decide; simplify_eq; try (by case_match; simplify_eq/=; eauto).
  - polled; [eauto|]. left. by rewrite Hview, app_comm_cons, Hrest, <- !app_assoc.
  - polled; [eauto|]. left. by rewrite Hview, Hrest, <- !app_assoc.
  - repeat case_match; simplify_eq/=; eauto.
  - repeat case_match; simplify_eq/=; eauto.
Qed.

Lemma client_step_asking o p (out inp : C) p' out' inp' :
  client_step o p out inp = Some (p', out', inp') → asking p = true → ch_view inp = [] →
  inp' = inp ∧ (asking p' = true ∨ o = false ∧ client_open p' = false ∧ ∀ l, p' ≠ KPrinted l).
Proof.
  intros Hstep Hask Hv.
  destruct p as [[|x rest] rb|[|x rest]| |[|]|n acc|l|e|]; cbn [client_step] in Hstep; simplify_eq/=;
    eauto; try (by case_match; simplify_eq/=; eauto); polled; eauto.
  rewrite Hv in Hview. by destruct l.
Qed.

Lemma incoming_client c acc frame p out inp :
  client_open (k_pc c) = true → ch_view out ++ unsent p = ch_view (c2s c) ++ unsent (k_pc c) →
  incoming c acc frame → incoming (set_client c p out inp) acc frame.
Proof.
  intros Ho Hb (lost & <- & Hl). exists []. simpl. split; [|done].
  by rewrite (Hl Ho), !app_nil_r, Hb.
Qed.

Lemma client_step_request b c p out inp :
  request_ok b c → client_step (server_open (s_pc c)) (k_pc c) (c2s c) (s2c c) = Some (p, out, inp) →
  request_ok b (set_client c p out inp).
Proof.
  intros (Hv & Hask & Hpr & Hs) Hstep.
  destruct (client_step_out _ _ _ _ _ _ _ Hstep) as [Hopen Hbytes].
  assert (asking (k_pc c) = true) as Hask'.
  { destruct Hask as [?|[Hk|[_ Hf]]]; [done|by rewrite Hk in Hopen|congruence]. }
  destruct (client_step_asking _ _ _ _ _ _ _ Hstep Hask' Hv) as [-> Hnext].
  split_and!; simpl; [done| | |].
  - destruct Hnext as [?|(Ho & ? & _)]; [by left|]. right; right. by destruct (s_pc c).
  - intros l ->. destruct Hnext as [?|(_ & _ & Hn)]; [done | by eapply Hn].
  - destruct Hbytes as [Hbytes|(-> & Ho & -> & _)].
    + destruct (s_pc c); try done; try (by apply incoming_client);
        try (destruct Hs; split; [done | by apply incoming_client]).
      * destruct Hs as (-> & Hc & Hu). rewrite Hc, Hu in Hbytes. by apply app_eq_nil in Hbytes.
      * intros Hoc. by rewrite (Hs Hoc) in Hopen.
    + destruct (s_pc c); try done. intros Hoc. by rewrite (Hs Hoc) in Hopen.
Qed.

(** The whole message is read when its length, not truncated, is reached. *)
Lemma whole_message b acc rest :
  fits_u32 b → acc ++ rest = b → length acc = Z.to_nat (as_u32 (Z.of_nat (length b))) → acc = b.
Proof.
  intros Hf Hb Hl. rewrite (as_u32_length _ Hf), <- Hb, length_app in Hl.
  destruct rest; simpl in *; [|lia]. by rewrite <- Hb, app_nil_r.
Qed.

Lemma client_step_response r b c p out inp :
  to_vec_response r = Ok b → from_slice_response b = Ok r → b ≠ [] →
  response_ok r b c → client_step (server_open (s_pc c)) (k_pc c) (c2s c) (s2c c) = Some (p, out, inp) →
  response_ok r b (set_client c p out inp).
Proof.
  intros Hr1 Hr2 Hne0 (Hv & Hu & Hs & Hk) Hstep.
  assert (server_open (s_pc c) = false → unwritten (s_pc c) = []) as Hend by (by destruct (s_pc c)).
  destruct c as [rq kp sp cs sc kr]; simpl in *. unfold response_ok, outgoing in *; simpl in *.
  destruct kp as [[|x rest] rb|[|x rest]| |acc|n acc|l|e|]; simplify_eq/=; auto with lia.
  - destruct Hk as [Hl Hk]. case_decide as Hlen; simplify_eq/=.
    + destruct (frame_split _ _ _ Hk Hlen) as [-> Hb]. destruct (Z.eqb_spec (as_u32 (Z.of_nat (length b))) 0);
        split_and!; auto.
      * intros Hf. pose proof (as_u32_length b Hf). destruct b; simpl in *; [done|lia].
      * simpl; lia.
    + polled; split_and!; auto.
      * apply (f_equal length) in Hk. rewrite Hview, (Hend Ho), app_nil_r in Hk.
        pose proof (frame_length b). lia.
      * rewrite length_app. lia.
      * by rewrite <- Hk, Hview, <- !app_assoc.
  - destruct Hk as (-> & Hl & Hk). case_decide as Hlen; simplify_eq/=.
    + destruct (from_slice_response acc) eqn:Hd; split_and!; auto.
      * intros Hf. pose proof (whole_message _ acc _ Hf eq_refl Hlen) as Hw.
        rewrite <- Hw in Hr2. congruence.
      * intros Hf. pose proof (whole_message _ acc _ Hf eq_refl Hlen) as Hw.
        rewrite <- Hw in Hr2. congruence.
    + polled; split_and!; auto.
      * pose proof (as_u32_length_le (acc ++ ch_view inp ++ unwritten sp)) as Hle.
        rewrite Hview, (Hend Ho), !app_nil_r in *. lia.
      * rewrite length_app. lia.
      * by rewrite Hview, <- !app_assoc.
Qed.

Lemma client_step_ok c p out inp :
  conn_ok c → client_step (server_open (s_pc c)) (k_pc c) (c2s c) (s2c c) = Some (p, out, inp) →
  conn_ok (set_client c p out inp).
Proof.
  intros (b & Hb & Hd & Hf & Hc) Hstep. exists b. split_and!; try done.
  change (k_resp (set_client c p out inp)) with (k_resp c). destruct (k_resp c) as [r|].
  - destruct Hc as (rb & Hrb & Hc). exists rb. split; [done|].
    destruct (response_roundtrip r) as (x & Hr1 & Hr2 & _ & Hne).
    assert (x = rb) as -> by congruence. by eapply client_step_response.
  - by apply client_step_request.
Qed.

Lemma kill_ok c :
  conn_ok c → client_open (k_pc c) = true → conn_ok (set_client c KKilled (c2s c) (s2c c)).
Proof.
  intros (b & Hb & Hd & Hf & Hc) Ho. exists b. split_and!; try done. simpl.
  destruct (k_resp c) as [r|].
  - destruct Hc as (rb & Hrb & ? & ? & ? & _). by exists rb.
  - destruct Hc as (Hv & _ & _ & Hs).
    assert (∀ acc frame, incoming c acc frame →
      incoming (set_client c KKilled (c2s c) (s2c c)) acc frame) as Hin.
    { intros acc frame (lost & <- & Hl). rewrite (Hl Ho). exists (unsent (k_pc c)). simpl.
      by rewrite app_nil_r. }
    split_and!; [done|by right; left|done|]. simpl. destruct (s_pc c); naive_solver.
Qed.

(** ** The daemon's steps *)

Lemma incoming_server c acc frame p inp out l :
  ch_view (c2s c) = l ++ ch_view inp → incoming c acc frame →
  incoming (set_server c p inp out) (acc ++ l) frame.
Proof.
  intros Hv (lost & <- & Hl). exists lost. simpl. by rewrite Hv, <- !app_assoc.
Qed.

Lemma incoming_all c frame acc :
  incoming c acc frame → length acc = length frame →
  acc = frame ∧ ch_view (c2s c) = [] ∧ unsent (k_pc c) = [].
Proof.
  intros (lost & <- & _) Hl. rewrite length_app in Hl.
  assert (ch_view (c2s c) ++ unsent (k_pc c) ++ lost = []) as He by (apply nil_length_inv; lia).
  rewrite He, app_nil_r. apply app_eq_nil in He as [? [? ?]%app_eq_nil]. done.
Qed.

Lemma incoming_length c acc frame : incoming c acc frame → (length acc ≤ length frame)%nat.
Proof. intros (lost & <- & _). rewrite length_app. lia. Qed.

(** The parts of [request_ok] of a client that is asking, or was killed. *)
Ltac request_parts :=
  unfold request_ok; simpl; split_and!;
  try solve [done | match goal with H : asking _ = true ∨ _ |- _ => destruct H; auto end].

Lemma server_io_request b c p inp out :
  fits_u32 b → request_ok b c →
  server_io (client_open (k_pc c)) (s_pc c) (c2s c) (s2c c) = Some (p, inp, out) →
  request_ok b (set_server c p inp out).
Proof.
  intros Hf (Hv & Hask & Hpr & Hs) Hstep.
  destruct (s_pc c) as [|acc|n acc|buf| | | |] eqn:Hsp; try done; cbn [server_io] in Hstep.
  all: assert (asking (k_pc c) = true ∨ k_pc c = KKilled) as Hask' by naive_solver.
  all: assert (client_open (k_pc c) = false → k_pc c = KKilled) as Hkill
    by (intros; destruct Hask'; [by destruct (k_pc c) | done]).
  - destruct Hs as [Hl Hin]. case_decide as Hlen; simplify_eq/=; [|polled].
    + destruct Hin as (lost & Hk & Hlost). destruct (frame_split _ _ _ Hk Hlen) as [-> Hb].
      rewrite (as_u32_length _ Hf). request_parts. by exists lost; rewrite <- Hb.
    + request_parts.
    + request_parts; [rewrite length_app; lia | by apply incoming_server].
  - destruct Hs as [-> Hin]. pose proof (incoming_length _ _ _ Hin).
    case_decide as Hlen; simplify_eq/=; [|polled].
    + destruct (incoming_all _ _ _ Hin Hlen) as (-> & ? & ?). request_parts.
    + request_parts.
    + request_parts. by apply incoming_server.
Qed.

Lemma server_io_response r b c p inp out :
  response_ok r b c →
  server_io (client_open (k_pc c)) (s_pc c) (c2s c) (s2c c) = Some (p, inp, out) →
  response_ok r b (set_server c p inp out).
Proof.
  intros (Hv & Hu & Hs & Hk) Hstep.
  assert (∀ q i o, i = c2s c → 
    (ch_view o ++ unwritten q = ch_view (s2c c) ++ unwritten (s_pc c) ∨ client_open (k_pc c) = false) →
    match q with SSendLen _ _ | SSendBody _ | SFlush | SEnd => True | _ => False end →
    response_ok r b (set_server c q i o)) as Hnext.
  { intros q i o -> Hout Hq. split_and!; try done. simpl. unfold outgoing in *; simpl.
    destruct Hout as [Hout|Hout]; [by rewrite Hout|]. by destruct (k_pc c). }
  destruct (s_pc c) as [|acc|n acc|buf|[|x rest] rb|[|x rest]| |]; try done;
    cbn [server_io] in Hstep; simplify_eq; try (apply Hnext; by auto).
  - polled; apply Hnext; auto. left. by rewrite Hview, app_comm_cons, Hrest, <- !app_assoc.
  - polled; apply Hnext; auto. left. by rewrite Hview, Hrest, <- !app_assoc.
Qed.

Lemma server_io_ok c p inp out :
  conn_ok c → server_io (client_open (k_pc c)) (s_pc c) (c2s c) (s2c c) = Some (p, inp, out) →
  conn_ok (set_server c p inp out).
Proof.
  intros (b & Hb & Hd & Hf & Hc) Hstep. exists b. split_and!; try done.
  change (k_resp (set_server c p inp out)) with (k_resp c). destruct (k_resp c) as [r|].
  - destruct Hc as (rb & Hrb & Hc). exists rb. split; [done|]. by apply server_io_response.
  - by apply server_io_request.
Qed.

(** A ban whose expiry does not fit at some time of the clock. *)
Definition overflowing (req : DaemonRequest) : Prop :=
  ∃ target ttl utc, req = ReqBan target (Some ttl) ∧ ban_end_time true utc (Some ttl) = None.

(** A panic of the handler is the overflow of an expiry, in a build that checks. *)
Lemma handle_request_panics utc req (banned : MB) (stats : MS) :
  handle_request oc utc req banned stats = None → oc = true ∧ overflowing req.
Proof.
  destruct req as [t ttl|t| |]; cbn [handle_request].
  - destruct (ipv4_from_str t); [|done]. destruct (ban_end_time oc utc ttl) as [e|] eqn:He.
    + cbn [mbind option_bind]. by destruct (bm_insert _ _ _).
    + intros _. destruct oc; [|by destruct (ban_end_time_release utc ttl); congruence].
      split; [done|]. destruct ttl as [n|]; [by exists t, n, utc | done].
  - destruct (ipv4_from_str t); [|done]. by destruct (bm_remove _ _).
  - done.
  - by destruct (bm_get _ _).
Qed.

(** The daemon handles the request the client sent. *)
Lemma handle_ok c buf utc (banned : MB) (stats : MS) :
  conn_ok c → s_pc c = SHandle buf →
  match server_handle oc utc buf banned stats with
  | None => oc = true ∧ overflowing (k_req c)
  | Some (resp, p, banned') =>
      k_resp c = None ∧ handle_request oc utc (k_req c) banned stats = Some (resp, banned') ∧
      conn_ok (set_answer c p resp) ∧ serving p = true
  end.
Proof.
  intros (b & Hb & Hd & Hf & Hc) Hsp. destruct (k_resp c) as [r|] eqn:Hr.
  { destruct Hc as (rb & _ & _ & _ & Hs & _). by rewrite Hsp in Hs. }
  destruct Hc as (Hv & Hask & Hpr & Hs). rewrite Hsp in Hs. destruct Hs as (-> & Hc & Hu).
  unfold server_handle.
  destruct (respond oc utc b banned stats) as [[resp banned']|] eqn:Hresp; simpl;
    [|unfold respond in Hresp; rewrite Hd in Hresp; by eapply handle_request_panics].
  destruct (response_roundtrip resp) as (rb & Hrb & _ & _ & _). rewrite Hrb. split_and!; try done.
  - unfold respond in Hresp. by rewrite Hd in Hresp.
  - exists b. split_and!; try done. exists rb. split; [done|]. split_and!; try done.
    unfold outgoing. simpl. rewrite Hsp in Hask.
    destruct (k_pc c) as [| | |[|]| | | |]; try done; simpl; rewrite ?Hv; naive_solver.
Qed.

(** ** The invariant of the network *)

(** The connections of a run in their order. *)
Definition connections (evs : list (n_event MS)) : list (nat * DaemonRequest) :=
  omap (λ ev, match ev with Connect i req => Some (i, req) | _ => None end) evs.

(** The requests handled one after the other, by themselves. *)
Fixpoint replay (es : list (entry MS)) (b : MB) : option MB :=
  match es with
  | [] => Some b
  | e :: es =>
      '(resp, b) ← handle_request oc (e_utc e) (e_req e) b (e_stats e);
      if decide (resp = e_resp e) then replay es b else None
  end.

Definition answered (c : Conn C) : bool := match k_resp c with Some _ => true | None => false end.

(** The connection in its turn, when its request is not handled yet. *)
Definition turn_pending (current : option nat) (conns : gmap nat (Conn C)) : list nat :=
  match current with
  | Some i => if from_option answered true (conns !! i) then [] else [i]
  | None => []
  end.

Record net_inv (b0 : MB) (order : list (nat * DaemonRequest)) (s : Net MB MS C) : Prop := {
  ni_conn i c : n_conns s !! i = Some c → conn_ok c ∧ (i, k_req c) ∈ order;
  ni_order : NoDup order.*1;
  ni_dom i : i ∈ order.*1 → is_Some (n_conns s !! i);
  ni_backlog i : i ∈ n_backlog s ↔ ∃ c, n_conns s !! i = Some c ∧ s_pc c = SWait;
  ni_current i : n_current s = Some i ↔ ∃ c, n_conns s !! i = Some c ∧ serving (s_pc c) = true;
  ni_alive : n_alive s = false → oc = true ∧ n_current s = None ∧ n_backlog s = [] ∧
    ∃ i req, (i, req) ∈ order ∧ overflowing req;
  ni_turns : (e_conn <$> n_log s) ++ turn_pending (n_current s) (n_conns s) ++ n_backlog s `sublist_of` order.*1;
  ni_log e : e ∈ n_log s →
    ∃ c, n_conns s !! e_conn e = Some c ∧ k_resp c = Some (e_resp e) ∧ k_req c = e_req e;
  ni_resp i c r : n_conns s !! i = Some c → k_resp c = Some r →
    ∃ e, e ∈ n_log s ∧ e_conn e = i ∧ e_req e = k_req c ∧ e_resp e = r;
  ni_replay : replay (n_log s) b0 = Some (n_bans s);
}.

Lemma replay_snoc es b b' e b'' :
  replay es b = Some b' → handle_request oc (e_utc e) (e_req e) b' (e_stats e) = Some (e_resp e, b'') →
  replay (es ++ [e]) b = Some b''.
Proof.
  revert b. induction es as [|e' es IH]; intros b; simpl.
  - intros [= ->] ->. simpl. by rewrite decide_True.
  - destruct (handle_request _ _ _ b _) as [[r b1]|]; simpl; [|done].
    case_decide; [|done]. apply IH.
Qed.

Lemma turn_pending_insert current conns i c' :
  (∀ c, conns !! i = Some c → answered c' = answered c) → (conns !! i = None → current ≠ Some i) →
  turn_pending current (<[i:=c']> conns) = turn_pending current conns.
Proof.
  intros Hs Hn. unfold turn_pending. destruct current as [j|]; [|done].
  destruct (decide (i = j)) as [<-|]; [|by rewrite lookup_insert_ne].
  rewrite lookup_insert_eq. destruct (conns !! i); simpl; [by rewrite (Hs _ eq_refl) | naive_solver].
Qed.

Lemma n_init_inv b st utc : net_inv b [] (n_init b st utc).
Proof. split; simpl; try done; first [by apply NoDup_nil | set_solver]. Qed.

Lemma lookup_set (P : Conn C → Prop) (conns : gmap nat (Conn C)) i c' j :
  (∃ x, <[i:=c']> conns !! j = Some x ∧ P x) ↔
    if decide (i = j) then P c' else ∃ x, conns !! j = Some x ∧ P x.
Proof.
  case_decide as Hij; [subst; rewrite lookup_insert_eq; naive_solver|].
  by rewrite lookup_insert_ne.
Qed.

(** A step that changes one connection, and may handle its request. *)
Definition handles (i : nat) (c c' : Conn C) (es : list (entry MS)) : Prop :=
  match es with
  | [] => k_resp c' = k_resp c
  | [e] => e_conn e = i ∧ e_req e = k_req c ∧ k_resp c = None ∧ k_resp c' = Some (e_resp e)
  | _ => False
  end.

Lemma set_inv b order s i c c' es s' :
  net_inv b order s → n_conns s !! i = Some c → conn_ok c' → k_req c' = k_req c →
  n_conns s' = <[i:=c']> (n_conns s) →
  (∀ j, j ∈ n_backlog s' ↔ if decide (i = j) then s_pc c' = SWait else j ∈ n_backlog s) →
  (∀ j, n_current s' = Some j ↔
    if decide (i = j) then serving (s_pc c') = true else n_current s = Some j) →
  n_alive s' = n_alive s → (n_alive s = false → n_current s' = n_current s ∧ n_backlog s' = n_backlog s) →
  (e_conn <$> es) ++ turn_pending (n_current s') (n_conns s') ++ n_backlog s' `sublist_of`
    turn_pending (n_current s) (n_conns s) ++ n_backlog s →
  n_log s' = n_log s ++ es → handles i c c' es → replay (n_log s') b = Some (n_bans s') →
  net_inv b order s'.
Proof.
  intros [Hconn Hord Hdom Hb Hcur Hal Ht Hlog Hresp Hrep] Hi Hok Hreq Hcs Hbs Hcu Ha Ha' Hts Hl Hes Hr.
  split; rewrite ?Hcs, ?Hl, ?fmap_app; try done.
  - intros j x [[<- <-]|[_ Hj]]%lookup_insert_Some; [|by apply Hconn].
    rewrite Hreq. split; [done|]. by eapply Hconn.
  - intros j Hj. rewrite lookup_insert_is_Some. destruct (decide (i = j)); naive_solver.
  - intros j. rewrite (lookup_set (λ x, s_pc x = SWait)), Hbs. by case_decide.
  - intros j. rewrite (lookup_set (λ x, serving (s_pc x) = true)), Hcu. by case_decide.
  - rewrite Ha. intros Hf. destruct (Hal Hf) as (? & ? & ? & ?), (Ha' Hf).
    split_and!; [congruence.. | done].
  - rewrite <- Hcs, <- app_assoc. etrans; [|apply Ht]. by apply sublist_app.
  - intros e [He|He]%elem_of_app.
    + destruct (Hlog e He) as (x & Hx & Hre & Hq). destruct (decide (i = e_conn e)) as [->|];
        [|by rewrite lookup_insert_ne; eauto].
      rewrite lookup_insert_eq. simplify_eq. exists c'. split_and!; [done| |congruence].
      destruct es as [|? []]; simpl in Hes; [congruence | naive_solver | done].
    + destruct es as [|e' []]; simpl in Hes; [by apply not_elem_of_nil in He| |done].
      apply list_elem_of_singleton in He as ->. destruct Hes as (-> & ? & ? & ?).
      exists c'. rewrite lookup_insert_eq. split_and!; congruence.
  - intros j x r [[<- <-]|[_ Hj]]%lookup_insert_Some Hx.
    + setoid_rewrite elem_of_app. rewrite Hreq. destruct es as [|e' []]; simpl in Hes; [| |done].
      * rewrite Hes in Hx. destruct (Hresp i c r Hi Hx) as (e & ? & ?). eauto.
      * exists e'. rewrite list_elem_of_singleton. destruct Hes as (? & ? & _ & ?).
        split_and!; [by right | congruence..].
    + setoid_rewrite elem_of_app. destruct (Hresp j x r Hj Hx) as (e & ? & ?). eauto.
  - by rewrite <- Hl.
Qed.

(** A request as [send_command] builds it, of at most 4 GiB. *)
Definition good_request (req : DaemonRequest) : Prop :=
  wf_request req ∧ ∀ b, to_vec_request req = Ok b → fits_u32 b.

Lemma start_ok req :
  good_request req →
  conn_ok {| k_req := req; k_pc := client_start req; s_pc := SWait; c2s := ch_new; s2c := ch_new;
             k_resp := None |}.
Proof.
  intros [Hwf Hfit]. destruct (request_roundtrip req Hwf) as (b & Hb & Hd & _ & _). exists b.
  unfold client_start. rewrite Hb. split_and!; try done; [by apply Hfit|].
  split_and!; try done; [apply ch_new_view | by left|]. exists []. simpl.
  by rewrite ch_new_view, app_nil_r.
Qed.

Lemma connect_inv b order s i req s' :
  net_inv b order s → good_request req → n_step oc (Connect i req) s = Some s' →
  net_inv b (order ++ [(i, req)]) s'.
Proof.
  intros [Hconn Hord Hdom Hb Hcur Hal Ht Hlog Hresp Hrep] Hreq Hstep. simpl in Hstep.
  destruct (n_alive s) eqn:Ha; [|done]. destruct (n_conns s !! i) as [|] eqn:Hi; simplify_eq.
  assert (∀ j c, n_conns s !! j = Some c → i ≠ j) as Hne by naive_solver.
  assert (i ∉ order.*1) as Hnew by (intros Hin; destruct (Hdom _ Hin); congruence).
  split; simpl; rewrite ?fmap_app; simpl; try done.
  - intros j c [[<- <-]|[_ Hj]]%lookup_insert_Some; [|set_solver].
    split; [by apply start_ok | set_solver].
  - apply NoDup_app. split_and!; [done | set_solver | apply NoDup_singleton].
  - intros j Hj. rewrite lookup_insert_is_Some'. set_solver.
  - intros j. rewrite elem_of_app, Hb, list_elem_of_singleton. split.
    + intros [(c & Hc & Hs)| ->]; [exists c; by rewrite lookup_insert_ne by (by eapply Hne)|].
      rewrite lookup_insert_eq. eauto.
    + intros (c & [[<- <-]|[_ Hj]]%lookup_insert_Some & Hs); eauto.
  - intros j. rewrite Hcur. split.
    + intros (c & Hc & Hs). exists c. by rewrite lookup_insert_ne by (by eapply Hne).
    + intros (c & [[<- <-]|[_ Hj]]%lookup_insert_Some & Hs); [done | eauto].
  - rewrite (app_assoc (turn_pending _ _)), app_assoc. apply sublist_app; [|done].
    rewrite turn_pending_insert; [done | congruence |]. intros _ Hi'.
    destruct (proj1 (Hcur i) Hi') as (c & Hc & _). congruence.
  - intros e He. destruct (Hlog e He) as (c & Hc & ?). exists c.
    by rewrite lookup_insert_ne by (by eapply Hne).
  - intros j c r [[<- <-]|[_ Hj]]%lookup_insert_Some Hr; [done | by eapply Hresp].
Qed.

(** Where a connection is, as the daemon knows it. *)
Lemma in_backlog b order s i c :
  net_inv b order s → n_conns s !! i = Some c → (i ∈ n_backlog s ↔ s_pc c = SWait).
Proof. intros Hinv Hi. rewrite (ni_backlog _ _ _ Hinv). naive_solver. Qed.

Lemma is_current b order s i c :
  net_inv b order s → n_conns s !! i = Some c → (n_current s = Some i ↔ serving (s_pc c) = true).
Proof. intros Hinv Hi. rewrite (ni_current _ _ _ Hinv). naive_solver. Qed.

(** A step of a client. *)
Lemma client_inv b order s i c c' :
  net_inv b order s → n_conns s !! i = Some c → conn_ok c' → k_req c' = k_req c →
  k_resp c' = k_resp c → s_pc c' = s_pc c → net_inv b order (with_conn s i c').
Proof.
  intros Hinv Hi Hok Hreq Hans Hsp. pose proof Hinv as [_ _ _ Hb Hcur _ _ _ _ Hrep].
  eapply (set_inv _ _ _ _ c c' []); simpl; rewrite ?app_nil_r; try done.
  - intros j. case_decide as Hj; [subst|done]. by rewrite (in_backlog _ _ _ _ _ Hinv Hi), Hsp.
  - intros j. case_decide as Hj; [subst|done]. by rewrite (is_current _ _ _ _ _ Hinv Hi), Hsp.
  - rewrite turn_pending_insert; [done| |].
    + intros x Hx. simplify_eq. unfold answered. by rewrite Hans.
    + congruence.
Qed.

(** The daemon accepts the first connection of the queue. *)
Lemma accept_inv b order s i backlog c :
  net_inv b order s → n_current s = None → n_backlog s = i :: backlog → n_alive s = true →
  n_conns s !! i = Some c →
  net_inv b order
    {| n_conns := <[i:=set_server c (SReadLen []) (c2s c) (s2c c)]> (n_conns s);
       n_backlog := backlog; n_current := Some i; n_alive := true;
       n_bans := n_bans s; n_stats := n_stats s; n_utc := n_utc s; n_log := n_log s |}.
Proof.
  intros Hinv Hcn Hbn Ha Hi. pose proof Hinv as [Hconn Hord _ Hb Hcur _ Ht _ _ Hrep].
  assert (s_pc c = SWait) as Hsp.
  { destruct (proj1 (Hb i)) as (x & Hx & ?); [rewrite Hbn; by left | congruence]. }
  assert (NoDup (i :: backlog)) as [Hnd _]%NoDup_cons.
  { rewrite <- Hbn. eapply sublist_NoDup; [exact Hord|]. etrans; [|exact Ht].
    do 2 apply sublist_inserts_l. done. }
  destruct (Hconn i c Hi) as [Hok _].
  assert (k_resp c = None) as Hn.
  { destruct Hok as (? & _ & _ & _ & Hok). destruct (k_resp c); [|done].
    destruct Hok as (? & _ & _ & _ & Hok & _). by rewrite Hsp in Hok. }
  eapply (set_inv _ _ _ _ c (set_server c (SReadLen []) (c2s c) (s2c c)) []); simpl;
    rewrite ?app_nil_r; try done.
  - destruct Hok as (q & Hq1 & Hq2 & Hq3 & Hok). exists q. split_and!; try done. simpl.
    rewrite Hn in *. destruct Hok as (Hv & Hask & Hpr & Hs). rewrite Hsp in *.
    unfold request_ok; simpl. split_and!; [done | naive_solver | done | lia | exact Hs].
  - intros j. rewrite Hbn. case_decide as Hj; [subst; naive_solver|].
    rewrite elem_of_cons. naive_solver.
  - intros j. rewrite ?Hcn. case_decide; split; congruence.
  - congruence.
  - rewrite Hcn, Hbn, lookup_insert_eq. simpl. unfold answered. simpl. by rewrite Hn. 
Qed.

(** The daemon reads or writes. *)
Lemma io_inv b order s i c p inp out :
  net_inv b order s → n_current s = Some i → n_conns s !! i = Some c → 
  server_io (client_open (k_pc c)) (s_pc c) (c2s c) (s2c c) = Some (p, inp, out) →
  net_inv b order
    {| n_conns := <[i:=set_server c p inp out]> (n_conns s); n_backlog := n_backlog s;
       n_current := if server_open p then Some i else None; n_alive := n_alive s;
       n_bans := n_bans s; n_stats := n_stats s; n_utc := n_utc s; n_log := n_log s |}.
Proof.
  intros Hinv Hcn Hi Hio. pose proof Hinv as [Hconn _ _ Hb Hcur Hal _ _ _ Hrep].
  assert (p ≠ SWait ∧ serving p = server_open p) as [Hp Hop].
  { destruct (s_pc c) as [|?|??|?|[]|[]| |]; simpl in Hio; repeat case_match; by simplify_eq. }
  assert (s_pc c ≠ SWait) as Hsp by (intros Hsp; by rewrite Hsp in Hio).
  eapply (set_inv _ _ _ _ c (set_server c p inp out) []); simpl; rewrite ?app_nil_r; try done.
  - by apply server_io_ok; [apply (Hconn i)|].
  - intros j. case_decide as Hj; [subst|done].
    rewrite (in_backlog _ _ _ _ _ Hinv Hi). split; congruence.
  - intros j. rewrite Hop. destruct (server_open p); case_decide; naive_solver.
  - intros Ha. destruct (Hal Ha) as (_ & ? & _). congruence.
  - apply sublist_app; [|done]. rewrite Hcn. destruct (server_open p); [|apply sublist_nil_l].
    rewrite turn_pending_insert; [done| |congruence]. intros x Hx. by simplify_eq.
Qed.

(** The daemon handles a request, or the handling panics. *)
Lemma answer_inv b order s i c buf resp p banned :
  net_inv b order s → n_current s = Some i → n_conns s !! i = Some c → s_pc c = SHandle buf →
  server_handle oc (utc_nanos (n_utc s)) buf (n_bans s) (n_stats s) = Some (resp, p, banned) →
  net_inv b order
    {| n_conns := <[i:=set_answer c p resp]> (n_conns s); n_backlog := n_backlog s;
       n_current := Some i; n_alive := true; n_bans := banned; n_stats := n_stats s;
       n_utc := n_utc s;
       n_log := n_log s ++ [{| e_conn := i; e_utc := utc_nanos (n_utc s); e_stats := n_stats s;
                               e_req := k_req c; e_resp := resp |}] |}.
Proof.
  intros Hinv Hcn Hi Hsp Hh. pose proof Hinv as [Hconn _ _ Hb Hcur Hal _ _ _ Hrep].
  destruct (Hconn i c Hi) as [Hok _].
  pose proof (handle_ok c buf (utc_nanos (n_utc s)) (n_bans s) (n_stats s) Hok Hsp) as Hans.
  rewrite Hh in Hans. destruct Hans as (Hn & Hreq & Hok' & Hsv).
  assert (p ≠ SWait) as Hp by (by intros ->).
  eapply (set_inv _ _ _ _ c (set_answer c p resp) [_]); simpl; try done.
  - intros j. case_decide as Hj; [subst|done].
    rewrite (in_backlog _ _ _ _ _ Hinv Hi). split; congruence.
  - intros j. rewrite ?Hcn. case_decide; split; congruence.
  - destruct (n_alive s) eqn:Ha; [done|]. by destruct (Hal eq_refl) as (_ & ? & _); congruence.
  - unfold turn_pending. rewrite Hcn, Hi, lookup_insert_eq. simpl. unfold answered. simpl. by rewrite Hn.
  - by eapply replay_snoc.
Qed.

Lemma drop_ok c :
  oc = true → k_resp c = None → conn_ok c → conn_ok (set_server c SEnd (c2s c) (s2c c)).
Proof.
  intros Hoc Hn (b & Hb & Hd & Hf & Hc). exists b. split_and!; try done. simpl. rewrite Hn in *.
  destruct Hc as (Hv & Hask & Hpr & _). unfold request_ok; simpl.
  split_and!; [done | destruct Hask as [?|[?|[_ ?]]]; auto | done | congruence].
Qed.

Lemma drop_waiting_ok c :
  oc = true → conn_ok c →
  conn_ok (drop_waiting c) ∧ k_req (drop_waiting c) = k_req c ∧ k_resp (drop_waiting c) = k_resp c ∧
  s_pc (drop_waiting c) ≠ SWait ∧ serving (s_pc (drop_waiting c)) = serving (s_pc c).
Proof.
  intros Hoc Hok. unfold drop_waiting. destruct (s_pc c) eqn:Hsp; try by rewrite Hsp.
  split_and!; try done. apply drop_ok; [done| |done].
  destruct Hok as (? & _ & _ & _ & Hok). destruct (k_resp c); [|done].
  destruct Hok as (? & _ & _ & _ & Hok & _). by rewrite Hsp in Hok.
Qed.

(** What the panic in the turn of [i] leaves of the connections. *)
Definition dropped (s : Net MB MS C) (i : nat) (c : Conn C) : gmap nat (Conn C) :=
  drop_waiting <$> <[i:=set_server c SEnd (c2s c) (s2c c)]> (n_conns s).

Lemma dropped_spec b order s i c j y :
  net_inv b order s → oc = true → n_current s = Some i → n_conns s !! i = Some c →
  k_resp c = None → n_conns s !! j = Some y →
  ∃ x, dropped s i c !! j = Some x ∧ conn_ok x ∧ k_req x = k_req y ∧ k_resp x = k_resp y ∧
    s_pc x ≠ SWait ∧ serving (s_pc x) = false.
Proof.
  intros Hinv Hoc Hcn Hi Hn Hy. destruct (ni_conn _ _ _ Hinv j y Hy) as [Hok _].
  unfold dropped. rewrite lookup_fmap. destruct (decide (i = j)) as [<-|Hij].
  - rewrite lookup_insert_eq. simplify_eq. eexists. split; [done|].
    split_and!; try done. by apply drop_ok.
  - rewrite lookup_insert_ne, Hy by done. eexists. split; [done|].
    destruct (drop_waiting_ok y Hoc Hok) as (? & ? & ? & ? & Hs).
    split_and!; try done. rewrite Hs. destruct (serving (s_pc y)) eqn:Hsy; [|done].
    apply (is_current _ _ _ _ _ Hinv Hy) in Hsy. congruence.
Qed.

Lemma dropped_lookup s i c j x :
  n_conns s !! i = Some c → dropped s i c !! j = Some x → is_Some (n_conns s !! j).
Proof.
  unfold dropped. rewrite lookup_fmap. intros Hi Hx.
  destruct (decide (i = j)) as [<-|Hij]; [by eauto|].
  rewrite lookup_insert_ne in Hx by done. destruct (n_conns s !! j); [eauto | done].
Qed.

Lemma panic_inv b order s i c buf :
  net_inv b order s → n_current s = Some i → n_conns s !! i = Some c → s_pc c = SHandle buf →
  server_handle oc (utc_nanos (n_utc s)) buf (n_bans s) (n_stats s) = None →
  net_inv b order
    {| n_conns := dropped s i c;
       n_backlog := []; n_current := None; n_alive := false; n_bans := n_bans s;
       n_stats := n_stats s; n_utc := n_utc s; n_log := n_log s |}.
Proof.
  intros Hinv Hcn Hi Hsp Hh. pose proof Hinv as [Hconn Hord Hdom Hb Hcur Hal Ht Hlog Hresp Hrep].
  destruct (Hconn i c Hi) as [Hok _].
  pose proof (handle_ok c buf (utc_nanos (n_utc s)) (n_bans s) (n_stats s) Hok Hsp) as Hoc.
  rewrite Hh in Hoc. destruct Hoc as [Hoc Hover].
  assert (k_resp c = None) as Hn.
  { destruct Hok as (? & _ & _ & _ & Hok). destruct (k_resp c); [|done].
    destruct Hok as (? & _ & _ & _ & Hok & _). by rewrite Hsp in Hok. }
  assert (∀ j x, dropped s i c !! j = Some x → ∃ y, n_conns s !! j = Some y ∧
    conn_ok x ∧ k_req x = k_req y ∧ k_resp x = k_resp y ∧ s_pc x ≠ SWait ∧
    serving (s_pc x) = false) as Hbw.
  { intros j x Hx. destruct (dropped_lookup _ _ _ _ _ Hi Hx) as [y Hy]. exists y. split; [done|].
    destruct (dropped_spec _ _ _ _ _ _ _ Hinv Hoc Hcn Hi Hn Hy) as (x' & ? & ?). congruence. }
  split; simpl; try done.
  - intros j x Hx. destruct (Hbw j x Hx) as (y & Hy & ? & -> & _). split; [done|]. by apply Hconn.
  - intros j [y Hy]%Hdom. destruct (dropped_spec _ _ _ _ _ _ _ Hinv Hoc Hcn Hi Hn Hy) as (x & ? & _). eauto.
  - intros j. split; [by intros ?%not_elem_of_nil|]. intros (x & Hx & ?).
    by destruct (Hbw j x Hx) as (y & _ & _ & _ & _ & ? & _).
  - intros j. split; [done|]. intros (x & Hx & ?).
    destruct (Hbw j x Hx) as (y & _ & _ & _ & _ & _ & ?). congruence.
  - intros _. split_and!; [done..|]. exists i, (k_req c). split; [by apply Hconn | done].
  - etrans; [|exact Ht]. apply sublist_app; [done | apply sublist_nil_l].
  - intros e He. destruct (Hlog e He) as (y & Hy & ? & ?).
    destruct (dropped_spec _ _ _ _ _ _ _ Hinv Hoc Hcn Hi Hn Hy) as (x & ? & _ & ? & ? & _).
    exists x. split_and!; congruence.
  - intros j x r Hx Hr. destruct (Hbw j x Hx) as (y & Hy & ? & -> & Hr' & _).
    apply (Hresp j y r Hy). congruence.
Qed.

(** ** Runs *)

Definition good_event (ev : n_event MS) : Prop :=
  match ev with Connect _ req => good_request req | _ => True end.

(** Time passes, or the filter counts. *)
Lemma clock_inv b order s st utc :
  net_inv b order s →
  net_inv b order
    {| n_conns := n_conns s; n_backlog := n_backlog s; n_current := n_current s;
       n_alive := n_alive s; n_bans := n_bans s; n_stats := st; n_utc := utc; n_log := n_log s |}.
Proof. by intros []. Qed.

Lemma serve_inv b order s s' :
  net_inv b order s → n_step oc Serve s = Some s' → net_inv b order s'.
Proof.
  intros Hinv Hstep. simpl in Hstep. destruct (n_alive s) eqn:Ha; [|done].
  destruct (n_current s) as [i|] eqn:Hcn.
  - destruct (n_conns s !! i) as [c|] eqn:Hi; [|done]. simpl in Hstep. unfold serve_step in Hstep.
    destruct (s_pc c) eqn:Hsp; try rewrite <- Hsp in Hstep;
      try (destruct (server_io _ _ _ _) as [[[p inp] out]|] eqn:Hio; [|done]; simplify_eq/=;
           by apply io_inv).
    destruct (server_handle _ _ _ _ _) as [[[resp p] banned]|] eqn:Hh; simplify_eq/=.
    + by eapply answer_inv.
    + by eapply panic_inv.
  - destruct (n_backlog s) as [|i backlog] eqn:Hbn; [done|].
    destruct (n_conns s !! i) as [c|] eqn:Hi; [|done]. simplify_eq/=. by apply accept_inv.
Qed.

Lemma n_step_inv b order s ev s' :
  net_inv b order s → good_event ev → n_step oc ev s = Some s' →
  net_inv b (order ++ connections [ev]) s'.
Proof.
  intros Hinv Hgood Hstep. pose proof Hinv as [Hconn _ _ _ _ _ _ _ _ _].
  destruct ev as [i req|i|i| |d|st]; [by eapply connect_inv| ..];
    unfold connections; simpl; rewrite app_nil_r.
  - simpl in Hstep. destruct (n_conns s !! i) as [c|] eqn:Hi; [|done]. simpl in Hstep.
    destruct (client_step _ _ _ _) as [[[p out] inp]|] eqn:Hc; [|done]. simplify_eq/=.
    eapply client_inv; try done. apply client_step_ok; [by eapply Hconn | done].
  - simpl in Hstep. destruct (n_conns s !! i) as [c|] eqn:Hi; [|done]. simpl in Hstep.
    destruct (client_open (k_pc c)) eqn:Ho; [|done]. simplify_eq/=.
    eapply client_inv; try done. apply kill_ok; [by eapply Hconn | done].
  - by eapply serve_inv.
  - simplify_eq/=. by apply clock_inv.
  - simplify_eq/=. by apply clock_inv.
Qed.

Lemma n_run_inv b order evs s s' :
  net_inv b order s → Forall good_event evs → n_run oc evs s = Some s' →
  net_inv b (order ++ connections evs) s'.
Proof.
  intros Hinv Hgood. revert order s Hinv.
  induction Hgood as [|ev evs Hev Hevs IH]; intros order s Hinv Hrun; simpl in Hrun.
  { simplify_eq. unfold connections. by rewrite app_nil_r. }
  destruct (n_step oc ev s) as [s1|] eqn:Hstep; [|done].
  replace (order ++ connections (ev :: evs)) with ((order ++ connections [ev]) ++ connections evs).
  - eapply IH; [|done]. by eapply n_step_inv.
  - rewrite <- app_assoc. unfold connections. simpl. by case_match.
Qed.
End sessions.

Lemma connections_In {MS} i req (evs : list (n_event MS)) :
  (i, req) ∈ connections evs ↔ Connect i req ∈ evs.
Proof.
  unfold connections. rewrite list_elem_of_omap. split.
  - intros ([j r|?|?| |?|?] & Hin & ?); by simplify_eq/=.
  - intros Hin. by exists (Connect i req).
Qed.
