(* ===== verification/EndToEnd.v ===== *)
(** * From the command line to the dropped segment

    The parts together: a command line becomes a request ([CommandLine]), a session
    with the daemon carries it out ([Progress]), and the filter acts on the bans
    ([Xdp]). *)

From S2P Require Export CommandLine Progress.

Section end_to_end.
Context `{ClapSpec} `{NetworkTypesSpec}.
Context `{BpfHashMapSpec MB BanValue} `{BpfHashMapSpec MS StatsValue}.
Context `{SerdeJsonSpec} `{ByteChannelSpec C}.
Variable oc : bool.

(** The program was started with the words [argv] and has connected as [i]. *)
Definition started (argv : list string) (i : nat) (evs : list (n_event MS)) : Prop :=
  ∃ cli req, Cli_parse argv = Ok cli ∧ command_request (command cli) = Some req ∧
    Connect i req ∈ evs.

(** No other client names the address. *)
Definition others_leave (ip : Z) (i : nat) (evs : list (n_event MS)) : Prop :=
  ∀ j req, Connect j req ∈ evs → j ≠ i → req_target req ≠ Some ip.

Lemma connections_fun i req req' (evs : list (n_event MS)) :
  NoDup (connections evs).*1 → (i, req) ∈ connections evs → (i, req') ∈ connections evs → req = req'.
Proof.
  intros Hnd Hr Hr'. induction (connections evs) as [|[j r] l IH]; [by apply not_elem_of_nil in Hr|].
  rewrite fmap_cons, NoDup_cons in Hnd. destruct Hnd as [Hj Hnd]. simpl in Hj.
  assert (∀ r', (j, r') ∉ l) as Hl by (intros r' Hin; apply Hj, list_elem_of_fmap; by exists (j, r')).
  apply elem_of_cons in Hr as [[= -> ->]|Hr], Hr' as [[= ]|Hr']; subst; try done;
    [by destruct (Hl req') | by destruct (Hl req) | by apply IH].
Qed.

(** ** What the log does to the bans *)

Lemma replay_fw es (b b' : MB) :
  bm_cap b = fw_capacity → replay oc es b = Some b' →
  bm_cap b' = fw_capacity ∧
  end_time <$> bm_view b' =
    foldl fw_after (end_time <$> bm_view b) ((λ e, request_label oc (e_utc e) (e_req e)) <$> es).
Proof.
  revert b. induction es as [|e es IH]; intros b Hcap; simpl; [by intros [= ->]|].
  destruct (handle_request _ _ _ b _) as [[r b1]|] eqn:Hh; [|done]. simpl. case_decide; [|done].
  intros Hr. destruct (handle_request_label _ _ _ _ _ _ _ Hcap Hh) as [Hcap1 <-]. by apply IH.
Qed.

Lemma replay_app es1 es2 (b b' : MB) :
  replay oc (es1 ++ es2) b = Some b' → ∃ b1, replay oc es1 b = Some b1 ∧ replay oc es2 b1 = Some b'.
Proof.
  revert b. induction es1 as [|e es1 IH]; intros b; simpl; [eauto|].
  destruct (handle_request _ _ _ b _) as [[r b1]|]; [|done]. simpl. case_decide; [apply IH | done].
Qed.

Lemma fw_after_size m l : (size (fw_after m l) ≤ S (size m))%nat.
Proof.
  destruct l as [| |ip|]; simpl; try lia.
  - case_decide; [|lia]. destruct (m !! ip) eqn:Hm.
    + rewrite map_size_insert_Some by eauto. lia.
    + rewrite map_size_insert_None by done. lia.
  - rewrite (map_subseteq_size (delete ip m) m); [lia | apply delete_subseteq].
Qed.

Lemma foldl_fw_size ls m : (size (foldl fw_after m ls) ≤ size m + length ls)%nat.
Proof.
  revert m. induction ls as [|l ls IH]; intros m; simpl; [lia|].
  etrans; [apply IH|]. pose proof (fw_after_size m l). lia.
Qed.

Lemma foldl_fw_leaves (es : list (entry MS)) m ip :
  (∀ e, e ∈ es → req_target (e_req e) ≠ Some ip) →
  foldl fw_after m ((λ e, request_label oc (e_utc e) (e_req e)) <$> es) !! ip = m !! ip.
Proof.
  revert m. induction es as [|e es IH]; intros m Hes; simpl; [done|].
  rewrite IH by (intros e' He'; apply Hes; by right).
  apply request_label_leaves, Hes. by left.
Qed.

(** The filter on a map of bans. *)
Lemma rustguard_banned ctx now (st : XdpState MB MS) ip port e :
  wf_ctx ctx → parse_frame (packet ctx) = Segment ip port →
  (end_time <$> bm_view (BANNED_IPS st)) !! ip = Some e →
  ∃ st', rustguard ctx now st = Some (if decide (e = 0 ∨ now ≤ e) then XDP_DROP else XDP_PASS, st').
Proof.
  intros Hctx Hp He. rewrite rustguard_filter by done. unfold filter_frame. rewrite Hp, bm_get_spec.
  rewrite lookup_fmap in He. destruct (bm_view (BANNED_IPS st) !! ip) as [ban|]; simplify_eq/=.
  unfold ban_active. case_bool_decide; case_decide; try tauto; eauto.
Qed.

(** ** A session *)

(** Its request, with what was handled before and after. *)
Lemma handled_between b (evs : list (n_event MS)) (s : Net MB MS C) e :
  net_inv oc b (connections evs) s → e ∈ n_log s →
  ∃ l1 l2 b1 b2, replay oc l1 b = Some b1 ∧
    handle_request oc (e_utc e) (e_req e) b1 (e_stats e) = Some (e_resp e, b2) ∧
    replay oc l2 b2 = Some (n_bans s) ∧ (length l1 < length (connections evs))%nat ∧
    ∀ e', e' ∈ l2 → e_conn e' ≠ e_conn e ∧ Connect (e_conn e') (e_req e') ∈ evs.
Proof.
  intros Hinv He. pose proof (ni_replay _ _ _ _ Hinv) as Hrep.
  pose proof (ni_turns _ _ _ _ Hinv) as Ht. pose proof (ni_order _ _ _ _ Hinv) as Hnd.
  assert (e_conn <$> n_log s `sublist_of` (connections evs).*1) as Hsub
    by (etrans; [|exact Ht]; by apply sublist_inserts_r).
  assert (∀ e', e' ∈ n_log s → Connect (e_conn e') (e_req e') ∈ evs) as Hin.
  { intros e' He'. destruct (ni_log _ _ _ _ Hinv e' He') as (c' & Hc' & _ & <-).
    apply connections_In. by apply (ni_conn _ _ _ _ Hinv). }
  pose proof (sublist_NoDup _ _ Hnd Hsub) as Hlog. pose proof (sublist_length _ _ Hsub) as Hlen.
  apply list_elem_of_split in He as (l1 & l2 & Hl). rewrite Hl in *.
  destruct (replay_app _ _ _ _ Hrep) as (b1 & Hr1 & Hr2). simpl in Hr2.
  destruct (handle_request _ _ _ b1 _) as [[r b2]|] eqn:Hh; [|done]. simpl in Hr2.
  case_decide; [|done]. subst r. exists l1, l2, b1, b2. split_and!; try done.
  - rewrite !length_fmap, length_app in Hlen. simpl in Hlen. lia.
  - intros e' He'. split; [|apply Hin; set_solver].
    rewrite fmap_app, fmap_cons in Hlog. apply NoDup_app in Hlog as (_ & _ & [Hn _]%NoDup_cons).
    intros Heq. apply Hn. rewrite <- Heq. apply list_elem_of_fmap. eauto.
Qed.

(** C3: the command [ban] bans.  When the program was started with the words of a
    ban of a valid address and its client has printed, in any run of the service in
    which no other client names the address and the map of bans has room for one ban
    of each connection, then the client was told "Success", and from then on the filter drops
    every segment of the address until the expiry computed when the request was
    handled, or for ever when no time-to-live was given. *)
Theorem ban_command_drops bin target ttl words ip i evs (b : MB) (st : MS) utc (s : Net MB MS C) c lines :
  written (CmdBan target ttl) words → started (bin :: words) i evs → ipv4_from_str target = Ok ip →
  others_leave (u32_of_ipv4 ip) i evs → Forall good_event evs →
  n_run oc evs (n_init b st utc) = Some s → bm_cap b = fw_capacity →
  (size (bm_view b) + length (connections evs) ≤ fw_capacity)%nat →
  n_conns s !! i = Some c → k_pc c = KPrinted lines →
  (∀ rb, to_vec_response RespOk = Ok rb → fits_u32 rb → lines = ["Success"%string]) ∧
  ∃ en e, en ∈ n_log s ∧ e_conn en = i ∧ ban_end_time oc (e_utc en) ttl = Some e ∧
    (ttl = None → e = 0) ∧
    ∀ ctx now (maps : XdpState MB MS) port, wf_ctx ctx → BANNED_IPS maps = n_bans s →
      parse_frame (packet ctx) = Segment (u32_of_ipv4 ip) port →
      ∃ maps', rustguard ctx now maps =
        Some (if decide (e = 0 ∨ now ≤ e) then XDP_DROP else XDP_PASS, maps').
Proof.
  intros Hw (cli & req & Hcli & Hreq & Hconn) Hip Hothers Hevs Hrun Hcap Hroom Hi Hpc.
  pose proof (run_inv oc evs b st utc s Hevs Hrun) as Hinv.
  rewrite (written_parses bin _ _ Hw) in Hcli. injection Hcli as <-. injection Hreq as <-.
  destruct (printed_answered _ _ _ _ _ _ _ Hinv Hi Hpc) as (en & rb & Hen & Hec & Her & Hrb & Hlines).
  assert (e_req en = ReqBan target ttl) as Hban.
  { apply (connections_fun i _ _ evs (ni_order _ _ _ _ Hinv)); [|by apply connections_In].
    rewrite Her. by apply (ni_conn _ _ _ _ Hinv). }
  destruct (handled_between _ _ _ _ Hinv Hen) as (l1 & l2 & b1 & b2 & Hr1 & Hh & Hr2 & Hlen & Hl2).
  destruct (replay_fw _ _ _ Hcap Hr1) as [Hcap1 Hfw1].
  destruct (handle_request_label _ _ _ _ _ _ _ Hcap1 Hh) as [Hcap2 Hfw2].
  destruct (replay_fw _ _ _ Hcap2 Hr2) as [_ Hfw].
  rewrite Hban in *. cbn [handle_request] in Hh. rewrite Hip in Hh.
  destruct (ban_end_time oc (e_utc en) ttl) as [e|] eqn:He; [|done]. cbn [mbind option_bind] in Hh.
  destruct (bm_insert _ _ _) as [r b3]. injection Hh as Hresp ->. rewrite <- Hresp in *.
  split; [intros rb' Hrb' Hf; apply Hlines; congruence|].
  exists en, e. do 3 (split; [done|]). split; [intros ->; simpl in He; congruence|].
  intros ctx now maps port Hctx Hmaps Hp. eapply rustguard_banned; [done | done|].
  rewrite Hmaps, Hfw, foldl_fw_leaves.
  - rewrite Hfw2. simpl. rewrite Hip, He. simpl. rewrite decide_True; [apply lookup_insert_eq|].
    right. rewrite Hfw1. pose proof (foldl_fw_size
      ((λ e, request_label oc (e_utc e) (e_req e)) <$> l1) (end_time <$> bm_view b)) as Hs.
    rewrite length_fmap, map_size_fmap in Hs. lia.
  - intros e' He'. destruct (Hl2 e' He') as [Hne Hin]. eapply Hothers; [exact Hin | congruence].
Qed.
End end_to_end.

(** ** The command of the help text *)

Lemma session_demo_connects :
  connections session_demo = [(0%nat, ReqBan "1.2.3.4" (Some 60)); (1%nat, ReqList); (2%nat, ReqList)].
Proof. vm_compute. reflexivity. Qed.

Lemma ban_command_drops_witness :
  ∃ maps', rustguard (ctx_demo 6 [1; 2; 3; 4]) 60000000000
      {| BANNED_IPS := n_bans (net_after session_demo); STATS := no_stats; xdp_log := [] |} =
    Some (XDP_DROP, maps').
Proof.
  destruct (n_conns (net_after session_demo) !! 0%nat) as [c|] eqn:Hc;
    [|exfalso; revert Hc; vm_compute; discriminate].
  assert (k_pc <$> n_conns (net_after session_demo) !! 0%nat = Some (KPrinted ["Success"%string])) as Hpc
    by (vm_compute; reflexivity).
  rewrite Hc in Hpc. injection Hpc as Hpc.
  assert (written (CmdBan "1.2.3.4" (Some 60)) ["ban"; "1.2.3.4"; "--ttl"; "60"]%string) as Hw
    by exact (written_ban_ttl "1.2.3.4" 60 "60" eq_refl eq_refl eq_refl).
  destruct (ban_command_drops (MS := khash StatsValue) false "rustguard" "1.2.3.4" (Some 60)
    ["ban"; "1.2.3.4"; "--ttl"; "60"]%string (Ipv4 [1; 2; 3; 4]) 0 session_demo no_bans no_stats 5
    (net_after session_demo) c ["Success"%string]) as (_ & en & e & Hen & Hec & He & _ & Hdrop).
  - exact Hw.
  - exists {| command := CmdBan "1.2.3.4" (Some 60) |}, (ReqBan "1.2.3.4" (Some 60)).
    split; [exact (written_parses _ _ _ Hw)|]. split; [reflexivity|]. left.
  - vm_compute. reflexivity.
  - intros j req Hj Hne. apply connections_In in Hj. rewrite session_demo_connects in Hj.
    clear Hc Hpc. repeat (apply elem_of_cons in Hj as [[= -> ->]|Hj]; [done|]). by apply not_elem_of_nil in Hj.
  - exact session_demo_good.
  - apply net_after_run. vm_compute. by eexists.
  - reflexivity.
  - vm_compute. repeat constructor.
  - exact Hc.
  - exact Hpc.
  - assert (e = 60000000005) as ->.
    { assert (n_log (net_after session_demo) = 
        [{| e_conn := 0; e_utc := Some 5; e_stats := no_stats; e_req := ReqBan "1.2.3.4" (Some 60);
            e_resp := RespOk |};
         {| e_conn := 1; e_utc := Some 5; e_stats := no_stats; e_req := ReqList;
            e_resp := RespList ["1.2.3.4"%string] |}]) as Hlog by (vm_compute; reflexivity).
      rewrite Hlog in Hen. apply elem_of_cons in Hen as [->|Hen]; [injection He as <-; reflexivity|].
      apply list_elem_of_singleton in Hen as ->. discriminate Hec. }
    destruct (Hdrop (ctx_demo 6 [1; 2; 3; 4]) 60000000000
      {| BANNED_IPS := n_bans (net_after session_demo); STATS := no_stats; xdp_log := [] |} 1234)
      as [maps' Hr]; [by apply ctx_demo_wf | reflexivity | vm_compute; reflexivity|].
    exists maps'. exact Hr.
Defined.
