(* ===== verification/UnitTests.v ===== *)
(** * The unit tests ([mod tests] of [rustguard/src/main.rs])

    The tests and the daemon they run the client against.  A test is a
    computation that tells whether it passes; the connection is the client's end
    of a stream whose other end [fake_daemon] serves. *)

From S2P Require Export Concrete.

Section tests.
Context `{SerdeJson} `{TokioStream T}.

(** The task of [spawn_fake_daemon], on the connection it accepts: a failure of any
    step but the last is the panic of an [unwrap]. *)
Definition fake_daemon (response : DaemonResponse) (stream : T) : served (T := T) :=
  match read_u32 stream with
  | None => Blocked
  | Some (Err _) => Panicked
  | Some (Ok (len, stream)) =>
      match read_exact stream len with
      | None => Blocked
      | Some (Err _) => Panicked
      | Some (Ok (buf, stream)) =>
          match from_slice_request buf, to_vec_response response with
          | Ok _, Ok resp_bytes =>
              match write_u32 stream (as_u32 (Z.of_nat (length resp_bytes))) with
              | None => Blocked
              | Some (Err _) => Panicked
              | Some (Ok stream) =>
                  match write_all stream resp_bytes with
                  | None => Blocked
                  | Some (Err _) => Panicked
                  | Some (Ok stream) =>
                      match flush stream with
                      | None => Blocked
                      | Some (Err _) => Next None
                      | Some (Ok stream) => Next (Some stream)
                      end
                  end
              end
          | _, _ => Panicked
          end
      end
  end.

(** [spawn_fake_daemon]; [bind] is [UnixListener::bind], [accepted] the connection
    its task accepts; [None] is the panic of [bind(path).unwrap()]. *)
Definition spawn_fake_daemon {L} (bind : string → result L string) (path : string)
    (response : DaemonResponse) (accepted : T) : option (list effect * served (T := T)) :=
  match bind path with
  | Err _ => None
  | Ok _ => Some ([RemoveFile path; BindSocket path], fake_daemon response accepted)
  end.

Definition test_socket_path (name : string) : string := "/tmp/rustguard_test_" +:+ name +:+ ".sock".

Definition test_daemon_request_serialization : bool :=
  match to_vec_request (ReqBan "1.2.3.4" (Some 10)) with
  | Err _ => false
  | Ok bytes =>
      match from_slice_request bytes with
      | Ok (ReqBan target ttl) => bool_decide (target = "1.2.3.4"%string) && bool_decide (ttl = Some 10)
      | _ => false
      end
  end.

(** The readings of the clock by the two calls. *)
Definition test_boot_time_monotonic_behavior (utc_a utc_b : option Z) : bool :=
  let a := get_boot_time_ns utc_a in let b := get_boot_time_ns utc_b in a <=? b.

(** [assert!(res.is_ok())] and [is_err()]: an [.await] that never completes does
    not pass. *)
Definition passes_ok {E} (r : option (result (list string) E)) : bool :=
  match r with Some r => is_ok r | None => false end.
Definition passes_err {E} (r : option (result (list string) E)) : bool :=
  match r with Some r => negb (is_ok r) | None => false end.

Definition test_send_command_ok (connect : string → result T (IoError T)) : bool :=
  let soket := test_socket_path "send_command_ok" in
  passes_ok (send_command (connect soket) (CmdBan "1.2.3.4" (Some 5))).
Definition test_send_command_list (connect : string → result T (IoError T)) : bool :=
  let soket := test_socket_path "send_command_list" in
  passes_ok (send_command (connect soket) CmdList).
Definition test_send_command_stats (connect : string → result T (IoError T)) : bool :=
  let soket := test_socket_path "send_command_state" in
  passes_ok (send_command (connect soket) CmdStats).
Definition test_send_command_error_variant (connect : string → result T (IoError T)) : bool :=
  let soket := test_socket_path "send_command_error_variant" in
  passes_ok (send_command (connect soket) (CmdUnban "1.2.3.4")).
Definition test_send_command_connection_fail (connect : string → result T (IoError T)) : bool :=
  let soket := test_socket_path "send_command_connect_fail" in
  passes_err (send_command (connect soket) CmdList).
End tests.

Section test_proofs.
Context `{SerdeJsonSpec} `{TokioStreamSpec T}.

(** The two ends of a connection: what the client has written is what the daemon
    receives, and what the daemon writes in answer is what the client receives. *)
Definition connected (req : DaemonRequest) (response : DaemonResponse) (client server : T) : Prop :=
  st_writable client = true ∧ st_out client = [] ∧
  st_writable server = true ∧ st_out server = [] ∧
  (∀ client', send_request client req = Some (Ok client') → st_in server = st_out client') ∧
  (∀ server', fake_daemon response server = Next (Some server') → st_in client = st_out server').

(** The fake daemon answers a request that has arrived. *)
Lemma fake_daemon_answers response (server : T) buf req :
  message (st_in server) = Some buf → wf_bytes (st_in server) →
  from_slice_request buf = Ok req → st_writable server = true → st_out server = [] →
  ∃ r server', fake_daemon response server = Next (Some server') ∧
    to_vec_response response = Ok r ∧ from_slice_response r = Ok response ∧ wf_bytes r ∧ r ≠ [] ∧
    st_out server' = frame_bytes r.
Proof.
  intros Hm Hwf Hreq Hw Ho. unfold fake_daemon, message in *. case_bool_decide as Hl; [done|].
  destruct (read_u32_ok server) as (s1 & -> & Hi1 & Hc1 & Ho1 & Hw1); [lia|]. cbn zeta in Hm.
  case_bool_decide as Hn; [|done]. rewrite <- Hi1 in Hm, Hn.
  assert (0 ≤ from_be_bytes (take 4 (st_in server))) by (apply from_be_bytes_range; by apply Forall_take).
  destruct (read_exact_ok s1 (from_be_bytes (take 4 (st_in server)))) as (s2 & -> & _ & _ & Ho2 & Hw2);
    [done|]. injection Hm as ->. rewrite Hreq.
  destruct (response_roundtrip response) as (r & Hr & Hd & Hrw & Hne). rewrite Hr.
  pose proof (send_response_ok response s2) as (r' & s3 & Hsend & Hr' & _ & _ & _ & Hout); [congruence|].
  rewrite Hr in Hr'. injection Hr' as <-. exists r, s3. unfold send_response in Hsend. rewrite Hr in Hsend.
  split_and!; try done; [|rewrite Hout, Ho2, Ho1, Ho; done].
  destruct (write_u32 s2 _) as [[s4|]|]; try done.
  destruct (write_all s4 r) as [[s5|]|]; try done.
Qed.

(** The client against the fake daemon. *)
Lemma send_command_connected cmd req response (client server : T) :
  command_request cmd = Some req → wf_request req → connected req response client server →
  (∀ l, to_vec_request req = Ok l → Z.of_nat (length l) < 2 ^ 32) →
  (∀ l, to_vec_response response = Ok l → Z.of_nat (length l) < 2 ^ 32) →
  (∃ server', fake_daemon response server = Next (Some server')) ∧
  send_command (Ok client) cmd = Some (Ok (print_response response)).
Proof.
  intros Hcmd Hwf (Hcw & Hco & Hsw & Hso & Hserver & Hclient) Hl1 Hl2.
  destruct (send_request_ok client req Hwf Hcw) as (l & client' & Hsend & Hdec & Hlw & Hvec & Hout & _).
  rewrite Hco in Hout. simpl in Hout. specialize (Hserver _ Hsend). rewrite Hout in Hserver.
  destruct (fake_daemon_answers response server l req) as (r & server' & Hf & Hr & Hd & Hrw & Hne & Ho);
    [|  |done..|].
  - rewrite Hserver, <- (app_nil_r (frame_bytes l)). apply message_frame; auto.
  - rewrite Hserver. apply Forall_app. split; [by apply wf_to_be_bytes | done].
  - split; [by eexists|]. apply (send_command_answered client cmd req r response []); auto.
    by rewrite (Hclient _ Hf), Ho, app_nil_r.
Qed.

(** A test connects to [path], where the fake daemon serves [response] to the
    client's [req]; both messages are shorter than 2^32 bytes. *)
Definition set_up (connect : string → result T (IoError T)) (name : string) (req : DaemonRequest)
    (response : DaemonResponse) : Prop :=
  ∃ client server, connect (test_socket_path name) = Ok client ∧ connected req response client server ∧
    (∀ l, to_vec_request req = Ok l → Z.of_nat (length l) < 2 ^ 32) ∧
    (∀ l, to_vec_response response = Ok l → Z.of_nat (length l) < 2 ^ 32).

Lemma set_up_passes connect name cmd req response :
  command_request cmd = Some req → wf_request req → set_up connect name req response →
  passes_ok (send_command (connect (test_socket_path name)) cmd) = true.
Proof.
  intros Hcmd Hwf (client & server & -> & Hconn & Hl1 & Hl2).
  by destruct (send_command_connected cmd req response client server Hcmd Hwf Hconn Hl1 Hl2) as [_ ->].
Qed.

(** C36: the unit tests.  The encoding of requests passes its test.  Against the fake
    daemon each client test passes, and the daemon's task answers without a
    panic; the test without a daemon sees an error.  The test of the clock is not
    about the program: it passes exactly when the wall clock, as a [u64], has not
    gone back between its two readings. *)
Theorem unit_tests_pass connect :
  test_daemon_request_serialization = true ∧
  (set_up connect "send_command_ok" (ReqBan "1.2.3.4" (Some 5)) RespOk →
     test_send_command_ok connect = true) ∧
  (set_up connect "send_command_list" ReqList (RespList ["1.2.3.4"%string]) →
     test_send_command_list connect = true) ∧
  (set_up connect "send_command_state" ReqStats (RespStats "ok") →
     test_send_command_stats connect = true) ∧
  (set_up connect "send_command_error_variant" (ReqUnban "1.2.3.4") (RespError "fail") →
     test_send_command_error_variant connect = true) ∧
  (is_ok (connect (test_socket_path "send_command_connect_fail")) = false →
     test_send_command_connection_fail connect = true) ∧
  (∀ a b, test_boot_time_monotonic_behavior a b = true ↔
     wrap 64 (default 0 a) ≤ wrap 64 (default 0 b)).
Proof.
  split_and!.
  - unfold test_daemon_request_serialization.
    destruct (request_roundtrip (ReqBan "1.2.3.4" (Some 10))) as (b & -> & -> & _); [simpl; uint | done].
  - apply set_up_passes; [done | simpl; uint].
  - by apply set_up_passes.
  - by apply set_up_passes.
  - by apply set_up_passes.
  - unfold test_send_command_connection_fail. by destruct (connect _).
  - intros a b. apply Z.leb_le.
Qed.
End test_proofs.

(** ** The theorem at concrete inputs *)

Definition list_answer_demo : bytes := response_text (RespList ["1.2.3.4"%string]).

(** The client's end of the connection of [test_send_command_list]: what the fake
    daemon will write is already there. *)
Definition connect_demo (path : string) : result pipe (IoError pipe) :=
  if decide (path = test_socket_path "send_command_list")
  then Ok (open_pipe (frame_bytes list_answer_demo)) else Err ().

Lemma unit_tests_pass_witness :
  set_up connect_demo "send_command_list" ReqList (RespList ["1.2.3.4"%string]) ∧
  test_send_command_list connect_demo = true ∧ test_send_command_connection_fail connect_demo = true.
Proof.
  destruct (unit_tests_pass (T := pipe) connect_demo) as (_ & _ & Hlist & _ & _ & Hfail & _).
  assert (set_up connect_demo "send_command_list" ReqList (RespList ["1.2.3.4"%string])) as Hset.
  { exists (open_pipe (frame_bytes list_answer_demo)),
      (request_demo ReqList). split; [reflexivity|]. split.
    - unfold connected. split_and!; try reflexivity.
      + intros c Hc.
        assert (send_request (open_pipe (frame_bytes list_answer_demo)) ReqList = Some (Ok
          {| p_in := frame_bytes list_answer_demo; p_closed := false;
             p_out := frame_bytes (request_text ReqList); p_writable := true |})) as Hs by reflexivity.
        rewrite Hs in Hc. by injection Hc as <-.
      + intros c Hc.
        assert (fake_daemon (RespList ["1.2.3.4"%string]) (request_demo ReqList) = Next (Some
          {| p_in := []; p_closed := false; p_out := frame_bytes list_answer_demo; p_writable := true |}))
          as Hs by (vm_compute; reflexivity).
        rewrite Hs in Hc. by injection Hc as <-.
    - split; intros l [= <-]; vm_compute; reflexivity. }
  split; [exact Hset|]. split; [exact (Hlist Hset) | apply Hfail; reflexivity].
Defined.

(** The clock stepped back by a nanosecond between the readings. *)
Example boot_time_not_monotonic : test_boot_time_monotonic_behavior (Some 2) (Some 1) = false.
Proof. reflexivity. Qed.
