(* ===== verification/Build.v ===== *)
(** * The build scripts ([rustguard/build.rs], [rustguard-ebpf/build.rs])

    The build of the user side finds the package of the kernel side in cargo's
    metadata and builds it; the build of the kernel side asks cargo to watch the
    linker.  cargo, aya-build and the search of an executable are parameters. *)

From S2P Require Export Prelude Text.

(** ** The user side *)

(** The fields of [cargo_metadata::Package] the script uses. *)
Record Package := { name : string; manifest_path : string }.

(** [aya_build::Package]; the other fields have their defaults. *)
Record EbpfPackage := { ebpf_name : string; root_dir : string }.

Inductive BuildError (E : Type) :=
| MetadataCommand_exec (e : E)          (* the context of [exec] *)
| PackageNotFound                       (* "rustguard-ebpf package not found" *)
| NoParent (manifest_path : string)     (* "no parent for .." *)
| BuildEbpf (e : E).
Arguments MetadataCommand_exec {E} e.
Arguments PackageNotFound {E}.
Arguments NoParent {E} manifest_path.
Arguments BuildEbpf {E} e.

(** [Iterator::find]. *)
Fixpoint find {A} (p : A → bool) (l : list A) : option A :=
  match l with [] => None | x :: l => if p x then Some x else find p l end.

Section build.
Context {E : Type}.
(** [MetadataCommand::new().no_deps().exec()], [Utf8Path::parent], and
    [aya_build::build_ebpf(.., Toolchain::default())]. *)
Variable metadata : result (list Package) E.
Variable parent : string → option string.
Variable build_ebpf : list EbpfPackage → result () E.

(** The package to build. *)
Definition ebpf_package : result EbpfPackage (BuildError E) :=
  match metadata with
  | Err e => Err (MetadataCommand_exec e)
  | Ok packages =>
      match find (λ p, bool_decide (name p = "rustguard-ebpf"%string)) packages with
      | None => Err PackageNotFound
      | Some p =>
          match parent (manifest_path p) with
          | None => Err (NoParent (manifest_path p))
          | Some dir => Ok {| ebpf_name := name p; root_dir := dir |}
          end
      end
  end.

(** The packages it has aya-build build, and how it ends. *)
Definition build_main : list EbpfPackage * result () (BuildError E) :=
  match ebpf_package with
  | Err e => ([], Err e)
  | Ok p => ([p], map_err BuildEbpf (build_ebpf [p]))
  end.
End build.

(** ** The kernel side *)

(** [Path::to_str]: [None] when the path is not UTF-8. *)
Definition path_to_str (path : bytes) : option string :=
  if is_utf8 path then Some (string_of_bytes path) else None.

(** The line printed for cargo; [None] is a panic of one of the [unwrap]s. [which]
    is the search of an executable, a path being its bytes. *)
Definition ebpf_build_main {E} (which : string → result bytes E) : option string :=
  match which "bpf-linker"%string with
  | Err _ => None
  | Ok bpf_linker => s ← path_to_str bpf_linker; Some ("cargo:rerun-if-changed=" +:+ s)
  end.

(** ** Theorems *)

Lemma find_Some {A} (p : A → bool) l x :
  find p l = Some x ↔ ∃ l1 l2, l = l1 ++ x :: l2 ∧ p x = true ∧ Forall (λ y, p y = false) l1.
Proof.
  induction l as [|y l IH]; simpl.
  - split; [done|]. by intros ([|] & l2 & ? & _).
  - destruct (p y) eqn:Hy.
    + split; [intros [= ->]; by exists [], l|]. intros ([|z l1] & l2 & [= -> ->] & Hx & Hl); [done|].
      apply Forall_cons in Hl as [? _]. congruence.
    + rewrite IH. split.
      * intros (l1 & l2 & -> & Hx & Hl). exists (y :: l1), l2. split_and!; [done..|]. by constructor.
      * intros ([|z l1] & l2 & [= -> ->] & Hx & Hl); [congruence|].
        apply Forall_cons in Hl as [_ ?]. eauto.
Qed.

(** The first package of a name. *)
Lemma find_name n packages p :
  find (λ p, bool_decide (name p = n)) packages = Some p ↔
  ∃ l1 l2, packages = l1 ++ p :: l2 ∧ name p = n ∧ Forall (λ q, name q ≠ n) l1.
Proof.
  rewrite find_Some. setoid_rewrite bool_decide_eq_true.
  assert (∀ l1, Forall (λ q, bool_decide (name q = n) = false) l1 ↔ Forall (λ q, name q ≠ n) l1) as Hl.
  { intros l1. apply Forall_iff. intros q. apply bool_decide_eq_false. }
  by setoid_rewrite Hl.
Qed.

Lemma utf8_check_complete fuel l : utf8 l → (length l ≤ fuel)%nat → utf8_check fuel l = true.
Proof.
  intros Hu. revert fuel. induction Hu as [|b r n Hn _ IH]; intros [|fuel] Hf; simpl in Hf; try done; [lia|].
  pose proof (utf8_next_bounds _ _ _ _ Hn). cbn [utf8_check]. rewrite Hn. cbn [andb].
  apply IH. rewrite length_drop. simpl. lia.
Qed.

(** C37: the build.  The build of the user side succeeds exactly when cargo lists a
    package "rustguard-ebpf" and the directory of the first such package builds;
    it builds that one and nothing else, and nothing at all when the metadata,
    the package or its directory is missing.  The build of the kernel side prints
    its one line exactly when the linker is found at a path that is UTF-8, and
    panics otherwise. *)
Theorem builds_the_ebpf_package {E} metadata parent (build_ebpf : list EbpfPackage → result () E)
    (which : string → result bytes E) :
  let b := build_main metadata parent build_ebpf in
  (b.2 = Ok () ↔
     ∃ l1 p l2 dir, metadata = Ok (l1 ++ p :: l2) ∧ name p = "rustguard-ebpf"%string ∧
       Forall (λ q, name q ≠ "rustguard-ebpf"%string) l1 ∧ parent (manifest_path p) = Some dir ∧
       b.1 = [{| ebpf_name := "rustguard-ebpf"; root_dir := dir |}] ∧
       build_ebpf b.1 = Ok ()) ∧
  (b.1 = [] ↔ (∃ e, b.2 = Err (MetadataCommand_exec e)) ∨ b.2 = Err PackageNotFound ∨
     ∃ path, b.2 = Err (NoParent path)) ∧
  (∀ s, ebpf_build_main which = Some s ↔
     ∃ path, which "bpf-linker"%string = Ok path ∧ utf8 path ∧
       s = "cargo:rerun-if-changed=" +:+ string_of_bytes path).
Proof.
  split_and!.
  - unfold build_main, ebpf_package. destruct metadata as [packages|e]; simpl;
      [|split; [done | by intros (? & ? & ? & ? & ? & _)]].
    destruct (find _ packages) as [p|] eqn:Hf; simpl.
    + pose proof Hf as (l1 & l2 & -> & Hp & Hl)%find_name.
      destruct (parent (manifest_path p)) as [dir|] eqn:Hdir; simpl; split; try done.
      * rewrite Hp. intros Hb. exists l1, p, l2, dir. split_and!; try done.
        by destruct (build_ebpf _) as [[]|].
      * rewrite Hp. intros (? & ? & ? & ? & _ & _ & _ & _ & _ & ->). done.
      * intros (l1' & p' & l2' & dir & [= Heq] & Hp' & Hl1' & Hd & _).
        assert (find (λ p, bool_decide (name p = "rustguard-ebpf"%string)) (l1 ++ p :: l2) = Some p') as Hf'
          by (apply find_name; eauto).
        by simplify_eq.
    + split; [done|]. intros (l1 & p & l2 & dir & [= ->] & Hp & Hl & _).
      rewrite (proj2 (find_name _ _ p)) in Hf; [done | eauto].
  - unfold build_main. destruct ebpf_package as [p|[e| |path|e]] eqn:Hp; simpl; try naive_solver.
    + split; [done|]. destruct (build_ebpf [p]); naive_solver.
    + exfalso. unfold ebpf_package in Hp. by repeat (case_match; simplify_eq).
  - intros s. unfold ebpf_build_main, path_to_str. destruct (which _) as [path|e]; [|naive_solver].
    destruct (is_utf8 path) eqn:Hu; simpl.
    + split; [intros [= <-]; eauto using utf8_check_sound | by intros (? & [= <-] & _ & ->)].
    + split; [done|]. intros (? & [= <-] & Hp & _). unfold is_utf8 in Hu.
      by rewrite utf8_check_complete in Hu.
Qed.

(** The workspace of this repository: the first package of that name is taken. *)
Example build_demo :
  build_main (E := ()) (Ok [{| name := "rustguard"; manifest_path := "/w/rustguard/Cargo.toml" |};
      {| name := "rustguard-ebpf"; manifest_path := "/w/rustguard-ebpf/Cargo.toml" |}])
    (λ _, Some "/w/rustguard-ebpf"%string) (λ _, Ok ()) =
  ([{| ebpf_name := "rustguard-ebpf"; root_dir := "/w/rustguard-ebpf" |}], Ok ()).
Proof. reflexivity. Qed.
